(* ===== verification/_CoqProject ===== *)
-Q . S2P
Prelude.v
Testing.v
Platform.v
CtArith.v
WideArith.v
CopyDispatch.v
Fixed.v
FixedText.v
Float64.v
FloatExact.v
Metering.v
Cpu.v
Types.v
Events.v
Book.v
MarketEngine.v
Registry.v
Polymarket.v
Binance.v
EndToEnd.v
Ring.v
Layout.v
CopyRing.v
Handles.v
RingHarness.v
SuiteMarket.v
Spsc.v
CopySpsc.v
SeqLock.v
Position.v
Orders.v
Queue.v
Strategy.v
Timer.v
Feed.v
FeedThread.v
Texts.v
Spawn.v
Pipeline.v
Harness.v
Bench.v
SuiteFixed.v
SuiteTypes.v
SuiteEvents.v
SuitePlatform.v
SuiteLayout.v
SuiteStrategy.v
SuiteRing.v
SuiteRegistry.v
SuiteDecoders.v
