(* ===== verification/Prelude.v ===== *)
(** * Mantis: a verification of the trading SDK

    Mantis is a Rust SDK for low-latency trading.  Frames from a venue are
    decoded into fixed-size hot events ([crates/polymarket], [crates/binance]);
    the events cross threads through single-producer single-consumer rings
    ([crates/queue]) and drive an engine that keeps one order book per
    instrument and reports changes of the best prices ([crates/market-state]);
    strategies track their orders, positions, exposure and place in the queue
    ([crates/strategy]).  Feed and timer threads bring the frames and ticks in
    ([crates/transport]), and a seqlock publishes single values
    ([crates/seqlock]).
    Underneath are decimal fixed-point numbers ([crates/fixed]), newtypes for
    ticks, lots and amounts ([crates/types]), the event model
    ([crates/events]), the instrument registry ([crates/registry]) and the
    platform helpers, with constant-time and extended-precision integers
    ([crates/platform]).

    ** Conventions

    A machine integer is a [Z] with its type [ity] named at each operation.
    Code that may panic returns an [outcome]; the plain operators go through
    [arith], which panics or wraps around according to the class
    [BuildProfile], so every theorem that does not fix a profile covers both
    debug and release builds.  [Result] is [result], [Option] is [option];
    fixed arrays are lists of the array's length with bounds-checked access
    ([index], [set_index]); hash maps are [gmap]s.  Methods that take
    [&mut self] return the new state beside their result.  Traits are type
    classes ([OrderBook], [IndexStrategy], [Instrumentation]) and what a client
    relies on is a class of laws ([OrderBookLaws], [StepWrap], [BatchWrap])
    that the implementations discharge; the feed callback is proved against
    [FrameDecoderLaws], which both decoders satisfy.  Third-party code is a
    parameter: the JSON deserialisers ([PolymarketJson], [BinanceJson]), the
    WebSocket and the network ([Socket], [Network]), the frame callback
    ([Callback]), criterion ([CriterionRun]), thread pinning ([Affinity]), the processor ([Cpuid]), the
    hardware counters ([Kperf], [PerfEvent]), the elementary functions ([Libm]).
    Binary64 arithmetic is that of [SpecFloat].

    ** Files

    - [Prelude]: machine integers, outcomes, results, rounding, the automation
      ([mlia], [mnia], [arith_step], [inv_bind], the hint databases [mantis]).
    - [Testing]: assertions and loops of the translated tests.
    - [Platform]: the power-of-ten table and the power-of-two helpers
      (numerics.rs, bithacks.rs).
    - [CtArith]: constant-time words, masks, selections, table lookup and
      division, on x86_64 and elsewhere (constant_time/).
    - [WideArith]: carry chains, widening products and three-limb accumulators
      (addcarry_subborrow.rs, extended_prec.rs).
    - [CopyDispatch]: the copy kernels and policies on a byte memory with bounds
      (copy_dispatch.rs, copy_policy.rs).
    - [Fixed]: [FixedI64<D>] and its arithmetic, with the 128-by-64-bit
      division of mul_div.rs as the code does it (fixed_i64.rs, arithmetic.rs,
      mul_div.rs, convert.rs).
    - [FixedText]: decimal parsing and printing, byte by byte (parse.rs,
      fmt.rs).
    - [Float64]: binary64 operations, conversions and the [Libm] parameter;
      [FloatExact]: where they are exact on integers, and quotients in [-1, 1].
    - [Metering]: cycle counters, hardware counters and the sample collector
      (metering/, rdtsc.rs, counters.rs, bench/src/measurement.rs).
    - [Cpu]: processor names and prefetch hints (cpudetect.rs,
      compiler_hints.rs).
    - [Types]: ticks, lots, signed lots, sides, identifiers, probabilities,
      amounts and instrument metadata (crates/types).
    - [Events]: flags, headers, payloads and the event constructors
      (crates/events).
    - [Book]: the order-book trait with its laws and the array book with its
      lazily refreshed best prices (book/mod.rs, book/array_book.rs).
    - [MarketEngine]: the market-state engine, generic in the book
      (state.rs, engine.rs); [book_imbalance] computes on IEEE binary64 values.
    - [Registry]: instruments, their indexes, and the rotation of Polymarket
      windows (crates/registry).
    - [Polymarket], [Binance]: the two decoders (market/decoder.rs, schema.rs;
      decoder.rs, schema.rs).
    - [EndToEnd]: decoders and engine together.
    - [Ring]: storage, slots, index strategies, instrumentation and the ring
      engine, run sequentially (crates/core, storage.rs, raw/, engine.rs).
    - [Layout]: the [repr(C)] layouts of events, rings and seqlock, padding, the
      bytes of an event, and the layout report (crates/layout, platform/src/pad.rs).
    - [CopyRing]: the ring for copied values and its two-chunk batches
      (copy_ring/).
    - [Handles]: direct and split handles over a shared engine, and the presets
      (handle.rs, presets.rs, copy_ring/).
    - [RingHarness], [Harness]: the property tests, model-checking proofs and
      differential tests of crates/verify, as functions of their inputs.
    - [Spsc]: the same [try_push] and [try_pop] as interleaved memory accesses
      of two threads, under release/acquire ordering with stale loads, vector
      clocks and a race check on every slot access.
    - [CopySpsc]: the copy ring's operations and batches in the same memory
      model, slot by slot.
    - [SeqLock]: [store] and [load] word by word, one writer and any number of
      readers, over a store buffer that drains in order (x86_64) or only as the
      [Release] stores demand (raw/seqlock.rs).
    - [Position], [Orders]: positions and profit, the order tracker, exposure
      (position.rs, order_tracker.rs, exposure.rs).
    - [Queue]: the queue-position estimator (queue.rs).
    - [Strategy]: order intents, risk limits, the context and trait of a
      strategy (intent.rs, risk.rs, context.rs, traits.rs).
    - [Timer]: interruptible sleeping and the timer thread (timer.rs, feed.rs).
    - [Feed]: backoff, the WebSocket connection, the reconnecting feed loop, the
      feed adapters and the liveness monitor (feed.rs, ws.rs, monitor.rs,
      polymarket/market.rs, binance/reference.rs).
    - [FeedThread]: the whole feed loop with connecting, reading, backing off
      and shutdown, and the handles of the threads (feed.rs, tuning.rs).
    - [Texts]: the [Display] and [Debug] texts of the newtypes, events, errors
      and instrument keys.
    - [Spawn]: the callback that decodes a frame and pushes its events, and its
      wiring to the transport (spawn.rs of both venues).
    - [Pipeline]: callback, ring and engine together.
    - [Bench]: the benchmark runner, criterion's result files and the reports
      (crates/bench).
    - [SuiteMarket], [SuiteFixed], [SuiteTypes], [SuiteEvents], [SuitePlatform],
      [SuiteLayout], [SuiteStrategy], [SuiteRing], [SuiteRegistry],
      [SuiteDecoders]: the unit tests of the crates, statement by statement.

    ** What is shown

    Fixed point (C1, C2, C7, C8): multiplication and division with
    either rounding are the exact rational result rounded, and [None] exactly
    when it does not fit (so are division by an integer and rescaling); the parser accepts
    exactly the decimals that fit the precision and the range, with their
    value; printing and parsing round-trip.

    Types and books (C9, C10, C12, C13): prices and quantities convert to
    whole ticks and lots, truncated, and back to multiples of the tick and lot
    size; the array book, cache included, is a
    map from prices to quantities under every sequence of operations; depth
    queries; the engine is one independent abstract instrument per slot, never
    panics, and over every stream of events reports what a watcher of each
    instrument reports who compares the best prices with those at its last look.

    Registry and decoders (C14, C15, C17 to C19, C31, C33): the registry's indexes stay
    sound under all operations and the tokens of windows that are bound resolve
    through window rotation, while those of windows brought along by [insert]
    never do ([inserted_window_unresolved]; [shared_token_is_lost] shows what
    happens when instruments share a token); the decoders are total, number
    their events consecutively and emit exactly what the frames denote.  A
    Binance ticker becomes the engine's top of book; a Polymarket snapshot does
    not survive the engine, because every event of the batch is flagged as the
    start of a snapshot (C19).

    Rings (C5, C20, C22 to C24, C27, C35): every sequential run is that of a
    bounded FIFO, batches included; no value is lost or dropped twice through
    the split handles, in whatever order these go; every concurrent
    interleaving, of the general ring and of the copy ring with its batches, is
    free of races and uninitialised reads, FIFO and bounded, and every call
    ends within a bound of its own steps.  A call of the copy ring, whatever
    runs between its accesses, takes the step of the FIFO on the queue as the
    store of the other index it saw left it; alone and with the newest stores,
    on the queue as it is.

    The whole way (C11): from frames through callback, ring and engine, the
    engine processes the decoded events in order, less those the full ring
    refused.

    Harnesses (C16): every test of crates/verify returns on every input; among
    them, the book imbalance of an engine lies in [-1, 1].

    Seqlock (C38, C39): under total store order no load returns a torn value,
    and a load ends once the writer is quiet.  With only the ordering the
    [Release] stores promise, a run with a torn read is exhibited
    ([release_only_torn_read]).

    Strategy (C3, C26, C28 to C30): the queue estimator keeps at most 64 resting
    orders with the quantity ahead of each, never negative, as a specification on
    a map says, whatever the elementary functions return; fills conserve the
    total profit at the fill price,
    up to the remainder of the entry-price division; the order tracker is the
    map of active orders as long as ended orders get no late events, and
    miscounts when they do; the worst-case position is the position after all
    open orders of the side filled, and bounds every set of fills.

    Transport (C6, C25, C32, C40): the monitor reports exactly the feeds whose
    counter stood still between two checks; the feed thread runs the
    reconnecting state machine, delivers the frames it reads, in order, and waits,
    by the clock, for delays that restart after every connection; once it is told
    to stop it ends within a sleeping chunk or with the network operation in
    progress, about whose duration nothing is assumed; the timer emits its
    schedule and stops after shutdown.  A wait whose deadline lies past the last
    instant panics, in both threads.

    Memory layout (C34, C37): an event is one 64-byte line and survives being
    copied byte by byte; the fields that different threads write in the rings
    and the seqlock never share a cache line.

    Platform (C4, C21, C36): the time-stamp counter measures an interval
    exactly until a product saturates; the copy policies copy the value and nothing
    else, inwards and outwards, except the SIMD policy of the vector targets at
    sizes 9 to 15; constant-time division, and as
    lemmas comparisons and selections, agree with their mathematical meaning, and
    the accumulators are exact modulo their size.

    Unit tests: the lemmas named [.._tests_pass] evaluate some 750 tests of the
    repository on these definitions, in both build profiles where they differ
    and, for the constant-time code, on both targets.  Tests that need threads,
    clocks, the values of the elementary functions or the compiler's own layouts
    are not among them.

    ** Bounds and fuel

    Loops over arrays are structural; the others carry a measure that is
    enough by construction: [drop_range] runs at most [length slots] rounds,
    [memchr_find_from] one round per position of the haystack,
    [find_symbol_from] one per mapping.  Theorems about sequences of operations
    quantify over all finite sequences.  The numeric bounds in statements are
    the code's own ranges, except where its products need room: the engine's
    micro price assumes quantities up to [2^46] lots and prices below [2^16]
    ticks (what the array book can store), the rings capacities up to [2^62]
    slots, and the position theorem amounts whose products fit in an [i64]
    ([in_budget]).  [interruptible_sleep] gets a round per 100 ms chunk and two more,
    which its lemma shows to be enough since a sleep lasts at least as long as
    asked; [timer_loop] is bounded by the number of iterations a statement
    speaks about (below [2^63], so that the [u64] counters do not overflow);
    runs of the feed loop are below [2^32] steps (so that [attempt] does not
    saturate) and those of the seqlock below [2^63] stores (so that the sequence
    number does not come round to an old value).  Time is a number of
    nanoseconds that only sleeping and the network operations advance; an
    instant has at most the seconds of an [i64] ([INSTANT_MAX], the range of the
    Unix clock), and adding a duration beyond that panics ([instant_add]).

    ** Not modelled

    System calls (thread creation, socket options), inline assembly other than
    the conditional moves, the running time of the constant-time routines,
    logging and terminal output, the texts of the WebSocket errors, the
    operand enumerations of the two assembler.rs, which nothing uses. *)

From stdpp Require Import base decidable list numbers option tactics strings.
From Stdlib Require Import ZArith Lia.

Declare Scope mantis_scope.
Delimit Scope mantis_scope with mantis.

#[local] Open Scope Z_scope.

(** * Machine integers *)

(** The integer types the sources use.  [usize] is [U64]: all supported
    targets (x86_64, aarch64) are 64-bit. *)
Inductive ity := I32 | I64 | I128 | U8 | U16 | U32 | U64 | U128.

Abbreviation USIZE := U64 (only parsing).

#[global] Instance ity_eq_dec : EqDecision ity.
Proof. solve_decision. Defined.

Definition bits (t : ity) : Z :=
  match t with
  | U8 => 8 | U16 => 16 | I32 | U32 => 32 | I64 | U64 => 64 | I128 | U128 => 128
  end.

Definition signed (t : ity) : bool :=
  match t with I32 | I64 | I128 => true | _ => false end.

Definition tmin (t : ity) : Z :=
  match t with
  | I32 => -2147483648
  | I64 => -9223372036854775808
  | I128 => -170141183460469231731687303715884105728
  | _ => 0
  end.

Definition tmax (t : ity) : Z :=
  match t with
  | U8 => 255
  | U16 => 65535
  | U32 => 4294967295
  | U64 => 18446744073709551615
  | U128 => 340282366920938463463374607431768211455
  | I32 => 2147483647
  | I64 => 9223372036854775807
  | I128 => 170141183460469231731687303715884105727
  end.

Definition in_range (t : ity) (z : Z) : Prop := tmin t <= z <= tmax t.

#[global] Instance in_range_dec t z : Decision (in_range t z).
Proof. unfold in_range. apply _. Defined.

(** Two's-complement wrap-around: Rust's [wrapping_*] operations and [as]
    casts. *)
Definition wrap (t : ity) (z : Z) : Z :=
  if signed t then (z - tmin t) mod 2 ^ bits t + tmin t else z mod 2 ^ bits t.

(** [i64::checked_*]: the mathematical result if it fits. *)
Definition checked (t : ity) (z : Z) : option Z :=
  if decide (in_range t z) then Some z else None.

(** [i64::saturating_*]. *)
Definition saturate (t : ity) (z : Z) : Z := Z.max (tmin t) (Z.min (tmax t) z).

(** Unfold the ranges in the context and call [lia]. *)
Ltac unfold_ranges := unfold in_range in *; cbn [tmin tmax] in *.
Ltac mlia := unfold_ranges; lia.
Ltac mnia := unfold_ranges; nia.

Section machine_integers.
Implicit Types (t : ity) (z : Z).

Lemma modulus_range t : 2 ^ bits t = tmax t - tmin t + 1.
Proof. by destruct t. Qed.

Lemma modulus_pos t : 0 < 2 ^ bits t.
Proof. by destruct t. Qed.

Lemma tmin_unsigned t : signed t = false -> tmin t = 0.
Proof. by destruct t. Qed.

Lemma wrap_spec t z : wrap t z = (z - tmin t) mod 2 ^ bits t + tmin t.
Proof.
  unfold wrap. destruct (signed t) eqn:E; [done|].
  rewrite (tmin_unsigned t E). by rewrite Z.sub_0_r, Z.add_0_r.
Qed.

Lemma wrap_in_range t z : in_range t (wrap t z).
Proof.
  rewrite wrap_spec. unfold in_range.
  pose proof (Z.mod_pos_bound (z - tmin t) _ (modulus_pos t)).
  rewrite modulus_range in *. lia.
Qed.

Lemma wrap_id t z : in_range t z -> wrap t z = z.
Proof.
  intros Hz. rewrite wrap_spec, Z.mod_small; [lia|].
  rewrite modulus_range. unfold in_range in Hz. lia.
Qed.

Lemma wrap_congr t z z' : z mod 2 ^ bits t = z' mod 2 ^ bits t -> wrap t z = wrap t z'.
Proof.
  intros E. rewrite !wrap_spec. f_equal.
  by rewrite Zminus_mod, E, <- Zminus_mod.
Qed.

Lemma wrap_add_multiple t z k : wrap t (z + k * 2 ^ bits t) = wrap t z.
Proof. apply wrap_congr, Z_mod_plus_full. Qed.

Lemma wrap_mod t z : wrap t z mod 2 ^ bits t = z mod 2 ^ bits t.
Proof.
  rewrite wrap_spec, Zplus_mod, Z.mod_mod, <- Zplus_mod by (pose proof (modulus_pos t); lia).
  f_equal. lia.
Qed.

Lemma wrap_unsigned t z : signed t = false -> wrap t z = z mod 2 ^ bits t.
Proof. unfold wrap. by intros ->. Qed.

Lemma checked_Some t z : in_range t z -> checked t z = Some z.
Proof. unfold checked. intros. by case_decide. Qed.

Lemma checked_None t z : ~ in_range t z -> checked t z = None.
Proof. unfold checked. intros. by case_decide. Qed.

Lemma checked_inv t z r : checked t z = Some r -> r = z /\ in_range t z.
Proof. unfold checked. case_decide; naive_solver. Qed.

Lemma saturate_in_range t z : in_range t (saturate t z).
Proof. unfold saturate, in_range. destruct t; cbn; lia. Qed.

Lemma saturate_id t z : in_range t z -> saturate t z = z.
Proof. unfold saturate, in_range. lia. Qed.
End machine_integers.

(** ** Bit fields *)

(** A value below [2^k] fills the low [k] bits left free by a shift. *)
Lemma lor_shifted_add a b k : 0 <= k -> 0 <= b < 2 ^ k -> Z.lor (a * 2 ^ k) b = a * 2 ^ k + b.
Proof.
  intros Hk Hb.
  assert (Z.land (a * 2 ^ k) b = 0) as Hl.
  { apply Z.bits_inj'. intros i Hi. rewrite Z.land_spec, Z.bits_0.
    destruct (decide (i < k)).
    - by rewrite Z.mul_pow2_bits_low by lia.
    - rewrite <- (Z.mod_small b (2 ^ k)) by done.
      rewrite Z.mod_pow2_bits_high by lia. apply andb_false_r. }
  by rewrite Z.add_nocarry_lxor, <- Z.lxor_lor by done.
Qed.

(** Truncating division of a value rounded to the nearest multiple, ties away
    from zero: the reference for the code's sign-aware bias. *)
Definition round_away (n d : Z) : Z :=
  Z.sgn n * Z.sgn d * ((2 * Z.abs n + Z.abs d) / (2 * Z.abs d)).

(** Adding half the divisor before a truncating division rounds to nearest. *)
Lemma half_bias_div n d : 0 <= n -> 0 < d -> (n + d / 2) / d = (2 * n + d) / (2 * d).
Proof.
  intros Hn Hd.
  apply (Z.div_unique_pos _ _ _ (2 * n + d - 2 * d * ((n + d / 2) / d))); [|ring].
  pose proof (Z.div_mod (n + d / 2) d ltac:(lia)).
  pose proof (Z.mod_pos_bound (n + d / 2) d Hd).
  pose proof (Z.div_mod d 2 ltac:(lia)). pose proof (Z.mod_pos_bound d 2 ltac:(lia)).
  nia.
Qed.

Lemma round_away_bias n d :
  d <> 0 ->
  Z.quot (if 0 <=? n then n + Z.quot (Z.abs d) 2 else n - Z.quot (Z.abs d) 2) d = round_away n d.
Proof.
  intros Hd. unfold round_away. rewrite Z.quot_div by done.
  rewrite Z.quot_div_nonneg by lia.
  pose proof (Z.div_pos (Z.abs d) 2 ltac:(lia) ltac:(lia)).
  rewrite <- half_bias_div by lia.
  destruct (Z.leb_spec 0 n).
  - replace (Z.abs (n + Z.abs d / 2)) with (Z.abs n + Z.abs d / 2) by lia.
    destruct (decide (n = 0)) as [->|].
    + pose proof (Z.div_lt (Z.abs d) 2 ltac:(lia) ltac:(lia)).
      rewrite (Z.div_small (Z.abs 0 + _)) by lia. lia.
    + do 2 f_equal. lia.
  - replace (Z.abs (n - Z.abs d / 2)) with (Z.abs n + Z.abs d / 2) by lia.
    do 2 f_equal. lia.
Qed.

Lemma round_away_cancel n d k : d <> 0 -> 0 < k -> round_away (n * k) (d * k) = round_away n d.
Proof.
  intros Hd Hk. unfold round_away. rewrite !Z.sgn_mul, !Z.abs_mul, (Z.sgn_pos k), (Z.abs_eq k) by lia.
  f_equal; [lia|].
  replace (2 * (Z.abs n * k) + Z.abs d * k) with ((2 * Z.abs n + Z.abs d) * k) by lia.
  replace (2 * (Z.abs d * k)) with ((2 * Z.abs d) * k) by lia.
  by rewrite Z.div_mul_cancel_r by lia.
Qed.

Lemma round_away_1 n : round_away n 1 = n.
Proof.
  unfold round_away. change (Z.abs 1) with 1. change (Z.sgn 1) with 1.
  replace ((2 * Z.abs n + 1) / (2 * 1)) with (Z.abs n); [by rewrite Z.mul_1_r, Z.mul_comm, Z.abs_sgn|].
  apply (Z.div_unique_pos _ _ _ 1); lia.
Qed.

(** The rounded quotient is within half a divisor of the exact one. *)
Lemma round_away_nearest n d : d <> 0 -> 2 * Z.abs (n - d * round_away n d) <= Z.abs d.
Proof.
  intros Hd. unfold round_away.
  set (q := (2 * Z.abs n + Z.abs d) / (2 * Z.abs d)).
  assert (2 * Z.abs n - Z.abs d <= 2 * Z.abs d * q <= 2 * Z.abs n + Z.abs d) as Hq.
  { pose proof (Z.div_mod (2 * Z.abs n + Z.abs d) (2 * Z.abs d) ltac:(lia)) as Hdm.
    pose proof (Z.mod_pos_bound (2 * Z.abs n + Z.abs d) (2 * Z.abs d) ltac:(lia)).
    fold q in Hdm. lia. }
  replace (d * (Z.sgn n * Z.sgn d * q)) with (Z.sgn n * (Z.abs d * q)) by (rewrite <- (Z.sgn_abs d); ring).
  destruct (Z.sgn_spec n) as [[? ->]|[[? ->]|[? ->]]]; nia.
Qed.

(** * Outcomes: values and panics *)

(** A Rust computation either returns a value or panics. *)
Inductive outcome (A : Type) : Type :=
| Ret (a : A)
| Panic.
Arguments Ret {A} _.
Arguments Panic {A}.

#[global] Instance outcome_ret : MRet outcome := fun A a => Ret a.
#[global] Instance outcome_bind : MBind outcome := fun A B f m =>
  match m with Ret a => f a | Panic => Panic end.
#[global] Instance outcome_fmap : FMap outcome := fun A B f m =>
  match m with Ret a => Ret (f a) | Panic => Panic end.
#[global] Instance outcome_eq_dec {A} `{EqDecision A} : EqDecision (outcome A).
Proof. solve_decision. Defined.

Lemma bind_Ret_inv {A B} (m : outcome A) (f : A -> outcome B) b :
  m ≫= f = Ret b -> exists a, m = Ret a /\ f a = Ret b.
Proof. destruct m; naive_solver. Qed.

Lemma fmap_Ret_inv {A B} (m : outcome A) (f : A -> B) b :
  f <$> m = Ret b -> exists a, m = Ret a /\ f a = b.
Proof. destruct m; cbn; naive_solver. Qed.

(** Rust's [Result]. *)
Inductive result (A E : Type) : Type :=
| Ok (a : A)
| Err (e : E).
Arguments Ok {A E} _.
Arguments Err {A E} _.

#[global] Instance result_eq_dec {A E} `{EqDecision A, EqDecision E} : EqDecision (result A E).
Proof. solve_decision. Defined.

(** The overflow behaviour of the plain operators [+], [-], [*] and unary [-]
    depends on the build profile: with [overflow-checks] (debug and test
    builds) they panic, without (release and bench builds) they wrap. *)
Class BuildProfile := overflow_checks : bool.

Definition debug_profile : BuildProfile := true.
Definition release_profile : BuildProfile := false.

(** A plain operator whose mathematical result is [z], at type [t]. *)
Definition arith `{BuildProfile} (t : ity) (z : Z) : outcome Z :=
  if decide (in_range t z) then Ret z
  else if overflow_checks then Panic else Ret (wrap t z).

(** [a / b] and [a % b] panic on a zero divisor and on [MIN / -1] in every
    profile. *)
Definition div_op (t : ity) (a b : Z) : outcome Z :=
  if decide (b = 0) then Panic
  else if decide (in_range t (Z.quot a b)) then Ret (Z.quot a b) else Panic.

Definition rem_op (t : ity) (a b : Z) : outcome Z :=
  if decide (b = 0) then Panic
  else if decide (in_range t (Z.quot a b)) then Ret (Z.rem a b) else Panic.

(** Slice indexing, with its bounds check. *)
Definition index {A} (l : list A) (i : nat) : outcome A :=
  match l !! i with Some x => Ret x | None => Panic end.

Definition set_index {A} (l : list A) (i : nat) (x : A) : outcome (list A) :=
  if decide (i < length l)%nat then Ret (<[i:=x]> l) else Panic.

Section outcomes.
Context `{BuildProfile}.

Lemma arith_ok t z : in_range t z -> arith t z = Ret z.
Proof. unfold arith. intros. by case_decide. Qed.

Lemma arith_cases t z :
  (in_range t z /\ arith t z = Ret z) \/
  (~ in_range t z /\ arith t z = if overflow_checks then Panic else Ret (wrap t z)).
Proof. unfold arith. case_decide; auto. Qed.

Lemma arith_in_range t z r : arith t z = Ret r -> in_range t r.
Proof.
  destruct (arith_cases t z) as [[? ->]|[? ->]]; [by intros [= <-]|].
  destruct overflow_checks; [done|]. intros [= <-]. apply wrap_in_range.
Qed.

Lemma div_op_ok t a b : b <> 0 -> in_range t (Z.quot a b) -> div_op t a b = Ret (Z.quot a b).
Proof. unfold div_op. intros. by repeat case_decide. Qed.

Lemma rem_op_ok t a b : b <> 0 -> in_range t (Z.quot a b) -> rem_op t a b = Ret (Z.rem a b).
Proof. unfold rem_op. intros. by repeat case_decide. Qed.

Lemma udiv_op_ok t a b : tmin t = 0 -> in_range t a -> 0 < b -> div_op t a b = Ret (a / b).
Proof.
  unfold in_range. intros Ht Ha Hb. rewrite Ht in Ha.
  assert (a / b <= a) by (apply Z.div_le_upper_bound; nia).
  pose proof (Z.div_pos a b ltac:(lia) Hb).
  rewrite <- Z.quot_div_nonneg in * by lia.
  rewrite div_op_ok; [done|lia|unfold in_range; lia].
Qed.

Lemma urem_op_ok t a b : tmin t = 0 -> in_range t a -> 0 < b -> rem_op t a b = Ret (a mod b).
Proof.
  unfold in_range. intros Ht Ha Hb. rewrite Ht in Ha.
  assert (a / b <= a) by (apply Z.div_le_upper_bound; nia).
  pose proof (Z.div_pos a b ltac:(lia) Hb).
  rewrite <- Z.quot_div_nonneg in * by lia.
  rewrite rem_op_ok, Z.rem_mod_nonneg; [done|lia|lia|lia|unfold in_range; lia].
Qed.

Lemma index_ok {A} (l : list A) i x : l !! i = Some x -> index l i = Ret x.
Proof. unfold index. by intros ->. Qed.

Lemma set_index_ok {A} (l : list A) i x : (i < length l)%nat -> set_index l i x = Ret (<[i:=x]> l).
Proof. unfold set_index. intros. by case_decide. Qed.
End outcomes.

(** * Automation *)

Create HintDb mantis.
Create Rewrite HintDb mantis.
#[export] Hint Resolve wrap_in_range saturate_in_range arith_in_range : mantis.
#[export] Hint Rewrite @checked_Some @wrap_id @saturate_id using (mlia) : mantis.

(** Discharge the range side condition of each machine operation in the goal
    and continue with its mathematical result. *)
Ltac arith_step :=
  match goal with
  | |- context [arith ?t ?z] => rewrite (arith_ok t z) by mlia; cbn [mbind outcome_bind fmap outcome_fmap]
  | |- context [checked ?t ?z] => rewrite (checked_Some t z) by mlia
  | |- context [wrap ?t ?z] => rewrite (wrap_id t z) by mlia
  end.

Ltac inv_bind H :=
  let x := fresh "x" in let E := fresh "E" in
  apply bind_Ret_inv in H as (x & E & H).
