(* ===== verification/Testing.v ===== *)
(** * Running the repository's tests

    What the test harnesses ([RingHarness], [Harness]) and the unit-test suites
    ([SuiteMarket], [SuiteFixed], ...) share: assertions, loops, [expect].  A
    failed assertion is [Panic]. *)

From Stdlib Require Import ZArith.
From stdpp Require Import base decidable numbers option tactics list.
From S2P Require Import Prelude.

#[global] Instance result_eq_dec {A E} `{EqDecision A} `{EqDecision E} : EqDecision (result A E).
Proof. solve_decision. Defined.

(** [assert!], [assert_eq!], [assert_ne!]. *)
Definition assert_ (b : bool) : outcome unit := if b then Ret tt else Panic.
Definition assert_eq {A} `{EqDecision A} (x y : A) : outcome unit := assert_ (bool_decide (x = y)).
Definition assert_ne {A} `{EqDecision A} (x y : A) : outcome unit := assert_ (bool_decide (x <> y)).

(** A [for] loop that threads the locals it changes. *)
Fixpoint for_each {S X : Type} (body : S -> X -> outcome S) (s : S) (xs : list X) : outcome S :=
  match xs with [] => Ret s | x :: xs => s' ← body s x; for_each body s' xs end.

Definition is_ok {A E} (r : result A E) : bool := match r with Ok _ => true | Err _ => false end.
Definition is_err {A E} (r : result A E) : bool := negb (is_ok r).
Definition is_some {A} (o : option A) : bool := match o with Some _ => true | None => false end.
Definition is_none {A} (o : option A) : bool := negb (is_some o).

Definition ok_of {A E} (r : result A E) : option A := match r with Ok a => Some a | Err _ => None end.
Definition err_of {A E} (r : result A E) : option E := match r with Ok _ => None | Err e => Some e end.

(** [&l[a..b]]. *)
Definition sub_slice {A} (l : list A) (a b : Z) : outcome (list A) :=
  if decide (0 <= a <= b /\ b <= Z.of_nat (length l))%Z then Ret (take (Z.to_nat (b - a)) (drop (Z.to_nat a) l)) else Panic.

(** [expect] and [unwrap] of an option and of a result. *)
Definition expect {A} (o : option A) : outcome A := match o with Some a => Ret a | None => Panic end.
Definition expect_ok {A E} (r : result A E) : outcome A := match r with Ok a => Ret a | Err _ => Panic end.

(** [#[should_panic]]. *)
Definition should_panic (o : outcome unit) : outcome unit := match o with Panic => Ret tt | Ret _ => Panic end.

(** A test as a list of steps from a start state. *)
Definition run_test {S} (start : outcome S) (steps : list (S -> outcome S)) : outcome unit :=
  s ← start; _ ← for_each (fun s step => step s) s steps; Ret tt.

(** An assertion about the state. *)
Definition holds_that {S} (p : S -> outcome bool) : S -> outcome S := fun s => b ← p s; _ ← assert_ b; Ret s.

(** [contains] and [begins_with] of a text. *)
Fixpoint begins_with (s p : list Z) : bool :=
  match p, s with
  | [], _ => true
  | b :: p, c :: s => (b =? c)%Z && begins_with s p
  | _ :: _, [] => false
  end.
Fixpoint contains (s p : list Z) : bool :=
  begins_with s p || match s with [] => false | _ :: s => contains s p end.
