(* ===== verification/Platform.v ===== *)
(** * Platform helpers ([crates/platform])

    The power-of-ten table of [numerics.rs] that the fixed-point engine scales
    with, and the power-of-two helpers of [bithacks.rs] that the ring storage
    relies on. *)

From stdpp Require Import base decidable list numbers option tactics.
From Stdlib Require Import ZArith Lia.
From S2P Require Import Prelude.

#[local] Open Scope Z_scope.

(** ** numerics.rs *)

Definition POW10_I64 : list Z :=
  [1; 10; 100; 1000; 10000; 100000; 1000000; 10000000; 100000000; 1000000000;
   10000000000; 100000000000; 1000000000000; 10000000000000; 100000000000000;
   1000000000000000; 10000000000000000; 100000000000000000; 1000000000000000000].

(** The accessor indexes the table, so it panics for [d > 18]. *)
Definition pow10_i64 (d : Z) : outcome Z := index POW10_I64 (Z.to_nat d).

(** ** bithacks.rs *)

Definition is_power_of_two (n : Z) : bool := (0 <? n) && (Z.land n (n - 1) =? 0).

(** [usize::next_power_of_two]: the smallest power of two that is at least
    [n]; past [2^63] it overflows like the plain operators do. *)
Definition next_power_of_two `{BuildProfile} (n : Z) : outcome Z :=
  if decide (n <= 9223372036854775808) then Ret (2 ^ Z.log2_up n)
  else if overflow_checks then Panic else Ret 0.

Definition leading_zeros (n : Z) : Z := if decide (n = 0) then 64 else 63 - Z.log2 n.

Definition log2_floor `{BuildProfile} (n : Z) : outcome Z :=
  if decide (0 < n) then arith U32 (63 - leading_zeros n) else Panic.

(** [usize::trailing_zeros]: the position of the lowest set bit, 64 for zero. *)
Definition trailing_zeros (n : Z) : Z := if decide (n = 0) then 64 else Z.log2 (Z.land n (- n)).

Definition round_up `{BuildProfile} (value alignment : Z) : outcome Z :=
  if is_power_of_two alignment then
    s ← arith USIZE (value + alignment);
    s1 ← arith USIZE (s - 1);
    a1 ← arith USIZE (alignment - 1);
    Ret (Z.land s1 (Z.lxor a1 (tmax USIZE)))
  else Panic.

Definition ceil_div_vartime `{BuildProfile} (a b : Z) : outcome Z :=
  if decide (0 < b) then
    let q := a / b in
    if decide (a mod b > 0) then arith USIZE (q + 1) else Ret q
  else Panic.

(** ** Lemmas *)

Definition valid_exp (d : Z) : Prop := 0 <= d <= 18.

Lemma POW10_lookup (d : Z) : valid_exp d -> POW10_I64 !! Z.to_nat d = Some (10 ^ d).
Proof.
  unfold valid_exp. intros Hd.
  assert (exists k : nat, (k < 19)%nat /\ d = Z.of_nat k) as (k & Hk & ->)
    by (exists (Z.to_nat d); lia).
  rewrite Nat2Z.id. do 19 (destruct k as [|k]; [reflexivity|]). lia.
Qed.

Lemma pow10_i64_ok d : valid_exp d -> pow10_i64 d = Ret (10 ^ d).
Proof. intros Hd. by apply index_ok, POW10_lookup. Qed.

Lemma pow10_bounds d : valid_exp d -> 1 <= 10 ^ d <= 1000000000000000000.
Proof.
  unfold valid_exp. intros Hd. change 1000000000000000000 with (10 ^ 18). split.
  - apply (Z.pow_le_mono_r 10 0); lia.
  - apply Z.pow_le_mono_r; lia.
Qed.

Lemma land_pred_pow2 k : 0 <= k -> Z.land (2 ^ k) (2 ^ k - 1) = 0.
Proof.
  intros Hk. replace (2 ^ k - 1) with (Z.ones k) by (rewrite Z.ones_equiv; lia).
  rewrite Z.land_ones, Z.mod_same by (try apply Z.pow_nonzero; lia). done.
Qed.

Lemma is_power_of_two_spec n : 0 < n -> is_power_of_two n = true <-> n = 2 ^ Z.log2 n.
Proof.
  intros Hn. unfold is_power_of_two. rewrite (proj2 (Z.ltb_lt 0 n) Hn). cbn [andb].
  rewrite Z.eqb_eq. pose proof (Z.log2_spec n Hn) as [Hlo Hhi]. pose proof (Z.log2_nonneg n).
  split; intros E.
  - destruct (decide (n = 2 ^ Z.log2 n)) as [|Hne]; [done|exfalso].
    assert (Z.testbit (Z.land n (n - 1)) (Z.log2 n) = true) as Hb.
    { rewrite Z.land_spec, Z.bit_log2 by done.
      replace (Z.log2 n) with (Z.log2 (n - 1)); [apply Z.bit_log2; lia|].
      apply Z.log2_unique; lia. }
    by rewrite E, Z.bits_0 in Hb.
  - rewrite E at 1 2. by apply land_pred_pow2.
Qed.

(** Masking off the low [k] bits rounds down to a multiple of [2^k]. *)
Lemma land_lnot_low x k :
  in_range USIZE x -> 0 <= k <= 63 ->
  Z.land x (Z.lxor (2 ^ k - 1) (tmax USIZE)) = x / 2 ^ k * 2 ^ k.
Proof.
  intros Hx Hk. rewrite <- Z.shiftr_div_pow2, <- Z.shiftl_mul_pow2 by lia.
  change (tmax USIZE) with (Z.ones 64).
  replace (2 ^ k - 1) with (Z.ones k) by (rewrite Z.ones_equiv; lia).
  apply Z.bits_inj'. intros i Hi.
  rewrite Z.land_spec, Z.lxor_spec, Z.shiftl_spec by done.
  destruct (decide (i < k)).
  - rewrite (Z.testbit_neg_r _ (i - k)) by lia.
    rewrite !Z.ones_spec_low by lia. by rewrite andb_false_r.
  - rewrite Z.shiftr_spec, (Z.ones_spec_high k) by lia. replace (i - k + k) with i by lia.
    destruct (decide (i < 64)).
    + rewrite Z.ones_spec_low by lia. by rewrite andb_true_r.
    + assert (Z.testbit x i = false) as ->; [|done].
      rewrite <- (Z.mod_small x (2 ^ 64)) by mlia. by apply Z.mod_pow2_bits_high; lia.
Qed.

(** [round_up] returns the least multiple of a power-of-two alignment that is
    not below the value, as long as the sum fits a [usize]. *)
Lemma round_up_least `{BuildProfile} value k :
  0 <= value -> 0 <= k <= 63 -> in_range USIZE (value + 2 ^ k) ->
  exists r, round_up value (2 ^ k) = Ret r /\ value <= r /\ (2 ^ k | r)
            /\ forall m, value <= m -> (2 ^ k | m) -> r <= m.
Proof.
  intros Hv Hk Hr. pose proof (Z.pow_pos_nonneg 2 k ltac:(lia) ltac:(lia)) as Hp.
  set (p := 2 ^ k) in *.
  exists ((value + p - 1) / p * p). split.
  - unfold round_up.
    assert (is_power_of_two p = true) as ->
      by (apply is_power_of_two_spec; [done|]; unfold p; by rewrite Z.log2_pow2 by lia).
    do 3 (rewrite arith_ok by mlia; cbn). f_equal. apply land_lnot_low; [mlia|done].
  - pose proof (Z.div_mod (value + p - 1) p ltac:(lia)).
    pose proof (Z.mod_pos_bound (value + p - 1) p Hp).
    split; [lia|]. split; [by exists ((value + p - 1) / p)|].
    intros m Hm [q ->].
    assert ((value + p - 1) / p < q + 1) by (apply Z.div_lt_upper_bound; lia). nia.
Qed.
