(* ===== verification/CtArith.v ===== *)
(** * Constant-time integers ([crates/platform/src/constant_time])

    [Ct<T>] and [CTBool<T>] (ct_types.rs), their operators and comparisons
    (ct_routines.rs), the multiplexers (multiplexers.rs) and the bit-by-bit
    division of a double word (ct_division.rs).  The routines only use bit
    operations and wrapping arithmetic; the theorems say that they compute the
    comparisons, selections and quotients they stand for.  A type parameter
    [T] is an index [t : ity] of the wrapper, one of the unsigned types the
    macros are instantiated at ([CtWidth]).  The code paths for x86_64 (inline
    assembly) and for the other targets are selected by [TargetArch]. *)

From Stdlib Require Import ZArith Lia Btauto.
From stdpp Require Import base decidable numbers option tactics list.
From S2P Require Import Prelude.

#[local] Open Scope Z_scope.

(** * Types (ct_types.rs) *)

(** The unsigned widths of [impl_ctbool!] and [impl_ct_ops!]. *)
Class CtWidth (t : ity) : Prop := ct_unsigned : signed t = false.

#[global] Instance ct_width_u8 : CtWidth U8. Proof. done. Qed.
#[global] Instance ct_width_u16 : CtWidth U16. Proof. done. Qed.
#[global] Instance ct_width_u32 : CtWidth U32. Proof. done. Qed.
#[global] Instance ct_width_u64 : CtWidth U64. Proof. done. Qed.

Record Ct (t : ity) : Type := MkCt { inner : Z }.
Arguments MkCt {t} _.
Arguments inner {t} _.

Record CTBool (t : ity) : Type := MkCTBool { ctb_ct : Ct t }.
Arguments MkCTBool {t} _.
Arguments ctb_ct {t} _.

Definition Carry : Type := Ct U8.
Definition Borrow : Type := Ct U8.

Definition ctrue {t} : CTBool t := MkCTBool (MkCt 1).
Definition cfalse {t} : CTBool t := MkCTBool (MkCt 0).
Definition ctb_inner {t} (b : CTBool t) : Z := inner (ctb_ct b).
Definition ctb_from {t} (b : bool) : CTBool t := MkCTBool (MkCt (Z.b2z b)).

(** * Operators (ct_routines.rs) *)

Definition ct_bitand {t} (x y : Ct t) : Ct t := MkCt (Z.land (inner x) (inner y)).
Definition ct_bitand_assign {t} (x rhs : Ct t) : Ct t := MkCt (Z.land (inner x) (inner rhs)).
Definition ct_bitor {t} (x y : Ct t) : Ct t := MkCt (Z.lor (inner x) (inner y)).
Definition ct_bitor_assign {t} (x rhs : Ct t) : Ct t := MkCt (Z.lor (inner x) (inner rhs)).
Definition ct_bitxor {t} (x y : Ct t) : Ct t := MkCt (Z.lxor (inner x) (inner y)).
Definition ct_bitxor_assign {t} (x rhs : Ct t) : Ct t := MkCt (Z.lxor (inner x) (inner rhs)).
Definition ct_not {t} (x : Ct t) : Ct t := MkCt (wrap t (Z.lnot (inner x))).
Definition ct_add {t} (x y : Ct t) : Ct t := MkCt (wrap t (inner x + inner y)).
Definition ct_add_assign {t} (x rhs : Ct t) : Ct t := MkCt (wrap t (inner x + inner rhs)).
Definition ct_sub {t} (x y : Ct t) : Ct t := MkCt (wrap t (inner x - inner y)).
Definition ct_sub_assign {t} (x rhs : Ct t) : Ct t := MkCt (wrap t (inner x - inner rhs)).
Definition ct_mul {t} (x y : Ct t) : Ct t := MkCt (wrap t (inner x * inner y)).
Definition ct_mul_assign {t} (x rhs : Ct t) : Ct t := MkCt (wrap t (inner x * inner rhs)).
Definition ct_neg {t} (x : Ct t) : Ct t := MkCt (wrap t (- inner x)).

(** [wrapping_shr] and [wrapping_shl] take the shift amount modulo the width. *)
Definition shift_amount (t : ity) (rhs : Z) : Z := Z.land rhs (bits t - 1).

Definition ct_shr {t} (x : Ct t) (rhs : Z) : Ct t :=
  MkCt (Z.shiftr (inner x) (shift_amount t rhs)).
Definition ct_shl {t} (x : Ct t) (rhs : Z) : Ct t :=
  MkCt (wrap t (Z.shiftl (inner x) (shift_amount t rhs))).

Declare Scope ct_scope.
Delimit Scope ct_scope with ct.
Notation "x & y" := (ct_bitand x y) (at level 40, left associativity) : ct_scope.
Notation "x ^^ y" := (ct_bitxor x y) (at level 45, left associativity) : ct_scope.
Notation "x || y" := (ct_bitor x y) : ct_scope.
Notation "x + y" := (ct_add x y) : ct_scope.
Notation "x - y" := (ct_sub x y) : ct_scope.
Notation "- x" := (ct_neg x) : ct_scope.
Notation "x << k" := (ct_shl x k) (at level 38, left associativity) : ct_scope.
Notation "x >> k" := (ct_shr x k) (at level 38, left associativity) : ct_scope.

(** Boolean operators; negation flips bit 0. *)
Definition ctb_bitand {t} (a b : CTBool t) : CTBool t := MkCTBool (ctb_ct a & ctb_ct b)%ct.
Definition ctb_bitor {t} (a b : CTBool t) : CTBool t := MkCTBool (ctb_ct a || ctb_ct b)%ct.
Definition ctb_bitxor {t} (a b : CTBool t) : CTBool t := MkCTBool (ctb_ct a ^^ ctb_ct b)%ct.
Definition ctb_not {t} (a : CTBool t) : CTBool t := MkCTBool (ctb_ct a ^^ ctb_ct ctrue)%ct.

Definition is_msb_set {t} (x : Ct t) : CTBool t := MkCTBool (x >> (bits t - 1))%ct.

Definition ct_ne {t} (x other : Ct t) : CTBool t :=
  let z := (x ^^ other)%ct in
  is_msb_set (z || (- z))%ct.

Definition ct_eq {t} (x other : Ct t) : CTBool t := ctb_not (ct_ne x other).

Definition ct_lt {t} (x y : Ct t) : CTBool t :=
  is_msb_set (x ^^ ((x ^^ y) || ((x - y) ^^ y)))%ct.

Definition ct_le {t} (x other : Ct t) : CTBool t := ctb_not (ct_lt other x).

Definition is_non_zero {t} (x : Ct t) : CTBool t := is_msb_set (x || (- x))%ct.
Definition is_zero {t} (x : Ct t) : CTBool t := ctb_not (is_non_zero x).

Definition cneg {t} (x : Ct t) (ctl : CTBool t) : Ct t :=
  let mask := (- ctb_ct ctl)%ct in
  ((x ^^ mask) + ctb_ct ctl)%ct.

(** * Multiplexers (multiplexers.rs) *)

(** [cfg(target_arch = "x86_64")]. *)
Class TargetArch := target_x86_64 : bool.

Definition mux_formula {t} (ctl : CTBool t) (x y : Ct t) : Ct t :=
  let mask := (- ctb_ct ctl)%ct in
  (y ^^ (mask & (x ^^ y)))%ct.

(** [test ctl, ctl] sets the zero flag when [ctl] is zero; [cmovz] and
    [cmovnz] move their source when the flag is set and clear. *)
Definition test_zf (ctl : Z) : bool := Z.land ctl ctl =? 0.
Definition cmovz (zf : bool) (dst src : Z) : Z := if zf then src else dst.
Definition cmovnz (zf : bool) (dst src : Z) : Z := if zf then dst else src.

Definition mux_asm {t} (ctl : CTBool t) (x y : Ct t) : Ct t :=
  MkCt (cmovz (test_zf (ctb_inner ctl)) (inner x) (inner y)).
Definition ccopy_asm {t} (ctl : CTBool t) (x y : Ct t) : Ct t :=
  MkCt (cmovnz (test_zf (ctb_inner ctl)) (inner x) (inner y)).

Section multiplexers.
Context `{TargetArch}.

Definition mux (ctl : CTBool U64) (x y : Ct U64) : Ct U64 :=
  if target_x86_64 then mux_asm ctl x y else mux_formula ctl x y.

Definition mux32 (ctl : CTBool U32) (x y : Ct U32) : Ct U32 :=
  if target_x86_64 then mux_asm ctl x y else mux_formula ctl x y.

Definition mux_usize (ctl : CTBool USIZE) (x y : Ct USIZE) : Ct USIZE := mux_formula ctl x y.

Definition mux_bool (ctl x y : CTBool U64) : CTBool U64 :=
  MkCTBool (mux ctl (ctb_ct x) (ctb_ct y)).
Definition mux_bool32 (ctl x y : CTBool U32) : CTBool U32 :=
  MkCTBool (mux32 ctl (ctb_ct x) (ctb_ct y)).
Definition mux_bool_usize (ctl x y : CTBool USIZE) : CTBool USIZE :=
  MkCTBool (mux_usize ctl (ctb_ct x) (ctb_ct y)).

(** The conditional copies return the new value of the [&mut] argument. *)
Definition ccopy (ctl : CTBool U64) (x y : Ct U64) : Ct U64 :=
  if target_x86_64 then ccopy_asm ctl x y else mux ctl y x.
Definition ccopy32 (ctl : CTBool U32) (x y : Ct U32) : Ct U32 :=
  if target_x86_64 then ccopy_asm ctl x y else mux32 ctl y x.
Definition ccopy_usize (ctl : CTBool USIZE) (x y : Ct USIZE) : Ct USIZE := mux_usize ctl y x.

(** The loop of [secret_lookup] over the entries from position [i]. *)
Fixpoint secret_lookup_from (i : Z) (table : list Z) (index : Ct USIZE) (val : Ct U64) : Ct U64 :=
  match table with
  | [] => val
  | entry :: rest =>
      let selector := ct_eq (MkCt i) index in
      let sel64 := MkCTBool (MkCt (wrap U64 (ctb_inner selector))) in
      secret_lookup_from (i + 1) rest index (ccopy sel64 val (MkCt entry))
  end.

Definition secret_lookup (table : list Z) (index : Ct USIZE) : Ct U64 :=
  secret_lookup_from 0 table index (MkCt 0).
End multiplexers.

(** * Division (ct_division.rs) *)

(** The state of the loop: the numerator's two words and the quotient. *)
Record div_state (t : ity) := DivState { dv_hi : Ct t; dv_lo : Ct t; dv_q : Ct t }.
Arguments DivState {t} _ _ _.
Arguments dv_hi {t} _.
Arguments dv_lo {t} _.
Arguments dv_q {t} _.

(** The two functions are the same text at two widths with the multiplexer of
    the width, which is an argument here. *)
Section division.
Context {t : ity} (mux_t : CTBool t -> Ct t -> Ct t -> Ct t).

(** One iteration of the loop, at bit [k]. *)
Definition div2n1n_step (d : Ct t) (k : Z) (s : div_state t) : div_state t :=
  let j := bits t - k in
  let hi := dv_hi s in
  let lo := dv_lo s in
  let w := ((hi << j) || (lo >> k))%ct in
  let w_ge_d := ctb_not (ct_lt w d) in
  let hi_bit := is_non_zero (hi >> k)%ct in
  let ctl := ctb_bitor w_ge_d hi_bit in
  let hi2 := ((w - d) >> j)%ct in
  let lo2 := (lo - (d << k))%ct in
  DivState (mux_t ctl hi2 hi) (mux_t ctl lo2 lo)
    (ct_bitor_assign (dv_q s) (MkCt (ctb_inner ctl) << k)%ct).

(** [for k in (1..BITS).rev()]: bits [k], ..., [1]. *)
Fixpoint div2n1n_loop (d : Ct t) (k : nat) (s : div_state t) : div_state t :=
  match k with
  | O => s
  | S k' => div2n1n_loop d k' (div2n1n_step d (Z.of_nat k) s)
  end.

Definition div2n1n_at (n_hi n_lo d : Ct t) : Ct t * Ct t :=
  let hi_eq_d := ct_eq n_hi d in
  let hi := mux_t hi_eq_d (MkCt 0) n_hi in
  let s := div2n1n_loop d (Z.to_nat (bits t - 1)) (DivState hi n_lo (MkCt 0)) in
  let carry := ctb_bitor (ctb_not (ct_lt (dv_lo s) d)) (is_non_zero (dv_hi s)) in
  let q := ct_bitor_assign (dv_q s) (MkCt (ctb_inner carry)) in
  let r := mux_t carry (dv_lo s - d)%ct (dv_lo s) in
  (q, r).
End division.

Definition div2n1n `{TargetArch} : Ct U64 -> Ct U64 -> Ct U64 -> Ct U64 * Ct U64 :=
  div2n1n_at mux.
Definition div2n1n_u32 `{TargetArch} : Ct U32 -> Ct U32 -> Ct U32 -> Ct U32 * Ct U32 :=
  div2n1n_at mux32.

(** * Bits of words *)

Lemma high_bits n z i : 0 <= n -> 0 <= z < 2 ^ n -> n <= i -> Z.testbit z i = false.
Proof. intros Hn Hz Hi. rewrite <- (Z.mod_small z (2 ^ n)) by done. apply Z.mod_pow2_bits_high. lia. Qed.

Lemma below_pow2 n z : 0 <= n -> (forall i, n <= i -> Z.testbit z i = false) -> 0 <= z < 2 ^ n.
Proof.
  intros Hn Hhigh. replace z with (z mod 2 ^ n); [apply Z.mod_pos_bound; lia|].
  apply Z.bits_inj'. intros i Hi. destruct (decide (i < n)).
  - by rewrite Z.mod_pow2_bits_low by lia.
  - rewrite Z.mod_pow2_bits_high by lia. symmetry. apply Hhigh. lia.
Qed.

(** A bitwise combination of words is a word. *)
Lemma bitwise_word n (op : Z -> Z -> Z) (f : bool -> bool -> bool) a b :
  0 <= n -> (forall x y i, Z.testbit (op x y) i = f (Z.testbit x i) (Z.testbit y i)) ->
  f false false = false ->
  0 <= a < 2 ^ n -> 0 <= b < 2 ^ n -> 0 <= op a b < 2 ^ n.
Proof.
  intros Hn Hop Hf Ha Hb. apply below_pow2; [done|]. intros i Hi.
  by rewrite Hop, (high_bits n a), (high_bits n b).
Qed.

Lemma msb_testbit n z : 0 < n -> 0 <= z < 2 ^ n -> Z.testbit z (n - 1) = (2 ^ (n - 1) <=? z).
Proof.
  intros Hn Hz. replace (2 ^ n) with (2 * 2 ^ (n - 1)) in Hz
    by (rewrite <- Z.pow_succ_r by lia; f_equal; lia).
  destruct (Z.leb_spec (2 ^ (n - 1)) z).
  - apply Z.testbit_true; [lia|]. replace (z / 2 ^ (n - 1)) with 1; [done|].
    apply (Z.div_unique_pos _ _ _ (z - 2 ^ (n - 1))); lia.
  - apply Z.testbit_false; [lia|]. by rewrite Z.div_small by lia.
Qed.

Lemma lnot_word n z : 0 <= n -> Z.lnot z mod 2 ^ n = 2 ^ n - 1 - z mod 2 ^ n.
Proof.
  intros Hn. pose proof (Z.mod_pos_bound z (2 ^ n) ltac:(lia)).
  symmetry. apply (Z.mod_unique_pos _ _ (- (z / 2 ^ n) - 1)); [lia|].
  pose proof (Z.div_mod z (2 ^ n) ltac:(lia)). unfold Z.lnot. lia.
Qed.

Lemma lor_low_shifted a b k : 0 <= k -> 0 <= a < 2 ^ k -> Z.lor a (b * 2 ^ k) = a + b * 2 ^ k.
Proof. intros. by rewrite Z.lor_comm, lor_shifted_add, Z.add_comm by lia. Qed.

(** * Comparisons and booleans *)

Definition ct_wf {t} (x : Ct t) : Prop := in_range t (inner x).

#[global] Instance ct_wf_dec {t} (x : Ct t) : Decision (ct_wf x).
Proof. unfold ct_wf. apply _. Defined.

Section ct_theory.
Context {t : ity} `{!CtWidth t}.
Implicit Types x y : Ct t.

Lemma bits_pos : 8 <= bits t.
Proof. by destruct t. Qed.

Lemma word_range z : in_range t z <-> 0 <= z < 2 ^ bits t.
Proof. unfold in_range. rewrite modulus_range, (tmin_unsigned t) by done. lia. Qed.

Lemma wrap_word z : wrap t z = z mod 2 ^ bits t.
Proof. by apply wrap_unsigned. Qed.

Lemma shift_amount_small k : 0 <= k < bits t -> shift_amount t k = k.
Proof.
  intros Hk. unfold shift_amount.
  assert (exists m, 0 <= m /\ bits t = 2 ^ m) as (m & Hm & E).
  { destruct t; cbn [bits];
      [exists 5|exists 6|exists 7|exists 3|exists 4|exists 5|exists 6|exists 7]; done. }
  rewrite E in *. rewrite Z.sub_1_r, <- Z.ones_equiv, Z.land_ones by done. by apply Z.mod_small.
Qed.

Lemma ct_lor_wf x y : ct_wf x -> ct_wf y -> ct_wf (ct_bitor x y).
Proof.
  unfold ct_wf. rewrite !word_range. intros. pose proof bits_pos.
  apply (bitwise_word _ Z.lor orb); [lia|apply Z.lor_spec|done..].
Qed.

Lemma ct_lxor_wf x y : ct_wf x -> ct_wf y -> ct_wf (ct_bitxor x y).
Proof.
  unfold ct_wf. rewrite !word_range. intros. pose proof bits_pos.
  apply (bitwise_word _ Z.lxor xorb); [lia|apply Z.lxor_spec|done..].
Qed.

Lemma ct_land_wf x y : ct_wf x -> ct_wf y -> ct_wf (ct_bitand x y).
Proof.
  unfold ct_wf. rewrite !word_range. intros. pose proof bits_pos.
  apply (bitwise_word _ Z.land andb); [lia|apply Z.land_spec|done..].
Qed.

Lemma ct_wrap_wf z : ct_wf (t := t) (MkCt (wrap t z)).
Proof. apply wrap_in_range. Qed.

Lemma ct_b2z_wf b : ct_wf (t := t) (MkCt (Z.b2z b)).
Proof. unfold ct_wf. rewrite word_range. cbn. pose proof bits_pos.
  assert (2 ^ 8 <= 2 ^ bits t) by (apply Z.pow_le_mono_r; lia). destruct b; cbn in *; lia. Qed.

Lemma ct_shr_word x k : 0 <= k < bits t -> (x >> k)%ct = MkCt (inner x / 2 ^ k).
Proof. intros. unfold ct_shr. by rewrite shift_amount_small, Z.shiftr_div_pow2 by lia. Qed.

Lemma ct_shr_wf x k : 0 <= k < bits t -> ct_wf x -> ct_wf (x >> k)%ct.
Proof.
  intros Hk. rewrite ct_shr_word by done. unfold ct_wf. rewrite !word_range. cbn [inner]. intros Hx.
  assert (0 < 2 ^ k) by (apply Z.pow_pos_nonneg; lia).
  split; [apply Z.div_pos; lia|apply Z.div_lt_upper_bound; nia].
Qed.

Lemma ct_shl_word x k : 0 <= k < bits t -> (x << k)%ct = MkCt ((inner x * 2 ^ k) mod 2 ^ bits t).
Proof. intros. unfold ct_shl. by rewrite shift_amount_small, Z.shiftl_mul_pow2, wrap_word by lia. Qed.

Lemma half_modulus : 2 ^ bits t = 2 * 2 ^ (bits t - 1).
Proof. pose proof bits_pos. rewrite <- Z.pow_succ_r by lia. f_equal. lia. Qed.

Lemma is_msb_set_testbit x : ct_wf x -> is_msb_set x = ctb_from (Z.testbit (inner x) (bits t - 1)).
Proof.
  unfold ct_wf. rewrite word_range. intros Hx. pose proof bits_pos.
  unfold is_msb_set, ctb_from. rewrite ct_shr_word by lia. do 2 f_equal.
  rewrite (Z.testbit_spec' (inner x)) by lia. symmetry. apply Z.mod_small. split.
  - apply Z.div_pos; lia.
  - rewrite half_modulus in Hx. apply Z.div_lt_upper_bound; lia.
Qed.

Lemma msb_word z : 0 <= z < 2 ^ bits t -> Z.testbit z (bits t - 1) = (2 ^ (bits t - 1) <=? z).
Proof. intros. apply msb_testbit; [pose proof bits_pos; lia|done]. Qed.

Lemma ctb_not_from b : ctb_not (t := t) (ctb_from b) = ctb_from (negb b).
Proof. by destruct b. Qed.
Lemma ctb_or_from a b : ctb_bitor (t := t) (ctb_from a) (ctb_from b) = ctb_from (a || b).
Proof. by destruct a, b. Qed.

Lemma is_non_zero_from x : ct_wf x -> is_non_zero x = ctb_from (negb (inner x =? 0)).
Proof.
  intros Hx. unfold is_non_zero. rewrite is_msb_set_testbit.
  2: by apply ct_lor_wf; [|apply ct_wrap_wf].
  f_equal. unfold ct_wf in Hx. rewrite word_range in Hx. cbn [inner ct_bitor ct_neg].
  rewrite Z.lor_spec, wrap_word, !msb_word, half_modulus
    by (done || apply Z.mod_pos_bound, modulus_pos).
  rewrite half_modulus in Hx. set (h := 2 ^ (bits t - 1)) in *.
  destruct (Z.eqb_spec (inner x) 0) as [->|Hne].
  - rewrite Z.mod_0_l by lia. cbn. destruct (Z.leb_spec h 0); [lia|done].
  - replace (- inner x mod (2 * h)) with (2 * h - inner x); [|apply (Z.mod_unique_pos _ _ (-1)); lia].
    destruct (Z.leb_spec h (inner x)), (Z.leb_spec h (2 * h - inner x)); cbn; lia || done.
Qed.

Lemma ct_ne_from x y : ct_wf x -> ct_wf y -> ct_ne x y = ctb_from (negb (inner x =? inner y)).
Proof.
  intros Hx Hy. change (ct_ne x y) with (is_non_zero (x ^^ y)%ct).
  rewrite is_non_zero_from by by apply ct_lxor_wf. f_equal. f_equal. cbn.
  destruct (Z.eqb_spec (Z.lxor (inner x) (inner y)) 0) as [E|E], (Z.eqb_spec (inner x) (inner y)) as [E'|E'];
    try done.
  - by apply Z.lxor_eq in E.
  - by rewrite E', Z.lxor_nilpotent in E.
Qed.

Lemma ct_eq_from x y : ct_wf x -> ct_wf y -> ct_eq x y = ctb_from (inner x =? inner y).
Proof. intros. unfold ct_eq. by rewrite ct_ne_from, ctb_not_from, negb_involutive. Qed.

Lemma ct_lt_from x y : ct_wf x -> ct_wf y -> ct_lt x y = ctb_from (inner x <? inner y).
Proof.
  intros Hx Hy. unfold ct_lt. rewrite is_msb_set_testbit.
  2: by repeat (apply ct_lxor_wf || apply ct_lor_wf || apply ct_wrap_wf).
  f_equal. unfold ct_wf in Hx, Hy. rewrite word_range in Hx, Hy.
  cbn [inner ct_bitor ct_bitxor ct_sub].
  rewrite !Z.lxor_spec, Z.lor_spec, !Z.lxor_spec, wrap_word, !msb_word, half_modulus
    by (done || apply Z.mod_pos_bound, modulus_pos).
  rewrite half_modulus in Hx, Hy. set (h := 2 ^ (bits t - 1)) in *.
  assert ((inner x - inner y) mod (2 * h)
          = if inner x <? inner y then inner x - inner y + 2 * h else inner x - inner y) as ->.
  { symmetry. destruct (Z.ltb_spec (inner x) (inner y));
      [apply (Z.mod_unique_pos _ _ (-1))|apply (Z.mod_unique_pos _ _ 0)]; lia. }
  destruct (Z.ltb_spec (inner x) (inner y)), (Z.leb_spec h (inner x)), (Z.leb_spec h (inner y));
    match goal with |- context [h <=? ?e] => destruct (Z.leb_spec h e) end; cbn; lia || done.
Qed.

Lemma ct_le_from x y : ct_wf x -> ct_wf y -> ct_le x y = ctb_from (inner x <=? inner y).
Proof. intros. unfold ct_le. rewrite ct_lt_from, ctb_not_from, Z.leb_antisym by done. done. Qed.

Lemma is_zero_from x : ct_wf x -> is_zero x = ctb_from (inner x =? 0).
Proof. intros. unfold is_zero. by rewrite is_non_zero_from, ctb_not_from, negb_involutive. Qed.
End ct_theory.

(** * Selection *)

(** What the callers of a multiplexer rely on: it selects by its control. *)
Class Selects {t} (mux_t : CTBool t -> Ct t -> Ct t -> Ct t) : Prop :=
  selects b x y : ct_wf x -> ct_wf y -> mux_t (ctb_from b) x y = if b then x else y.

Lemma Ct_eta {t} (x : Ct t) : MkCt (inner x) = x.
Proof. by destruct x. Qed.

Lemma neg_mask {t} `{!CtWidth t} b :
  wrap t (- Z.b2z b) = if b then Z.ones (bits t) else 0.
Proof.
  pose proof (bits_pos (t := t)). rewrite wrap_word. destruct b; cbn [Z.b2z].
  - rewrite Z.ones_equiv. symmetry. apply (Z.mod_unique_pos _ _ (-1)); lia.
  - apply Z.mod_0_l. lia.
Qed.

#[global] Instance mux_formula_selects {t} `{!CtWidth t} : Selects (mux_formula (t := t)).
Proof.
  intros b x y Hx Hy. unfold mux_formula, ct_bitxor, ct_bitand, ct_neg. cbn [inner ctb_ct ctb_from].
  rewrite neg_mask. pose proof (ct_lxor_wf x y Hx Hy) as Hxy.
  unfold ct_wf in Hxy. rewrite word_range in Hxy. cbn [inner ct_bitxor] in Hxy.
  destruct b.
  - rewrite Z.land_comm, Z.land_ones, Z.mod_small by (pose proof (bits_pos (t := t)); lia || done).
    by rewrite (Z.lxor_comm (inner x)), <- Z.lxor_assoc, Z.lxor_nilpotent, Z.lxor_0_l, Ct_eta.
  - by rewrite Z.land_0_l, Z.lxor_0_r, Ct_eta.
Qed.

#[global] Instance mux_asm_selects {t} : Selects (mux_asm (t := t)).
Proof. intros b x y _ _. unfold mux_asm. destruct b; apply Ct_eta. Qed.

#[global] Instance mux_selects `{TargetArch} : Selects mux.
Proof. unfold mux. destruct target_x86_64; apply _. Qed.

#[global] Instance mux32_selects `{TargetArch} : Selects mux32.
Proof. unfold mux32. destruct target_x86_64; apply _. Qed.

Lemma ccopy_from `{TargetArch} b x y :
  ct_wf x -> ct_wf y -> ccopy (ctb_from b) x y = if b then y else x.
Proof.
  intros. unfold ccopy. destruct target_x86_64 eqn:E.
  - destruct b; apply Ct_eta.
  - by rewrite selects.
Qed.

Lemma ccopy32_from `{TargetArch} b x y :
  ct_wf x -> ct_wf y -> ccopy32 (ctb_from b) x y = if b then y else x.
Proof.
  intros. unfold ccopy32. destruct target_x86_64 eqn:E.
  - destruct b; apply Ct_eta.
  - by rewrite selects.
Qed.

Lemma cneg_from {t} `{!CtWidth t} (x : Ct t) b :
  ct_wf x -> cneg x (ctb_from b) = if b then ct_neg x else x.
Proof.
  intros Hx. unfold ct_wf in Hx. rewrite word_range in Hx. pose proof (bits_pos (t := t)).
  unfold cneg, ct_add, ct_neg, ct_bitxor. cbn [inner ctb_ct ctb_from]. rewrite neg_mask.
  destruct b; cbn [Z.b2z].
  - f_equal. rewrite !wrap_word.
    replace (Z.lxor (inner x) (Z.ones (bits t))) with (2 ^ bits t - 1 - inner x).
    { rewrite <- (Z_mod_plus_full (- inner x) 1). f_equal. lia. }
    rewrite <- (Z.mod_small (inner x) (2 ^ bits t)) at 1 by done.
    rewrite <- lnot_word by lia. symmetry. apply Z.bits_inj'. intros i Hi. rewrite Z.lxor_spec.
    destruct (decide (i < bits t)).
    + rewrite Z.ones_spec_low, Z.mod_pow2_bits_low, Z.lnot_spec by lia. apply xorb_true_r.
    + rewrite Z.ones_spec_high, Z.mod_pow2_bits_high, (high_bits (bits t)) by lia. done.
  - rewrite Z.lxor_0_r, Z.add_0_r, wrap_id by by apply word_range. apply Ct_eta.
Qed.

Lemma secret_lookup_from_ok `{TargetArch} table : forall i index val,
  0 <= i -> i + Z.of_nat (length table) <= 2 ^ 64 ->
  Forall (in_range U64) table -> ct_wf index -> ct_wf val ->
  secret_lookup_from i table index val =
  (if decide (i <= inner index < i + Z.of_nat (length table))
   then MkCt (nth (Z.to_nat (inner index - i)) table 0) else val).
Proof.
  induction table as [|e table IH]; intros i index val Hi Hlen Htab Hidx Hval.
  { cbn. case_decide; [lia|done]. }
  apply Forall_cons in Htab as [He Htab]. cbn [length] in *. cbn [secret_lookup_from].
  rewrite ct_eq_from by (done || apply word_range; cbn; lia). cbn [inner].
  rewrite (wrap_id U64) by (destruct (i =? inner index); by cbv).
  change (MkCTBool _) with (ctb_from (t := U64) (i =? inner index)).
  rewrite ccopy_from by done. rewrite IH by (destruct (i =? inner index); done || lia).
  destruct (Z.eqb_spec i (inner index)) as [<-|Hne].
  - rewrite decide_False by lia. rewrite decide_True by lia. by rewrite Z.sub_diag.
  - case_decide; [rewrite decide_True by lia|rewrite decide_False by lia; done].
    replace (Z.to_nat (inner index - i)) with (S (Z.to_nat (inner index - (i + 1)))) by lia. done.
Qed.

(** * Division *)

Section division_theory.
Context {t : ity} `{!CtWidth t} (mux_t : CTBool t -> Ct t -> Ct t -> Ct t) `{!Selects mux_t}.

(** The double word held by two words. *)
Definition num_of (hi lo : Ct t) : Z := inner hi * 2 ^ bits t + inner lo.

(** The loop invariant before bit [k - 1] is decided: the quotient so far is
    a multiple of [2^k], and what is left of the numerator [n] is below
    [d * 2^k]. *)
Definition div_inv (d n k : Z) (s : div_state t) : Prop :=
  ct_wf (dv_hi s) /\ ct_wf (dv_lo s) /\
  num_of (dv_hi s) (dv_lo s) < d * 2 ^ k /\
  exists a, 0 <= a /\ inner (dv_q s) = a * 2 ^ k /\
            n = inner (dv_q s) * d + num_of (dv_hi s) (dv_lo s).

Lemma num_of_divmod z :
  0 <= z < 2 ^ bits t * 2 ^ bits t ->
  ct_wf (t := t) (MkCt (z / 2 ^ bits t)) /\ ct_wf (t := t) (MkCt (z mod 2 ^ bits t)) /\
  num_of (MkCt (z / 2 ^ bits t)) (MkCt (z mod 2 ^ bits t)) = z.
Proof.
  intros Hz. unfold ct_wf, num_of. rewrite !word_range. cbn [inner].
  pose proof (modulus_pos t) as HM. split; [|split; [by apply Z.mod_pos_bound|]].
  - split; [apply Z.div_pos; lia|apply Z.div_lt_upper_bound; lia].
  - pose proof (Z.div_mod z (2 ^ bits t) ltac:(lia)). lia.
Qed.

(** The window [w] and the bits shifted out above it are the numerator
    shifted right by [k]. *)
Lemma div_window hi lo k :
  ct_wf hi -> ct_wf lo -> 0 < k < bits t ->
  let w := inner ((hi << (bits t - k)) || (lo >> k))%ct in
  0 <= w < 2 ^ bits t /\ num_of hi lo / 2 ^ k = inner hi / 2 ^ k * 2 ^ bits t + w.
Proof.
  intros Hhi Hlo Hk w. unfold ct_wf, num_of in *. rewrite word_range in Hhi, Hlo.
  assert (2 ^ bits t = 2 ^ (bits t - k) * 2 ^ k) as EM by (rewrite <- Z.pow_add_r by lia; f_equal; lia).
  assert (0 < 2 ^ (bits t - k)) by (apply Z.pow_pos_nonneg; lia).
  assert (0 < 2 ^ k) by (apply Z.pow_pos_nonneg; lia).
  assert (0 <= inner lo / 2 ^ k < 2 ^ (bits t - k)) as Hq.
  { split; [apply Z.div_pos; lia|apply Z.div_lt_upper_bound; lia]. }
  assert (w = inner hi mod 2 ^ k * 2 ^ (bits t - k) + inner lo / 2 ^ k) as ->.
  { unfold w. rewrite ct_shl_word, ct_shr_word by lia. cbn [inner ct_bitor].
    rewrite EM, (Z.mul_comm (2 ^ (bits t - k)) (2 ^ k)), Z.mul_mod_distr_r by lia.
    by apply lor_shifted_add; [lia|]. }
  pose proof (Z.mod_pos_bound (inner hi) (2 ^ k) ltac:(lia)).
  pose proof (Z.div_mod (inner hi) (2 ^ k) ltac:(lia)). split; [rewrite EM; nia|].
  rewrite EM at 1. rewrite Z.mul_assoc, Z.div_add_l by lia.
  rewrite H2 at 1. rewrite EM. ring.
Qed.

(** The control of a step: does the divisor fit at bit [k]? *)
Lemma div_ctl d hi lo k :
  ct_wf hi -> ct_wf lo -> ct_wf d -> 0 < k < bits t ->
  let w := ((hi << (bits t - k)) || (lo >> k))%ct in
  ctb_bitor (ctb_not (ct_lt w d)) (is_non_zero (hi >> k)%ct)
  = ctb_from (inner d * 2 ^ k <=? num_of hi lo).
Proof.
  intros Hhi Hlo Hd Hk w. destruct (div_window hi lo k Hhi Hlo Hk) as [Hw E]. fold w in Hw, E.
  assert (0 < 2 ^ k) by (apply Z.pow_pos_nonneg; lia).
  unfold ct_wf in Hhi, Hd. rewrite word_range in Hhi, Hd.
  assert (0 <= inner hi / 2 ^ k < 2 ^ bits t) as Hh.
  { split; [apply Z.div_pos; lia|]. apply Z.div_lt_upper_bound; nia. }
  rewrite ct_lt_from, ctb_not_from, ct_shr_word, is_non_zero_from, ctb_or_from
    by (by apply word_range || lia).
  f_equal. cbn [inner].
  assert (inner d * 2 ^ k <= num_of hi lo <-> inner d <= num_of hi lo / 2 ^ k) as Hiff.
  { rewrite Z.mul_comm. split; [apply Z.div_le_lower_bound; lia|].
    intros Hle. pose proof (Z.mul_div_le (num_of hi lo) (2 ^ k)). nia. }
  destruct (Z.leb_spec (inner d * 2 ^ k) (num_of hi lo)), (Z.ltb_spec (inner w) (inner d)),
    (Z.eqb_spec (inner hi / 2 ^ k) 0); cbn; try done; nia.
Qed.

(** When it does, the step subtracts it from the double word. *)
Lemma div_subtract d hi lo k :
  ct_wf hi -> ct_wf lo -> ct_wf d -> 0 < k < bits t ->
  inner d * 2 ^ k <= num_of hi lo < inner d * 2 ^ (k + 1) ->
  let w := ((hi << (bits t - k)) || (lo >> k))%ct in
  let z := num_of hi lo - inner d * 2 ^ k in
  ((w - d) >> (bits t - k))%ct = MkCt (z / 2 ^ bits t) /\
  (lo - (d << k))%ct = MkCt (z mod 2 ^ bits t).
Proof.
  intros Hhi Hlo Hd Hk [Hge Hlt] w z. destruct (div_window hi lo k Hhi Hlo Hk) as [Hw E]. fold w in Hw, E.
  assert (0 < 2 ^ k) by (apply Z.pow_pos_nonneg; lia).
  rewrite Z.pow_add_r, Z.pow_1_r in Hlt by lia.
  unfold ct_wf in Hd. rewrite word_range in Hd.
  assert (z / 2 ^ k = num_of hi lo / 2 ^ k - inner d) as Ez.
  { unfold z. replace (num_of hi lo - inner d * 2 ^ k) with (num_of hi lo + - inner d * 2 ^ k) by ring.
    rewrite Z.div_add by lia. lia. }
  assert (0 <= z / 2 ^ k < inner d) as Hz.
  { split; [apply Z.div_pos; lia|apply Z.div_lt_upper_bound; lia]. }
  split.
  - rewrite ct_shr_word by lia. cbn [inner ct_sub]. f_equal. rewrite wrap_word.
    replace ((inner w - inner d) mod 2 ^ bits t) with (z / 2 ^ k).
    + rewrite Z.div_div, <- Z.pow_add_r by lia. do 2 f_equal. lia.
    + apply (Z.mod_unique_pos _ _ (- (inner hi / 2 ^ k))); lia.
  - rewrite ct_shl_word by lia. unfold ct_sub. cbn [inner]. f_equal. rewrite wrap_word.
    rewrite Zminus_mod_idemp_r. unfold z, num_of.
    rewrite <- (Z_mod_plus_full (inner lo - inner d * 2 ^ k) (inner hi)). f_equal. ring.
Qed.

Lemma num_of_bound hi lo : ct_wf hi -> ct_wf lo -> 0 <= num_of hi lo < 2 ^ bits t * 2 ^ bits t.
Proof. unfold ct_wf, num_of. rewrite !word_range. pose proof (modulus_pos t). nia. Qed.

(** Setting bit [k] of a quotient whose bits up to [k] are clear. *)
Lemma div_quotient (q : Ct t) a k b :
  0 <= k < bits t -> inner q = a * 2 ^ (k + 1) ->
  ct_bitor_assign q (MkCt (ctb_inner (ctb_from (t := t) b)) << k)%ct
  = MkCt ((2 * a + Z.b2z b) * 2 ^ k).
Proof.
  intros Hk Hq. assert (0 < 2 ^ k) by (apply Z.pow_pos_nonneg; lia).
  assert (2 ^ (k + 1) = 2 * 2 ^ k) as Ek by (rewrite Z.pow_add_r by lia; lia).
  unfold ct_bitor_assign. rewrite ct_shl_word by lia. cbn [inner ctb_inner ctb_from ctb_ct].
  assert (0 <= Z.b2z b * 2 ^ k < 2 ^ (k + 1)) by (destruct b; cbn [Z.b2z]; lia).
  assert (2 ^ (k + 1) <= 2 ^ bits t) by (apply Z.pow_le_mono_r; lia).
  rewrite Z.mod_small, Hq by lia. f_equal. rewrite lor_shifted_add by lia. rewrite Ek. ring.
Qed.

(** A step decides one bit of the quotient. *)
Lemma div_step_inv d n k s :
  ct_wf d -> 0 < k < bits t -> div_inv (inner d) n (k + 1) s ->
  div_inv (inner d) n k (div2n1n_step mux_t d k s).
Proof.
  intros Hd Hk (Hhi & Hlo & Hlt & a & Ha & Hq & Hn).
  assert (0 < 2 ^ k) by (apply Z.pow_pos_nonneg; lia).
  assert (2 ^ (k + 1) = 2 * 2 ^ k) as Ek by (rewrite Z.pow_add_r by lia; lia).
  unfold div2n1n_step. cbv zeta. rewrite div_ctl by done. set (b := inner d * 2 ^ k <=? _).
  rewrite (div_quotient _ a) by (done || lia).
  pose proof (num_of_bound _ _ Hhi Hlo) as Hnum.
  destruct b eqn:Eb; subst b.
  - apply Z.leb_le in Eb. destruct (div_subtract d (dv_hi s) (dv_lo s) k) as [E1 E2]; [done..|].
    cbv zeta in E1, E2. rewrite E1, E2.
    assert (0 <= inner d * 2 ^ k) by (unfold ct_wf in Hd; rewrite word_range in Hd; nia).
    destruct (num_of_divmod (num_of (dv_hi s) (dv_lo s) - inner d * 2 ^ k)) as (W1 & W2 & En); [lia|].
    rewrite !selects by done. unfold div_inv. cbn [dv_hi dv_lo dv_q inner Z.b2z]. rewrite En.
    split_and!; [done..|nia|]. exists (2 * a + 1). split_and!; [lia|done|]. rewrite Hn, Hq, Ek. ring.
  - apply Z.leb_gt in Eb.
    rewrite !selects by (done || apply ct_wrap_wf || (apply ct_shr_wf; [lia|apply ct_wrap_wf])).
    unfold div_inv. cbn [dv_hi dv_lo dv_q inner Z.b2z].
    split_and!; [done..|]. exists (2 * a). split_and!; [lia|f_equal; lia|]. rewrite Hn, Hq, Ek. ring.
Qed.

Lemma div_loop_inv d n k s :
  ct_wf d -> Z.of_nat k < bits t -> div_inv (inner d) n (Z.of_nat k + 1) s ->
  div_inv (inner d) n 1 (div2n1n_loop mux_t d k s).
Proof.
  intros Hd. revert s. induction k as [|k IH]; intros s Hk Hs; [done|].
  cbn [div2n1n_loop]. apply IH; [lia|]. replace (Z.of_nat k + 1) with (Z.of_nat (S k)) by lia.
  apply div_step_inv; [done|lia|done].
Qed.

(** The last step, at bit 0. *)
Lemma div_final d n s :
  ct_wf d -> 0 < inner d -> div_inv (inner d) n 1 s ->
  let carry := ctb_bitor (ctb_not (ct_lt (dv_lo s) d)) (is_non_zero (dv_hi s)) in
  ct_bitor_assign (dv_q s) (MkCt (ctb_inner carry)) = MkCt (n / inner d) /\
  mux_t carry (dv_lo s - d)%ct (dv_lo s) = MkCt (n mod inner d).
Proof.
  intros Hd Hd0 (Hhi & Hlo & Hlt & a & Ha & Hq & Hn) carry. rewrite Z.pow_1_r in *.
  pose proof Hhi as Hhi'. pose proof Hlo as Hlo'. unfold ct_wf in Hhi', Hlo', Hd.
  rewrite word_range in Hhi', Hlo', Hd. unfold num_of in *. pose proof (modulus_pos t).
  assert (carry = ctb_from (inner d <=? inner (dv_hi s) * 2 ^ bits t + inner (dv_lo s))) as ->.
  { unfold carry. rewrite ct_lt_from, ctb_not_from, is_non_zero_from, ctb_or_from
      by (done || by apply word_range). f_equal.
    destruct (Z.ltb_spec (inner (dv_lo s)) (inner d)), (Z.eqb_spec (inner (dv_hi s)) 0),
      (Z.leb_spec (inner d) (inner (dv_hi s) * 2 ^ bits t + inner (dv_lo s))); cbn; done || nia. }
  set (b := inner d <=? _).
  assert (0 <= Z.b2z b < 2 ^ 1) by (destruct b; cbn [Z.b2z]; lia).
  assert (n = (a * 2 + Z.b2z b) * inner d + (n - (a * 2 + Z.b2z b) * inner d)) as En by ring.
  assert (0 <= n - (a * 2 + Z.b2z b) * inner d < inner d) as Hr.
  { rewrite Hn, Hq. destruct (Z.leb_spec (inner d) (inner (dv_hi s) * 2 ^ bits t + inner (dv_lo s)));
      subst b; cbn [Z.b2z]; nia. }
  split.
  - unfold ct_bitor_assign. cbn [inner ctb_inner ctb_ct ctb_from]. f_equal.
    rewrite Hq, <- (Z.pow_1_r 2) at 1. rewrite lor_shifted_add, Z.pow_1_r by lia.
    apply (Z.div_unique_pos _ _ _ (n - (a * 2 + Z.b2z b) * inner d)); [done|rewrite En at 1; ring].
  - rewrite selects by (done || apply ct_wrap_wf).
    rewrite <- (Z.mod_unique_pos n (inner d) (a * 2 + Z.b2z b) _ Hr) by (rewrite En at 1; ring).
    rewrite Hn, Hq. destruct (Z.leb_spec (inner d) (inner (dv_hi s) * 2 ^ bits t + inner (dv_lo s)));
      subst b; cbn [Z.b2z] in *.
    + unfold ct_sub. f_equal. rewrite wrap_word. symmetry.
      apply (Z.mod_unique_pos _ _ (- inner (dv_hi s))); nia.
    + assert (inner (dv_hi s) = 0) as E0 by nia. rewrite <- (Ct_eta (dv_lo s)) at 1. f_equal. lia.
Qed.

Lemma div2n1n_at_ok n_hi n_lo d :
  ct_wf n_hi -> ct_wf n_lo -> ct_wf d -> 0 < inner d -> inner n_hi <= inner d ->
  let n := (if inner n_hi =? inner d then 0 else inner n_hi) * 2 ^ bits t + inner n_lo in
  div2n1n_at mux_t n_hi n_lo d = (MkCt (n / inner d), MkCt (n mod inner d)).
Proof.
  intros Hhi Hlo Hd Hd0 Hle n. unfold div2n1n_at. cbv zeta.
  pose proof (ct_b2z_wf (t := t) false) as H0. cbn [Z.b2z] in H0.
  rewrite ct_eq_from, selects by done.
  set (hi := if inner n_hi =? inner d then MkCt 0 else n_hi).
  assert (ct_wf hi) as Hhi' by (unfold hi; by destruct (_ =? _)).
  assert (div_inv (inner d) n 1 (div2n1n_loop mux_t d (Z.to_nat (bits t - 1))
            (DivState hi n_lo (MkCt 0)))) as Hinv.
  { pose proof (bits_pos (t := t)). apply div_loop_inv; [done|lia|].
    replace (Z.of_nat _ + 1) with (bits t) by lia.
    unfold div_inv. cbn [dv_hi dv_lo dv_q inner]. split_and!; [done..| |exists 0; split_and!; try done].
    - unfold ct_wf in Hlo. rewrite word_range in Hlo. unfold num_of, hi.
      destruct (Z.eqb_spec (inner n_hi) (inner d)); cbn [inner]; nia.
    - unfold num_of, n, hi. by destruct (inner n_hi =? inner d). }
  by destruct (div_final d n _ Hd Hd0 Hinv) as [-> ->].
Qed.
End division_theory.

(** * Properties *)

(** Type invariant of [CTBool]: at every width, the comparisons and
    tests of well-formed words return exactly the encoding (0 or 1) of the
    mathematical comparison, [not], [&], [|] and [^] of encoded booleans are
    again encoded booleans, and [cneg] negates modulo the width exactly when
    its control is set. *)
Theorem ct_bool_type {t} `{!CtWidth t} (x y : Ct t) (a b : bool) :
  ct_wf x -> ct_wf y ->
  ct_eq x y = ctb_from (inner x =? inner y) /\
  ct_ne x y = ctb_from (negb (inner x =? inner y)) /\
  ct_lt x y = ctb_from (inner x <? inner y) /\
  ct_le x y = ctb_from (inner x <=? inner y) /\
  is_zero x = ctb_from (inner x =? 0) /\
  is_non_zero x = ctb_from (negb (inner x =? 0)) /\
  is_msb_set x = ctb_from (2 ^ (bits t - 1) <=? inner x) /\
  ctb_not (t := t) (ctb_from a) = ctb_from (negb a) /\
  ctb_bitand (t := t) (ctb_from a) (ctb_from b) = ctb_from (a && b) /\
  ctb_bitor (t := t) (ctb_from a) (ctb_from b) = ctb_from (a || b) /\
  ctb_bitxor (t := t) (ctb_from a) (ctb_from b) = ctb_from (xorb a b) /\
  cneg x (ctb_from a) = (if a then MkCt (- inner x mod 2 ^ bits t) else x).
Proof.
  intros Hx Hy. split_and!; try by destruct a, b.
  - by apply ct_eq_from.
  - by apply ct_ne_from.
  - by apply ct_lt_from.
  - by apply ct_le_from.
  - by apply is_zero_from.
  - by apply is_non_zero_from.
  - rewrite is_msb_set_testbit, msb_word by (done || by apply word_range). done.
  - rewrite cneg_from by done. unfold ct_neg. by rewrite wrap_word.
Qed.

Lemma ct_bool_type_witness :
  ct_lt (t := U8) (MkCt 100) (MkCt 200) = ctb_from true /\
  ct_le (t := U8) (MkCt 200) (MkCt 100) = ctb_from false.
Proof.
  split.
  - apply (ct_bool_type (t := U8) (MkCt 100) (MkCt 200) true true); by apply (bool_decide_unpack _).
  - apply (ct_bool_type (t := U8) (MkCt 200) (MkCt 100) true true); by apply (bool_decide_unpack _).
Defined.

(** Selection: on both targets the multiplexers return their second
    argument when the control is set and their third otherwise, the
    conditional copies overwrite exactly when it is set, and [secret_lookup]
    returns the entry at the index, or 0 when the index is out of range. *)
Theorem secret_lookup_selects `{TargetArch} (table : list Z) (index : Ct USIZE)
    (b : bool) (x y : Ct U64) (x32 y32 : Ct U32) :
  ct_wf x -> ct_wf y -> ct_wf x32 -> ct_wf y32 ->
  Forall (in_range U64) table -> Z.of_nat (length table) <= tmax I64 -> ct_wf index ->
  mux (ctb_from b) x y = (if b then x else y) /\
  mux32 (ctb_from b) x32 y32 = (if b then x32 else y32) /\
  mux_usize (ctb_from b) x y = (if b then x else y) /\
  ccopy (ctb_from b) x y = (if b then y else x) /\
  ccopy32 (ctb_from b) x32 y32 = (if b then y32 else x32) /\
  ccopy_usize (ctb_from b) x y = (if b then y else x) /\
  secret_lookup table index = MkCt (nth (Z.to_nat (inner index)) table 0).
Proof.
  intros Hx Hy Hx32 Hy32 Htab Hlen Hidx. cbn [tmax] in Hlen. split_and!.
  - by apply selects.
  - by apply selects.
  - by apply (selects (mux_t := mux_formula)).
  - by apply ccopy_from.
  - by apply ccopy32_from.
  - by apply (selects (mux_t := mux_formula)).
  - unfold secret_lookup. rewrite secret_lookup_from_ok; [|lia..|done|done|done].
    rewrite Z.sub_0_r. case_decide as Hr; [done|]. rewrite nth_overflow; [done|].
    unfold ct_wf in Hidx. mlia.
Qed.

Lemma secret_lookup_selects_witness :
  @secret_lookup false [10; 20; 30] (MkCt 1) = MkCt 20 /\
  @secret_lookup true [10; 20; 30] (MkCt 7) = MkCt 0.
Proof.
  split.
  - apply (@secret_lookup_selects false [10; 20; 30] (MkCt 1) true (MkCt 1) (MkCt 2) (MkCt 1) (MkCt 2));
      by apply (bool_decide_unpack _).
  - apply (@secret_lookup_selects true [10; 20; 30] (MkCt 7) true (MkCt 1) (MkCt 2) (MkCt 1) (MkCt 2));
      by apply (bool_decide_unpack _).
Defined.

(** C36.  Division: for every divisor [d > 0], normalised or not, and
    [n_hi < d], both widths return the exact quotient and remainder of the
    double word; for [n_hi = d] the high word is dropped and [n_lo] is divided
    instead. *)
Theorem div2n1n_exact `{TargetArch} (n_hi n_lo d : Ct U64) (m_hi m_lo e : Ct U32) :
  ct_wf n_hi -> ct_wf n_lo -> ct_wf d -> 0 < inner d -> inner n_hi <= inner d ->
  ct_wf m_hi -> ct_wf m_lo -> ct_wf e -> 0 < inner e -> inner m_hi <= inner e ->
  (let n := (if inner n_hi =? inner d then 0 else inner n_hi) * 2 ^ 64 + inner n_lo in
   div2n1n n_hi n_lo d = (MkCt (n / inner d), MkCt (n mod inner d))) /\
  (let m := (if inner m_hi =? inner e then 0 else inner m_hi) * 2 ^ 32 + inner m_lo in
   div2n1n_u32 m_hi m_lo e = (MkCt (m / inner e), MkCt (m mod inner e))).
Proof.
  intros. split.
  - by apply (div2n1n_at_ok mux).
  - by apply (div2n1n_at_ok mux32).
Qed.

Lemma div2n1n_exact_witness :
  @div2n1n false (MkCt 5) (MkCt 9) (MkCt 7)
  = (MkCt ((5 * 2 ^ 64 + 9) / 7), MkCt ((5 * 2 ^ 64 + 9) mod 7)) /\
  @div2n1n_u32 true (MkCt 7) (MkCt 100) (MkCt 7) = (MkCt 14, MkCt 2).
Proof.
  split.
  - apply (@div2n1n_exact false (MkCt 5) (MkCt 9) (MkCt 7) (MkCt 7) (MkCt 100) (MkCt 7));
      by apply (bool_decide_unpack _).
  - apply (@div2n1n_exact true (MkCt 5) (MkCt 9) (MkCt 7) (MkCt 7) (MkCt 100) (MkCt 7));
      by apply (bool_decide_unpack _).
Defined.
