(* ===== verification/WideArith.v ===== *)
(** * Extended precision ([crates/platform/src/intrinsics])

    Addition with carry and subtraction with borrow (addcarry_subborrow.rs),
    widening products and the three-limb accumulators (extended_prec.rs).
    Each trait has an implementation for [Ct<u32>], which widens to [u64], and
    one for [Ct<u64>], which widens to [u128]; they are the same text, given
    here once over the two types and instantiated twice.  The widening [+] and
    [*] are plain operators, so the model goes through [arith]; the theorems
    show that they never overflow. *)

From Stdlib Require Import ZArith Lia.
From stdpp Require Import base decidable numbers option tactics list.
From S2P Require Import Prelude CtArith.

#[local] Open Scope Z_scope.

(** * Traits *)

Class AddCarryOp (t : ity) : Type := add_c : Ct t -> Ct t -> Carry -> outcome (Ct t * Carry).
Class SubBorrowOp (t : ity) : Type := sub_b : Ct t -> Ct t -> Borrow -> Ct t * Borrow.
Class WideMul (t : ity) : Type := wide_mul : Ct t -> Ct t -> outcome (Ct t * Ct t).
Class WideMulAdd1 (t : ity) : Type := muladd1 : Ct t -> Ct t -> Ct t -> outcome (Ct t * Ct t).
Class WideMulAdd2 (t : ity) : Type :=
  muladd2 : Ct t -> Ct t -> Ct t -> Ct t -> outcome (Ct t * Ct t).
Class SignedWideMul (t : ity) : Type := smul : Ct t -> Ct t -> outcome (Ct t * Ct t).

(** * Implementations *)

Section implementations.
Context `{BuildProfile} (t w : ity).

(** [Ct::new(wide as t)] and [Ct::new((wide >> BITS) as t)]. *)
Definition lo_of (wide : Z) : Ct t := MkCt (wrap t wide).
Definition hi_of (wide : Z) : Ct t := MkCt (wrap t (Z.shiftr wide (bits t))).

Definition add_c_impl (x rhs : Ct t) (carry_in : Carry) : outcome (Ct t * Carry) :=
  s ← arith w (inner x + inner rhs);
  wide ← arith w (s + inner carry_in);
  Ret (lo_of wide, MkCt (wrap U8 (Z.shiftr wide (bits t)))).

Definition sub_b_impl (x rhs : Ct t) (borrow_in : Borrow) : Ct t * Borrow :=
  let wide := wrap w (wrap w (inner x - inner rhs) - inner borrow_in) in
  (lo_of wide, MkCt (wrap U8 (Z.land (Z.shiftr wide (bits t)) 1))).

Definition wide_mul_impl (x rhs : Ct t) : outcome (Ct t * Ct t) :=
  wide ← arith w (inner x * inner rhs);
  Ret (hi_of wide, lo_of wide).

Definition muladd1_impl (x rhs c : Ct t) : outcome (Ct t * Ct t) :=
  p ← arith w (inner x * inner rhs);
  wide ← arith w (p + inner c);
  Ret (hi_of wide, lo_of wide).

Definition muladd2_impl (x rhs c1 c2 : Ct t) : outcome (Ct t * Ct t) :=
  p ← arith w (inner x * inner rhs);
  s ← arith w (p + inner c1);
  wide ← arith w (s + inner c2);
  Ret (hi_of wide, lo_of wide).

(** [st] and [sw] are the signed types of the widths of [t] and [w]. *)
Definition smul_impl (st sw : ity) (x rhs : Ct t) : outcome (Ct t * Ct t) :=
  wide ← arith sw (wrap st (inner x) * wrap st (inner rhs));
  Ret (hi_of wide, lo_of wide).
End implementations.

#[global] Instance add_c_u32 `{BuildProfile} : AddCarryOp U32 := add_c_impl U32 U64.
#[global] Instance add_c_u64 `{BuildProfile} : AddCarryOp U64 := add_c_impl U64 U128.
#[global] Instance sub_b_u32 : SubBorrowOp U32 := sub_b_impl U32 U64.
#[global] Instance sub_b_u64 : SubBorrowOp U64 := sub_b_impl U64 U128.
#[global] Instance wide_mul_u32 `{BuildProfile} : WideMul U32 := wide_mul_impl U32 U64.
#[global] Instance wide_mul_u64 `{BuildProfile} : WideMul U64 := wide_mul_impl U64 U128.
#[global] Instance muladd1_u32 `{BuildProfile} : WideMulAdd1 U32 := muladd1_impl U32 U64.
#[global] Instance muladd1_u64 `{BuildProfile} : WideMulAdd1 U64 := muladd1_impl U64 U128.
#[global] Instance muladd2_u32 `{BuildProfile} : WideMulAdd2 U32 := muladd2_impl U32 U64.
#[global] Instance muladd2_u64 `{BuildProfile} : WideMulAdd2 U64 := muladd2_impl U64 U128.
#[global] Instance smul_u32 `{BuildProfile} : SignedWideMul U32 := smul_impl U32 I32 I64.
#[global] Instance smul_u64 `{BuildProfile} : SignedWideMul U64 := smul_impl U64 I64 I128.

(** * Accumulators *)

(** The three limbs behind the [&mut] arguments: [t] high, [v] low. *)
Record acc3 (t : ity) := Acc3 { acc_t : Ct t; acc_u : Ct t; acc_v : Ct t }.
Arguments Acc3 {t} _ _ _.
Arguments acc_t {t} _.
Arguments acc_u {t} _.
Arguments acc_v {t} _.

Section accumulators_impl.
Context {t : ity} `{AddCarryOp t} `{WideMul t}.

Definition mul_acc_impl (s : acc3 t) (a b : Ct t) : outcome (acc3 t) :=
  '(uv_hi, uv_lo) ← wide_mul a b;
  '(new_v, carry) ← add_c (acc_v s) uv_lo (MkCt 0);
  '(new_u, carry) ← add_c (acc_u s) uv_hi carry;
  Ret (Acc3 (ct_add_assign (acc_t s) (MkCt (inner carry))) new_u new_v).

Definition mul_double_acc_impl (s : acc3 t) (a b : Ct t) : outcome (acc3 t) :=
  '(uv_hi, uv_lo) ← wide_mul a b;
  '(uv_lo_d, carry_lo) ← add_c uv_lo uv_lo (MkCt 0);
  '(uv_hi_d, carry_hi) ← add_c uv_hi uv_hi carry_lo;
  let t1 := ct_add_assign (acc_t s) (MkCt (inner carry_hi)) in
  '(new_v, carry) ← add_c (acc_v s) uv_lo_d (MkCt 0);
  '(new_u, carry) ← add_c (acc_u s) uv_hi_d carry;
  Ret (Acc3 (ct_add_assign t1 (MkCt (inner carry))) new_u new_v).
End accumulators_impl.

Definition mul_acc `{BuildProfile} : acc3 U64 -> Ct U64 -> Ct U64 -> outcome (acc3 U64) :=
  mul_acc_impl.
Definition mul_acc32 `{BuildProfile} : acc3 U32 -> Ct U32 -> Ct U32 -> outcome (acc3 U32) :=
  mul_acc_impl.
Definition mul_double_acc `{BuildProfile} : acc3 U64 -> Ct U64 -> Ct U64 -> outcome (acc3 U64) :=
  mul_double_acc_impl.
Definition mul_double_acc32 `{BuildProfile} : acc3 U32 -> Ct U32 -> Ct U32 -> outcome (acc3 U32) :=
  mul_double_acc_impl.

(** * Exactness of the limb operations *)

(** [w] is the unsigned type of twice the width of [t]. *)
Class Widens (t w : ity) : Prop := {
  widens_unsigned :: CtWidth t;
  widens_wide : signed w = false;
  widens_bits : bits w = bits t + bits t;
}.

#[global] Instance widens_u32 : Widens U32 U64. Proof. done. Qed.
#[global] Instance widens_u64 : Widens U64 U128. Proof. done. Qed.

Section limbs.
Context `{BuildProfile} {t w : ity} `{!Widens t w}.
Implicit Types x y c : Ct t.
#[local] Abbreviation M := (2 ^ bits t).

Lemma wide_range z : 0 <= z < M * M -> in_range w z.
Proof.
  intros Hz. unfold in_range. pose proof (modulus_range w) as E.
  rewrite (tmin_unsigned w) in * by apply widens_wide. rewrite widens_bits, Z.pow_add_r in E
    by (pose proof (bits_pos (t := t)); lia). lia.
Qed.

Lemma arith_wide z : 0 <= z < M * M -> arith w z = Ret z.
Proof. intros. by apply arith_ok, wide_range. Qed.

Lemma modulus_256 : 256 <= M.
Proof.
  pose proof (bits_pos (t := t)). change 256 with (2 ^ 8). apply Z.pow_le_mono_r; lia.
Qed.

Lemma hi_lo_of z : 0 <= z < M * M -> hi_of t z = MkCt (z / M) /\ lo_of t z = MkCt (z mod M).
Proof.
  intros Hz. unfold hi_of, lo_of. rewrite !wrap_word, Z.shiftr_div_pow2 by (pose proof (bits_pos (t := t)); lia).
  split; [|done]. f_equal. pose proof modulus_256. apply Z.mod_small.
  split; [apply Z.div_pos; lia|apply Z.div_lt_upper_bound; lia].
Qed.

Lemma ct_range x : ct_wf x -> 0 <= inner x < M.
Proof. apply word_range. Qed.

(** Addition with a carry of 0 or 1. *)
Lemma add_c_ok x y (c : Carry) :
  ct_wf x -> ct_wf y -> 0 <= inner c <= 1 ->
  let s := inner x + inner y + inner c in
  add_c_impl t w x y c = Ret (MkCt (s mod M), MkCt (s / M)) /\ 0 <= s / M <= 1.
Proof.
  intros Hx%ct_range Hy%ct_range Hc s. pose proof modulus_256.
  assert (0 <= s / M <= 1) as Hq.
  { split; [apply Z.div_pos; lia|]. apply Z.lt_succ_r, Z.div_lt_upper_bound; lia. }
  split; [|done]. unfold add_c_impl.
  rewrite arith_wide by nia. cbn [mbind outcome_bind]. rewrite arith_wide by nia.
  cbn [mbind outcome_bind]. fold s. destruct (hi_lo_of s) as [E1 E2]; [nia|].
  rewrite E2. unfold hi_of in E1. rewrite Z.shiftr_div_pow2 by (pose proof (bits_pos (t := t)); lia).
  rewrite (wrap_id U8) by mlia. done.
Qed.

(** Subtraction with a borrow of 0 or 1. *)
Lemma sub_b_ok x y (c : Borrow) :
  ct_wf x -> ct_wf y -> 0 <= inner c <= 1 ->
  let s := inner x - inner y - inner c in
  sub_b_impl t w x y c = (MkCt (s mod M), MkCt (Z.b2z (s <? 0))).
Proof.
  intros Hx%ct_range Hy%ct_range Hc s. pose proof modulus_256. pose proof (bits_pos (t := t)).
  unfold sub_b_impl, lo_of. rewrite !(wrap_unsigned w), Zminus_mod_idemp_l by apply widens_wide.
  fold s. rewrite widens_bits, Z.pow_add_r by lia.
  rewrite Z.shiftr_div_pow2, wrap_word by lia. change 1 with (Z.ones 1). rewrite Z.land_ones by lia.
  f_equal; f_equal.
  - rewrite Z.rem_mul_r by lia. rewrite (Z.mul_comm M ((s / M) mod M)), Z_mod_plus_full.
    apply Z.mod_mod. lia.
  - rewrite (wrap_id U8) by (pose proof (Z.mod_pos_bound (s mod (M * M) / M) (2 ^ 1) ltac:(lia)); mlia).
    destruct (Z.ltb_spec s 0); cbn [Z.b2z].
    + rewrite <- (Z.mod_unique_pos s (M * M) (-1) (s + M * M)) by nia.
      rewrite <- (Z.div_unique_pos (s + M * M) M (M - 1) (s + M)) by nia.
      replace M with (2 * 2 ^ (bits t - 1)) by (rewrite <- Z.pow_succ_r by lia; f_equal; lia).
      rewrite Z.pow_1_r. symmetry. apply (Z.mod_unique_pos _ _ (2 ^ (bits t - 1) - 1)); lia.
    + rewrite (Z.mod_small s) by nia. by rewrite Z.div_small by lia.
Qed.

Lemma wide_mul_ok x y :
  ct_wf x -> ct_wf y ->
  wide_mul_impl t w x y = Ret (MkCt (inner x * inner y / M), MkCt (inner x * inner y mod M)).
Proof.
  intros Hx%ct_range Hy%ct_range. unfold wide_mul_impl.
  rewrite arith_wide by nia. cbn [mbind outcome_bind].
  by destruct (hi_lo_of (inner x * inner y)) as [-> ->]; [nia|].
Qed.

Lemma muladd2_ok x y c1 c2 :
  ct_wf x -> ct_wf y -> ct_wf c1 -> ct_wf c2 ->
  let s := inner x * inner y + inner c1 + inner c2 in
  muladd2_impl t w x y c1 c2 = Ret (MkCt (s / M), MkCt (s mod M)).
Proof.
  intros Hx%ct_range Hy%ct_range H1%ct_range H2%ct_range s. unfold muladd2_impl.
  assert (inner x * inner y <= (M - 1) * (M - 1)) by (apply Z.mul_le_mono_nonneg; lia).
  rewrite arith_wide by nia. cbn [mbind outcome_bind].
  rewrite arith_wide by nia. cbn [mbind outcome_bind].
  rewrite arith_wide by nia. cbn [mbind outcome_bind]. fold s.
  by destruct (hi_lo_of s) as [-> ->]; [nia|].
Qed.

Lemma muladd1_ok x y c :
  ct_wf x -> ct_wf y -> ct_wf c ->
  let s := inner x * inner y + inner c in
  muladd1_impl t w x y c = Ret (MkCt (s / M), MkCt (s mod M)).
Proof.
  intros Hx%ct_range Hy%ct_range H1%ct_range s. unfold muladd1_impl.
  assert (inner x * inner y <= (M - 1) * (M - 1)) by (apply Z.mul_le_mono_nonneg; lia).
  rewrite arith_wide by nia. cbn [mbind outcome_bind].
  rewrite arith_wide by nia. cbn [mbind outcome_bind]. fold s.
  by destruct (hi_lo_of s) as [-> ->]; [nia|].
Qed.
End limbs.

(** The signed types of the width of [t] and of twice the width. *)
Class SignedPair (t st sw : ity) : Prop := {
  sp_unsigned :: CtWidth t;
  sp_signed : signed st = true /\ signed sw = true;
  sp_bits : bits st = bits t /\ bits sw = bits t + bits t;
}.

#[global] Instance signed_u32 : SignedPair U32 I32 I64. Proof. done. Qed.
#[global] Instance signed_u64 : SignedPair U64 I64 I128. Proof. done. Qed.

Lemma signed_range s z :
  signed s = true -> in_range s z <-> - 2 ^ (bits s - 1) <= z < 2 ^ (bits s - 1).
Proof. unfold in_range. destruct s; intros ?; done || (cbn -[Z.pow]; lia). Qed.

(** The signed product, read back with a signed high limb. *)
Lemma smul_ok `{BuildProfile} {t st sw} `{!SignedPair t st sw} (x y : Ct t) :
  exists hi lo, smul_impl t st sw x y = Ret (hi, lo) /\ ct_wf hi /\ ct_wf lo /\
  wrap st (inner hi) * 2 ^ bits t + inner lo = wrap st (inner x) * wrap st (inner y).
Proof.
  destruct sp_signed as [Ss Sw], sp_bits as [Bs Bw]. pose proof (bits_pos (t := t)) as HB.
  pose proof (wrap_in_range st (inner x)) as Ha. pose proof (wrap_in_range st (inner y)) as Hb.
  rewrite signed_range, Bs in Ha, Hb by done. unfold smul_impl.
  set (a := wrap st (inner x)) in *. set (b := wrap st (inner y)) in *.
  set (h := 2 ^ (bits t - 1)) in *.
  assert (2 ^ bits t = 2 * h) as EM by apply half_modulus.
  assert (128 <= h) by (change 128 with (2 ^ 7); apply Z.pow_le_mono_r; lia).
  assert (- (h * h) <= a * b <= h * h) as Hab.
  { apply Z.abs_le. rewrite Z.abs_mul. apply Z.mul_le_mono_nonneg; lia. }
  rewrite arith_ok; cbn [mbind outcome_bind].
  2: { apply signed_range; [done|]. rewrite Bw. replace (bits t + bits t - 1) with (bits t + (bits t - 1)) by lia.
       rewrite Z.pow_add_r by lia. fold h. rewrite EM. nia. }
  eexists _, _. split; [done|]. split; [apply ct_wrap_wf|]. split; [apply ct_wrap_wf|].
  unfold hi_of, lo_of. cbn [inner]. rewrite Z.shiftr_div_pow2 by lia.
  assert (wrap st (wrap t (a * b / 2 ^ bits t)) = a * b / 2 ^ bits t) as ->.
  { rewrite (wrap_congr st _ (a * b / 2 ^ bits t)) by (rewrite Bs; apply wrap_mod).
    apply wrap_id, signed_range; [done|]. rewrite Bs, EM. fold h.
    split; [apply Z.div_le_lower_bound; nia|apply Z.div_lt_upper_bound; nia]. }
  rewrite wrap_word. pose proof (Z.div_mod (a * b) (2 ^ bits t) ltac:(lia)). lia.
Qed.

(** * Accumulators *)

(** The number held by the three limbs. *)
Definition acc_value {t} (s : acc3 t) : Z :=
  (inner (acc_t s) * 2 ^ bits t + inner (acc_u s)) * 2 ^ bits t + inner (acc_v s).

Definition acc_wf {t} (s : acc3 t) : Prop := ct_wf (acc_t s) /\ ct_wf (acc_u s) /\ ct_wf (acc_v s).

#[global] Instance acc_wf_dec {t} (s : acc3 t) : Decision (acc_wf s).
Proof. unfold acc_wf. apply _. Defined.

Section accumulators_theory.
Context `{BuildProfile} {t w : ity} `{!Widens t w}.
#[local] Instance add_c_t : AddCarryOp t := add_c_impl t w.
#[local] Instance wide_mul_t : WideMul t := wide_mul_impl t w.
#[local] Abbreviation M := (2 ^ bits t).

Lemma mod_wf z : ct_wf (t := t) (MkCt (z mod M)).
Proof. apply word_range, Z.mod_pos_bound, modulus_pos. Qed.

(** Limbs are determined by the number they hold. *)
Lemma acc_value_inj (s s' : acc3 t) : acc_wf s -> acc_wf s' -> acc_value s = acc_value s' -> s = s'.
Proof.
  destruct s as [[a] [b] [c]], s' as [[a'] [b'] [c']]. unfold acc_wf, ct_wf, acc_value.
  rewrite !word_range. cbn [inner acc_t acc_u acc_v]. intros (Ha & Hb & Hc) (Ha' & Hb' & Hc') E.
  assert (c = c') as ->.
  { rewrite <- (Z.mod_small c M), <- (Z.mod_small c' M) by done.
    rewrite <- (Z_mod_plus_full c (a * M + b)), <- (Z_mod_plus_full c' (a' * M + b')). f_equal. lia. }
  assert (a * M + b = a' * M + b') as E' by nia.
  assert (b = b') as ->.
  { rewrite <- (Z.mod_small b M), <- (Z.mod_small b' M) by done.
    rewrite <- (Z_mod_plus_full b a), <- (Z_mod_plus_full b' a'). f_equal. lia. }
  assert (a = a') as -> by nia. done.
Qed.

Lemma acc_value_range (s : acc3 t) : acc_wf s -> 0 <= acc_value s < M * M * M.
Proof.
  unfold acc_wf, ct_wf, acc_value. rewrite !word_range. intros (Ha & Hb & Hc).
  assert (0 <= inner (acc_t s) * M + inner (acc_u s) <= M * M - 1) by nia. nia.
Qed.

(** Three limbs with the carries of an addition of [p] hold the sum. *)
Lemma acc_sum (tt u v p hi lo c1 c2 k : Z) (s : acc3 t) :
  acc_wf s -> p = hi * M + lo + k * (M * M) ->
  acc_v s = MkCt ((v + lo) mod M) -> c1 = (v + lo) / M ->
  acc_u s = MkCt ((u + hi + c1) mod M) -> c2 = (u + hi + c1) / M ->
  acc_t s = MkCt ((tt + k + c2) mod M) ->
  acc_value s = ((tt * M + u) * M + v + p) mod (M * M * M).
Proof.
  intros Hwf -> Ev -> Eu -> Et. pose proof (acc_value_range s Hwf) as Hr.
  pose proof (modulus_pos t). unfold acc_value in *. rewrite Ev, Eu, Et in *. cbn [inner] in *.
  eapply (Z.mod_unique_pos _ _ ((tt + k + (u + hi + (v + lo) / M) / M) / M)); [exact Hr|].
  pose proof (Z.div_mod (v + lo) M ltac:(lia)) as E1.
  pose proof (Z.div_mod (u + hi + (v + lo) / M) M ltac:(lia)) as E2.
  pose proof (Z.div_mod (tt + k + (u + hi + (v + lo) / M) / M) M ltac:(lia)) as E3.
  set (c1 := (v + lo) / M) in *. set (c2 := (u + hi + c1) / M) in *.
  set (c3 := (tt + k + c2) / M) in *.
  set (r1 := (v + lo) mod M) in *. set (r2 := (u + hi + c1) mod M) in *.
  set (r3 := (tt + k + c2) mod M) in *. clearbody c1 c2 c3 r1 r2 r3.
  assert (v = M * c1 + r1 - lo) as -> by lia. assert (u = M * c2 + r2 - hi - c1) as -> by lia.
  assert (tt = M * c3 + r3 - k - c2) as -> by lia. ring.
Qed.

Lemma mul_acc_ok (s : acc3 t) a b :
  acc_wf s -> ct_wf a -> ct_wf b ->
  exists s', mul_acc_impl s a b = Ret s' /\ acc_wf s' /\
             acc_value s' = (acc_value s + inner a * inner b) mod (M * M * M).
Proof.
  intros (Ht & Hu & Hv) Ha Hb. unfold mul_acc_impl, add_c, wide_mul, add_c_t, wide_mul_t.
  rewrite wide_mul_ok by done. cbn [mbind outcome_bind].
  set (p := inner a * inner b).
  assert (ct_wf (t := t) (MkCt (p / M))) as Hhi.
  { apply ct_range in Ha, Hb. apply word_range. split; [apply Z.div_pos; unfold p; nia|].
    apply Z.div_lt_upper_bound; unfold p; nia. }
  destruct (add_c_ok (acc_v s) (MkCt (p mod M)) (MkCt 0)) as [E1 C1]; [done|apply mod_wf|by cbn|].
  rewrite E1. cbn [mbind outcome_bind inner] in *.
  destruct (add_c_ok (acc_u s) (MkCt (p / M)) (MkCt ((inner (acc_v s) + p mod M + 0) / M)))
    as [E2 C2]; [done..|]. rewrite E2. cbn [mbind outcome_bind inner] in *.
  eexists. split; [done|]. split; [by repeat split; apply mod_wf || apply ct_wrap_wf|].
  unfold acc_value at 2. eapply (acc_sum _ _ _ _ (p / M) (p mod M) _ _ 0).
  - by repeat split; apply mod_wf || apply ct_wrap_wf.
  - pose proof (Z.div_mod p M ltac:(pose proof (modulus_pos t); lia)). lia.
  - cbn [acc_v]. by rewrite Z.add_0_r.
  - reflexivity.
  - cbn [acc_u]. by rewrite Z.add_0_r.
  - reflexivity.
  - cbn [acc_t]. unfold ct_add_assign. cbn [inner]. by rewrite wrap_word, !Z.add_0_r.
Qed.

Lemma mul_double_acc_ok (s : acc3 t) a b :
  acc_wf s -> ct_wf a -> ct_wf b ->
  exists s', mul_double_acc_impl s a b = Ret s' /\ acc_wf s' /\
             acc_value s' = (acc_value s + 2 * (inner a * inner b)) mod (M * M * M).
Proof.
  intros (Ht & Hu & Hv) Ha Hb. unfold mul_double_acc_impl, add_c, wide_mul, add_c_t, wide_mul_t.
  rewrite wide_mul_ok by done. cbn [mbind outcome_bind].
  set (p := inner a * inner b). pose proof (modulus_pos t) as HM.
  assert (ct_wf (t := t) (MkCt (p / M))) as Hhi.
  { apply ct_range in Ha, Hb. apply word_range. split; [apply Z.div_pos; unfold p; nia|].
    apply Z.div_lt_upper_bound; unfold p; nia. }
  destruct (add_c_ok (MkCt (p mod M)) (MkCt (p mod M)) (MkCt 0)) as [E1 C1]; [apply mod_wf..|by cbn|].
  rewrite E1. cbn [mbind outcome_bind inner] in *. rewrite Z.add_0_r in *.
  set (cl := (p mod M + p mod M) / M) in *.
  destruct (add_c_ok (MkCt (p / M)) (MkCt (p / M)) (MkCt cl)) as [E2 C2]; [done..|].
  rewrite E2. cbn [mbind outcome_bind inner] in *. set (ch := (p / M + p / M + cl) / M) in *.
  set (lo := (p mod M + p mod M) mod M) in *. set (hi := (p / M + p / M + cl) mod M) in *.
  destruct (add_c_ok (acc_v s) (MkCt lo) (MkCt 0)) as [E3 C3]; [done|apply mod_wf|by cbn|].
  rewrite E3. cbn [mbind outcome_bind inner] in *. rewrite Z.add_0_r in *.
  destruct (add_c_ok (acc_u s) (MkCt hi) (MkCt ((inner (acc_v s) + lo) / M)))
    as [E4 C4]; [done|apply mod_wf|done|]. rewrite E4. cbn [mbind outcome_bind inner] in *.
  eexists. split; [done|]. split; [by repeat split; apply mod_wf || apply ct_wrap_wf|].
  unfold acc_value at 2. eapply (acc_sum _ _ _ _ hi lo _ _ ch); try reflexivity.
  - by repeat split; apply mod_wf || apply ct_wrap_wf.
  - pose proof (Z.div_mod p M ltac:(lia)) as D1.
    pose proof (Z.div_mod (p mod M + p mod M) M ltac:(lia)) as D2.
    pose proof (Z.div_mod (p / M + p / M + cl) M ltac:(lia)) as D3.
    fold cl lo in D2. fold ch hi in D3. nia.
  - cbn [acc_t]. unfold ct_add_assign. cbn [inner]. by rewrite !wrap_word, Zplus_mod_idemp_l.
Qed.

(** Doubling the product is accumulating it twice. *)
Lemma mul_double_acc_twice (s : acc3 t) a b :
  acc_wf s -> ct_wf a -> ct_wf b ->
  mul_double_acc_impl s a b = (s1 ← mul_acc_impl s a b; mul_acc_impl s1 a b).
Proof.
  intros Hs Ha Hb. destruct (mul_acc_ok s a b Hs Ha Hb) as (s1 & E1 & W1 & V1).
  destruct (mul_acc_ok s1 a b W1 Ha Hb) as (s2 & E2 & W2 & V2).
  destruct (mul_double_acc_ok s a b Hs Ha Hb) as (sd & Ed & Wd & Vd).
  rewrite Ed, E1. cbn [mbind outcome_bind]. rewrite E2. f_equal. apply acc_value_inj; [done..|].
  rewrite Vd, V2, V1, Zplus_mod_idemp_l. f_equal. ring.
Qed.
End accumulators_theory.

(** * Properties *)

(** The limb operations are exact at both widths and never overflow: sums and
    products come back as the two limbs of the exact result, and a borrow is
    reported exactly when the difference is negative. *)
Theorem limb_ops_exact `{BuildProfile} (x y c1 c2 : Ct U64) (carry : Carry) :
  ct_wf x -> ct_wf y -> ct_wf c1 -> ct_wf c2 -> 0 <= inner carry <= 1 ->
  let M := 2 ^ 64 in
  add_c x y carry = Ret (MkCt ((inner x + inner y + inner carry) mod M),
                         MkCt ((inner x + inner y + inner carry) / M)) /\
  sub_b x y carry = (MkCt ((inner x - inner y - inner carry) mod M),
                     MkCt (Z.b2z (inner x - inner y - inner carry <? 0))) /\
  wide_mul x y = Ret (MkCt (inner x * inner y / M), MkCt (inner x * inner y mod M)) /\
  muladd1 x y c1 = Ret (MkCt ((inner x * inner y + inner c1) / M),
                        MkCt ((inner x * inner y + inner c1) mod M)) /\
  muladd2 x y c1 c2 = Ret (MkCt ((inner x * inner y + inner c1 + inner c2) / M),
                           MkCt ((inner x * inner y + inner c1 + inner c2) mod M)) /\
  exists hi lo, smul x y = Ret (hi, lo) /\
    wrap I64 (inner hi) * M + inner lo = wrap I64 (inner x) * wrap I64 (inner y).
Proof.
  intros Hx Hy H1 H2 Hc M. split_and!.
  - by apply (add_c_ok (t := U64) (w := U128)).
  - by apply (sub_b_ok (t := U64) (w := U128)).
  - by apply (wide_mul_ok (t := U64) (w := U128)).
  - by apply (muladd1_ok (t := U64) (w := U128)).
  - by apply (muladd2_ok (t := U64) (w := U128)).
  - destruct (smul_ok (t := U64) (st := I64) (sw := I128) x y) as (hi & lo & ? & ? & ? & ?).
    by exists hi, lo.
Qed.

(** Accumulators: at both widths [mul_acc] adds the exact product to the
    three-limb number modulo [2^(3w)] without panicking in any build, and
    [mul_double_acc] is two [mul_acc]s (so it adds twice the product). *)
Theorem mul_double_acc_equiv `{BuildProfile}
    (s : acc3 U64) (a b : Ct U64) (s32 : acc3 U32) (a32 b32 : Ct U32) :
  acc_wf s -> ct_wf a -> ct_wf b -> acc_wf s32 -> ct_wf a32 -> ct_wf b32 ->
  (exists s', mul_acc s a b = Ret s' /\ acc_wf s' /\
     acc_value s' = (acc_value s + inner a * inner b) mod 2 ^ 192) /\
  mul_double_acc s a b = (s1 ← mul_acc s a b; mul_acc s1 a b) /\
  (exists s', mul_acc32 s32 a32 b32 = Ret s' /\ acc_wf s' /\
     acc_value s' = (acc_value s32 + inner a32 * inner b32) mod 2 ^ 96) /\
  mul_double_acc32 s32 a32 b32 = (s1 ← mul_acc32 s32 a32 b32; mul_acc32 s1 a32 b32).
Proof.
  intros. split_and!.
  - by apply (mul_acc_ok (t := U64) (w := U128)).
  - by apply (mul_double_acc_twice (t := U64) (w := U128)).
  - by apply (mul_acc_ok (t := U32) (w := U64)).
  - by apply (mul_double_acc_twice (t := U32) (w := U64)).
Qed.

Lemma mul_double_acc_equiv_witness :
  let s := Acc3 (MkCt 1) (MkCt (tmax U64)) (MkCt (tmax U64)) in
  let s32 := Acc3 (t := U32) (MkCt 1) (MkCt (tmax U32)) (MkCt (tmax U32)) in
  @mul_double_acc debug_profile s (MkCt (tmax U64)) (MkCt 3)
  = (s1 ← @mul_acc debug_profile s (MkCt (tmax U64)) (MkCt 3);
     @mul_acc debug_profile s1 (MkCt (tmax U64)) (MkCt 3)).
Proof.
  intros s s32.
  apply (@mul_double_acc_equiv debug_profile s (MkCt (tmax U64)) (MkCt 3) s32 (MkCt 5) (MkCt 6));
    by apply (bool_decide_unpack _).
Defined.
