(* ===== verification/CopyDispatch.v ===== *)
(** * Copy kernels ([crates/platform/src/intrinsics/copy_dispatch.rs, copy_policy.rs])

    [CopyDispatcher::copy] picks, from the size [N] of a type, a kernel of
    128-bit loads and stores, and [SimdCopyPolicy] and [DefaultCopyPolicy] are
    the two copy policies of the rings and of the sequence lock.  Memory is one
    array of bytes and a pointer is an offset into it, so that a kernel that
    runs past the end of its value visibly touches the neighbouring bytes.  An
    access outside the array, and a [copy_nonoverlapping] with overlapping
    ranges, are undefined behaviour ([EUB]); a failed overflow check panics
    ([EPanic]); both carry the memory they leave. *)

From Stdlib Require Import ZArith Lia.
From stdpp Require Import base decidable numbers option tactics list.
From S2P Require Import Prelude.

(** * Memory *)

Abbreviation bytes := (list Z).

Inductive effect := EOk (m : bytes) | EPanic (m : bytes) | EUB (m : bytes).

#[global] Instance effect_eq_dec : EqDecision effect.
Proof. solve_decision. Defined.

(** Sequencing. *)
Definition then_ (e : effect) (k : bytes -> effect) : effect :=
  match e with EOk m => k m | _ => e end.

Definition read_bytes (m : bytes) (p n : nat) : bytes := take n (drop p m).
Definition write_bytes (m : bytes) (p : nat) (bs : bytes) : bytes := list_inserts p bs m.

Definition in_bounds (m : bytes) (p n : nat) : Prop := (p + n <= length m)%nat.
Definition disjoint_ranges (p q n : nat) : Prop := (p + n <= q \/ q + n <= p)%nat.

#[global] Instance in_bounds_dec m p n : Decision (in_bounds m p n).
Proof. unfold in_bounds. apply _. Defined.
#[global] Instance disjoint_ranges_dec p q n : Decision (disjoint_ranges p q n).
Proof. unfold disjoint_ranges. apply _. Defined.

(** [ptr::copy_nonoverlapping] on bytes. *)
Definition copy_nonoverlapping (dst src : nat) (count : Z) (m : bytes) : effect :=
  let n := Z.to_nat count in
  if decide (in_bounds m src n /\ in_bounds m dst n /\ disjoint_ranges dst src n)
  then EOk (write_bytes m dst (read_bytes m src n))
  else EUB m.

(** * Kernels *)

(** The 128-bit load, [None] when it leaves the array, and store. *)
Definition load128 (m : bytes) (src : nat) : option bytes :=
  if decide (in_bounds m src 16) then Some (read_bytes m src 16) else None.
Definition store128 (dst : nat) (v : bytes) (m : bytes) : effect :=
  if decide (in_bounds m dst 16) then EOk (write_bytes m dst v) else EUB m.

(** [define_copy_exact!]: the loop from chunk [i], [left] chunks to go. *)
Fixpoint copy_chunks (i left dst src : nat) (m : bytes) : effect :=
  match left with
  | O => EOk m
  | S left' =>
      match load128 m (src + i * 16) with
      | None => EUB m
      | Some v => then_ (store128 (dst + i * 16) v m) (copy_chunks (S i) left' dst src)
      end
  end.

Definition copy_16 : nat -> nat -> bytes -> effect := copy_chunks 0 1.
Definition copy_32 : nat -> nat -> bytes -> effect := copy_chunks 0 2.
Definition copy_48 : nat -> nat -> bytes -> effect := copy_chunks 0 3.
Definition copy_64 : nat -> nat -> bytes -> effect := copy_chunks 0 4.

Section dispatch.
Context `{BuildProfile}.

(** [copy_bucket::<BASE, N>]; the tail length [N - BASE] is a checked
    subtraction of [usize]. *)
Definition copy_bucket (BASE N : nat) (dst src : nat) (m : bytes) : effect :=
  then_ (match BASE with
         | 16 => copy_16 dst src m
         | 32 => copy_32 dst src m
         | 48 => copy_48 dst src m
         | _ => EOk m
         end) (fun m' =>
  match arith USIZE (Z.of_nat N - Z.of_nat BASE) with
  | Panic => EPanic m'
  | Ret tail => copy_nonoverlapping (dst + BASE) (src + BASE) tail m'
  end).

(** [CopyDispatcher::<T, N>::copy]; [simd] is
    [cfg(any(target_arch = "x86_64", target_arch = "aarch64"))]. *)
Definition dispatch_copy (simd : bool) (N : nat) (dst src : nat) (m : bytes) : effect :=
  if simd then
    if (N <=? 8)%nat then copy_nonoverlapping dst src (Z.of_nat N) m
    else if (N =? 16)%nat then copy_16 dst src m
    else if (N =? 32)%nat then copy_32 dst src m
    else if (N =? 48)%nat then copy_48 dst src m
    else if (N =? 64)%nat then copy_64 dst src m
    else if (N <? 32)%nat then copy_bucket 16 N dst src m
    else if (N <? 48)%nat then copy_bucket 32 N dst src m
    else if (N <? 64)%nat then copy_bucket 48 N dst src m
    else copy_nonoverlapping dst src (Z.of_nat N) m
  else copy_nonoverlapping dst src (Z.of_nat N) m.
End dispatch.

(** * Policies *)

(** [CopyPolicy<T>] for a type of [N] bytes. *)
Class CopyPolicy := {
  copy_in (N dst src : nat) (m : bytes) : effect;
  copy_out (N dst src : nat) (m : bytes) : effect;
}.

Definition DefaultCopyPolicy : CopyPolicy := {|
  copy_in N dst src m := copy_nonoverlapping dst src (Z.of_nat N) m;
  copy_out N dst src m := copy_nonoverlapping dst src (Z.of_nat N) m;
|}.

Definition SimdCopyPolicy `{BuildProfile} (simd : bool) : CopyPolicy := {|
  copy_in N dst src m := dispatch_copy simd N dst src m;
  copy_out N dst src m := dispatch_copy simd N dst src m;
|}.

(** What the callers rely on: the value is copied and nothing else changes. *)
Definition copies_value (N dst src : nat) (m : bytes) (e : effect) : Prop :=
  e = EOk (write_bytes m dst (read_bytes m src N)).

(** * Lemmas *)

Section theory.
Implicit Types m bs : bytes.

Lemma length_read m p n : in_bounds m p n -> length (read_bytes m p n) = n.
Proof. unfold in_bounds, read_bytes. rewrite length_take, length_drop. lia. Qed.

Lemma length_write m p bs : length (write_bytes m p bs) = length m.
Proof. apply length_inserts. Qed.

Lemma read_write_disjoint m p n q bs :
  (p + n <= q \/ q + length bs <= p)%nat -> read_bytes (write_bytes m q bs) p n = read_bytes m p n.
Proof.
  intros Hd. apply list_eq. intros i. unfold read_bytes, write_bytes.
  destruct (decide (i < n)%nat) as [Hi|Hi]; [|by rewrite !lookup_take_ge by lia].
  rewrite !lookup_take_lt, !lookup_drop by done.
  destruct Hd; [apply list_lookup_inserts_lt|apply list_lookup_inserts_ge]; lia.
Qed.

Lemma read_split m p a b : read_bytes m p (a + b) = read_bytes m p a ++ read_bytes m (p + a) b.
Proof. unfold read_bytes. by rewrite <- drop_drop, take_take_drop. Qed.

Lemma write_split m p bs bs' :
  write_bytes (write_bytes m p bs) (p + length bs) bs' = write_bytes m p (bs ++ bs').
Proof. unfold write_bytes. by rewrite list_inserts_app_l, Nat.add_comm. Qed.

Lemma copy_nonoverlapping_ok m dst src n :
  in_bounds m src n -> in_bounds m dst n -> disjoint_ranges dst src n ->
  copies_value n dst src m (copy_nonoverlapping dst src (Z.of_nat n) m).
Proof. intros. unfold copies_value, copy_nonoverlapping. rewrite Nat2Z.id. by rewrite decide_True. Qed.

(** The bytes copied so far, and the rest in one more write. *)
Lemma copy_extend m dst src a b :
  in_bounds m src (a + b) -> disjoint_ranges dst src (a + b) ->
  let m' := write_bytes m dst (read_bytes m src a) in
  write_bytes m' (dst + a) (read_bytes m' (src + a) b)
  = write_bytes m dst (read_bytes m src (a + b)).
Proof.
  intros Hs Hd m'. unfold disjoint_ranges, in_bounds in *.
  assert (length (read_bytes m src a) = a) as Hl by (apply length_read; unfold in_bounds; lia).
  unfold m'. rewrite read_write_disjoint by lia. rewrite read_split, <- write_split, Hl. done.
Qed.

Lemma copy_chunks_ok m dst src i left :
  in_bounds m src ((i + left) * 16) -> in_bounds m dst ((i + left) * 16) ->
  disjoint_ranges dst src ((i + left) * 16) ->
  copy_chunks i left dst src (write_bytes m dst (read_bytes m src (i * 16)))
  = EOk (write_bytes m dst (read_bytes m src ((i + left) * 16))).
Proof.
  revert i. induction left as [|left IH]; intros i Hs Hd Hdis; [by rewrite Nat.add_0_r|].
  unfold in_bounds, disjoint_ranges in *. cbn [copy_chunks]. unfold load128, store128.
  rewrite decide_True by (unfold in_bounds; rewrite length_write; lia).
  rewrite decide_True by (unfold in_bounds; rewrite length_write; lia). cbn [then_].
  rewrite copy_extend by (unfold in_bounds, disjoint_ranges; lia).
  replace (i * 16 + 16)%nat with (S i * 16)%nat by lia.
  replace (i + S left)%nat with (S i + left)%nat in * by lia. apply IH; lia.
Qed.

Lemma copy_kernel_ok m dst src k :
  in_bounds m src (k * 16) -> in_bounds m dst (k * 16) -> disjoint_ranges dst src (k * 16) ->
  copies_value (k * 16) dst src m (copy_chunks 0 k dst src m).
Proof. intros. by apply (copy_chunks_ok m dst src 0 k). Qed.

Lemma copy_bucket_ok `{BuildProfile} m dst src k N :
  (k = 1 \/ k = 2 \/ k = 3)%nat -> (k * 16 <= N)%nat -> (Z.of_nat N <= tmax U64)%Z ->
  in_bounds m src N -> in_bounds m dst N -> disjoint_ranges dst src N ->
  copies_value N dst src m (copy_bucket (k * 16) N dst src m).
Proof.
  intros Hk HN Hmax Hs Hd Hdis. unfold in_bounds, disjoint_ranges in *. unfold copy_bucket.
  assert ((match (k * 16)%nat with
           | 16 => copy_16 dst src m | 32 => copy_32 dst src m | 48 => copy_48 dst src m | _ => EOk m end)
          = copy_chunks 0 k dst src m) as -> by by destruct Hk as [->|[->| ->]].
  rewrite copy_kernel_ok by (unfold in_bounds, disjoint_ranges; lia). cbn [then_].
  rewrite arith_ok by mlia. rewrite <- Nat2Z.inj_sub by done.
  unfold copy_nonoverlapping, copies_value. rewrite Nat2Z.id, decide_True
    by (unfold in_bounds, disjoint_ranges; rewrite length_write; lia).
  f_equal. rewrite copy_extend by (unfold in_bounds, disjoint_ranges; lia).
  do 2 f_equal. lia.
Qed.
End theory.

(** The dispatcher copies a value of [N] bytes and nothing else, on every
    target and in every build, for every size outside 9 to 15. *)
Lemma dispatch_copy_ok `{BuildProfile} simd N dst src m :
  (N <= 8 \/ 16 <= N)%nat -> (Z.of_nat N <= tmax U64)%Z ->
  in_bounds m src N -> in_bounds m dst N -> disjoint_ranges dst src N ->
  copies_value N dst src m (dispatch_copy simd N dst src m).
Proof.
  intros HN Hmax Hs Hd Hdis. unfold dispatch_copy.
  destruct simd; [|by apply copy_nonoverlapping_ok].
  destruct (Nat.leb_spec N 8); [by apply copy_nonoverlapping_ok|].
  destruct (Nat.eqb_spec N 16) as [->|]; [by apply (copy_kernel_ok _ _ _ 1)|].
  destruct (Nat.eqb_spec N 32) as [->|]; [by apply (copy_kernel_ok _ _ _ 2)|].
  destruct (Nat.eqb_spec N 48) as [->|]; [by apply (copy_kernel_ok _ _ _ 3)|].
  destruct (Nat.eqb_spec N 64) as [->|]; [by apply (copy_kernel_ok _ _ _ 4)|].
  destruct (Nat.ltb_spec N 32); [apply (copy_bucket_ok _ _ _ 1); auto; lia|].
  destruct (Nat.ltb_spec N 48); [apply (copy_bucket_ok _ _ _ 2); auto; lia|].
  destruct (Nat.ltb_spec N 64); [apply (copy_bucket_ok _ _ _ 3); auto; lia|].
  by apply copy_nonoverlapping_ok.
Qed.

(** Sizes 9 to 15 fall into the 16-byte bucket: the kernel overwrites the
    bytes after the value, and the tail length underflows, which panics with
    overflow checks and is undefined behaviour without. *)
Lemma dispatch_copy_overrun `{BuildProfile} N dst src m :
  (8 < N < 16)%nat -> (Z.of_nat (length m) <= tmax I64)%Z ->
  in_bounds m src 16 -> in_bounds m dst 16 ->
  dispatch_copy true N dst src m =
  (if overflow_checks then EPanic else EUB) (write_bytes m dst (read_bytes m src 16)).
Proof.
  intros HN Hm Hs Hd. unfold dispatch_copy.
  rewrite (proj2 (Nat.leb_gt N 8)), !(proj2 (Nat.eqb_neq N _)), (proj2 (Nat.ltb_lt N 32)) by lia.
  unfold copy_bucket, copy_16. cbn [copy_chunks]. rewrite !Nat.add_0_r. unfold load128, store128.
  rewrite decide_True by done. rewrite decide_True by done. cbn [then_].
  unfold arith. rewrite decide_False by mlia. destruct overflow_checks; [done|].
  rewrite wrap_unsigned by done. cbn [bits].
  replace ((Z.of_nat N - Z.of_nat 16) mod 2 ^ 64)%Z with (Z.of_nat N - 16 + 2 ^ 64)%Z
    by (apply (Z.mod_unique_pos _ _ (-1)); lia).
  unfold copy_nonoverlapping. rewrite decide_False; [done|].
  intros [Hb _]. unfold in_bounds in Hb. rewrite length_write in Hb. mlia.
Qed.

(** * Properties *)

(** Both directions of a policy copy a value of [N] bytes and nothing else. *)
Definition policy_copies (P : CopyPolicy) (N dst src : nat) (m : bytes) : Prop :=
  copies_value N dst src m (copy_in N dst src m) /\ copies_value N dst src m (copy_out N dst src m).

(** C21.  Bounds of the copy kernels, for a value of [N] bytes whose source and
    destination are disjoint and lie in memory: reading in and writing out
    alike, the default policy, and the SIMD policy on targets without the vector
    kernels, copy exactly the value and leave every other byte alone, for every
    size; so does the SIMD policy on the vector targets for sizes up to 8 and
    from 16 on.  For sizes 9 to 15 it copies 16 bytes there, past the end of the
    value, and then panics (with overflow checks) or runs into undefined
    behaviour. *)
Theorem copy_policies_bounds `{BuildProfile} (N dst src : nat) (m : bytes) :
  in_bounds m src N -> in_bounds m dst N -> disjoint_ranges dst src N ->
  (Z.of_nat (length m) <= tmax I64)%Z ->
  policy_copies DefaultCopyPolicy N dst src m /\
  policy_copies (SimdCopyPolicy false) N dst src m /\
  if decide (8 < N < 16)%nat then
    in_bounds m src 16 -> in_bounds m dst 16 ->
    let overrun := (if overflow_checks then EPanic else EUB) (write_bytes m dst (read_bytes m src 16)) in
    copy_in (CopyPolicy := SimdCopyPolicy true) N dst src m = overrun /\
    copy_out (CopyPolicy := SimdCopyPolicy true) N dst src m = overrun
  else policy_copies (SimdCopyPolicy true) N dst src m.
Proof.
  intros Hs Hd Hdis Hm. cbn [tmax] in Hm.
  assert ((Z.of_nat N <= tmax U64)%Z) by (unfold in_bounds in Hs; cbn; lia).
  split; [by split; apply copy_nonoverlapping_ok|]. split; [by split; apply copy_nonoverlapping_ok|].
  case_decide as HN.
  - intros Hs16 Hd16. split; by apply dispatch_copy_overrun.
  - split; apply dispatch_copy_ok; done || lia.
Qed.

(** Twelve bytes of [1] copied next to bytes of [9]: four of them change. *)
Lemma copy_policies_bounds_witness :
  let m := replicate 16 1%Z ++ replicate 16 9%Z ++ replicate 16 0%Z in
  copy_out (CopyPolicy := @SimdCopyPolicy debug_profile true) 12 16 0 m
  = EPanic (replicate 32 1%Z ++ replicate 16 0%Z) /\
  policy_copies (@SimdCopyPolicy debug_profile true) 24 24 0 m.
Proof.
  intros m. split.
  - apply (proj2 (@copy_policies_bounds debug_profile 12 16 0 m
      ltac:(by apply (bool_decide_unpack _)) ltac:(by apply (bool_decide_unpack _))
      ltac:(by apply (bool_decide_unpack _)) ltac:(by apply (bool_decide_unpack _))));
      by apply (bool_decide_unpack _).
  - apply (proj2 (@copy_policies_bounds debug_profile 24 24 0 m
      ltac:(by apply (bool_decide_unpack _)) ltac:(by apply (bool_decide_unpack _))
      ltac:(by apply (bool_decide_unpack _)) ltac:(by apply (bool_decide_unpack _)))).
Defined.
