(* ===== verification/Fixed.v ===== *)
(** * Fixed-point decimals ([crates/fixed]: fixed_i64.rs, arithmetic.rs,
    mul_div.rs, convert.rs)

    [FixedI64 D] is the source's const-generic newtype over [i64]; a value
    stands for [raw / 10^D].  Every operation is translated with the width of
    its intermediate values: products and biased products at [i128], the
    decomposed 128-by-64 division at [u64]/[u128]. *)

From stdpp Require Import base decidable list numbers option tactics.
From Stdlib Require Import ZArith Lia.
From S2P Require Import Prelude Platform.

#[local] Open Scope Z_scope.

(** ** fixed_i64.rs *)

Record FixedI64 (D : Z) := from_raw { to_raw : Z }.
Arguments from_raw {D} _.
Arguments to_raw {D} _.

#[global] Instance FixedI64_eq_dec D : EqDecision (FixedI64 D).
Proof. solve_decision. Defined.

(** [_BOUND_CHECK]: a scale above 18 does not compile. *)
Class Scale (D : Z) := scale_ok : valid_exp D.

(** The associated constant [SCALE = pow10_i64(D)], evaluated at compile time. *)
Definition SCALE (D : Z) : Z := default 0 (POW10_I64 !! Z.to_nat D).

Definition fixed_ZERO {D} : FixedI64 D := from_raw 0.
Definition fixed_ONE {D} : FixedI64 D := from_raw (SCALE D).
Definition fixed_MIN {D} : FixedI64 D := from_raw (tmin I64).
Definition fixed_MAX {D} : FixedI64 D := from_raw (tmax I64).

Definition from_int {D} (val : Z) : option (FixedI64 D) :=
  from_raw <$> checked I64 (val * SCALE D).

Definition fixed_is_zero {D} (x : FixedI64 D) : bool := to_raw x =? 0.
Definition is_negative {D} (x : FixedI64 D) : bool := to_raw x <? 0.
Definition is_positive {D} (x : FixedI64 D) : bool := 0 <? to_raw x.

(** The type invariant: the raw value is an [i64]. *)
Definition fixed_wf {D} (x : FixedI64 D) : Prop := in_range I64 (to_raw x).

(** ** arithmetic.rs *)

Section arithmetic.
Context `{BuildProfile} {D : Z}.
Implicit Types x y : FixedI64 D.

Definition fixed_add x y : outcome (FixedI64 D) := from_raw <$> arith I64 (to_raw x + to_raw y).
Definition fixed_sub x y : outcome (FixedI64 D) := from_raw <$> arith I64 (to_raw x - to_raw y).
Definition fixed_neg x : outcome (FixedI64 D) := from_raw <$> arith I64 (- to_raw x).

Definition checked_add x y : option (FixedI64 D) := from_raw <$> checked I64 (to_raw x + to_raw y).
Definition checked_sub x y : option (FixedI64 D) := from_raw <$> checked I64 (to_raw x - to_raw y).
Definition checked_neg x : option (FixedI64 D) := from_raw <$> checked I64 (- to_raw x).
Definition saturating_add x y : FixedI64 D := from_raw (saturate I64 (to_raw x + to_raw y)).
Definition saturating_sub x y : FixedI64 D := from_raw (saturate I64 (to_raw x - to_raw y)).
Definition wrapping_add x y : FixedI64 D := from_raw (wrap I64 (to_raw x + to_raw y)).
Definition wrapping_sub x y : FixedI64 D := from_raw (wrap I64 (to_raw x - to_raw y)).
Definition wrapping_neg x : FixedI64 D := from_raw (wrap I64 (- to_raw x)).
Definition checked_abs x : option (FixedI64 D) := from_raw <$> checked I64 (Z.abs (to_raw x)).
Definition saturating_abs x : FixedI64 D := from_raw (saturate I64 (Z.abs (to_raw x))).
End arithmetic.

(** ** mul_div.rs: the decomposed division *)

Section wide_division.
Context `{BuildProfile}.

(** Schoolbook division of [hi:lo] by [d] over 32-bit halves of [lo].  The
    result is [(quotient_hi, quotient_lo, remainder)]. *)
Definition div_u128_by_u64 (hi lo d : Z) : outcome (Z * Z * Z) :=
  q_hi ← div_op U64 hi d;
  r_hi ← rem_op U64 hi d;
  let lo_upper := Z.shiftr lo 32 in
  let lo_lower := Z.land lo 4294967295 in
  let mid_num := Z.lor (wrap U128 (Z.shiftl r_hi 32)) lo_upper in
  q_mid0 ← div_op U128 mid_num d;
  r_mid0 ← rem_op U128 mid_num d;
  let q_mid := wrap U64 q_mid0 in
  let r_mid := wrap U64 r_mid0 in
  let low_num := Z.lor (wrap U128 (Z.shiftl r_mid 32)) lo_lower in
  q_low0 ← div_op U128 low_num d;
  rem0 ← rem_op U128 low_num d;
  let q_low := wrap U64 q_low0 in
  let rem := wrap U64 rem0 in
  let q_lo := Z.lor (wrap U64 (Z.shiftl q_mid 32)) q_low in
  Ret (q_hi, q_lo, rem).

(** Bitwise complement at width [t]. *)
Definition not_u64 (z : Z) : Z := wrap U64 (Z.lnot z).
Definition not_i64 (z : Z) : Z := Z.lnot z.

Definition div_wide_by_const (hi lo d : Z) : outcome (Z * Z) :=
  let negative := hi <? 0 in
  let '(abs_lo, abs_hi) :=
    if negative then
      let not_lo := not_u64 lo in
      let neg_lo := wrap U64 (not_lo + 1) in
      let carry := bool_decide (~ in_range U64 (not_lo + 1)) in
      let neg_hi := wrap U64 (wrap U64 (not_i64 hi) + (if carry then 1 else 0)) in
      (neg_lo, neg_hi)
    else (lo, wrap U64 hi) in
  '(q_hi, q_lo, rem) ← div_u128_by_u64 abs_hi abs_lo (wrap U64 d);
  let abs_quot := Z.lor (wrap U128 (Z.shiftl q_hi 64)) q_lo in
  if negative then
    q ← arith I128 (- wrap I128 abs_quot);
    r ← arith I64 (- wrap I64 rem);
    Ret (q, r)
  else Ret (wrap I128 abs_quot, wrap I64 rem).
End wide_division.

(** The guard [result > MAX || result < MIN] with the narrowing cast. *)
Definition narrow {D} (result : Z) : option (FixedI64 D) :=
  if (tmax I64 <? result) || (result <? tmin I64) then None
  else Some (from_raw (wrap I64 result)).

(** ** mul_div.rs: multiplication and division *)

Section mul_div.
Context `{BuildProfile} {D : Z}.
Implicit Types x y : FixedI64 D.

Definition checked_mul_trunc x y : outcome (option (FixedI64 D)) :=
  wide ← arith I128 (to_raw x * to_raw y);
  let hi := wrap I64 (Z.shiftr wide 64) in
  let lo := wrap U64 wide in
  '(result, _) ← div_wide_by_const hi lo (SCALE D);
  Ret (narrow result).

Definition checked_mul_round x y : outcome (option (FixedI64 D)) :=
  wide ← arith I128 (to_raw x * to_raw y);
  half ← div_op I128 (SCALE D) 2;
  biased ← (if 0 <=? wide then arith I128 (wide + half) else arith I128 (wide - half));
  let hi := wrap I64 (Z.shiftr biased 64) in
  let lo := wrap U64 biased in
  '(result, _) ← div_wide_by_const hi lo (SCALE D);
  Ret (narrow result).

Definition saturating_mul_trunc x y : outcome (FixedI64 D) :=
  r ← checked_mul_trunc x y;
  match r with
  | Some v => Ret v
  | None =>
      let sign_a := 0 <=? to_raw x in
      let sign_b := 0 <=? to_raw y in
      Ret (if Bool.eqb sign_a sign_b then fixed_MAX else fixed_MIN)
  end.

Definition checked_div_trunc x y : outcome (option (FixedI64 D)) :=
  if to_raw y =? 0 then Ret None else
  wide ← arith I128 (to_raw x * SCALE D);
  result ← div_op I128 wide (to_raw y);
  Ret (narrow result).

Definition checked_div_round x y : outcome (option (FixedI64 D)) :=
  if to_raw y =? 0 then Ret None else
  wide ← arith I128 (to_raw x * SCALE D);
  let divisor := to_raw y in
  abs_div_half ← (if divisor <? 0 then nd ← arith I128 (- divisor); div_op I128 nd 2
                  else div_op I128 divisor 2);
  biased ← (if 0 <=? wide then arith I128 (wide + abs_div_half)
            else arith I128 (wide - abs_div_half));
  result ← div_op I128 biased divisor;
  Ret (narrow result).

Definition checked_mul_int x (rhs : Z) : option (FixedI64 D) :=
  from_raw <$> checked I64 (to_raw x * rhs).

(** Only a zero divisor is guarded; the division itself is the plain [/]. *)
Definition checked_div_int x (rhs : Z) : outcome (option (FixedI64 D)) :=
  if rhs =? 0 then Ret None else (fun q => Some (from_raw q)) <$> div_op I64 (to_raw x) rhs.

Definition saturating_mul_int x (rhs : Z) : FixedI64 D :=
  from_raw (saturate I64 (to_raw x * rhs)).
End mul_div.

(** ** convert.rs *)

Section convert.
Context `{BuildProfile} {D : Z} (D2 : Z).
Implicit Types x : FixedI64 D.

Definition rescale_trunc x : outcome (option (FixedI64 D2)) :=
  if D2 =? D then Ret (Some (from_raw (to_raw x))) else
  let raw := to_raw x in
  if D <? D2 then
    e ← arith U8 (D2 - D);
    factor ← pow10_i64 e;
    result ← arith I128 (raw * factor);
    Ret (narrow result)
  else
    e ← arith U8 (D - D2);
    factor ← pow10_i64 e;
    result ← div_op I128 raw factor;
    Ret (narrow result).

Definition rescale_round x : outcome (option (FixedI64 D2)) :=
  if D2 =? D then Ret (Some (from_raw (to_raw x))) else
  let raw := to_raw x in
  if D <? D2 then
    e ← arith U8 (D2 - D);
    factor ← pow10_i64 e;
    result ← arith I128 (raw * factor);
    Ret (narrow result)
  else
    e ← arith U8 (D - D2);
    factor ← pow10_i64 e;
    half ← div_op I128 factor 2;
    biased ← (if 0 <=? raw then arith I128 (raw + half) else arith I128 (raw - half));
    result ← div_op I128 biased factor;
    Ret (narrow result).

Definition checked_rescale_exact x : outcome (option (FixedI64 D2)) :=
  if D2 =? D then Ret (Some (from_raw (to_raw x))) else
  let raw := to_raw x in
  if D <? D2 then
    e ← arith U8 (D2 - D);
    factor ← pow10_i64 e;
    result ← arith I128 (raw * factor);
    Ret (narrow result)
  else
    e ← arith U8 (D - D2);
    factor ← pow10_i64 e;
    r ← rem_op I128 raw factor;
    if negb (r =? 0) then Ret None else
    result ← div_op I128 raw factor;
    Ret (narrow result).
End convert.

(** * Lemmas *)

Lemma SCALE_pow D `{!Scale D} : SCALE D = 10 ^ D.
Proof. unfold SCALE. by rewrite (POW10_lookup D scale_ok). Qed.

Lemma SCALE_bounds D `{!Scale D} : 1 <= SCALE D <= 1000000000000000000.
Proof. rewrite SCALE_pow by done. apply pow10_bounds, scale_ok. Qed.

Lemma narrow_checked {D} z : @narrow D z = from_raw <$> checked I64 z.
Proof.
  unfold narrow, checked. destruct (Z.ltb_spec (tmax I64) z), (Z.ltb_spec z (tmin I64));
    cbn [orb]; case_decide; try mlia; try done.
  by rewrite wrap_id.
Qed.

Section wide_division_lemmas.
Context `{BuildProfile}.

(** One 32-bit digit of the long division. *)
Lemma div_digit r l d :
  0 < d -> in_range U64 d -> 0 <= r < d -> 0 <= l < 2 ^ 32 ->
  let n := Z.lor (wrap U128 (Z.shiftl r 32)) l in
  n = r * 2 ^ 32 + l /\ in_range U128 n /\ 0 <= n / d < 2 ^ 32.
Proof.
  intros Hd Hd' Hr Hl. cbn zeta. rewrite Z.shiftl_mul_pow2 by lia.
  rewrite wrap_id by mlia. rewrite lor_shifted_add by lia.
  split; [done|]. split; [mlia|]. split; [apply Z.div_pos; lia|].
  apply Z.div_lt_upper_bound; lia.
Qed.

Lemma div_u128_by_u64_ok hi lo d :
  in_range U64 hi -> in_range U64 lo -> 0 < d -> in_range U64 d ->
  div_u128_by_u64 hi lo d =
    Ret (hi / d, (hi mod d * 2 ^ 64 + lo) / d, (hi mod d * 2 ^ 64 + lo) mod d).
Proof.
  intros Hhi Hlo Hd Hd'. unfold div_u128_by_u64.
  rewrite (udiv_op_ok U64 hi), (urem_op_ok U64 hi) by done. cbn [mbind outcome_bind].
  rewrite Z.shiftr_div_pow2 by lia. change 4294967295 with (Z.ones 32).
  rewrite Z.land_ones by lia.
  pose proof (Z.mod_pos_bound hi d Hd) as Hr0. set (r0 := hi mod d) in *.
  assert (0 <= lo / 2 ^ 32 < 2 ^ 32) as Hlu
    by (split; [apply Z.div_pos; mlia|apply Z.div_lt_upper_bound; mlia]).
  pose proof (Z.mod_pos_bound lo (2 ^ 32) ltac:(lia)) as Hll.
  destruct (div_digit r0 (lo / 2 ^ 32) d Hd Hd' Hr0 Hlu) as (Emid & Hmid & Hqm).
  set (mid := Z.lor (wrap U128 (Z.shiftl r0 32)) (lo / 2 ^ 32)) in *.
  rewrite (udiv_op_ok U128 mid), (urem_op_ok U128 mid) by done. cbn [mbind outcome_bind].
  pose proof (Z.mod_pos_bound mid d Hd) as Hrm.
  rewrite (wrap_id U64 (mid / d)), (wrap_id U64 (mid mod d)) by mlia.
  destruct (div_digit (mid mod d) (lo mod 2 ^ 32) d Hd Hd' Hrm Hll) as (Elow & Hlow & Hql).
  set (low := Z.lor (wrap U128 (Z.shiftl (mid mod d) 32)) (lo mod 2 ^ 32)) in *.
  rewrite (udiv_op_ok U128 low), (urem_op_ok U128 low) by done. cbn [mbind outcome_bind].
  pose proof (Z.mod_pos_bound low d Hd) as Hrl.
  rewrite (wrap_id U64 (low / d)), (wrap_id U64 (low mod d)) by mlia.
  rewrite (Z.shiftl_mul_pow2 (mid / d)) by lia. rewrite wrap_id, lor_shifted_add by mlia.
  assert (r0 * 2 ^ 64 + lo = d * (mid / d * 2 ^ 32 + low / d) + low mod d) as Hdec.
  { pose proof (Z.div_mod mid d ltac:(lia)). pose proof (Z.div_mod low d ltac:(lia)).
    pose proof (Z.div_mod lo (2 ^ 32) ltac:(lia)). lia. }
  do 2 f_equal; [f_equal|].
  - by apply (Z.div_unique_pos _ _ _ (low mod d)).
  - by apply (Z.mod_unique_pos _ _ (mid / d * 2 ^ 32 + low / d)).
Qed.

(** The two's-complement negation over the two halves of a negative wide
    value, and the identity on a non-negative one, give the halves of its
    absolute value. *)
Lemma abs_halves hi lo :
  in_range I64 hi -> in_range U64 lo ->
  exists alo ahi,
    (if hi <? 0 then
      (wrap U64 (not_u64 lo + 1),
       wrap U64 (wrap U64 (not_i64 hi) +
         (if bool_decide (~ in_range U64 (not_u64 lo + 1)) then 1 else 0)))
     else (lo, wrap U64 hi)) = (alo, ahi)
    /\ in_range U64 alo /\ in_range U64 ahi
    /\ ahi * 2 ^ 64 + alo = Z.abs (hi * 2 ^ 64 + lo).
Proof.
  intros Hhi Hlo. destruct (Z.ltb_spec hi 0) as [Hneg|Hpos].
  - assert (not_u64 lo = 2 ^ 64 - 1 - lo) as Enl.
    { unfold not_u64. rewrite <- (wrap_add_multiple U64 _ 1).
      unfold Z.lnot. change (2 ^ bits U64) with (2 ^ 64). rewrite wrap_id; mlia. }
    assert (wrap U64 (not_i64 hi) = - hi - 1) as Enh
      by (unfold not_i64, Z.lnot; rewrite wrap_id; mlia).
    rewrite Enl, Enh. case_bool_decide as Hc.
    + assert (lo = 0) as -> by (apply dec_stable; intros ?; apply Hc; mlia).
      exists 0, (- hi). split; [|split; [mlia|split; [mlia|mlia]]].
      f_equal. rewrite wrap_id; mlia.
    + exists (2 ^ 64 - lo), (- hi - 1).
      split; [|mlia]. f_equal; rewrite wrap_id; mlia.
  - exists lo, hi. split; [by rewrite wrap_id by mlia|]. mlia.
Qed.

(** Putting the two quotient digits together. *)
Lemma digits_div ahi alo d :
  in_range U64 ahi -> in_range U64 alo -> 0 < d -> in_range I64 d ->
  Z.lor (wrap U128 (Z.shiftl (ahi / d) 64)) ((ahi mod d * 2 ^ 64 + alo) / d)
    = (ahi * 2 ^ 64 + alo) / d
  /\ (ahi mod d * 2 ^ 64 + alo) mod d = (ahi * 2 ^ 64 + alo) mod d.
Proof.
  intros Hhi Hlo Hd Hd'.
  assert (0 <= ahi / d < 2 ^ 64) as Hqh
    by (split; [apply Z.div_pos; mlia|apply Z.div_lt_upper_bound; mnia]).
  pose proof (Z.mod_pos_bound ahi d Hd) as Hrh.
  set (m := ahi mod d * 2 ^ 64 + alo) in *.
  assert (0 <= m / d < 2 ^ 64) as Hql
    by (split; [apply Z.div_pos; mlia|apply Z.div_lt_upper_bound; mlia]).
  pose proof (Z.mod_pos_bound m d Hd) as Hrl.
  assert (ahi * 2 ^ 64 + alo = d * (ahi / d * 2 ^ 64 + m / d) + m mod d).
  { pose proof (Z.div_mod ahi d ltac:(lia)). pose proof (Z.div_mod m d ltac:(lia)). lia. }
  rewrite Z.shiftl_mul_pow2, (wrap_id U128), lor_shifted_add by mlia. split.
  - by apply (Z.div_unique_pos _ _ _ (m mod d)).
  - by apply (Z.mod_unique_pos _ _ (ahi / d * 2 ^ 64 + m / d)).
Qed.

(** The two's-complement split and the decomposed division together compute
    the truncating division of the wide value. *)
Lemma div_wide_by_const_ok w d :
  -2 ^ 127 < w < 2 ^ 127 -> 0 < d -> in_range I64 d ->
  div_wide_by_const (wrap I64 (Z.shiftr w 64)) (wrap U64 w) d = Ret (Z.quot w d, Z.rem w d).
Proof.
  intros Hw Hd Hd'. unfold div_wide_by_const. rewrite Z.shiftr_div_pow2 by lia.
  pose proof (Z.div_mod w (2 ^ 64) ltac:(lia)) as Hdm.
  pose proof (Z.mod_pos_bound w (2 ^ 64) ltac:(lia)) as Hm.
  rewrite (wrap_unsigned U64 w) by done. change (2 ^ bits U64) with (2 ^ 64).
  set (hi := w / 2 ^ 64) in *. set (lo := w mod 2 ^ 64) in *.
  rewrite (wrap_id I64 hi), (wrap_id U64 d) by mlia.
  destruct (abs_halves hi lo) as (alo & ahi & E & Hlo & Hhi & Eabs); [mlia..|].
  replace (hi * 2 ^ 64 + lo) with w in Eabs by lia.
  cbn zeta. rewrite E. rewrite div_u128_by_u64_ok by mlia. cbn [mbind outcome_bind].
  destruct (digits_div ahi alo d Hhi Hlo Hd Hd') as [-> ->]. rewrite Eabs.
  pose proof (Z.mod_pos_bound (Z.abs w) d Hd).
  assert (0 <= Z.abs w / d <= Z.abs w)
    by (split; [apply Z.div_pos; lia|apply Z.div_le_upper_bound; nia]).
  rewrite (wrap_id I128), (wrap_id I64) by mlia.
  rewrite Z.quot_div, Z.rem_mod, (Z.sgn_pos d), (Z.abs_eq d) by lia.
  destruct (Z.ltb_spec hi 0).
  - rewrite (arith_ok I128), (arith_ok I64) by mlia. cbn [mbind outcome_bind].
    rewrite (Z.sgn_neg w) by lia. do 2 f_equal; lia.
  - destruct (decide (w = 0)) as [->|]; [by rewrite Z.div_0_l, Z.mod_0_l by lia|].
    rewrite (Z.sgn_pos w) by lia. do 2 f_equal; lia.
Qed.
End wide_division_lemmas.

(** * Theorems *)

Section fixed_theorems.
Context `{BuildProfile}.

(** Half a positive divisor, as the code computes it. *)
Lemma half_ok d : 0 < d -> in_range I64 d -> div_op I128 d 2 = Ret (Z.quot (Z.abs d) 2).
Proof.
  intros Hd Hd'. rewrite Z.abs_eq by lia.
  pose proof (Z.quot_pos d 2 ltac:(lia) ltac:(lia)). pose proof (Z.quot_lt d 2 ltac:(lia) ltac:(lia)).
  apply div_op_ok; mlia.
Qed.

(** The sign-aware bias stays in [i128] and selects [round_away]'s numerator. *)
Lemma bias_ok w h :
  Z.abs w <= 2 ^ 126 -> 0 <= h <= 2 ^ 63 ->
  (if 0 <=? w then arith I128 (w + h) else arith I128 (w - h))
  = Ret (if 0 <=? w then w + h else w - h).
Proof. intros. destruct (Z.leb_spec 0 w); apply arith_ok; mlia. Qed.

Lemma quot_i128 w d : Z.abs w < 2 ^ 127 -> d <> 0 -> div_op I128 w d = Ret (Z.quot w d).
Proof.
  intros Hw Hd. apply div_op_ok; [done|].
  pose proof (Z.quot_abs w d Hd) as E.
  assert (Z.abs w ÷ Z.abs d <= Z.abs w)
    by (rewrite Z.quot_div_nonneg by lia; apply Z.div_le_upper_bound; nia).
  mlia.
Qed.

Lemma raw_product {D} (x y : FixedI64 D) :
  fixed_wf x -> fixed_wf y -> Z.abs (to_raw x * to_raw y) <= 2 ^ 126.
Proof.
  unfold fixed_wf. intros Hx Hy. rewrite Z.abs_mul.
  assert (Z.abs (to_raw x) <= 2 ^ 63 /\ Z.abs (to_raw y) <= 2 ^ 63) as [] by mlia.
  change (2 ^ 126) with (2 ^ 63 * 2 ^ 63). apply Z.mul_le_mono_nonneg; lia.
Qed.

Lemma raw_scaled {D} `{!Scale D} (x : FixedI64 D) :
  fixed_wf x -> Z.abs (to_raw x * SCALE D) <= 2 ^ 126.
Proof.
  unfold fixed_wf. intros Hx. pose proof (SCALE_bounds D). rewrite Z.abs_mul.
  assert (Z.abs (to_raw x) <= 2 ^ 63) by mlia.
  change (2 ^ 126) with (2 ^ 63 * 2 ^ 63). apply Z.mul_le_mono_nonneg; lia.
Qed.

Lemma checked_mul_trunc_ok {D} `{!Scale D} (x y : FixedI64 D) :
  fixed_wf x -> fixed_wf y ->
  checked_mul_trunc x y = Ret (from_raw <$> checked I64 (Z.quot (to_raw x * to_raw y) (SCALE D))).
Proof.
  intros Hx Hy. pose proof (raw_product x y Hx Hy). pose proof (SCALE_bounds D).
  unfold checked_mul_trunc. rewrite arith_ok by mlia. cbn [mbind outcome_bind].
  rewrite div_wide_by_const_ok by mlia. cbn [mbind outcome_bind]. by rewrite narrow_checked.
Qed.

(** C1: multiplication through the decomposed 128-by-64 division never
    panics, in either build profile, and equals the exact mathematical
    product divided by [10^D]: [checked_mul_trunc] truncates toward zero,
    [checked_mul_round] rounds to nearest with ties away from zero, and both
    return [None] exactly when that quotient is not an [i64]. *)
Theorem checked_mul_exact {D} `{!Scale D} (x y : FixedI64 D) :
  fixed_wf x -> fixed_wf y ->
  checked_mul_trunc x y = Ret (from_raw <$> checked I64 (Z.quot (to_raw x * to_raw y) (10 ^ D)))
  /\ checked_mul_round x y = Ret (from_raw <$> checked I64 (round_away (to_raw x * to_raw y) (10 ^ D))).
Proof.
  intros Hx Hy. rewrite <- SCALE_pow by done. split; [by apply checked_mul_trunc_ok|].
  pose proof (raw_product x y Hx Hy). pose proof (SCALE_bounds D).
  unfold checked_mul_round. set (w := to_raw x * to_raw y) in *.
  rewrite arith_ok by mlia. cbn [mbind outcome_bind].
  rewrite half_ok by mlia. cbn [mbind outcome_bind].
  assert (0 <= Z.quot (Z.abs (SCALE D)) 2 <= 2 ^ 63) as Hh.
  { rewrite Z.quot_div_nonneg by lia.
    split; [apply Z.div_pos; lia|apply Z.div_le_upper_bound; lia]. }
  rewrite bias_ok by done. cbn [mbind outcome_bind].
  rewrite div_wide_by_const_ok by (destruct (Z.leb_spec 0 w); mlia). cbn [mbind outcome_bind].
  by rewrite narrow_checked, round_away_bias by lia.
Qed.

(** C2: division widens to [i128] without overflow; a zero divisor gives
    [None], otherwise the exact quotient of [x * 10^D] by the raw divisor,
    truncated respectively rounded to nearest with ties away from zero, or
    [None] when it does not fit. *)
Theorem checked_div_exact {D} `{!Scale D} (x y : FixedI64 D) :
  fixed_wf x -> fixed_wf y ->
  checked_div_trunc x y
    = Ret (if to_raw y =? 0 then None
           else from_raw <$> checked I64 (Z.quot (to_raw x * 10 ^ D) (to_raw y)))
  /\ checked_div_round x y
    = Ret (if to_raw y =? 0 then None
           else from_raw <$> checked I64 (round_away (to_raw x * 10 ^ D) (to_raw y))).
Proof.
  intros Hx Hy. pose proof (raw_scaled x Hx). rewrite <- SCALE_pow by done.
  unfold checked_div_trunc, checked_div_round. set (w := to_raw x * SCALE D) in *.
  destruct (Z.eqb_spec (to_raw y) 0) as [|Hy0]; [done|].
  rewrite !(arith_ok I128 w) by mlia. cbn [mbind outcome_bind]. split.
  - rewrite quot_i128 by lia. cbn [mbind outcome_bind]. by rewrite narrow_checked.
  - unfold fixed_wf in Hy.
    assert ((if to_raw y <? 0 then nd ← arith I128 (- to_raw y); div_op I128 nd 2
             else div_op I128 (to_raw y) 2) = Ret (Z.quot (Z.abs (to_raw y)) 2)) as Eh.
    { destruct (Z.ltb_spec (to_raw y) 0).
      - rewrite arith_ok by mlia. cbn [mbind outcome_bind].
        rewrite quot_i128 by mlia. do 2 f_equal. lia.
      - rewrite quot_i128 by mlia. do 2 f_equal. lia. }
    rewrite Eh. cbn [mbind outcome_bind].
    assert (0 <= Z.quot (Z.abs (to_raw y)) 2 <= 2 ^ 63) as Hh.
    { rewrite Z.quot_div_nonneg by lia.
      split; [apply Z.div_pos; lia|apply Z.div_le_upper_bound; mlia]. }
    rewrite bias_ok by done. cbn [mbind outcome_bind].
    rewrite quot_i128 by (destruct (Z.leb_spec 0 w); mlia). cbn [mbind outcome_bind].
    by rewrite narrow_checked, round_away_bias.
Qed.

(** Saturating multiplication never panics and clamps the exact truncated
    product to the [i64] range: the sign test on the operands picks the side
    on which the quotient overflowed. *)
Theorem saturating_mul_trunc_clamps {D} `{!Scale D} (x y : FixedI64 D) :
  fixed_wf x -> fixed_wf y ->
  saturating_mul_trunc x y = Ret (from_raw (saturate I64 (Z.quot (to_raw x * to_raw y) (10 ^ D)))).
Proof.
  intros Hx Hy. rewrite <- SCALE_pow by done. pose proof (SCALE_bounds D).
  unfold saturating_mul_trunc. rewrite checked_mul_trunc_ok by done. cbn [mbind outcome_bind].
  set (q := Z.quot (to_raw x * to_raw y) (SCALE D)). unfold checked. case_decide as Hq; cbn.
  - by rewrite saturate_id.
  - assert (q = Z.sgn (to_raw x * to_raw y) * (Z.abs (to_raw x * to_raw y) / SCALE D)) as Eq.
    { unfold q. rewrite Z.quot_div, (Z.sgn_pos (SCALE D)), (Z.abs_eq (SCALE D)) by lia. lia. }
    assert (0 <= Z.abs (to_raw x * to_raw y) / SCALE D) by (apply Z.div_pos; lia).
    do 2 f_equal. unfold saturate, fixed_MAX, fixed_MIN.
    destruct (Z.leb_spec 0 (to_raw x)), (Z.leb_spec 0 (to_raw y)); cbn [Bool.eqb];
      f_equal; destruct (Z.sgn_spec (to_raw x * to_raw y)) as [[? Es]|[[? Es]|[? Es]]];
      rewrite Es in Eq; mnia.
Qed.

(** [checked_div_int] returns [None] for a zero divisor and the exact
    truncated quotient otherwise, with one exception: [MIN / -1] overflows
    and the unguarded [/] panics, in every build profile, although the
    function is the checked variant. *)
Theorem checked_div_int_cases {D} (x : FixedI64 D) (rhs : Z) :
  fixed_wf x -> in_range I64 rhs ->
  checked_div_int x rhs =
    if rhs =? 0 then Ret None
    else if (to_raw x =? tmin I64) && (rhs =? -1) then Panic
    else Ret (Some (from_raw (Z.quot (to_raw x) rhs))).
Proof.
  unfold fixed_wf. intros Hx Hr. unfold checked_div_int.
  destruct (Z.eqb_spec rhs 0) as [|Hr0]; [done|].
  destruct ((to_raw x =? tmin I64) && (rhs =? -1)) eqn:E.
  - apply andb_true_iff in E as [E1%Z.eqb_eq E2%Z.eqb_eq]. rewrite E1, E2. done.
  - assert (in_range I64 (Z.quot (to_raw x) rhs)) as Hq; [|by rewrite div_op_ok].
    apply andb_false_iff in E. rewrite !Z.eqb_neq in E.
    pose proof (Z.quot_abs (to_raw x) rhs Hr0) as Ea.
    rewrite Z.quot_div_nonneg in Ea by lia.
    destruct (decide (Z.abs rhs = 1)) as [E1|].
    + assert (rhs = 1 \/ rhs = -1) as [->| ->] by lia.
      * rewrite Z.quot_1_r. done.
      * rewrite (Z.quot_opp_r _ 1), Z.quot_1_r by lia. mlia.
    + assert (Z.abs (to_raw x) / Z.abs rhs <= 2 ^ 62) by (apply Z.div_le_upper_bound; mnia).
      mlia.
Qed.
End fixed_theorems.

Section rescale_theorems.
Context `{BuildProfile} {D D2 : Z} `{!Scale D, !Scale D2}.
Implicit Types x : FixedI64 D.

(** The scale change as a ratio of the two scales: widening multiplies by an
    integer, narrowing divides by one. *)
Lemma rescale_widen raw : D <= D2 -> raw * 10 ^ D2 = raw * 10 ^ (D2 - D) * 10 ^ D.
Proof.
  intros. pose proof (scale_ok (D:=D)) as HD. unfold valid_exp in HD.
  rewrite <- Z.mul_assoc, <- Z.pow_add_r by lia. do 2 f_equal. lia.
Qed.

Lemma rescale_narrow : D2 <= D -> 10 ^ D = 10 ^ (D - D2) * 10 ^ D2.
Proof.
  intros. pose proof (scale_ok (D:=D2)) as HD. unfold valid_exp in HD.
  rewrite <- Z.pow_add_r by lia. f_equal. lia.
Qed.

(** The exponent difference, its table lookup and the [i128] bound, as the
    three conversions use them. *)
Lemma rescale_factor (a b : Z) `{!Scale a, !Scale b} :
  b <= a -> arith U8 (a - b) = Ret (a - b) /\ pow10_i64 (a - b) = Ret (10 ^ (a - b))
            /\ 1 <= 10 ^ (a - b) <= 1000000000000000000.
Proof.
  intros Hle. pose proof (scale_ok (D:=a)) as Ha. pose proof (scale_ok (D:=b)) as Hb.
  unfold valid_exp in *. split; [apply arith_ok; mlia|].
  split; [apply pow10_i64_ok|apply pow10_bounds]; unfold valid_exp; lia.
Qed.

Lemma widen_bound x f : fixed_wf x -> 1 <= f <= 1000000000000000000 -> in_range I128 (to_raw x * f).
Proof. unfold fixed_wf. intros. mnia. Qed.

Lemma rescale_trunc_ok x :
  fixed_wf x ->
  rescale_trunc D2 x = Ret (from_raw <$> checked I64 (Z.quot (to_raw x * 10 ^ D2) (10 ^ D))).
Proof.
  intros Hx. unfold rescale_trunc.
  pose proof (pow10_bounds D scale_ok). pose proof (pow10_bounds D2 scale_ok).
  destruct (Z.eqb_spec D2 D) as [->|Hne].
  { rewrite Z.quot_mul by lia. by rewrite checked_Some by done. }
  destruct (Z.ltb_spec D D2).
  - destruct (rescale_factor D2 D) as (-> & E & ?); [lia|]. cbn [mbind outcome_bind].
    rewrite E. cbn [mbind outcome_bind].
    rewrite arith_ok by (by apply widen_bound). cbn [mbind outcome_bind].
    by rewrite narrow_checked, rescale_widen, Z.quot_mul by lia.
  - destruct (rescale_factor D D2) as (-> & E & ?); [lia|]. cbn [mbind outcome_bind].
    rewrite E. cbn [mbind outcome_bind]. unfold fixed_wf in Hx.
    rewrite quot_i128 by mlia. cbn [mbind outcome_bind].
    by rewrite narrow_checked, rescale_narrow, Z.quot_mul_cancel_r by lia.
Qed.

Lemma rescale_round_ok x :
  fixed_wf x ->
  rescale_round D2 x = Ret (from_raw <$> checked I64 (round_away (to_raw x * 10 ^ D2) (10 ^ D))).
Proof.
  intros Hx. unfold rescale_round.
  pose proof (pow10_bounds D scale_ok). pose proof (pow10_bounds D2 scale_ok).
  destruct (Z.eqb_spec D2 D) as [->|Hne].
  { rewrite <- (Z.mul_1_l (10 ^ D)) at 2. rewrite round_away_cancel, round_away_1 by lia.
    by rewrite checked_Some by done. }
  destruct (Z.ltb_spec D D2).
  - destruct (rescale_factor D2 D) as (-> & E & ?); [lia|]. cbn [mbind outcome_bind].
    rewrite E. cbn [mbind outcome_bind].
    rewrite arith_ok by (by apply widen_bound). cbn [mbind outcome_bind].
    rewrite narrow_checked, rescale_widen by lia.
    rewrite <- (Z.mul_1_l (10 ^ D)) at 2. by rewrite round_away_cancel, round_away_1 by lia.
  - destruct (rescale_factor D D2) as (-> & E & ?); [lia|]. cbn [mbind outcome_bind].
    rewrite E. cbn [mbind outcome_bind]. unfold fixed_wf in Hx.
    rewrite half_ok by mlia. cbn [mbind outcome_bind].
    assert (0 <= Z.quot (Z.abs (10 ^ (D - D2))) 2 <= 2 ^ 63) as Hh.
    { rewrite Z.quot_div_nonneg by lia.
      split; [apply Z.div_pos; lia|apply Z.div_le_upper_bound; lia]. }
    rewrite bias_ok by mlia. cbn [mbind outcome_bind].
    rewrite quot_i128 by (destruct (Z.leb_spec 0 (to_raw x)); mlia). cbn [mbind outcome_bind].
    by rewrite narrow_checked, round_away_bias, rescale_narrow, round_away_cancel by lia.
Qed.

Lemma from_raw_checked_Some z (y : FixedI64 D2) :
  from_raw <$> checked I64 z = Some y <-> fixed_wf y /\ to_raw y = z.
Proof.
  unfold checked, fixed_wf. destruct y as [r]. case_decide; cbn; split; try done.
  - by intros [= <-].
  - by intros [_ ->].
  - by intros [? <-].
Qed.

(** Scale conversion never panics and computes the ratio of the two
    scales exactly: [rescale_trunc] truncates [raw * 10^D2 / 10^D] toward
    zero, [rescale_round] rounds it to nearest with ties away from zero, and
    both return [None] only when the result does not fit an [i64]. *)
Theorem rescale_exact_ratio x :
  fixed_wf x ->
  rescale_trunc D2 x = Ret (from_raw <$> checked I64 (Z.quot (to_raw x * 10 ^ D2) (10 ^ D)))
  /\ rescale_round D2 x
     = Ret (from_raw <$> checked I64 (round_away (to_raw x * 10 ^ D2) (10 ^ D))).
Proof. intros Hx. split; [by apply rescale_trunc_ok|by apply rescale_round_ok]. Qed.

(** [checked_rescale_exact] never panics and succeeds exactly when the
    target scale can represent the same number: it returns [y] if and only if
    [y] is a valid value with [x / 10^D = y / 10^D2]. *)
Theorem checked_rescale_exact_iff x :
  fixed_wf x ->
  exists r, checked_rescale_exact D2 x = Ret r
    /\ forall y : FixedI64 D2, r = Some y <-> fixed_wf y /\ to_raw x * 10 ^ D2 = to_raw y * 10 ^ D.
Proof.
  intros Hx. unfold checked_rescale_exact.
  pose proof (pow10_bounds D scale_ok). pose proof (pow10_bounds D2 scale_ok).
  destruct (Z.eqb_spec D2 D) as [->|Hne].
  { eexists. split; [done|]. intros [r]. unfold fixed_wf in *. cbn. split; [by intros [= <-]|].
    intros [_ Ey]. apply Z.mul_reg_r in Ey; [by rewrite Ey|lia]. }
  destruct (Z.ltb_spec D D2).
  - destruct (rescale_factor D2 D) as (-> & E & ?); [lia|]. cbn [mbind outcome_bind].
    rewrite E. cbn [mbind outcome_bind].
    rewrite arith_ok by (by apply widen_bound). cbn [mbind outcome_bind].
    eexists. split; [done|]. intros y.
    rewrite narrow_checked, from_raw_checked_Some, rescale_widen by lia.
    split; intros [? Ey]; (split; [done|]); [by rewrite Ey|].
    apply Z.mul_reg_r in Ey; lia.
  - destruct (rescale_factor D D2) as (-> & E & ?); [lia|]. cbn [mbind outcome_bind].
    rewrite E. cbn [mbind outcome_bind]. unfold fixed_wf in Hx.
    set (f := 10 ^ (D - D2)) in *.
    assert (forall y : FixedI64 D2,
      to_raw x * 10 ^ D2 = to_raw y * 10 ^ D <-> to_raw x = to_raw y * f) as Heq.
    { intros y. rewrite rescale_narrow, Z.mul_assoc by lia. fold f.
      split; [|by intros ->]. intros Ey. apply Z.mul_reg_r in Ey; lia. }
    pose proof (Z.quot_rem (to_raw x) f ltac:(lia)) as Hqr.
    assert (in_range I128 (Z.quot (to_raw x) f)).
    { pose proof (Z.quot_abs (to_raw x) f ltac:(lia)).
      assert (Z.abs (to_raw x) ÷ Z.abs f <= Z.abs (to_raw x))
        by (rewrite Z.quot_div_nonneg by lia; apply Z.div_le_upper_bound; nia). mlia. }
    rewrite rem_op_ok by (assumption || lia). cbn [mbind outcome_bind].
    destruct (Z.eqb_spec (Z.rem (to_raw x) f) 0) as [Hr|Hr]; cbn [negb].
    + rewrite div_op_ok by (assumption || lia). cbn [mbind outcome_bind].
      eexists. split; [done|]. intros y. rewrite narrow_checked, from_raw_checked_Some, Heq.
      split; intros [? Ey]; (split; [done|]); [lia|].
      rewrite Ey, Z.quot_mul by lia. done.
    + eexists. split; [done|]. intros y. rewrite Heq. split; [done|].
      intros [_ Ey]. destruct Hr. rewrite Ey. apply Z.rem_mul. lia.
Qed.
End rescale_theorems.

(** * Instances at concrete scales *)

#[export] Instance scale_2 : Scale 2.
Proof. by vm_compute. Defined.

#[export] Instance scale_6 : Scale 6.
Proof. by vm_compute. Defined.

#[export] Instance scale_8 : Scale 8.
Proof. by vm_compute. Defined.

Lemma checked_mul_exact_witness :
  @checked_mul_trunc debug_profile 6 (from_raw 1500000) (from_raw (-3))
    = Ret (Some (from_raw (-4)))
  /\ @checked_mul_round debug_profile 6 (from_raw 1500000) (from_raw (-3))
    = Ret (Some (from_raw (-5))).
Proof.
  exact (@checked_mul_exact debug_profile 6 _ (from_raw 1500000) (from_raw (-3))
           ltac:(by vm_compute) ltac:(by vm_compute)).
Defined.

Lemma checked_div_exact_witness :
  @checked_div_trunc release_profile 2 (from_raw 200) (from_raw 300) = Ret (Some (from_raw 66))
  /\ @checked_div_round release_profile 2 (from_raw 200) (from_raw 300) = Ret (Some (from_raw 67)).
Proof.
  exact (@checked_div_exact release_profile 2 _ (from_raw 200) (from_raw 300)
           ltac:(by vm_compute) ltac:(by vm_compute)).
Defined.

Lemma saturating_mul_trunc_witness :
  @saturating_mul_trunc debug_profile 6 (from_raw (-9223372036854775808)) (from_raw 2000000)
    = Ret fixed_MIN.
Proof.
  exact (@saturating_mul_trunc_clamps debug_profile 6 _ (from_raw (-9223372036854775808))
           (from_raw 2000000) ltac:(by vm_compute) ltac:(by vm_compute)).
Defined.

Lemma checked_div_int_witness :
  @checked_div_int 6 (from_raw (-9223372036854775808)) (-1) = Panic.
Proof.
  exact (@checked_div_int_cases 6 (from_raw (-9223372036854775808)) (-1)
           ltac:(by vm_compute) ltac:(by vm_compute)).
Defined.

Lemma rescale_witness :
  @rescale_trunc debug_profile 6 2 (from_raw 1999999) = Ret (Some (from_raw 199))
  /\ @rescale_round debug_profile 6 2 (from_raw 1999999) = Ret (Some (from_raw 200)).
Proof.
  exact (@rescale_exact_ratio debug_profile 6 2 _ _ (from_raw 1999999) ltac:(by vm_compute)).
Defined.

Lemma checked_rescale_exact_witness :
  exists r, @checked_rescale_exact debug_profile 6 2 (from_raw 1990000) = Ret r
      /\ forall y : FixedI64 2,
           r = Some y <-> fixed_wf y /\ 1990000 * 10 ^ 2 = to_raw y * 10 ^ 6.
Proof.
  exact (@checked_rescale_exact_iff debug_profile 6 2 _ _ (from_raw 1990000) ltac:(by vm_compute)).
Defined.
