(* ===== verification/FixedText.v ===== *)
(** * Decimal text ([crates/fixed]: parse.rs, fmt.rs)

    The single-pass parser that accumulates the mantissa in negative [i64]
    space, and the [Display] formatter.  Byte strings are lists of [u8]
    values; a [&str] is its UTF-8 bytes. *)

From stdpp Require Import base decidable list numbers option tactics.
From Stdlib Require Import ZArith Lia.
From S2P Require Import Prelude Platform Fixed.

#[local] Open Scope Z_scope.

Abbreviation bytes := (list Z).

Definition c_plus : Z := 43.
Definition c_minus : Z := 45.
Definition c_dot : Z := 46.
Definition c_0 : Z := 48.
Definition c_9 : Z := 57.

(** ** parse.rs *)

Inductive ParseFixedError := InvalidFormat | Overflow | ExcessPrecision.

Record Accumulator := {
  mantissa : Z;
  total_digits : Z;
  frac_digits : Z;
  saw_dot : bool;
  saw_any_digit : bool;
}.

Definition acc_new : Accumulator :=
  {| mantissa := 0; total_digits := 0; frac_digits := 0; saw_dot := false; saw_any_digit := false |}.

Section parse.
Context `{BuildProfile}.

(** [frac_digits] after one more digit: counted only behind the dot,
    saturating at [u8::MAX]. *)
Definition bump_frac (acc : Accumulator) : Z :=
  if saw_dot acc then saturate U8 (frac_digits acc + 1) else frac_digits acc.

Definition feed (acc : Accumulator) (byte : Z) : outcome (result Accumulator ParseFixedError) :=
  if (c_0 <=? byte) && (byte <=? c_9) then
    digit ← arith U8 (byte - c_0);
    if (digit =? 0) && (mantissa acc =? 0) then
      Ret (Ok {| mantissa := mantissa acc; total_digits := total_digits acc;
                 frac_digits := bump_frac acc; saw_dot := saw_dot acc;
                 saw_any_digit := true |})
    else
      total ← arith U8 (total_digits acc + 1);
      if 19 <? total then Ret (Err Overflow)
      else
        m ← (if total <=? 18 then
               p ← arith I64 (mantissa acc * 10);
               s ← arith I64 (p - digit);
               Ret (Some s)
             else
               Ret (v ← checked I64 (mantissa acc * 10); checked I64 (v - digit)));
        match m with
        | None => Ret (Err Overflow)
        | Some m =>
            Ret (Ok {| mantissa := m; total_digits := total;
                       frac_digits := bump_frac acc; saw_dot := saw_dot acc;
                       saw_any_digit := true |})
        end
  else if byte =? c_dot then
    if saw_dot acc then Ret (Err InvalidFormat)
    else Ret (Ok {| mantissa := mantissa acc; total_digits := total_digits acc;
                    frac_digits := frac_digits acc; saw_dot := true;
                    saw_any_digit := saw_any_digit acc |})
  else Ret (Err InvalidFormat).

(** The [while i < bytes.len()] loop. *)
Fixpoint feed_all (acc : Accumulator) (bs : bytes) : outcome (result Accumulator ParseFixedError) :=
  match bs with
  | [] => Ret (Ok acc)
  | b :: bs =>
      r ← feed acc b;
      match r with Ok acc => feed_all acc bs | Err e => Ret (Err e) end
  end.

(** The sign prefix: the flag [negative] and the bytes from [start] on. *)
Definition split_sign (bs : bytes) : bool * bytes :=
  match bs with
  | [] => (false, [])
  | b0 :: rest =>
      if b0 =? c_minus then (true, rest) else if b0 =? c_plus then (false, rest) else (false, bs)
  end.

(** [parse_decimal_bytes] after its loop: the digit and precision checks, the
    sign and the rescaling to [D] decimals. *)
Definition finish_decimal (D : Z) (negative : bool) (acc : Accumulator)
    : outcome (result (FixedI64 D) ParseFixedError) :=
  if negb (saw_any_digit acc) then Ret (Err InvalidFormat)
  else if D <? frac_digits acc then Ret (Err ExcessPrecision)
  else
    pad ← arith U8 (D - frac_digits acc);
    if 18 <? pad then Ret (Err Overflow)
    else
      match (if negative then Some (mantissa acc) else checked I64 (- mantissa acc)) with
      | None => Ret (Err Overflow)
      | Some signed_mantissa =>
          if pad =? 0 then Ret (Ok (from_raw signed_mantissa))
          else
            scale ← index POW10_I64 (Z.to_nat pad);
            match checked I64 (signed_mantissa * scale) with
            | None => Ret (Err Overflow)
            | Some scaled => Ret (Ok (from_raw scaled))
            end
      end.

Definition parse_decimal_bytes (D : Z) (bs : bytes)
    : outcome (result (FixedI64 D) ParseFixedError) :=
  match bs with
  | [] => Ret (Err InvalidFormat)
  | _ =>
      let '(negative, tail) := split_sign bs in
      match tail with
      | [] => Ret (Err InvalidFormat)
      | _ =>
          r ← feed_all acc_new tail;
          match r with
          | Err e => Ret (Err e)
          | Ok acc => finish_decimal D negative acc
          end
      end
  end.

Definition from_str_decimal (D : Z) (s : bytes) : outcome (result (FixedI64 D) ParseFixedError) :=
  parse_decimal_bytes D s.
End parse.

(** ** fmt.rs *)

(** The decimal digits of a non-negative integer, most significant first, as
    [core::fmt] prints them; 39 digits are enough for [u128]. *)
Fixpoint show_digits (fuel : nat) (n : Z) : bytes :=
  match fuel with
  | O => []
  | S fuel => (if decide (n < 10) then [] else show_digits fuel (n / 10)) ++ [c_0 + n mod 10]
  end.

Definition show_nat (n : Z) : bytes := show_digits 39 n.

(** [{frac:0>width$}]: right-aligned, filled with zeros. *)
Definition pad_zeros (width : Z) (s : bytes) : bytes :=
  replicate (Z.to_nat width - length s) c_0 ++ s.

Definition show_int (n : Z) : bytes := if n <? 0 then c_minus :: show_nat (- n) else show_nat n.

Definition fixed_display {D} (x : FixedI64 D) : bytes :=
  if D =? 0 then show_int (to_raw x)
  else
    let raw := to_raw x in
    let abs_wide := Z.abs raw in
    let scale := SCALE D in
    let whole := abs_wide / scale in
    let frac := abs_wide mod scale in
    (if raw <? 0 then [c_minus] else []) ++ show_nat whole ++ [c_dot] ++ pad_zeros D (show_nat frac).

(** * The grammar *)

Definition is_digit (b : Z) : Prop := c_0 <= b <= c_9.

(** The value of a string of digits. *)
Definition digits_value (ds : bytes) : Z := foldl (fun v d => v * 10 + (d - c_0)) 0 ds.

(** [decimal_syntax bs neg w f]: an optional sign, whole digits [w], optionally
    a dot and fraction digits [f], and at least one digit in all. *)
Definition decimal_syntax (bs : bytes) (neg : bool) (w f : bytes) : Prop :=
  Forall is_digit w /\ Forall is_digit f /\ w ++ f <> []
  /\ exists sign body,
      bs = sign ++ body
      /\ (body = w ++ c_dot :: f \/ (body = w /\ f = []))
      /\ (sign = [c_minus] /\ neg = true
          \/ (sign = [c_plus] \/ sign = []) /\ neg = false).

(** The number a decimal string denotes at scale [D], as a raw value. *)
Definition decimal_raw (D : Z) (neg : bool) (w f : bytes) : Z :=
  (if neg then -1 else 1) * digits_value (w ++ f) * 10 ^ (D - Z.of_nat (length f)).

(** * Lemmas on digit strings *)

Lemma digits_value_snoc ds d : digits_value (ds ++ [d]) = digits_value ds * 10 + (d - c_0).
Proof. unfold digits_value. by rewrite foldl_app. Qed.

Lemma digits_value_app a b :
  digits_value (a ++ b) = digits_value a * 10 ^ Z.of_nat (length b) + digits_value b.
Proof.
  induction b as [|d b IH] using rev_ind.
  - rewrite app_nil_r. cbn. lia.
  - rewrite app_assoc, !digits_value_snoc, IH, length_app. cbn [length].
    rewrite Nat2Z.inj_add, Z.pow_add_r by lia. change (10 ^ Z.of_nat 1) with 10. ring.
Qed.

Lemma digits_value_nonneg ds : Forall is_digit ds -> 0 <= digits_value ds.
Proof.
  induction ds as [|d ds IH] using rev_ind; [done|].
  rewrite Forall_app, Forall_singleton, digits_value_snoc. unfold is_digit, c_0. intros [?%IH ?]. lia.
Qed.

Lemma digits_value_mono a b : Forall is_digit a -> Forall is_digit b -> digits_value a <= digits_value (a ++ b).
Proof.
  intros Ha Hb. rewrite digits_value_app.
  pose proof (digits_value_nonneg a Ha). pose proof (digits_value_nonneg b Hb).
  pose proof (Z.pow_pos_nonneg 10 (Z.of_nat (length b))). nia.
Qed.

Lemma digits_value_zeros n ds : digits_value (replicate n c_0 ++ ds) = digits_value ds.
Proof.
  rewrite digits_value_app. assert (digits_value (replicate n c_0) = 0) as ->; [|lia].
  induction n as [|n IH]; [done|].
  rewrite replicate_S_end, digits_value_snoc, IH. done.
Qed.

Lemma show_digits_spec fuel n :
  0 <= n < 10 ^ Z.of_nat fuel -> (0 < fuel)%nat ->
  Forall is_digit (show_digits fuel n) /\ digits_value (show_digits fuel n) = n
  /\ show_digits fuel n <> [].
Proof.
  revert n. induction fuel as [|fuel IH]; [lia|]. intros n Hn _. cbn [show_digits].
  pose proof (Z.mod_pos_bound n 10 ltac:(lia)). pose proof (Z.div_mod n 10 ltac:(lia)).
  assert (is_digit (c_0 + n mod 10)) by (unfold is_digit, c_0, c_9; lia).
  rewrite digits_value_snoc. split_and!; [| |apply app_cons_not_nil || (intros [_ ?]%app_eq_nil; done)].
  - apply Forall_app; split; [|by apply Forall_singleton].
    case_decide; [done|]. rewrite Nat2Z.inj_succ, Z.pow_succ_r in Hn by lia.
    apply IH; [|destruct fuel; [cbn in Hn; lia|lia]].
    split; [apply Z.div_pos; lia|apply Z.div_lt_upper_bound; lia].
  - case_decide; [cbn; rewrite Z.mod_small by lia; lia|].
    rewrite Nat2Z.inj_succ, Z.pow_succ_r in Hn by lia.
    destruct (IH (n / 10)) as (_ & -> & _); [| |lia].
    + split; [apply Z.div_pos; lia|apply Z.div_lt_upper_bound; lia].
    + destruct fuel; [cbn in Hn; lia|lia].
Qed.

(** A number below [10^k] prints in at most [k] digits. *)
Lemma show_digits_length fuel n k :
  0 <= n < 10 ^ Z.of_nat k -> (0 < k)%nat -> (length (show_digits fuel n) <= k)%nat.
Proof.
  revert n k. induction fuel as [|fuel IH]; intros n k Hn Hk; cbn [show_digits]; [cbn; lia|].
  rewrite length_app. cbn [length]. case_decide; cbn [length]; [lia|].
  destruct k as [|k]; [lia|]. rewrite Nat2Z.inj_succ, Z.pow_succ_r in Hn by lia.
  destruct k as [|k]; [cbn in Hn; lia|].
  assert (0 <= n / 10 < 10 ^ Z.of_nat (S k)) as Hn'
    by (split; [apply Z.div_pos; lia|apply Z.div_lt_upper_bound; lia]).
  specialize (IH (n / 10) (S k) Hn' ltac:(lia)). lia.
Qed.

Lemma show_nat_spec n :
  0 <= n < 10 ^ 39 -> Forall is_digit (show_nat n) /\ digits_value (show_nat n) = n /\ show_nat n <> [].
Proof. intros. by apply show_digits_spec; [|lia]. Qed.

(** * The parser against the grammar *)

(** The accumulator after the digits [w] before and [f] after the dot. *)
Definition acc_rep (acc : Accumulator) (w f : bytes) (dot : bool) : Prop :=
  let v := digits_value (w ++ f) in
  Forall is_digit w /\ Forall is_digit f
  /\ mantissa acc = - v /\ v <= 2 ^ 63
  /\ (v = 0 /\ total_digits acc = 0
      \/ 1 <= total_digits acc <= 19 /\ 10 ^ (total_digits acc - 1) <= v < 10 ^ total_digits acc)
  /\ frac_digits acc = Z.min 255 (Z.of_nat (length f))
  /\ saw_dot acc = dot /\ (dot = false -> f = [])
  /\ saw_any_digit acc = bool_decide (w ++ f <> []).

(** The digits one more byte adds, [None] if it is not part of the grammar. *)
Definition lex_step (w f : bytes) (dot : bool) (b : Z) : option (bytes * bytes * bool) :=
  if decide (is_digit b) then Some (if dot then (w, f ++ [b], dot) else (w ++ [b], f, dot))
  else if decide (b = c_dot /\ dot = false) then Some (w, f, true) else None.

Fixpoint lex (w f : bytes) (dot : bool) (bs : bytes) : option (bytes * bytes * bool) :=
  match bs with
  | [] => Some (w, f, dot)
  | b :: bs => '(w, f, dot) ← lex_step w f dot b; lex w f dot bs
  end.

Section parse_lemmas.
Context `{BuildProfile}.

(** The significant-digit counter bounds the value: a twentieth digit always
    exceeds the [i64] range, and up to eighteen digits never do. *)
Lemma digits_next v n d :
  (v = 0 /\ n = 0 \/ 1 <= n <= 19 /\ 10 ^ (n - 1) <= v < 10 ^ n) -> 0 <= d <= 9 ->
  v <> 0 \/ d <> 0 ->
  10 ^ n <= v * 10 + d < 10 ^ (n + 1).
Proof.
  intros Hv Hd Hnz. destruct Hv as [[-> ->]|[Hn Hv]]; [cbn; lia|].
  rewrite Z.pow_add_r by lia. replace n with ((n - 1) + 1) at 1 by lia.
  rewrite Z.pow_add_r by lia. change (10 ^ 1) with 10. lia.
Qed.

(** Both accumulation branches compute the checked next mantissa. *)
Lemma mantissa_next v d n :
  0 <= v -> 0 <= d <= 9 -> 0 <= n -> v * 10 + d < 10 ^ (n + 1) ->
  (if n + 1 <=? 18 then p ← arith I64 (- v * 10); s ← arith I64 (p - d); Ret (Some s)
   else Ret (x ← checked I64 (- v * 10); checked I64 (x - d)))
  = Ret (checked I64 (- (v * 10 + d))).
Proof.
  intros Hv Hd Hn Hlt. destruct (Z.leb_spec (n + 1) 18).
  - assert (10 ^ (n + 1) <= 10 ^ 18) by (apply Z.pow_le_mono_r; lia).
    do 2 (rewrite arith_ok by mlia; cbn [mbind outcome_bind]).
    rewrite checked_Some by mlia. do 2 f_equal. lia.
  - f_equal. destruct (decide (in_range I64 (- v * 10))).
    + rewrite checked_Some by done. cbn. f_equal. lia.
    + rewrite !checked_None by mlia. done.
Qed.

(** Shared by the two digit branches: what the new accumulator represents. *)
Lemma acc_rep_digit acc w f dot b m total w' f' :
  acc_rep acc w f dot -> is_digit b ->
  (if dot then (w, f ++ [b]) else (w ++ [b], f)) = (w', f') ->
  m = - digits_value (w' ++ f') -> digits_value (w' ++ f') <= 2 ^ 63 ->
  (digits_value (w' ++ f') = 0 /\ total = 0
   \/ 1 <= total <= 19 /\ 10 ^ (total - 1) <= digits_value (w' ++ f') < 10 ^ total) ->
  acc_rep {| mantissa := m; total_digits := total; frac_digits := bump_frac acc;
             saw_dot := saw_dot acc; saw_any_digit := true |} w' f' dot.
Proof.
  intros (Hw & Hf & _ & _ & _ & Efr & Edot & Hnd & _) Hb E Hm Hv Ht.
  unfold acc_rep, bump_frac. cbn. rewrite Edot, Efr.
  assert (Forall is_digit [b]) by by constructor.
  destruct dot; injection E as <- <-.
  - rewrite bool_decide_true by (by intros [_ [_ ?]%app_eq_nil]%app_eq_nil).
    split_and!; try done; [by apply Forall_app|].
    rewrite length_app. cbn [length]. unfold saturate. cbn [tmin tmax]. lia.
  - rewrite bool_decide_true by (by intros [[_ ?]%app_eq_nil _]%app_eq_nil).
    split_and!; try done. by apply Forall_app.
Qed.

(** A digit extends the represented digits as long as the value stays within
    [2^63], and reports an error otherwise. *)
Lemma feed_digit acc w f dot b w' f' :
  acc_rep acc w f dot -> is_digit b ->
  (if dot then (w, f ++ [b]) else (w ++ [b], f)) = (w', f') ->
  if decide (digits_value (w' ++ f') <= 2 ^ 63) then
    exists acc', feed acc b = Ret (Ok acc') /\ acc_rep acc' w' f' dot
  else exists e, feed acc b = Ret (Err e).
Proof.
  intros Hrep Hdig E. pose proof Hrep as (Hw & Hf & Em & Hv & Ht & _ & Edot & Hnd & _).
  pose proof (fun m t => acc_rep_digit acc w f dot b m t w' f' Hrep Hdig E) as Hdone.
  assert (0 <= digits_value (w ++ f)) as Hv0 by (apply digits_value_nonneg, Forall_app; done).
  set (v := digits_value (w ++ f)) in *.
  assert (digits_value (w' ++ f') = v * 10 + (b - c_0)) as Ev.
  { unfold v. destruct dot; injection E as <- <-; [by rewrite app_assoc, digits_value_snoc|].
    by rewrite Hnd, !app_nil_r, digits_value_snoc. }
  rewrite Ev in Hdone |- *. rewrite Edot in Hdone.
  unfold feed. rewrite Em, Edot. unfold is_digit, c_0, c_9 in *.
  rewrite (proj2 (Z.leb_le 48 b)), (proj2 (Z.leb_le b 57)) by lia. cbn [andb].
  rewrite (arith_ok U8 (b - 48)) by mlia. cbn [mbind outcome_bind].
  destruct ((b - 48 =? 0) && (- v =? 0)) eqn:Ez.
  - apply andb_true_iff in Ez as [?%Z.eqb_eq ?%Z.eqb_eq].
    rewrite decide_True by lia. eexists. split; [done|].
    apply Hdone; [lia|lia|]. left. destruct Ht as [[]|[]]; [lia|].
    assert (0 < 10 ^ (total_digits acc - 1)) by (apply Z.pow_pos_nonneg; lia). lia.
  - assert (v <> 0 \/ b - 48 <> 0) as Hnz
      by (apply andb_false_iff in Ez; rewrite !Z.eqb_neq in Ez; lia).
    pose proof (digits_next v (total_digits acc) (b - 48) Ht ltac:(lia) Hnz) as Hnext.
    rewrite (arith_ok U8 (total_digits acc + 1)) by mlia. cbn [mbind outcome_bind].
    destruct (Z.ltb_spec 19 (total_digits acc + 1)).
    + assert (total_digits acc = 19) as Et by lia. rewrite Et in Hnext.
      rewrite decide_False by lia. by eexists.
    + rewrite mantissa_next by lia. cbn [mbind outcome_bind]. case_decide.
      * rewrite checked_Some by mlia. eexists. split; [done|].
        apply Hdone; [done|done|]. right. split; [lia|].
        by replace (total_digits acc + 1 - 1) with (total_digits acc) by lia.
      * rewrite checked_None by mlia. by eexists.
Qed.

(** One byte of any kind. *)
Lemma feed_step acc w f dot b :
  acc_rep acc w f dot ->
  match lex_step w f dot b with
  | Some (w', f', dot') =>
      if decide (digits_value (w' ++ f') <= 2 ^ 63) then
        exists acc', feed acc b = Ret (Ok acc') /\ acc_rep acc' w' f' dot'
      else exists e, feed acc b = Ret (Err e)
  | None => exists e, feed acc b = Ret (Err e)
  end.
Proof.
  intros Hrep. unfold lex_step. case_decide as Hdig.
  - destruct dot; by apply (feed_digit acc w f _ b).
  - pose proof Hrep as (Hw & Hf & Em & Hv & Ht & Efr & Edot & Hnd & Eany).
    unfold feed. unfold is_digit, c_0, c_9, c_dot in *.
    assert ((48 <=? b) && (b <=? 57) = false) as -> by (apply andb_false_iff; rewrite !Z.leb_gt; lia).
    rewrite Edot. case_decide as Hdot.
    + destruct Hdot as [-> ->]. rewrite decide_True by done. cbn. eexists. split; [done|].
      unfold acc_rep. cbn. by split_and!.
    + destruct (Z.eqb_spec b 46) as [->|]; [|by eexists].
      destruct dot; [by eexists|]. by destruct Hdot.
Qed.

(** What the lexer accepts, behind and before the dot. *)
Lemma lex_frac w f bs :
  lex w f true bs = if decide (Forall is_digit bs) then Some (w, f ++ bs, true) else None.
Proof.
  revert f. induction bs as [|b bs IH]; intros f; cbn [lex].
  - by rewrite decide_True, app_nil_r by constructor.
  - unfold lex_step. destruct (decide (is_digit b)) as [Hb|Hb].
    + cbn [mbind option_bind]. rewrite IH, <- (app_assoc f). cbn [app].
      apply decide_ext. split; [by constructor|]. inversion 1; done.
    + rewrite decide_False by naive_solver. by rewrite decide_False by (inversion 1; done).
Qed.

Lemma lex_whole bs w w' f' dot' :
  lex w [] false bs = Some (w', f', dot') <->
  exists ds, w' = w ++ ds /\ Forall is_digit ds /\ Forall is_digit f'
    /\ (dot' = true /\ bs = ds ++ c_dot :: f' \/ dot' = false /\ bs = ds /\ f' = []).
Proof.
  revert w. induction bs as [|b bs IH]; intros w; cbn [lex].
  - split; [intros [= <- <- <-]; exists []; rewrite app_nil_r; naive_solver|].
    intros (ds & -> & _ & _ & [[_ E]|[-> [<- ->]]]); [by destruct ds|by rewrite app_nil_r].
  - unfold lex_step. destruct (decide (is_digit b)) as [Hb|Hb]; cbn [mbind option_bind].
    + rewrite IH. split; intros (ds & -> & Hds & Hf & E).
      * exists (b :: ds). rewrite <- app_assoc. split_and!; [done|by constructor|done|naive_solver].
      * destruct E as [[-> E]|[-> [E ->]]]; destruct ds as [|d ds]; simplify_list_eq;
          [by unfold is_digit, c_0, c_9, c_dot in Hb; lia| |];
          inversion Hds; subst; exists ds; rewrite <- app_assoc; naive_solver.
    + destruct (decide (b = c_dot /\ false = false)) as [Hd|Hd]; cbn [mbind option_bind].
      * destruct Hd as [-> _]. rewrite lex_frac. cbn [app]. split.
        -- case_decide; [|done]. intros [= <- <- <-]. exists []. rewrite app_nil_r. naive_solver.
        -- intros (ds & -> & Hds & Hf & [[-> E]|[-> [E ->]]]); destruct ds as [|d ds]; simplify_list_eq.
           ++ by rewrite decide_True by done.
           ++ by inversion Hds.
           ++ by inversion Hds.
      * split; [done|]. intros (ds & -> & Hds & Hf & [[-> E]|[-> [E ->]]]); destruct ds as [|d ds]; simplify_list_eq.
        -- by destruct Hd.
        -- by inversion Hds.
        -- by inversion Hds.
Qed.

(** Lexing only ever appends digits. *)
Lemma lex_extends w f dot bs w' f' dot' :
  lex w f dot bs = Some (w', f', dot') -> (dot = false -> f = []) ->
  exists ds, Forall is_digit ds /\ w' ++ f' = (w ++ f) ++ ds.
Proof.
  destruct dot; intros E Hf.
  - rewrite lex_frac in E. case_decide; [|done]. simplify_eq. exists bs. by rewrite app_assoc.
  - rewrite Hf in E by done. apply lex_whole in E as (ds & -> & Hds & Hf' & _).
    exists (ds ++ f'). rewrite Hf, app_nil_r, app_assoc by done. split; [by apply Forall_app|done].
Qed.

Lemma lex_step_digits w f dot b w' f' dot' :
  lex_step w f dot b = Some (w', f', dot') -> Forall is_digit (w ++ f) -> (dot = false -> f = []) ->
  Forall is_digit (w' ++ f') /\ (dot' = false -> f' = []).
Proof.
  unfold lex_step. rewrite !Forall_app. intros E Hwf Hnd. case_decide.
  - destruct dot; simplify_eq; rewrite ?Forall_app, ?Forall_singleton; naive_solver.
  - case_decide; naive_solver.
Qed.

(** The whole loop: it succeeds exactly on the strings of the grammar whose
    value stays within [2^63], and it never panics. *)
Lemma feed_all_lex bs acc w f dot :
  acc_rep acc w f dot ->
  match lex w f dot bs with
  | Some (w', f', dot') =>
      if decide (digits_value (w' ++ f') <= 2 ^ 63) then
        exists acc', feed_all acc bs = Ret (Ok acc') /\ acc_rep acc' w' f' dot'
      else exists e, feed_all acc bs = Ret (Err e)
  | None => exists e, feed_all acc bs = Ret (Err e)
  end.
Proof.
  revert acc w f dot. induction bs as [|b bs IH]; intros acc w f dot Hrep; cbn [lex feed_all].
  - pose proof Hrep as (_ & _ & _ & Hv & _). rewrite decide_True by done. eauto.
  - pose proof Hrep as (Hw & Hf & _ & _ & _ & _ & _ & Hnd & _).
    pose proof (feed_step acc w f dot b Hrep) as Hstep.
    destruct (lex_step w f dot b) as [[[w1 f1] d1]|] eqn:El; cbn [mbind option_bind];
      [|destruct Hstep as [e ->]; cbn; by eexists].
    case_decide as Hle.
    + destruct Hstep as (acc1 & -> & Hrep1). cbn [mbind outcome_bind]. by apply IH.
    + destruct Hstep as [e ->]. cbn [mbind outcome_bind].
      destruct (lex w1 f1 d1 bs) as [[[w2 f2] d2]|] eqn:El2; [|by eexists].
      apply lex_step_digits in El as [Hd1 Hnd1]; [|by apply Forall_app|done].
      apply lex_extends in El2 as (ds & Hds & ->); [|done].
      pose proof (digits_value_mono (w1 ++ f1) ds Hd1 Hds).
      rewrite decide_False by lia. by eexists.
Qed.
Lemma acc_rep_new : acc_rep acc_new [] [] false.
Proof. unfold acc_rep. cbn. split_and!; try done; by left. Qed.

(** The grammar, in terms of the sign split and the lexer. *)
Lemma decimal_syntax_lex bs neg w f :
  decimal_syntax bs neg w f <->
  exists tail dot, split_sign bs = (neg, tail) /\ lex [] [] false tail = Some (w, f, dot)
    /\ w ++ f <> [].
Proof.
  unfold decimal_syntax. split.
  - intros (Hw & Hf & Hne & sign & body & -> & Hbody & Hsign).
    exists body, (bool_decide (body = w ++ c_dot :: f)). split_and!; [| |done].
    + destruct Hsign as [[-> ->]|[[->| ->] ->]]; [done|done|].
      destruct body as [|b body]; [done|]. cbn [app split_sign].
      assert (b = c_dot \/ is_digit b) as Hb.
      { destruct w as [|d w]; [destruct Hbody as [?|[? ->]]; naive_solver|].
        inversion Hw; subst. destruct Hbody as [?|[? ->]]; simplify_list_eq; auto. }
      unfold is_digit, c_dot, c_minus, c_plus, c_0, c_9 in *.
      rewrite (proj2 (Z.eqb_neq b 45)), (proj2 (Z.eqb_neq b 43)) by lia. done.
    + apply lex_whole. exists w. split_and!; [done..|].
      case_bool_decide; [by left|right]. destruct Hbody as [?|[? ->]]; done.
  - intros (tail & dot & Es & El & Hne). apply lex_whole in El as (ds & -> & Hds & Hf & E).
    split_and!; [done..|].
    assert (exists sign, bs = sign ++ tail /\
      (sign = [c_minus] /\ neg = true \/ (sign = [c_plus] \/ sign = []) /\ neg = false)) as (sign & -> & ?).
    { destruct bs as [|b bs]; cbn in Es; [simplify_eq; exists []; naive_solver|].
      destruct (Z.eqb_spec b c_minus) as [->|]; simplify_eq; [exists [c_minus]; naive_solver|].
      destruct (Z.eqb_spec b c_plus) as [->|]; simplify_eq; [exists [c_plus]|exists []]; naive_solver. }
    exists sign, tail. split_and!; [done| |done]. naive_solver.
Qed.

(** The end of the parse: what the checks compute from the digits. *)
Lemma finish_decimal_ok D neg acc w f dot :
  valid_exp D -> acc_rep acc w f dot ->
  exists r, finish_decimal D neg acc = Ret r /\
    forall x, r = Ok x <->
      w ++ f <> [] /\ Z.of_nat (length f) <= D /\ to_raw x = decimal_raw D neg w f
      /\ in_range I64 (to_raw x).
Proof.
  intros HD (Hw & Hf & Em & Hv & _ & Efr & _ & _ & Eany). unfold valid_exp in HD.
  unfold finish_decimal. rewrite Eany, Efr, Em. case_bool_decide as Hne; cbn [negb];
    [|eexists; split; [done|]; naive_solver].
  destruct (Z.ltb_spec D (Z.min 255 (Z.of_nat (length f)))).
  { eexists; split; [done|]. split; [done|]. intros (_ & ? & _). lia. }
  rewrite Z.min_r by lia. rewrite (arith_ok U8 (D - _)) by mlia. cbn [mbind outcome_bind].
  set (pad := D - Z.of_nat (length f)) in *. rewrite (proj2 (Z.ltb_ge 18 pad)) by lia.
  assert (0 <= digits_value (w ++ f)) by (apply digits_value_nonneg, Forall_app; done).
  pose proof (Z.pow_pos_nonneg 10 pad ltac:(lia) ltac:(lia)).
  unfold decimal_raw. fold pad. set (v := digits_value (w ++ f)) in *.
  assert (forall z, in_range I64 z \/ ~ in_range I64 z) as Hdec by (intros z; mlia).
  replace (if neg then Some (- v) else checked I64 (- - v))
    with (checked I64 ((if neg then -1 else 1) * v));
    [|destruct neg; [rewrite checked_Some by mlia|]; f_equal; lia].
  destruct (Hdec ((if neg then -1 else 1) * v)) as [Hr|Hr].
  - rewrite checked_Some by done. destruct (Z.eqb_spec pad 0) as [E0|E0].
    + eexists; split; [done|]. intros x. rewrite E0, Z.mul_1_r.
      destruct x as [x]; simpl. split; [|intros (_ & _ & -> & _); done].
      intros [= <-]. split_and!; [done|lia|done|done].
    + rewrite (index_ok _ _ (10 ^ pad)) by (apply POW10_lookup; unfold valid_exp; lia). cbn [mbind outcome_bind].
      destruct (Hdec ((if neg then -1 else 1) * v * 10 ^ pad)) as [Hs|Hs].
      * rewrite checked_Some by done. eexists; split; [done|]. intros [x]; simpl.
        split; [|intros (_ & _ & -> & _); done]. intros [= <-]. split_and!; [done|lia|done|done].
      * rewrite checked_None by done. eexists; split; [done|]. split; [done|].
        intros (_ & _ & E & ?). by rewrite E in *.
  - rewrite checked_None by done. eexists; split; [done|]. split; [done|].
    intros (_ & _ & E & Hx). destruct Hr. rewrite E in Hx. destruct neg; mnia.
Qed.

Lemma parse_spec D bs :
  valid_exp D ->
  exists r, parse_decimal_bytes D bs = Ret r /\
    forall x, r = Ok x <->
      exists neg w f, decimal_syntax bs neg w f /\ Z.of_nat (length f) <= D
        /\ to_raw x = decimal_raw D neg w f /\ in_range I64 (to_raw x).
Proof.
  intros HD. destruct (split_sign bs) as [neg tail] eqn:Es.
  assert (forall r : result (FixedI64 D) ParseFixedError, (exists e, r = Err e) ->
    (forall w f dot, lex [] [] false tail = Some (w, f, dot) ->
       w ++ f = [] \/ 2 ^ 63 < digits_value (w ++ f)) ->
    forall x, r = Ok x <-> exists neg w f, decimal_syntax bs neg w f /\ Z.of_nat (length f) <= D
        /\ to_raw x = decimal_raw D neg w f /\ in_range I64 (to_raw x)) as Herr.
  { intros r [e ->] Hlex x. split; [done|].
    intros (neg' & w & f & (tail' & dot & Es' & El & Hne)%decimal_syntax_lex & Hf & Ex & Hx).
    rewrite Es in Es'. simplify_eq. destruct (Hlex w f dot El); [done|].
    rewrite Ex in Hx. unfold decimal_raw in Hx.
    pose proof (Z.pow_pos_nonneg 10 (D - Z.of_nat (length f)) ltac:(lia) ltac:(lia)).
    destruct neg'; mnia. }
  unfold parse_decimal_bytes. rewrite Es. destruct tail as [|b tail].
  { destruct bs; eexists; (split; [done|]); apply Herr; [by eexists| |by eexists|]; intros ??? [= <- <- <-]; by left. }
  destruct bs as [|b0 bs]; [done|].
  pose proof (feed_all_lex (b :: tail) acc_new [] [] false acc_rep_new) as Hall.
  destruct (lex [] [] false (b :: tail)) as [[[w f] dot]|] eqn:El;
    [|destruct Hall as [e ->]; cbn [mbind outcome_bind]; eexists; split; [done|];
      apply Herr; [by eexists|done]].
  case_decide as Hv.
  - destruct Hall as (acc & -> & Hrep). cbn [mbind outcome_bind].
    destruct (finish_decimal_ok D neg acc w f dot HD Hrep) as (r & -> & Hr).
    exists r. split; [done|]. intros x. rewrite Hr. setoid_rewrite decimal_syntax_lex. rewrite Es. naive_solver.
  - destruct Hall as [e ->]. cbn [mbind outcome_bind]. eexists. split; [done|].
    apply Herr; [by eexists|]. intros ??? [= <- <- <-]. right. lia.
Qed.
End parse_lemmas.

(** * The formatter *)

(** The fraction is printed with exactly [D] digits. *)
Lemma pad_frac_spec D n :
  1 <= D <= 18 -> 0 <= n < 10 ^ D ->
  Forall is_digit (pad_zeros D (show_nat n)) /\ digits_value (pad_zeros D (show_nat n)) = n
  /\ length (pad_zeros D (show_nat n)) = Z.to_nat D.
Proof.
  intros HD Hn. unfold pad_zeros.
  assert (10 ^ D <= 10 ^ 39) by (apply Z.pow_le_mono_r; lia).
  destruct (show_nat_spec n) as (Hd & Hv & _); [lia|].
  assert (length (show_nat n) <= Z.to_nat D)%nat.
  { apply show_digits_length; [|lia]. by rewrite Z2Nat.id by lia. }
  split_and!.
  - apply Forall_app. split; [|done]. by apply Forall_replicate.
  - by rewrite digits_value_zeros.
  - rewrite length_app, length_replicate. lia.
Qed.

(** The sign and digits of a printed number form a string of the grammar. *)
Lemma signed_syntax (neg : bool) body w f :
  Forall is_digit w -> Forall is_digit f -> w <> [] ->
  (body = w ++ c_dot :: f \/ (body = w /\ f = [])) ->
  decimal_syntax ((if neg then [c_minus] else []) ++ body) neg w f.
Proof.
  intros Hw Hf Hne Hbody. split_and!; [done|done|by intros [? _]%app_eq_nil|].
  exists (if neg then [c_minus] else []), body. split_and!; [done|done|].
  destruct neg; auto.
Qed.

(** The printed text is in the grammar, with at most [D] fraction digits, and
    denotes the raw value. *)
Lemma fixed_display_syntax D (x : FixedI64 D) :
  valid_exp D -> fixed_wf x ->
  exists neg w f, decimal_syntax (fixed_display x) neg w f /\ Z.of_nat (length f) <= D
    /\ to_raw x = decimal_raw D neg w f.
Proof.
  unfold fixed_wf. intros HD Hx. unfold fixed_display. set (r := to_raw x) in *.
  assert (Z.abs r < 10 ^ 39) by mlia. exists (r <? 0). destruct (Z.eqb_spec D 0) as [->|HD0].
  - destruct (show_nat_spec (Z.abs r)) as (Hw & Ew & Hne); [lia|].
    exists (show_nat (Z.abs r)), []. split_and!; [|done|].
    + replace (show_int r) with ((if r <? 0 then [c_minus] else []) ++ show_nat (Z.abs r));
        [by apply signed_syntax; auto|].
      unfold show_int. destruct (Z.ltb_spec r 0); [|by rewrite Z.abs_eq by lia].
      by rewrite Z.abs_neq by lia.
    + unfold decimal_raw. rewrite app_nil_r, Ew. change (10 ^ _) with 1.
      destruct (Z.ltb_spec r 0); lia.
  - assert (SCALE D = 10 ^ D) as ES by by apply SCALE_pow.
    pose proof (pow10_bounds D HD). rewrite ES. unfold valid_exp in HD.
    pose proof (Z.div_pos (Z.abs r) (10 ^ D) ltac:(lia) ltac:(lia)).
    assert (Z.abs r / 10 ^ D <= Z.abs r) by (apply Z.div_le_upper_bound; nia).
    destruct (show_nat_spec (Z.abs r / 10 ^ D)) as (Hw & Ew & Hne); [lia|].
    destruct (pad_frac_spec D (Z.abs r mod 10 ^ D)) as (Hf & Ef & Lf);
      [lia|apply Z.mod_pos_bound; lia|].
    eexists _, _. split_and!; [apply signed_syntax; [exact Hw|exact Hf|done|by left]|lia|].
    unfold decimal_raw. rewrite digits_value_app, Ew, Ef, Lf, Z2Nat.id, Z.sub_diag by lia.
    pose proof (Z.div_mod (Z.abs r) (10 ^ D) ltac:(lia)).
    destruct (Z.ltb_spec r 0); lia.
Qed.

(** * Correctness *)

(** C7: [parse_decimal_bytes] never panics and accepts exactly the strings of
    the decimal grammar (optional sign, digits, optional dot and digits, at
    least one digit) with at most [D] fraction digits whose value at scale [D]
    fits an [i64]; the result is that value, including [i64::MIN], in debug
    and release builds alike. *)
Theorem parse_decimal_bytes_correct `{BuildProfile} D bs :
  valid_exp D ->
  parse_decimal_bytes D bs <> Panic /\
  forall x, parse_decimal_bytes D bs = Ret (Ok x) <->
    exists neg w f, decimal_syntax bs neg w f /\ Z.of_nat (length f) <= D
      /\ to_raw x = decimal_raw D neg w f /\ fixed_wf x.
Proof.
  intros HD. destruct (parse_spec D bs HD) as (r & -> & Hr). split; [done|].
  intros x. unfold fixed_wf. rewrite <- Hr. naive_solver.
Qed.

Lemma display_parse `{BuildProfile} D (x : FixedI64 D) :
  valid_exp D -> fixed_wf x -> from_str_decimal D (fixed_display x) = Ret (Ok x).
Proof.
  intros HD Hx. destruct (fixed_display_syntax D x HD Hx) as (neg & w & f & ? & ? & ?).
  unfold from_str_decimal. destruct (parse_spec D (fixed_display x) HD) as (r & -> & Hr).
  f_equal. apply Hr. naive_solver.
Qed.

(** C8: printing a fixed-point number and parsing the text back gives the
    number, for every scale and every [i64] raw value. *)
Theorem display_parse_roundtrip `{BuildProfile} D (x : FixedI64 D) :
  valid_exp D -> fixed_wf x -> from_str_decimal D (fixed_display x) = Ret (Ok x).
Proof. apply display_parse. Qed.

Lemma parse_decimal_bytes_witness :
  @parse_decimal_bytes debug_profile 2 [45; 48; 46; 53] <> Panic /\
  exists neg w f, decimal_syntax [45; 48; 46; 53] neg w f /\ Z.of_nat (length f) <= 2
      /\ -50 = decimal_raw 2 neg w f /\ fixed_wf (from_raw (D := 2) (-50)).
Proof.
  destruct (@parse_decimal_bytes_correct debug_profile 2 [45; 48; 46; 53]) as [Hp Hx]; [by vm_compute|].
  split; [exact Hp|]. apply (Hx (from_raw (-50))). by vm_compute.
Defined.

Lemma display_parse_witness :
  @from_str_decimal release_profile 6 (fixed_display (from_raw (D := 6) (-9223372036854775808)))
  = Ret (Ok (from_raw (-9223372036854775808))).
Proof. apply (@display_parse_roundtrip release_profile 6); by vm_compute. Defined.
