(* ===== verification/Float64.v ===== *)
(** * Binary64 arithmetic

    Rust's [f64] as the Standard Library's IEEE 754 [spec_float] at precision
    53: the operators, the casts from and to integers, and decimal literals.
    The transcendental functions of the [libm] crate are parameters. *)

From Stdlib Require Import ZArith Lia.
From Stdlib.Floats Require Import SpecFloat.
From stdpp Require Import base decidable numbers.
From S2P Require Import Prelude.

#[local] Open Scope Z_scope.

Abbreviation f64 := spec_float.

(** [z as f64], to nearest even. *)
Definition f64_of_Z (z : Z) : f64 := binary_normalize 53 1024 z 0 false.

(** A literal [n / 10^d], to nearest even: division of two exact numbers is
    correctly rounded. *)
Definition f64_lit (n d : Z) : f64 := SFdiv 53 1024 (f64_of_Z n) (f64_of_Z (10 ^ d)).

Definition f64_add : f64 -> f64 -> f64 := SFadd 53 1024.
Definition f64_sub : f64 -> f64 -> f64 := SFsub 53 1024.
Definition f64_mul : f64 -> f64 -> f64 := SFmul 53 1024.
Definition f64_div : f64 -> f64 -> f64 := SFdiv 53 1024.
Definition f64_neg : f64 -> f64 := SFopp.
Definition f64_abs : f64 -> f64 := SFabs.
(** [f64::EPSILON], [2^-52]. *)
Definition f64_EPSILON : f64 := f64_div (f64_of_Z 1) (f64_of_Z 4503599627370496).
Definition f64_lt : f64 -> f64 -> bool := SFltb.
Definition f64_le : f64 -> f64 -> bool := SFleb.
Definition f64_eq : f64 -> f64 -> bool := SFeqb.

(** [f64::max]: the other operand when one is not a number. *)
Definition f64_max (x y : f64) : f64 :=
  match x, y with
  | S754_nan, _ => y
  | _, S754_nan => x
  | _, _ => if f64_lt x y then y else x
  end.

(** The integer part of a finite number. *)
Definition f64_trunc (s : bool) (m : positive) (e : Z) : Z :=
  let a := if 0 <=? e then Zpos m * 2 ^ e else Zpos m / 2 ^ (- e) in
  if s then - a else a.

(** [x as t]: truncates, saturates, and takes [NaN] to 0. *)
Definition f64_to (t : ity) (x : f64) : Z :=
  match x with
  | S754_nan | S754_zero _ => 0
  | S754_infinity s => if s then tmin t else tmax t
  | S754_finite s m e => saturate t (f64_trunc s m e)
  end.

Lemma f64_to_in_range t x : in_range t (f64_to t x).
Proof.
  destruct x as [|[]| |s m e]; cbn [f64_to]; try apply saturate_in_range; unfold in_range; destruct t; cbn; lia.
Qed.

(** The functions of the [libm] crate that the sources call. *)
Class Libm := { libm_pow : f64 -> f64 -> f64; libm_sqrt : f64 -> f64; libm_exp : f64 -> f64 }.

Example f64_tenth : f64_lit 1 1 = S754_finite false 7205759403792794 (-56).
Proof. vm_compute. reflexivity. Qed.
