(* ===== verification/FloatExact.v ===== *)
(** * Exact binary64 arithmetic on small integers

    Integers below [2^53] in absolute value are represented exactly, their sums
    and differences within that range are exact, and the quotient of such
    integers [a / b] with [|a| <= b] is rounded to a number between -1 and 1.
    Proved on the rounding of the Standard Library's [SpecFloat]. *)

From Stdlib Require Import ZArith Lia.
From Stdlib.Floats Require Import SpecFloat.
From stdpp Require Import base decidable numbers tactics.
From S2P Require Import Prelude Float64.

#[local] Open Scope Z_scope.

(** ** Digits and shifts *)

Lemma digits2_log2 p : Z.pos (digits2_pos p) = Z.log2 (Z.pos p) + 1.
Proof. induction p as [p IH|p IH|]; cbn [digits2_pos]; [| |done]; destruct p; cbn in *; lia. Qed.

Lemma Zdigits2_pos z : 0 < z -> Zdigits2 z = Z.log2 z + 1.
Proof. destruct z; try lia. intros _. apply digits2_log2. Qed.

Lemma log2_shift z k : 0 < z -> 0 <= k -> Z.log2 (z * 2 ^ k) = Z.log2 z + k.
Proof. intros. rewrite Z.log2_mul_pow2 by lia. lia. Qed.

(** Dropping a bit of an even number with nothing lost before. *)
Lemma shr_1_even m : 0 <= m -> shr_1 (Build_shr_record (2 * m) false false) = Build_shr_record m false false.
Proof. destruct m; try lia; done. Qed.

Lemma iter_pos_shift p : forall m, 0 <= m ->
  SpecFloat.iter_pos shr_1 p (Build_shr_record (m * 2 ^ Z.pos p) false false) = Build_shr_record m false false.
Proof.
  assert (Hadd : forall k m, 0 <= m -> m * 2 ^ Z.pos k * 2 ^ Z.pos k = m * 2 ^ Z.pos k~0).
  { intros k m _. replace (Z.pos k~0) with (Z.pos k + Z.pos k) by lia. rewrite Z.pow_add_r by lia. ring. }
  induction p as [p IH|p IH|]; intros m Hm; cbn [SpecFloat.iter_pos].
  - replace (m * 2 ^ Z.pos p~1) with (2 * (m * 2 ^ Z.pos p~0)).
    2: { replace (Z.pos p~1) with (1 + Z.pos p~0) by lia. rewrite (Z.pow_add_r 2 1) by lia. ring. }
    assert (0 <= m * 2 ^ Z.pos p) by (apply Z.mul_nonneg_nonneg; lia).
    assert (0 <= m * 2 ^ Z.pos p~0) by (apply Z.mul_nonneg_nonneg; lia).
    rewrite shr_1_even by done. rewrite <- Hadd by done. rewrite IH by done. by apply IH.
  - rewrite <- Hadd by done. assert (0 <= m * 2 ^ Z.pos p) by (apply Z.mul_nonneg_nonneg; lia).
    rewrite IH by done. by apply IH.
  - rewrite (Z.mul_comm m). by apply shr_1_even.
Qed.

Lemma pos_iter_xO p n : Z.pos (Pos.iter xO p n) = Z.pos p * 2 ^ Z.pos n.
Proof.
  induction n as [|n IH] using Pos.peano_ind; [cbn; lia|].
  rewrite Pos.iter_succ. replace (Z.pos (Pos.succ n)) with (1 + Z.pos n) by lia.
  rewrite Z.pow_add_r by lia. change (Z.pos (xO (Pos.iter xO p n))) with (2 * Z.pos (Pos.iter xO p n)). rewrite IH. ring.
Qed.

(** A shift to the right by [n], when nothing was lost. *)
Lemma shr_exact m e n : 0 <= m -> 0 <= n ->
  shr (Build_shr_record (m * 2 ^ n) false false) e n = (Build_shr_record m false false, e + n).
Proof.
  intros Hm Hn. destruct n as [|n|n]; [cbn; by rewrite Z.mul_1_r, Z.add_0_r| |lia].
  cbn [shr]. by rewrite iter_pos_shift.
Qed.

Lemma fexp_normal e : -1021 <= e -> fexp 53 1024 e = e - 53.
Proof. unfold fexp, emin. lia. Qed.

(** ** Integers are exact *)

(** The canonical representation of an integer with [d] digits. *)
Definition exact_int (s : bool) (z : Z) : f64 :=
  let d := Z.log2 z + 1 in S754_finite s (Z.to_pos (z * 2 ^ (53 - d))) (d - 53).

Lemma log2_53 z : 0 < z < 2 ^ 53 -> 0 <= Z.log2 z <= 52.
Proof. intros H. split; [apply Z.log2_nonneg|]. pose proof (proj1 (Z.log2_lt_pow2 z 53 ltac:(lia)) ltac:(lia)). lia. Qed.

(** A mantissa of 53 digits is not rounded. *)
Lemma round_aux_canonical s z :
  0 < z < 2 ^ 53 ->
  binary_round_aux 53 1024 s (z * 2 ^ (52 - Z.log2 z)) (Z.log2 z - 52) loc_Exact = exact_int s z.
Proof.
  intros Hz. pose proof (log2_53 z Hz) as Hl. unfold binary_round_aux, exact_int.
  assert (Hp : 0 < z * 2 ^ (52 - Z.log2 z)) by (apply Z.mul_pos_pos; [lia|apply Z.pow_pos_nonneg; lia]).
  assert (E : shr_fexp 53 1024 (z * 2 ^ (52 - Z.log2 z)) (Z.log2 z - 52) loc_Exact
    = (Build_shr_record (z * 2 ^ (52 - Z.log2 z)) false false, Z.log2 z - 52)).
  { unfold shr_fexp. rewrite Zdigits2_pos, log2_shift by lia. rewrite fexp_normal by lia.
    replace (Z.log2 z + (52 - Z.log2 z) + 1 + (Z.log2 z - 52) - 53 - (Z.log2 z - 52)) with 0 by lia. done. }
  rewrite E. cbn [shr_m loc_of_shr_record round_nearest_even]. rewrite E. cbn [shr_m].
  replace (53 - (Z.log2 z + 1)) with (52 - Z.log2 z) by lia. replace (Z.log2 z + 1 - 53) with (Z.log2 z - 52) by lia.
  destruct (z * 2 ^ (52 - Z.log2 z)) as [|p|p] eqn:Em; [lia| |lia]. cbn [Z.to_pos].
  by destruct (Z.leb_spec (Z.log2 z - 52) (1024 - 53)); [|lia].
Qed.

(** However an integer is scaled, rounding gives its canonical representation. *)
Lemma round_scaled s p z k :
  0 < z < 2 ^ 53 -> 0 <= k -> Z.pos p = z * 2 ^ k -> binary_round 53 1024 s p (- k) = exact_int s z.
Proof.
  intros Hz Hk Ep. pose proof (log2_53 z Hz) as Hl. unfold binary_round. rewrite digits2_log2, Ep, log2_shift by lia.
  replace (Z.log2 z + k + 1 + - k) with (Z.log2 z + 1) by lia. rewrite fexp_normal by lia. unfold shl_align.
  destruct (Z.log2 z + 1 - 53 - - k) as [|n|n] eqn:En.
  - rewrite Ep. replace k with (52 - Z.log2 z) by lia. replace (- (52 - Z.log2 z)) with (Z.log2 z - 52) by lia.
    by apply round_aux_canonical.
  - rewrite Ep. rewrite <- round_aux_canonical by done. unfold binary_round_aux.
    assert (E : shr_fexp 53 1024 (z * 2 ^ k) (- k) loc_Exact
      = (Build_shr_record (z * 2 ^ (52 - Z.log2 z)) false false, Z.log2 z - 52)).
    { unfold shr_fexp. rewrite Zdigits2_pos, log2_shift by lia. rewrite fexp_normal by lia. cbn [shr_record_of_loc].
      replace (z * 2 ^ k) with (z * 2 ^ (52 - Z.log2 z) * 2 ^ (Z.log2 z - 52 + k)).
      2: { rewrite <- Z.mul_assoc, <- Z.pow_add_r by lia. do 2 f_equal. lia. }
      replace (Z.log2 z + k + 1 + - k - 53 - - k) with (Z.log2 z - 52 + k) by lia.
      rewrite shr_exact; [f_equal; lia| |lia]. apply Z.mul_nonneg_nonneg; [lia|apply Z.pow_nonneg; lia]. }
    rewrite E. cbn [shr_m loc_of_shr_record round_nearest_even].
    assert (E' : shr_fexp 53 1024 (z * 2 ^ (52 - Z.log2 z)) (Z.log2 z - 52) loc_Exact
      = (Build_shr_record (z * 2 ^ (52 - Z.log2 z)) false false, Z.log2 z - 52)).
    { unfold shr_fexp. rewrite Zdigits2_pos, log2_shift; [|lia|lia|apply Z.mul_pos_pos; [lia|apply Z.pow_pos_nonneg; lia]].
      rewrite fexp_normal by lia.
      replace (Z.log2 z + (52 - Z.log2 z) + 1 + (Z.log2 z - 52) - 53 - (Z.log2 z - 52)) with 0 by lia. done. }
    rewrite E'. cbn [shr_m loc_of_shr_record round_nearest_even]. by rewrite E'.
  - rewrite pos_iter_xO, Ep, <- Z.mul_assoc, <- Z.pow_add_r by lia.
    replace (k + Z.pos n) with (52 - Z.log2 z) by lia. replace (Z.log2 z + 1 - 53) with (Z.log2 z - 52) by lia.
    by apply round_aux_canonical.
Qed.

(** The float of an integer in range. *)
Definition f64_int (z : Z) : f64 :=
  if z =? 0 then S754_zero false else exact_int (z <? 0) (Z.abs z).

Lemma normalize_scaled z k : Z.abs z < 2 ^ 53 -> 0 <= k -> binary_normalize 53 1024 (z * 2 ^ k) (- k) false = f64_int z.
Proof.
  intros Hz Hk. unfold f64_int. destruct (Z.eqb_spec z 0) as [->|Hn]; [done|].
  assert (Hp : 0 < 2 ^ k) by (apply Z.pow_pos_nonneg; lia).
  destruct (z * 2 ^ k) as [|p|p] eqn:E; [nia| |]; cbn [binary_normalize].
  - destruct (Z.ltb_spec z 0); [nia|]. rewrite Z.abs_eq by lia. apply round_scaled; lia.
  - destruct (Z.ltb_spec z 0); [|nia]. apply round_scaled; [lia|done|]. rewrite Z.abs_neq by lia. lia.
Qed.

Lemma f64_of_Z_exact z : Z.abs z < 2 ^ 53 -> f64_of_Z z = f64_int z.
Proof. intros Hz. unfold f64_of_Z. rewrite <- (normalize_scaled z 0 Hz) by lia. by rewrite Z.mul_1_r. Qed.

(** Its mantissa and exponent. *)
Lemma f64_int_scaled z :
  z <> 0 -> Z.abs z < 2 ^ 53 ->
  exists m k, f64_int z = S754_finite (z <? 0) m (- k) /\ 0 <= k <= 52 /\ Z.pos m = Z.abs z * 2 ^ k
    /\ k = 52 - Z.log2 (Z.abs z).
Proof.
  intros Hn Hz. pose proof (log2_53 (Z.abs z) ltac:(lia)). unfold f64_int, exact_int.
  destruct (Z.eqb_spec z 0); [done|]. eexists _, (52 - Z.log2 (Z.abs z)).
  split; [f_equal; lia|]. split_and!; try lia. rewrite Z2Pos.id; [do 2 f_equal; lia|].
  apply Z.mul_pos_pos; [lia|apply Z.pow_pos_nonneg; lia].
Qed.

Lemma shl_align_scaled m k ez z : Z.pos m = z * 2 ^ k -> - k <= 0 -> ez <= - k ->
  Z.pos (fst (shl_align m (- k) ez)) = z * 2 ^ (- ez).
Proof.
  intros E Hk He. unfold shl_align. destruct (ez - - k) as [|n|n] eqn:En; [|lia|]; cbn [fst].
  - rewrite E. do 2 f_equal. lia.
  - rewrite pos_iter_xO, E, <- Z.mul_assoc, <- Z.pow_add_r by lia. do 2 f_equal. lia.
Qed.

Lemma signed_scaled (z x : Z) : cond_Zopp (z <? 0) (Z.abs z * x) = z * x.
Proof. unfold cond_Zopp. destruct (Z.ltb_spec z 0); lia. Qed.

(** ** Sums and differences *)

Lemma f64_int_add a b : Z.abs a < 2 ^ 53 -> Z.abs b < 2 ^ 53 -> Z.abs (a + b) < 2 ^ 53 ->
  f64_add (f64_int a) (f64_int b) = f64_int (a + b).
Proof.
  intros Ha Hb Hs. destruct (decide (a = 0)) as [->|Na].
  { destruct (decide (b = 0)) as [->|Nb]; [done|].
    destruct (f64_int_scaled b Nb Hb) as (m & k & E & _). cbn [Z.add]. by rewrite E. }
  destruct (f64_int_scaled a Na Ha) as (ma & ka & Ea & Hka & Ema & _). destruct (decide (b = 0)) as [->|Nb].
  { rewrite Z.add_0_r. by rewrite Ea. }
  destruct (f64_int_scaled b Nb Hb) as (mb & kb & Eb & Hkb & Emb & _). rewrite Ea, Eb. unfold f64_add, SFadd.
  rewrite (shl_align_scaled ma ka _ (Z.abs a)), (shl_align_scaled mb kb _ (Z.abs b)) by (done || lia).
  rewrite !signed_scaled, <- Z.mul_add_distr_r.
  replace (Z.min (- ka) (- kb)) with (- Z.max ka kb) by lia. rewrite Z.opp_involutive. apply normalize_scaled; lia.
Qed.

Lemma f64_int_sub a b : Z.abs a < 2 ^ 53 -> Z.abs b < 2 ^ 53 -> Z.abs (a - b) < 2 ^ 53 ->
  f64_sub (f64_int a) (f64_int b) = f64_int (a - b).
Proof.
  intros Ha Hb Hs. destruct (decide (b = 0)) as [->|Nb].
  { rewrite Z.sub_0_r. destruct (decide (a = 0)) as [->|Na]; [done|].
    destruct (f64_int_scaled a Na Ha) as (m & k & E & _). by rewrite E. }
  destruct (f64_int_scaled b Nb Hb) as (mb & kb & Eb & Hkb & Emb & _). destruct (decide (a = 0)) as [->|Na].
  { rewrite Eb. cbn -[f64_int]. unfold f64_int in *. destruct (Z.eqb_spec b 0); [done|].
    destruct (Z.eqb_spec (0 - b) 0); [lia|]. unfold exact_int in *. injection Eb as Em Ee.
    replace (Z.abs (0 - b)) with (Z.abs b) by lia. rewrite Em, Ee. f_equal.
    destruct (Z.ltb_spec b 0), (Z.ltb_spec (0 - b) 0); done || lia. }
  destruct (f64_int_scaled a Na Ha) as (ma & ka & Ea & Hka & Ema & _). rewrite Ea, Eb. unfold f64_sub, SFsub.
  rewrite (shl_align_scaled ma ka _ (Z.abs a)), (shl_align_scaled mb kb _ (Z.abs b)) by (done || lia).
  rewrite !signed_scaled, <- Z.mul_sub_distr_r.
  replace (Z.min (- ka) (- kb)) with (- Z.max ka kb) by lia. rewrite Z.opp_involutive. apply normalize_scaled; lia.
Qed.

(** ** Quotients of at most one *)

Definition within_one (x : f64) : Prop := f64_le (f64_of_Z (-1)) x = true /\ f64_le x (f64_of_Z 1) = true.

Lemma f64_one s : f64_of_Z (if s : bool then -1 else 1) = S754_finite s 4503599627370496 (-52).
Proof. destruct s; vm_compute; reflexivity. Qed.

Lemma pos_le_of_Z p q : Z.pos p <= Z.pos q -> (p <= q)%positive.
Proof. lia. Qed.

(** Comparison with a number of exponent -52. *)
Lemma compare_one s m e B :
  e <= -52 -> (e = -52 -> (m <= B)%positive) ->
  SFleb (S754_finite true B (-52)) (S754_finite s m e) = true /\ SFleb (S754_finite s m e) (S754_finite false B (-52)) = true.
Proof.
  intros He Hm. unfold SFleb, SFcompare. rewrite (Z.compare_antisym e (-52)). fold (Pos.compare m B). fold (Pos.compare B m).
  destruct (Z.compare_spec e (-52)) as [E|Hl|Hl]; [|by destruct s|lia]. specialize (Hm E). cbn [CompOpp].
  destruct s; split; try done; [destruct (Pos.compare_spec B m)|destruct (Pos.compare_spec m B)]; done || lia.
Qed.

Lemma finite_within_one s m e : e <= -52 -> Z.pos m <= 2 ^ (- e) -> within_one (S754_finite s m e).
Proof.
  intros He Hm. unfold within_one, f64_le. rewrite (f64_one true), (f64_one false). apply compare_one; [done|].
  intros ->. by apply pos_le_of_Z.
Qed.

Lemma shr_1_m mrs : 0 <= shr_m mrs -> shr_m (shr_1 mrs) = shr_m mrs / 2.
Proof.
  destruct mrs as [[|[p|p|]|] r s]; cbn [shr_m shr_1]; intros; try lia; try done.
  - change (Z.pos p~1) with (2 * Z.pos p + 1). rewrite Z.mul_comm, Z.div_add_l by lia. change (1 / 2) with 0. lia.
  - change (Z.pos p~0) with (2 * Z.pos p). rewrite Z.mul_comm, Z.div_mul by lia. done.
Qed.

Lemma iter_shr_m p : forall mrs, 0 <= shr_m mrs -> shr_m (SpecFloat.iter_pos shr_1 p mrs) = shr_m mrs / 2 ^ Z.pos p.
Proof.
  assert (Hadd : forall k m, m / 2 ^ Z.pos k / 2 ^ Z.pos k = m / 2 ^ Z.pos k~0).
  { intros k m. replace (Z.pos k~0) with (Z.pos k + Z.pos k) by lia. rewrite Z.pow_add_r, Z.div_div by lia. done. }
  assert (Hpos : forall k m, 0 <= m -> 0 <= m / 2 ^ Z.pos k) by (intros; apply Z.div_pos; lia).
  induction p as [p IH|p IH|]; intros mrs Hm; cbn [SpecFloat.iter_pos].
  - assert (0 <= shr_m (shr_1 mrs)) by (rewrite shr_1_m by done; apply Z.div_pos; lia).
    rewrite IH by (rewrite IH; auto). rewrite IH by done. rewrite Hadd, shr_1_m by done. rewrite Z.div_div by lia.
    replace (Z.pos p~1) with (1 + Z.pos p~0) by lia. by rewrite (Z.pow_add_r 2 1) by lia.
  - rewrite IH by (rewrite IH; auto). rewrite IH by done. by rewrite Hadd.
  - by apply shr_1_m.
Qed.

Lemma shr_spec mrs e n : 0 <= shr_m mrs -> 0 <= n ->
  exists mrs', shr mrs e n = (mrs', e + n) /\ shr_m mrs' = shr_m mrs / 2 ^ n.
Proof.
  intros Hm Hn. destruct n as [|p|p]; [|..|lia]; cbn [shr].
  - exists mrs. rewrite Z.add_0_r, Z.div_1_r. done.
  - eexists. split; [done|]. by apply iter_shr_m.
Qed.

Lemma round_nearest_even_le m l : m <= round_nearest_even m l <= m + 1.
Proof. destruct l as [|[]]; cbn; [..|]; try destruct (Z.even m); lia. Qed.

(** The second normalisation, after rounding: 53 digits, or [2^53]. *)
Lemma round_final s m e :
  2 ^ 52 <= m <= 2 ^ 53 -> m <= 2 ^ (- e) -> -1000 <= e ->
  let '(mrs, e') := shr_fexp 53 1024 m e loc_Exact in
  within_one match shr_m mrs with
             | Z0 => S754_zero s
             | Z.pos m => if e' <=? 1024 - 53 then S754_finite s m e' else S754_infinity s
             | _ => S754_nan
             end.
Proof.
  intros Hm He Hlo.
  assert (Hneg : e <= -52).
  { destruct (Z.le_gt_cases e (-52)); [done|]. assert (2 ^ (- e) <= 2 ^ 51); [|lia].
    destruct (Z.le_gt_cases 0 (- e)); [apply Z.pow_le_mono_r; lia|rewrite Z.pow_neg_r by lia; lia]. }
  unfold shr_fexp. rewrite Zdigits2_pos by lia. destruct (decide (m = 2 ^ 53)) as [->|Hn].
  - change (Z.log2 (2 ^ 53)) with 53. rewrite fexp_normal by lia. replace (53 + 1 + e - 53 - e) with 1 by lia.
    cbn [shr_record_of_loc]. replace (2 ^ 53) with (2 ^ 52 * 2 ^ 1) by lia. rewrite shr_exact by lia. cbn [shr_m].
    assert (e <> -52) by (intros ->; lia). change (2 ^ 52) with (Z.pos 4503599627370496).
    destruct (Z.leb_spec (e + 1) (1024 - 53)); [|lia]. apply finite_within_one; [lia|].
    change (Z.pos 4503599627370496) with (2 ^ 52). apply Z.pow_le_mono_r; lia.
  - assert (Z.log2 m = 52) as -> by (apply Z.log2_unique; lia). rewrite fexp_normal by lia.
    replace (52 + 1 + e - 53 - e) with 0 by lia. cbn [shr shr_record_of_loc shr_m].
    destruct m as [|p|p]; [lia| |lia]. destruct (Z.leb_spec e (1024 - 53)); [|lia]. by apply finite_within_one.
Qed.

(** Rounding a quotient [q * 2^-E] that is at most one, and exact if it is one. *)
Lemma round_within_one s q E l :
  2 ^ 52 <= q <= 2 ^ E -> 0 <= E <= 900 -> (q = 2 ^ E -> l = loc_Exact) ->
  within_one (binary_round_aux 53 1024 s q (- E) l).
Proof.
  intros Hq HE Hl. assert (52 <= Z.log2 q) by (apply (Z.log2_le_mono (2 ^ 52)); lia).
  assert (Z.log2 q <= E) by (rewrite <- (Z.log2_pow2 E) by lia; apply Z.log2_le_mono; lia).
  set (n := Z.log2 q - 52). assert (Hn : 0 <= n) by lia.
  assert (Hpn : 0 < 2 ^ n) by (apply Z.pow_pos_nonneg; lia).
  assert (Hsplit : 2 ^ E = 2 ^ (E - n) * 2 ^ n) by (rewrite <- Z.pow_add_r by lia; f_equal; lia).
  assert (Hm1 : 2 ^ 52 <= q / 2 ^ n < 2 ^ 53).
  { pose proof (Z.log2_spec q ltac:(lia)) as [H1 H2]. split.
    - apply Z.div_le_lower_bound; [done|]. rewrite <- Z.pow_add_r by lia. etrans; [|exact H1]. apply Z.pow_le_mono_r; lia.
    - apply Z.div_lt_upper_bound; [done|]. rewrite <- Z.pow_add_r by lia. eapply Z.lt_le_trans; [exact H2|].
      apply Z.pow_le_mono_r; lia. }
  unfold binary_round_aux. unfold shr_fexp at 1. rewrite Zdigits2_pos, fexp_normal by lia.
  replace (Z.log2 q + 1 + - E - 53 - - E) with n by lia.
  assert (Hr : exists mrs, shr (shr_record_of_loc q l) (- E) n = (mrs, - E + n) /\
    2 ^ 52 <= round_nearest_even (shr_m mrs) (loc_of_shr_record mrs) <= 2 ^ 53 /\
    round_nearest_even (shr_m mrs) (loc_of_shr_record mrs) <= 2 ^ (E - n)).
  { destruct (decide (q = 2 ^ E)) as [Eq|Nq].
    - rewrite (Hl Eq). cbn [shr_record_of_loc]. rewrite Eq, Hsplit, shr_exact by (apply Z.pow_nonneg || lia; lia).
      eexists. split; [done|]. cbn [shr_m loc_of_shr_record round_nearest_even].
      rewrite Eq, Hsplit, Z.div_mul in Hm1 by lia. lia.
    - destruct (shr_spec (shr_record_of_loc q l) (- E) n) as (mrs & Es & Em); [destruct l as [|[]]; cbn; lia|done|].
      assert (shr_m (shr_record_of_loc q l) = q) as Eq' by (by destruct l as [|[]]). rewrite Eq' in Em.
      exists mrs. split; [done|]. pose proof (round_nearest_even_le (shr_m mrs) (loc_of_shr_record mrs)).
      assert (q / 2 ^ n < 2 ^ (E - n)) by (apply Z.div_lt_upper_bound; lia). lia. }
  destruct Hr as (mrs & -> & Hr1 & Hr2).
  pose proof (round_final s _ (- E + n) Hr1) as F. replace (- (- E + n)) with (E - n) in F by lia.
  specialize (F Hr2 ltac:(lia)). by destruct (shr_fexp _ _ _ _ _).
Qed.

(** The quotient of two integers in range, [|a| <= b], lies between -1 and 1. *)
Theorem f64_int_div_within_one a b :
  Z.abs a <= b -> 0 < b < 2 ^ 53 -> within_one (f64_div (f64_int a) (f64_int b)).
Proof.
  intros Hab Hb. destruct (f64_int_scaled b ltac:(lia) ltac:(lia)) as (mb & kb & Eb & Hkb & Emb & Ekb).
  rewrite Z.abs_eq in Emb, Ekb by lia. destruct (decide (a = 0)) as [->|Na].
  { rewrite Eb. cbn. by destruct (b <? 0). }
  destruct (f64_int_scaled a Na ltac:(lia)) as (ma & ka & Ea & Hka & Ema & Eka). rewrite Ea, Eb.
  set (x := Z.abs a) in *. assert (Hx : 0 < x <= b) by lia. clearbody x.
  pose proof (Z.log2_le_mono x b ltac:(lia)). pose proof (log2_53 x ltac:(lia)). pose proof (log2_53 b ltac:(lia)).
  unfold f64_div, SFdiv, SFdiv_core_binary. rewrite Ema, Emb. rewrite !Zdigits2_pos, !log2_shift; try lia.
  replace (Z.log2 x + ka + 1 + - ka - (Z.log2 b + kb + 1 + - kb)) with (Z.log2 x - Z.log2 b) by lia.
  rewrite fexp_normal by lia. set (E := 53 + Z.log2 b - Z.log2 x).
  replace (Z.min (Z.log2 x - Z.log2 b - 53) (- ka - - kb)) with (- E) by lia.
  replace (- ka - - kb - - E) with (Z.pos 53) by lia.
  rewrite Z.shiftl_mul_pow2, <- Z.mul_assoc, <- Z.pow_add_r by lia.
  assert (Hpk : 0 < 2 ^ kb) by (apply Z.pow_pos_nonneg; lia).
  replace (x * 2 ^ (ka + Z.pos 53)) with (x * 2 ^ E * 2 ^ kb) by (rewrite <- Z.mul_assoc, <- Z.pow_add_r by lia; do 2 f_equal; lia).
  set (X := x * 2 ^ E). assert (HX : X <= b * 2 ^ E) by (apply Z.mul_le_mono_nonneg_r; [apply Z.pow_nonneg|]; lia).
  pose proof (Z.log2_spec x ltac:(lia)) as [Hx1 _]. pose proof (Z.log2_spec b ltac:(lia)) as [_ Hb2].
  assert (Hlow : b * 2 ^ 52 <= X).
  { etrans; [apply Z.mul_le_mono_nonneg_r; [lia|apply Z.lt_le_incl, Hb2]|].
    etrans; [|apply Z.mul_le_mono_nonneg_r; [apply Z.pow_nonneg; lia|apply Hx1]].
    rewrite <- !Z.pow_add_r by lia. apply Z.pow_le_mono_r; lia. }
  assert (Edm : Z.div_eucl (X * 2 ^ kb) (b * 2 ^ kb) = (X / b, X mod b * 2 ^ kb)).
  { rewrite <- (Z.div_mul_cancel_r X b (2 ^ kb)), <- Z.mul_mod_distr_r by lia. unfold Z.div, Z.modulo. by destruct (Z.div_eucl _ _). }
  rewrite Edm. apply round_within_one; [split|lia|].
  - by apply Z.div_le_lower_bound; [lia|].
  - apply Z.div_le_upper_bound; lia.
  - intros Eq. assert (X mod b = 0) as ->; [|by unfold new_location, new_location_even, new_location_odd; destruct (Z.even _)].
    pose proof (Z.div_mod X b ltac:(lia)) as Hd. rewrite Eq in Hd. pose proof (Z.mod_pos_bound X b ltac:(lia)). lia.
Qed.
