(* ===== verification/Metering.v ===== *)
(** * Metering ([crates/platform/src/metering], [isa_x86/rdtsc.rs], [isa_arm64/counters.rs], [crates/bench/src/measurement.rs])

    Cycle counters, hardware counters and the collector of benchmark samples.
    What a counter reads (the time-stamp counter, a clock, the kernel's
    counters) is an argument of the operation that reads it; the [kperf]
    frameworks and the [perf-event2] crate are parameters. *)

From Stdlib Require Import ZArith Lia.
From stdpp Require Import base decidable list numbers option tactics strings pretty.
From S2P Require Import Prelude Float64.

#[local] Open Scope Z_scope.

(** ** Measurements (metering/mod.rs) *)

Record Measurement := {
  m_nanos : Z;
  m_cycles : Z;
  m_instructions : option Z;
  m_branch_misses : option Z;
  m_l1d_misses : option Z;
  m_llc_misses : option Z;
}.

Definition timed (nanos cycles : Z) : Measurement :=
  {| m_nanos := nanos; m_cycles := cycles; m_instructions := None; m_branch_misses := None;
     m_l1d_misses := None; m_llc_misses := None |}.

(** [CycleCounter], with what one call of [start] and one of [elapsed] read. *)
Class CycleCounter (C StartReading EndReading : Type) := {
  cc_start : C -> StartReading -> Z;
  cc_elapsed : C -> EndReading -> Z -> Measurement;
}.

(** [u64::try_from(nanos).unwrap_or(u64::MAX)] of a [u128]. *)
Definition nanos_u64 (nanos : Z) : Z := default (tmax U64) (checked U64 nanos).

(** ** InstantCounter (metering/instant.rs) *)

(** [epoch.elapsed()] is the reading; the epoch itself is only its origin. *)
Record InstantCounter := { instant_epoch : Z }.

Definition instant_start (c : InstantCounter) (since_epoch : Z) : Z := nanos_u64 since_epoch.
Definition instant_elapsed (c : InstantCounter) (since_epoch start : Z) : Measurement :=
  timed (saturate U64 (nanos_u64 since_epoch - start)) 0.

#[global] Instance instant_counter : CycleCounter InstantCounter Z Z :=
  {| cc_start := instant_start; cc_elapsed := instant_elapsed |}.

(** ** RdtscCounter (isa_x86/rdtsc.rs) *)

(** [edx] and [eax] after [rdtsc]. *)
Definition rdtsc_serialized (regs : Z * Z) : Z :=
  let '(hi, lo) := regs in Z.lor (wrap U64 (Z.shiftl hi 32)) lo.

Record RdtscCounter := { rd_epoch : Z; epoch_tsc : Z }.

Definition rdtsc_new (now : Z) (regs : Z * Z) : RdtscCounter :=
  {| rd_epoch := now; epoch_tsc := rdtsc_serialized regs |}.

(** [elapsed] reads the counter, the nanoseconds since the epoch and the
    counter again. *)
Record rdtsc_reading := { end_regs : Z * Z; since_epoch : Z; now_regs : Z * Z }.

Definition checked_div (a b : Z) : option Z := if decide (b = 0) then None else Some (a / b).

Definition rdtsc_elapsed (c : RdtscCounter) (r : rdtsc_reading) (start : Z) : Measurement :=
  let end_ := rdtsc_serialized (end_regs r) in
  let cycles := saturate U64 (end_ - start) in
  let nanos := nanos_u64 (since_epoch r) in
  let epoch_cycles := saturate U64 (rdtsc_serialized (now_regs r) - epoch_tsc c) in
  let interval_nanos := default 0 (checked_div (saturate U64 (nanos * cycles)) epoch_cycles) in
  timed interval_nanos cycles.

#[global] Instance rdtsc_counter : CycleCounter RdtscCounter (Z * Z) rdtsc_reading :=
  {| cc_start := fun _ => rdtsc_serialized; cc_elapsed := rdtsc_elapsed |}.

(** ** KperfCounter and PmuCounter (isa_arm64/counters.rs) *)

(** [mach_timebase_info]: what it wrote, or nothing on failure. *)
Definition fetch_timebase (info : option (Z * Z)) : Z * Z := default (1, 1) info.

Record KperfCounter := { kc_numer : Z; kc_denom : Z }.

Definition kperf_new (info : option (Z * Z)) : KperfCounter :=
  let '(numer, denom) := fetch_timebase info in {| kc_numer := numer; kc_denom := Z.max denom 1 |}.

Definition ticks_to_nanos (c : KperfCounter) (ticks : Z) : Z := saturate U64 (ticks * kc_numer c) / kc_denom c.

Definition kperf_elapsed (c : KperfCounter) (end_ start : Z) : Measurement :=
  let ticks := saturate U64 (end_ - start) in timed (ticks_to_nanos c ticks) ticks.

#[global] Instance kperf_counter : CycleCounter KperfCounter Z Z :=
  {| cc_start := fun _ t => t; cc_elapsed := kperf_elapsed |}.

(** [clock_gettime]: [tv_sec] and [tv_nsec], or an error. *)
Definition clock_gettime_nanos (ts : option (Z * Z)) : Z :=
  match ts with
  | None => 0
  | Some (tv_sec, tv_nsec) =>
      let secs := default 0 (checked U64 tv_sec) in
      let nanos := default 0 (checked U64 tv_nsec) in
      saturate U64 (saturate U64 (secs * 1000000000) + nanos)
  end.

Record PmuCounter := MkPmu {}.

Definition pmu_elapsed (c : PmuCounter) (ts : option (Z * Z)) (start : Z) : Measurement :=
  timed (saturate U64 (clock_gettime_nanos ts - start)) 0.

#[global] Instance pmu_counter : CycleCounter PmuCounter (option (Z * Z)) (option (Z * Z)) :=
  {| cc_start := fun _ => clock_gettime_nanos; cc_elapsed := pmu_elapsed |}.

(** ** Hardware counters (metering/hw_counters.rs) *)

Record HwCounterDeltas := { d_instructions : Z; d_branch_misses : Z; d_l1d_misses : Z; d_llc_misses : Z }.

(** [HwCounters] with interior mutability as state passing; [Reading] is what
    the call gets from the kernel. *)
Class HwCounters (H Snapshot Reading : Type) := {
  hw_start : H -> Reading -> outcome (option Snapshot * H);
  hw_read : H -> Reading -> option Snapshot -> outcome (option HwCounterDeltas * H);
}.

Record NoopCounters := MkNoop {}.

#[global] Instance noop_counters {R} : HwCounters NoopCounters unit R :=
  {| hw_start := fun h _ => Ret (None, h); hw_read := fun h _ _ => Ret (None, h) |}.

(** *** Linux (metering/perf_group.rs) *)

Record PerfSnapshot := { ps_instructions : Z; ps_branch_misses : Z; ps_l1d_misses : Z; ps_llc_misses : Z }.

(** The [perf-event2] group: the counts of the four counters when a read
    succeeds. *)
Class PerfEvent (Group : Type) := {
  group_new : option Group;
  group_add : Group -> option Group;
  group_enable : Group -> option Group;
  group_disable : Group -> option Group;
  group_read : Group -> option (PerfSnapshot * Group);
}.

Record PerfGroupCounters (Group : Type) := { pg_group : Group }.
Arguments pg_group {Group} _.

Section perf.
Context {Group : Type} `{PerfEvent Group}.
Implicit Types c : PerfGroupCounters Group.

Definition perf_try_new : option (PerfGroupCounters Group) :=
  g ← group_new; g ← group_add g; g ← group_add g; g ← group_add g; g ← group_add g;
  Some {| pg_group := g |}.

(** [group.enable().ok()?; let counts = group.read().ok()?]. *)
Definition perf_start c : option PerfSnapshot * PerfGroupCounters Group :=
  match group_enable (pg_group c) with
  | None => (None, c)
  | Some g =>
      match group_read g with
      | None => (None, {| pg_group := g |})
      | Some (counts, g) => (Some counts, {| pg_group := g |})
      end
  end.

Definition perf_deltas (now base : PerfSnapshot) : HwCounterDeltas :=
  {| d_instructions := saturate U64 (ps_instructions now - ps_instructions base);
     d_branch_misses := saturate U64 (ps_branch_misses now - ps_branch_misses base);
     d_l1d_misses := saturate U64 (ps_l1d_misses now - ps_l1d_misses base);
     d_llc_misses := saturate U64 (ps_llc_misses now - ps_llc_misses base) |}.

Definition perf_read c (snapshot : option PerfSnapshot) : option HwCounterDeltas * PerfGroupCounters Group :=
  match snapshot with
  | None => (None, c)
  | Some base =>
      match group_read (pg_group c) with
      | None => (None, c)
      | Some (counts, g) =>
          match group_disable g with
          | None => (None, {| pg_group := g |})
          | Some g => (Some (perf_deltas counts base), {| pg_group := g |})
          end
      end
  end.

#[global] Instance perf_counters : HwCounters (PerfGroupCounters Group) PerfSnapshot unit :=
  {| hw_start := fun c _ => Ret (perf_start c); hw_read := fun c _ snap => Ret (perf_read c snap) |}.
End perf.

(** *** macOS (metering/kperf_pmu.rs) *)

Definition KPC_MAX_COUNTERS : nat := 32.
Definition KPC_CLASS_CONFIGURABLE_MASK : Z := Z.shiftl 1 1.

Definition INSTRUCTIONS_NAMES : list string := ["FIXED_INSTRUCTIONS"; "INST_RETIRED.ANY"]%string.
Definition BRANCH_MISS_NAMES : list string :=
  ["BRANCH_MISPRED_NONSPEC"; "BRANCH_MISPREDICT"; "BR_MISP_RETIRED.ALL_BRANCHES"; "BR_INST_RETIRED.MISPRED"]%string.
Definition EVENT_ALIASES : list (list string) := [INSTRUCTIONS_NAMES; BRANCH_MISS_NAMES].

(** What the frameworks answer: whether a library or symbol is there, the
    return codes, and what is written through the out-pointers.  Event and
    database handles are addresses, 0 the null pointer. *)
Class Kperf := {
  dlopen : string -> bool;
  dlsym : string -> bool;
  kpc_force_all_ctrs_get : Z;
  kpep_db_create : Z;
  kpep_config_create : Z;
  kpep_config_force_counters : Z;
  kpep_db_event : string -> Z * Z;
  kpep_config_add_event : Z -> Z;
  kpep_config_kpc_classes : Z * Z;
  kpep_config_kpc_count : Z * Z;
  kpep_config_kpc_map : Z * list Z;
  kpep_config_kpc : Z;
  kpc_force_all_ctrs_set : Z;
  kpc_set_config : Z;
  kpc_set_counting : Z;
  kpc_set_thread_counting : Z;
}.

Inductive io_error := NotFound (what : string) | PermissionDenied (what : string) | OtherError (what : string).

(** The kernel calls that change the performance-monitoring unit. *)
Inductive pmu_call := ForceAllCtrs | SetConfig | SetCounting | SetThreadCounting.

Record KperfPmuCounters := { instructions_idx : nat; branch_misses_idx : nat }.
Record KperfSnapshot := { ks_instructions : Z; ks_branch_misses : Z }.

(** The initialisation: a result and the kernel calls made, in order. *)
Definition init (A : Type) : Type := list pmu_call -> result A io_error * list pmu_call.
#[global] Instance init_ret : MRet init := fun A a t => (Ok a, t).
#[global] Instance init_bind : MBind init := fun A B f m t =>
  match m t with (Ok a, t) => f a t | (Err e, t) => (Err e, t) end.
(** [if rc != 0 { return Err(e) }], and the same after a kernel call. *)
Definition ensure (ok : bool) (e : io_error) : init unit := fun t => (if ok then Ok tt else Err e, t).
Definition calling (c : pmu_call) (rc : Z) (e : io_error) : init unit :=
  fun t => (if rc =? 0 then Ok tt else Err e, t ++ [c]).

Section kperf.
Context `{Kperf}.

Definition load_sym (name : string) : init unit :=
  ensure (dlsym name) (NotFound ("kperf symbol not found: " ++ name)).
Fixpoint load_syms (names : list string) : init unit :=
  match names with [] => mret tt | n :: names => load_sym n ;; load_syms names end.

Definition kperf_symbols : list string :=
  ["kpc_force_all_ctrs_get"; "kpc_force_all_ctrs_set"; "kpc_set_config"; "kpc_set_counting";
   "kpc_set_thread_counting"; "kpc_get_thread_counters"; "kpep_db_create"; "kpep_db_event"; "kpep_config_create";
   "kpep_config_add_event"; "kpep_config_force_counters"; "kpep_config_kpc"; "kpep_config_kpc_count";
   "kpep_config_kpc_classes"; "kpep_config_kpc_map"]%string.

(** The first name of the chain the database knows; [ev_ptrs[i]] stays null
    when there is none. *)
Fixpoint find_event (names : list string) : Z :=
  match names with
  | [] => 0
  | n :: names => let '(rc, ev) := kpep_db_event n in if rc =? 0 then ev else find_event names
  end.

Fixpoint find_events (i : nat) (groups : list (list string)) : init (list Z) :=
  match groups with
  | [] => mret []
  | names :: groups =>
      let ev := find_event names in
      ensure (negb (ev =? 0)) (NotFound ("kperf: no event found for alias group " ++ pretty i)) ;;
      evs ← find_events (S i) groups; mret (ev :: evs)
  end.

Fixpoint add_events (evs : list Z) : init unit :=
  match evs with
  | [] => mret tt
  | ev :: evs =>
      ensure (kpep_config_add_event ev =? 0) (OtherError "kpep_config_add_event failed") ;; add_events evs
  end.

(** Loading the frameworks, the permission check and the configuration. *)
Definition kperf_configure : init unit :=
  ensure (dlopen "kperf") (NotFound "cannot load kperf.framework") ;;
  ensure (dlopen "kperfdata") (NotFound "cannot load kperfdata.framework") ;;
  load_syms kperf_symbols ;;
  ensure (kpc_force_all_ctrs_get =? 0) (PermissionDenied "kpc_force_all_ctrs_get failed (root required)") ;;
  ensure (kpep_db_create =? 0) (OtherError "kpep_db_create failed") ;;
  ensure (kpep_config_create =? 0) (OtherError "kpep_config_create failed") ;;
  ensure (kpep_config_force_counters =? 0) (OtherError "kpep_config_force_counters failed") ;;
  evs ← find_events 0 EVENT_ALIASES;
  add_events evs ;;
  ensure ((kpep_config_kpc_classes.1 =? 0) && (kpep_config_kpc_count.1 =? 0) && (kpep_config_kpc_map.1 =? 0)
          && (kpep_config_kpc =? 0)) (OtherError "kpep_config_kpc setup failed").

(** The kernel calls, with the error each turns into; [kpc_set_config] only for
    configurable counters. *)
Definition pmu_plan : list (pmu_call * Z * io_error) :=
  [(ForceAllCtrs, kpc_force_all_ctrs_set, PermissionDenied "kpc_force_all_ctrs_set failed (root required)")]
  ++ (if negb (Z.land kpep_config_kpc_classes.2 KPC_CLASS_CONFIGURABLE_MASK =? 0) && (0 <? kpep_config_kpc_count.2)
      then [(SetConfig, kpc_set_config, OtherError "kpc_set_config failed")] else [])
  ++ [(SetCounting, kpc_set_counting, OtherError "kpc_set_counting failed");
      (SetThreadCounting, kpc_set_thread_counting, OtherError "kpc_set_counting failed")].

Fixpoint run_calls (plan : list (pmu_call * Z * io_error)) : init unit :=
  match plan with
  | [] => mret tt
  | (c, rc, e) :: plan => calling c rc e ;; run_calls plan
  end.

(** Programming the kernel and checking the counter map. *)
Definition kperf_program : init KperfPmuCounters :=
  let counter_map := kpep_config_kpc_map.2 in
  run_calls pmu_plan ;;
  let instructions_idx := default 0 (counter_map !! 0%nat) in
  let branch_misses_idx := default 0 (counter_map !! 1%nat) in
  ensure (negb ((Z.of_nat KPC_MAX_COUNTERS <=? instructions_idx) || (Z.of_nat KPC_MAX_COUNTERS <=? branch_misses_idx)))
    (OtherError "invalid counter_map indices from kpep") ;;
  mret {| instructions_idx := Z.to_nat instructions_idx; branch_misses_idx := Z.to_nat branch_misses_idx |}.

Definition kperf_try_new : init KperfPmuCounters := kperf_configure ;; kperf_program.
End kperf.

(** [read_counters]: the 32 values the kernel wrote, or an error code. *)
Definition kperf_hw_start (c : KperfPmuCounters) (counters : option (list Z)) : outcome (option KperfSnapshot) :=
  match counters with
  | None => Ret None
  | Some cs =>
      i ← index cs (instructions_idx c);
      b ← index cs (branch_misses_idx c);
      Ret (Some {| ks_instructions := i; ks_branch_misses := b |})
  end.

Definition kperf_hw_read (c : KperfPmuCounters) (counters : option (list Z)) (snapshot : option KperfSnapshot)
    : outcome (option HwCounterDeltas) :=
  match snapshot, counters with
  | Some base, Some cs =>
      i ← index cs (instructions_idx c);
      b ← index cs (branch_misses_idx c);
      Ret (Some {| d_instructions := saturate U64 (i - ks_instructions base);
                   d_branch_misses := saturate U64 (b - ks_branch_misses base);
                   d_l1d_misses := 0; d_llc_misses := 0 |})
  | _, _ => Ret None
  end.

#[global] Instance kperf_pmu_counters : HwCounters KperfPmuCounters KperfSnapshot (option (list Z)) :=
  {| hw_start := fun c cs => s ← kperf_hw_start c cs; Ret (s, c);
     hw_read := fun c cs snap => d ← kperf_hw_read c cs snap; Ret (d, c) |}.

(** ** Benchmark samples (crates/bench/src/measurement.rs) *)

Record SampleCollector := {
  sc_cycles : list Z;
  sc_nanos : list Z;
  sc_instructions : list Z;
  sc_branch_misses : list Z;
  sc_l1d_misses : list Z;
  sc_llc_misses : list Z;
  has_hw_counters : bool;
}.

Definition collector_default : SampleCollector :=
  {| sc_cycles := []; sc_nanos := []; sc_instructions := []; sc_branch_misses := []; sc_l1d_misses := [];
     sc_llc_misses := []; has_hw_counters := false |}.

(** [reset] clears every vector. *)
Definition collector_reset (c : SampleCollector) : SampleCollector := collector_default.
Definition collector_len (c : SampleCollector) : nat := length (sc_cycles c).
Definition collector_is_empty (c : SampleCollector) : bool := bool_decide (sc_cycles c = []).

Definition f64_sum (l : list f64) : f64 := foldl f64_add (f64_of_Z 0) l.

Definition weighted_per_op (values : list Z) (iters : list f64) : option f64 :=
  if bool_decide (values = []) || bool_decide (iters = []) then None
  else
    let len := (length values `min` length iters)%nat in
    let total := f64_sum (f64_of_Z <$> take len values) in
    let total_iters := f64_sum (take len iters) in
    if f64_lt (f64_of_Z 0) total_iters then Some (f64_div total total_iters) else None.

Definition mean_cycles_per_op (c : SampleCollector) (iters : list f64) : option f64 :=
  weighted_per_op (sc_cycles c) iters.
Definition mean_instructions_per_op (c : SampleCollector) (iters : list f64) : option f64 :=
  if negb (has_hw_counters c) then None else weighted_per_op (sc_instructions c) iters.
Definition mean_branch_misses_per_op (c : SampleCollector) (iters : list f64) : option f64 :=
  if negb (has_hw_counters c) then None else weighted_per_op (sc_branch_misses c) iters.
Definition mean_l1d_misses_per_op (c : SampleCollector) (iters : list f64) : option f64 :=
  if negb (has_hw_counters c) then None else weighted_per_op (sc_l1d_misses c) iters.
Definition mean_llc_misses_per_op (c : SampleCollector) (iters : list f64) : option f64 :=
  if negb (has_hw_counters c) then None else weighted_per_op (sc_llc_misses c) iters.

(** What [end] stores for one sample. *)
Definition collect (c : SampleCollector) (m : Measurement) (hw : option HwCounterDeltas) : SampleCollector :=
  let c := {| sc_cycles := sc_cycles c ++ [m_cycles m]; sc_nanos := sc_nanos c ++ [m_nanos m];
              sc_instructions := sc_instructions c; sc_branch_misses := sc_branch_misses c;
              sc_l1d_misses := sc_l1d_misses c; sc_llc_misses := sc_llc_misses c;
              has_hw_counters := has_hw_counters c |} in
  match hw with
  | None => c
  | Some d =>
      {| sc_cycles := sc_cycles c; sc_nanos := sc_nanos c;
         sc_instructions := sc_instructions c ++ [d_instructions d];
         sc_branch_misses := sc_branch_misses c ++ [d_branch_misses d];
         sc_l1d_misses := sc_l1d_misses c ++ [d_l1d_misses d];
         sc_llc_misses := sc_llc_misses c ++ [d_llc_misses d];
         has_hw_counters := true |}
  end.

Record MantisMeasurement (C H : Type) := { mm_counter : C; mm_hw : option H }.
Arguments mm_counter {C H} _.
Arguments mm_hw {C H} _.

Section measure.
Context {C SR ER H Snap HR : Type} `{CycleCounter C SR ER} `{HwCounters H Snap HR}.
Implicit Types mm : MantisMeasurement C H.

(** [self.hw.as_ref().and_then(..)]. *)
Definition with_hw {A} mm (f : H -> outcome (option A * H)) : outcome (option A * MantisMeasurement C H) :=
  match mm_hw mm with
  | None => Ret (None, mm)
  | Some h => '(a, h) ← f h; Ret (a, {| mm_counter := mm_counter mm; mm_hw := Some h |})
  end.

Definition mm_new (counter : C) : MantisMeasurement C H := {| mm_counter := counter; mm_hw := None |}.
Definition with_hw_counters (counter : C) (hw : H) : MantisMeasurement C H := {| mm_counter := counter; mm_hw := Some hw |}.

(** [platform_default], given what [DefaultHwCounters::try_new] returned. *)
Definition platform_default {E} (counter : C) (hw : result H E) : MantisMeasurement C H :=
  match hw with Ok hw => with_hw_counters counter hw | Err _ => mm_new counter end.

(** [start]: the hardware counters first, then the cycle counter, then the wall
    clock, which reads [now]. *)
Definition measure_start mm (hr : HR) (sr : SR) (now : Z) : outcome (Z * Z * option Snap * MantisMeasurement C H) :=
  '(snap, mm) ← with_hw mm (fun h => hw_start h hr);
  Ret (cc_start (mm_counter mm) sr, now, snap, mm).

(** [end], with the thread's collector: the wall-clock time passed, and the
    sample stored. *)
Definition measure_end mm (i : Z * Z * option Snap) (now : Z) (er : ER) (hr : HR) (samples : SampleCollector)
    : outcome (Z * SampleCollector * MantisMeasurement C H) :=
  let wall_elapsed := Z.max 0 (now - i.1.2) in
  let m := cc_elapsed (mm_counter mm) er i.1.1 in
  '(deltas, mm) ← with_hw mm (fun h => hw_read h hr i.2);
  Ret (wall_elapsed, collect samples m deltas, mm).
End measure.

(** [reset_samples] and [take_samples] on the thread's collector. *)
Definition reset_samples (samples : SampleCollector) : SampleCollector := collector_reset samples.
Definition take_samples (samples : SampleCollector) : SampleCollector * SampleCollector := (samples, collector_default).

(** * Properties *)

(** ** Cycle counters *)

Lemma rdtsc_value hi lo :
  in_range U32 hi -> in_range U32 lo -> rdtsc_serialized (hi, lo) = hi * 2 ^ 32 + lo /\ in_range U64 (hi * 2 ^ 32 + lo).
Proof.
  unfold in_range. cbn [tmin tmax]. intros Hh Hl. unfold rdtsc_serialized. rewrite Z.shiftl_mul_pow2 by lia.
  rewrite wrap_id by mlia. rewrite lor_shifted_add by lia. lia.
Qed.

Lemma nanos_u64_id n : in_range U64 n -> nanos_u64 n = n.
Proof. intros Hn. unfold nanos_u64. by rewrite checked_Some. Qed.

(** A clock that does not run backwards is measured exactly, in nanoseconds. *)
Lemma instant_measures (c : InstantCounter) t0 t1 :
  0 <= t0 <= t1 -> t1 <= tmax U64 -> cc_elapsed c t1 (cc_start c t0) = timed (t1 - t0) 0.
Proof.
  intros H0 H1. cbn [cc_elapsed cc_start instant_counter]. unfold instant_elapsed, instant_start.
  rewrite !nanos_u64_id by mlia. by rewrite saturate_id by mlia.
Qed.

(** [clock_gettime] in range: seconds and nanoseconds added up; an error at the
    end of the interval reports 0, an error at its start the time since the
    clock's origin. *)
Lemma pmu_measures (c : PmuCounter) s0 n0 s1 n1 :
  0 <= n0 < 1000000000 -> 0 <= n1 < 1000000000 -> 0 <= s0 <= 18000000000 -> 0 <= s1 <= 18000000000 ->
  s0 * 1000000000 + n0 <= s1 * 1000000000 + n1 ->
  m_nanos (cc_elapsed c (Some (s1, n1)) (cc_start c (Some (s0, n0)))) = (s1 - s0) * 1000000000 + (n1 - n0)
  /\ m_nanos (cc_elapsed c None (cc_start c (Some (s0, n0)))) = 0
  /\ m_nanos (cc_elapsed c (Some (s1, n1)) (cc_start c None)) = s1 * 1000000000 + n1.
Proof.
  intros Hn0 Hn1 Hs0 Hs1 Hle. cbn [cc_elapsed cc_start pmu_counter]. unfold pmu_elapsed, clock_gettime_nanos.
  cbn [m_nanos timed].
  rewrite (checked_Some U64 s0), (checked_Some U64 s1), (checked_Some U64 n0), (checked_Some U64 n1) by mlia.
  unfold default, id. cbn [from_option].
  rewrite (saturate_id U64 (s0 * 1000000000)), (saturate_id U64 (s1 * 1000000000)) by mlia.
  rewrite (saturate_id U64 (s0 * 1000000000 + n0)), (saturate_id U64 (s1 * 1000000000 + n1)) by mlia.
  split; [|split].
  - rewrite saturate_id by mlia. lia.
  - unfold saturate. cbn [tmin]. rewrite (Z.min_r (tmax U64)) by mlia. lia.
  - rewrite saturate_id by mlia. lia.
Qed.

(** C4. What [RdtscCounter::elapsed] reports: the cycles exactly, and the
    nanoseconds since the epoch in proportion, rounded down, never more than
    there were, as long as nanoseconds times cycles fits in 64 bits; beyond
    that the product saturates.  For a counter that advances [f] cycles per
    nanosecond, an interval of [d] nanoseconds is reported as [d] exactly when
    the product fits, and as less when it does not. *)
Theorem rdtsc_measures_interval (c : RdtscCounter) (r : rdtsc_reading) (start : Z) :
  let t_end := rdtsc_serialized (end_regs r) in
  let now := rdtsc_serialized (now_regs r) in
  let nanos := since_epoch r in
  0 <= epoch_tsc c <= start -> start <= t_end <= now -> now <= tmax U64 -> 0 <= nanos <= tmax U64 ->
  let m := cc_elapsed c r start in
  let cycles := t_end - start in
  let total := now - epoch_tsc c in
  m_cycles m = cycles /\ 0 <= m_nanos m <= nanos
  /\ (nanos * cycles <= tmax U64 -> m_nanos m = nanos * cycles / total)
  /\ (tmax U64 < nanos * cycles -> m_nanos m = tmax U64 / total)
  /\ (forall f d, 0 < f -> 0 < nanos -> total = f * nanos -> cycles = f * d ->
        if nanos * cycles <=? tmax U64 then m_nanos m = d else m_nanos m < d).
Proof.
  intros t_end now nanos H0 H1 H2 H3 m cycles total.
  assert (Em : m_nanos m = Z.min (nanos * cycles) (tmax U64) / total /\ m_cycles m = cycles).
  { unfold m. cbn [cc_elapsed rdtsc_counter]. unfold rdtsc_elapsed. cbn [m_nanos m_cycles timed].
    fold t_end now nanos. rewrite nanos_u64_id by mlia.
    rewrite !(saturate_id U64 (_ - _)) by mlia. fold cycles total. split; [|done].
    assert (saturate U64 (nanos * cycles) = Z.min (nanos * cycles) (tmax U64)) as -> by (unfold saturate; cbn [tmin]; nia).
    unfold checked_div. case_decide as E; cbn [default]; [|done]. by rewrite E, Z.div_0_r. }
  destruct Em as [-> ->]. split; [done|]. assert (0 <= cycles <= total) by lia. split.
  - destruct (decide (total = 0)) as [->|]; [rewrite Z.div_0_r; lia|]. split; [apply Z.div_pos; [cbn [tmax]; nia|lia]|].
    apply Z.div_le_upper_bound; nia.
  - split; [intros; by rewrite Z.min_l by lia|]. split; [intros; by rewrite Z.min_r by lia|].
    intros f d Hf Hn Ht Hc. destruct (Z.leb_spec (nanos * cycles) (tmax U64)).
    + rewrite Z.min_l, Ht, Hc by lia. replace (nanos * (f * d)) with (d * (f * nanos)) by lia. apply Z.div_mul. nia.
    + rewrite Z.min_r by lia. apply Z.div_lt_upper_bound; nia.
Qed.

(** The witness: at 3 cycles per nanosecond, ten seconds after the epoch, one
    millisecond is measured exactly and one second as 614 milliseconds. *)
Lemma rdtsc_measures_interval_witness :
  let c := rdtsc_new 0 (0, 0) in
  let reading := {| end_regs := (6, 4230196224); since_epoch := 10000000000; now_regs := (6, 4230196224) |} in
  m_nanos (cc_elapsed c reading (30000000000 - 3000000)) = 1000000
  /\ m_nanos (cc_elapsed c reading (30000000000 - 3000000000)) = 614891469.
Proof.
  assert (Hw : rdtsc_serialized (6, 4230196224) = 30000000000) by reflexivity.
  split.
  - refine (proj2 (proj2 (proj2 (proj2 (rdtsc_measures_interval (rdtsc_new 0 (0, 0))
      {| end_regs := (6, 4230196224); since_epoch := 10000000000; now_regs := (6, 4230196224) |} (30000000000 - 3000000)
      _ _ _ _)))) 3 1000000 _ _ _ _); cbn [end_regs now_regs since_epoch]; rewrite ?Hw; by vm_compute.
  - etransitivity; [refine (proj1 (proj2 (proj2 (proj2 (rdtsc_measures_interval (rdtsc_new 0 (0, 0))
      {| end_regs := (6, 4230196224); since_epoch := 10000000000; now_regs := (6, 4230196224) |} (30000000000 - 3000000000)
      _ _ _ _)))) _)|]; cbn [end_regs now_regs since_epoch]; rewrite ?Hw; by vm_compute.
Defined.

Lemma kperf_measures info t0 t1 :
  (forall n d, info = Some (n, d) -> in_range U32 n /\ in_range U32 d) -> 0 <= t0 <= t1 -> t1 <= tmax U64 ->
  let c := kperf_new info in
  m_cycles (cc_elapsed c t1 (cc_start c t0)) = t1 - t0 /\
  ((t1 - t0) * kc_numer c <= tmax U64 ->
   m_nanos (cc_elapsed c t1 (cc_start c t0)) = (t1 - t0) * kc_numer c / kc_denom c).
Proof.
  intros Hi H0 H1 c. cbn [cc_elapsed cc_start kperf_counter]. unfold kperf_elapsed, ticks_to_nanos.
  cbn [m_cycles m_nanos timed]. rewrite (saturate_id U64 (t1 - t0)) by mlia. split; [done|]. intros Hle.
  rewrite saturate_id; [done|]. split; [|done]. cbn [tmin].
  assert (0 <= kc_numer c) by (unfold c, kperf_new, fetch_timebase; destruct info as [[n d]|]; cbn;
    [apply (Hi n d eq_refl)|lia]). nia.
Qed.

(** ** Hardware counters *)

(** An initialisation step that makes no kernel call. *)
Definition quiet_init {A} (m : init A) : Prop := forall t, snd (m t) = t.

Lemma ensure_quiet ok e : quiet_init (ensure ok e).
Proof. done. Qed.

Lemma bind_quiet {A B} (m : init A) (f : A -> init B) :
  quiet_init m -> (forall a, quiet_init (f a)) -> quiet_init (m ≫= f).
Proof.
  intros Hm Hf t. unfold mbind, init_bind. specialize (Hm t). destruct (m t) as [[a|e] t']; cbn in *; subst; [apply Hf|done].
Qed.

Section kperf_init.
Context `{Kperf}.

Lemma load_syms_quiet names : quiet_init (load_syms names).
Proof. induction names; cbn; [done|]. by apply bind_quiet. Qed.

Lemma find_events_quiet groups : forall i, quiet_init (find_events i groups).
Proof.
  induction groups as [|g groups IH]; intros i; cbn; [done|]. apply bind_quiet; [done|]. intros _. by apply bind_quiet.
Qed.

Lemma add_events_quiet evs : quiet_init (add_events evs).
Proof. induction evs; cbn; [done|]. by apply bind_quiet. Qed.

Lemma configure_quiet : quiet_init kperf_configure.
Proof.
  unfold kperf_configure. repeat (apply bind_quiet;
    [auto using ensure_quiet, load_syms_quiet, find_events_quiet, add_events_quiet|intros ?]). apply ensure_quiet.
Qed.

Lemma configure_permitted t u : kperf_configure t = (Ok u, t) -> kpc_force_all_ctrs_get = 0.
Proof.
  unfold kperf_configure, mbind, init_bind, ensure. destruct (dlopen "kperf"), (dlopen "kperfdata"); try done.
  pose proof (load_syms_quiet kperf_symbols t) as Hq. destruct (load_syms kperf_symbols t) as [[[]|] t1]; cbn in Hq; subst; [|done].
  by destruct (Z.eqb_spec kpc_force_all_ctrs_get 0).
Qed.

(** The calls stop at the first one that fails. *)
Lemma run_calls_prefix plan : forall t, plan <> [] ->
  exists k, (0 < k)%nat /\ snd (run_calls plan t) = t ++ take k ((fun x => x.1.1) <$> plan).
Proof.
  induction plan as [|[[c rc] e] plan IH]; intros t Hp; [done|]. cbn [run_calls fmap list_fmap fst].
  unfold mbind at 1, init_bind, calling. destruct (Z.eqb_spec rc 0); [|exists 1%nat; split; [lia|done]].
  destruct (decide (plan = [])) as [->|Hne]; [exists 1%nat; split; [lia|done]|].
  destruct (IH (t ++ [c]) Hne) as (k & Hk & ->). exists (S k). split; [lia|]. cbn [take]. by rewrite <- app_assoc.
Qed.

Lemma program_spec t r t' :
  kperf_program t = (r, t') ->
  (exists k, (0 < k)%nat /\ t' = t ++ take k ((fun x => x.1.1) <$> pmu_plan)) /\
  (forall c, r = Ok c -> (instructions_idx c < KPC_MAX_COUNTERS)%nat /\ (branch_misses_idx c < KPC_MAX_COUNTERS)%nat).
Proof.
  unfold kperf_program. unfold mbind at 1, init_bind at 1. intros E.
  destruct (run_calls_prefix pmu_plan t) as (k & Hk & Et); [done|].
  destruct (run_calls pmu_plan t) as [[[]|e] t1]; cbn [snd] in Et; subst t1;
    [|injection E as <- <-; split; [by exists k|done]].
  unfold mbind, init_bind, ensure, mret, init_ret in E.
  set (i := default 0 (kpep_config_kpc_map.2 !! 0%nat)) in *. set (b := default 0 (kpep_config_kpc_map.2 !! 1%nat)) in *.
  destruct (Z.leb_spec (Z.of_nat KPC_MAX_COUNTERS) i), (Z.leb_spec (Z.of_nat KPC_MAX_COUNTERS) b); cbn in E;
    injection E as <- <-; (split; [by exists k|]); try done.
  intros c [= <-]. cbn [instructions_idx branch_misses_idx]. unfold KPC_MAX_COUNTERS in *. lia.
Qed.
End kperf_init.

(** [try_new] on macOS: the performance-monitoring unit is touched only after
    the permission check and all the lookups succeeded, by a prefix of the
    planned calls, and a counter it returns reads every snapshot in bounds. *)
Theorem kperf_init_safe `{Kperf} r calls :
  kperf_try_new [] = (r, calls) ->
  (exists k, calls = take k ((fun x => x.1.1) <$> pmu_plan)) /\
  (calls <> [] -> kpc_force_all_ctrs_get = 0) /\
  (forall c, r = Ok c -> forall start finish, length start = KPC_MAX_COUNTERS -> length finish = KPC_MAX_COUNTERS ->
     exists snap d, kperf_hw_start c (Some start) = Ret (Some snap)
       /\ kperf_hw_read c (Some finish) (Some snap) = Ret (Some d)).
Proof.
  unfold kperf_try_new, mbind, init_bind. intros E. pose proof (configure_quiet []) as Hq.
  destruct (kperf_configure []) as [[[]|e] t1] eqn:Ec; cbn in Hq; subst t1.
  2: { injection E as <- <-. split; [by exists 0%nat|done]. }
  destruct (program_spec _ _ _ E) as [(k & _ & ->) Hidx]. split; [by exists k|]. split; [by intros _; eapply configure_permitted|].
  intros c -> start finish Hs Hf. destruct (Hidx c eq_refl) as [Hi Hb].
  destruct (lookup_lt_is_Some_2 start (instructions_idx c)) as [x0 E0]; [lia|].
  destruct (lookup_lt_is_Some_2 start (branch_misses_idx c)) as [y0 F0]; [lia|].
  destruct (lookup_lt_is_Some_2 finish (instructions_idx c)) as [x1 E1]; [lia|].
  destruct (lookup_lt_is_Some_2 finish (branch_misses_idx c)) as [y1 F1]; [lia|].
  unfold kperf_hw_start, kperf_hw_read. rewrite (index_ok _ _ _ E0), (index_ok _ _ _ F0), (index_ok _ _ _ E1), (index_ok _ _ _ F1).
  cbn [mbind outcome_bind]. eauto.
Qed.

(** A measurement interval on Linux: the deltas are the differences of the two
    reads of the enabled group, which is disabled afterwards. *)
Lemma perf_interval {Group} `{PerfEvent Group} g g1 g2 g3 g4 (base now : PerfSnapshot) :
  group_enable g = Some g1 -> group_read g1 = Some (base, g2) -> group_read g2 = Some (now, g3) ->
  group_disable g3 = Some g4 ->
  exists c, perf_start {| pg_group := g |} = (Some base, c) /\ perf_read c (Some base) = (Some (perf_deltas now base), {| pg_group := g4 |}).
Proof.
  intros E1 E2 E3 E4. eexists. unfold perf_start, perf_read. cbn [pg_group]. rewrite E1, E2. split; [done|].
  cbn [pg_group]. by rewrite E3, E4.
Qed.

(** ** Samples *)

(** What was stored since the last reset: the measurement and the deltas of
    every sample. *)
Definition collected (c : SampleCollector) (log : list (Measurement * option HwCounterDeltas)) : Prop :=
  c = {| sc_cycles := (fun x => m_cycles x.1) <$> log; sc_nanos := (fun x => m_nanos x.1) <$> log;
         sc_instructions := d_instructions <$> omap snd log; sc_branch_misses := d_branch_misses <$> omap snd log;
         sc_l1d_misses := d_l1d_misses <$> omap snd log; sc_llc_misses := d_llc_misses <$> omap snd log;
         has_hw_counters := negb (bool_decide (omap snd log = [])) |}.

Lemma collect_log c log m hw : collected c log -> collected (collect c m hw) (log ++ [(m, hw)]).
Proof.
  unfold collected. intros ->. unfold collect. rewrite !fmap_app, !omap_app. cbn [omap list_omap snd fmap list_fmap fst].
  destruct hw as [d|]; cbn [sc_cycles sc_nanos sc_instructions sc_branch_misses sc_l1d_misses sc_llc_misses has_hw_counters].
  - rewrite !fmap_app. f_equal. by rewrite bool_decide_false by (by destruct (omap snd log)).
  - by rewrite !app_nil_r.
Qed.

Lemma default_log : collected collector_default [].
Proof. done. Qed.

(** The per-operation means weigh hardware counts with the iterations of the
    first samples, whichever samples the counts belong to: after a failed read
    the numbers are off. *)
Example misaligned_weights (m1 m2 : Measurement) :
  let d := {| d_instructions := 1000; d_branch_misses := 0; d_l1d_misses := 0; d_llc_misses := 0 |} in
  let c := collect (collect collector_default m1 None) m2 (Some d) in
  mean_instructions_per_op c [f64_of_Z 100; f64_of_Z 10] = Some (f64_of_Z 10)
  /\ mean_instructions_per_op (collect collector_default m2 (Some d)) [f64_of_Z 10] = Some (f64_of_Z 100).
Proof. split; vm_compute; reflexivity. Qed.

(** One benchmark sample, start to end, without hardware counters: exactly one
    sample is stored, with the counter's measurement, and the wall-clock time
    is what is returned. *)
Lemma measured_without_hw {C SR ER H Snap HR} `{CycleCounter C SR ER} `{HwCounters H Snap HR}
    (c : C) (hr hr' : HR) (sr : SR) (er : ER) (t0 t1 : Z) samples log :
  t0 <= t1 -> collected samples log ->
  exists i samples' mm,
    measure_start (H := H) (mm_new c) hr sr t0 = Ret (i, mm) /\
    measure_end mm i t1 er hr' samples = Ret (t1 - t0, samples', mm) /\
    collected samples' (log ++ [(cc_elapsed c er (cc_start c sr), None)]).
Proof.
  intros Ht Hs. eexists _, _, _. split; [reflexivity|]. split.
  - cbn. by rewrite Z.max_r by lia.
  - exact (collect_log _ _ (cc_elapsed c er (cc_start c sr)) None Hs).
Qed.
