(* ===== verification/Cpu.v ===== *)
(** * Processor identification and hints ([crates/platform]: cpudetect.rs, isa_x86/cpudetect.rs, intrinsics/compiler_hints.rs)

    The [CPUID] instruction, the text of [/proc/cpuinfo] and the output of
    [sysctl] are parameters.  Strings are lists of Unicode scalar values; the
    lossy UTF-8 decoding and the white-space rules of the standard library are
    written out.  A prefetch emits a hint; hints have no other effect. *)

From Stdlib Require Import ZArith Lia.
From stdpp Require Import base decidable numbers option tactics list.
From S2P Require Import Prelude.

#[local] Open Scope Z_scope.

(** ** Text *)

Abbreviation text := (list Z).

(** [char::is_whitespace]. *)
Definition is_whitespace (c : Z) : bool :=
  ((9 <=? c) && (c <=? 13)) || (c =? 32) || (c =? 133) || (c =? 160) || (c =? 5760)
  || ((8192 <=? c) && (c <=? 8202)) || (c =? 8232) || (c =? 8233) || (c =? 8239) || (c =? 8287) || (c =? 12288).

Fixpoint trim_start (s : text) : text :=
  match s with c :: s' => if is_whitespace c then trim_start s' else s | [] => [] end.
Definition trim (s : text) : text := reverse (trim_start (reverse (trim_start s))).

(** [str::split(sep)]: the pieces between separators. *)
Fixpoint split_on (sep : Z) (s : text) : list text :=
  match s with
  | [] => [[]]
  | c :: s' =>
      if c =? sep then [] :: split_on sep s'
      else match split_on sep s' with p :: ps => (c :: p) :: ps | [] => [[c]] end
  end.

(** [str::lines]: a last empty line and a carriage return before the newline
    do not count. *)
Definition strip_cr (s : text) : text :=
  match reverse s with 13 :: r => reverse r | _ => s end.
Definition lines (s : text) : list text :=
  let ps := split_on 10 s in
  let ps := match reverse ps with [] :: r => reverse r | _ => ps end in
  strip_cr <$> ps.

Definition starts_with (s p : text) : bool := bool_decide (take (length p) s = p).

(** One step of [String::from_utf8_lossy]: the scalar value and how many bytes
    it takes; an ill-formed sequence becomes U+FFFD and takes its longest
    well-formed prefix. *)
Definition REPLACEMENT : Z := 65533.
Definition cont (b : Z) : bool := (128 <=? b) && (b <=? 191).
Definition second_ok (b0 b1 : Z) : bool :=
  if b0 =? 224 then (160 <=? b1) && (b1 <=? 191)
  else if b0 =? 237 then (128 <=? b1) && (b1 <=? 159)
  else if b0 =? 240 then (144 <=? b1) && (b1 <=? 191)
  else if b0 =? 244 then (128 <=? b1) && (b1 <=? 143)
  else cont b1.
Definition low6 (b : Z) : Z := Z.land b 63.

Definition decode_char (b0 : Z) (rest : list Z) : Z * nat :=
  if b0 <? 128 then (b0, 1%nat)
  else if (194 <=? b0) && (b0 <=? 223) then
    match rest with
    | b1 :: _ => if cont b1 then (Z.lor (Z.shiftl (Z.land b0 31) 6) (low6 b1), 2%nat) else (REPLACEMENT, 1%nat)
    | _ => (REPLACEMENT, 1%nat)
    end
  else if (224 <=? b0) && (b0 <=? 239) then
    match rest with
    | b1 :: b2 :: _ =>
        if second_ok b0 b1 then
          if cont b2 then
            (Z.lor (Z.shiftl (Z.land b0 15) 12) (Z.lor (Z.shiftl (low6 b1) 6) (low6 b2)), 3%nat)
          else (REPLACEMENT, 2%nat)
        else (REPLACEMENT, 1%nat)
    | b1 :: _ => (REPLACEMENT, if second_ok b0 b1 then 2%nat else 1%nat)
    | _ => (REPLACEMENT, 1%nat)
    end
  else if (240 <=? b0) && (b0 <=? 244) then
    match rest with
    | b1 :: b2 :: b3 :: _ =>
        if second_ok b0 b1 then
          if cont b2 then
            if cont b3 then
              (Z.lor (Z.shiftl (Z.land b0 7) 18)
                 (Z.lor (Z.shiftl (low6 b1) 12) (Z.lor (Z.shiftl (low6 b2) 6) (low6 b3))), 4%nat)
            else (REPLACEMENT, 3%nat)
          else (REPLACEMENT, 2%nat)
        else (REPLACEMENT, 1%nat)
    | b1 :: b2 :: _ => (REPLACEMENT, if second_ok b0 b1 then if cont b2 then 3%nat else 2%nat else 1%nat)
    | b1 :: _ => (REPLACEMENT, if second_ok b0 b1 then 2%nat else 1%nat)
    | _ => (REPLACEMENT, 1%nat)
    end
  else (REPLACEMENT, 1%nat).

(** A round per byte is enough, since every step takes at least one. *)
Fixpoint utf8_lossy_from (fuel : nat) (bs : list Z) : text :=
  match fuel, bs with
  | S fuel, b :: rest =>
      let '(c, n) := decode_char b rest in c :: utf8_lossy_from fuel (drop n bs)
  | _, _ => []
  end.
Definition from_utf8_lossy (bs : list Z) : text := utf8_lossy_from (length bs) bs.

Definition unknown : text := [117; 110; 107; 110; 111; 119; 110].

(** ** cpudetect.rs *)

(** "model name". *)
Definition MODEL_NAME : text := [109; 111; 100; 101; 108; 32; 110; 97; 109; 101].

(** Linux: the contents of [/proc/cpuinfo], if it can be read. *)
Definition cpu_name_linux (cpuinfo : option text) : text :=
  default unknown (
    s ← cpuinfo;
    l ← head (filter (fun l => starts_with l MODEL_NAME = true) (lines s));
    n ← split_on 58 l !! 1%nat;
    Some (trim n)).

(** macOS: the output of [sysctl -n machdep.cpu.brand_string], if it ran and is
    UTF-8; other systems. *)
Definition cpu_name_macos (stdout : option text) : text := default unknown (trim <$> stdout).
Definition cpu_name_other : text := unknown.

(** ** isa_x86/cpudetect.rs *)

Record CpuIdRegs := { eax : Z; ebx : Z; ecx : Z; edx : Z }.

(** The instruction: leaf and subleaf. *)
Class Cpuid := cpuid : Z -> Z -> CpuIdRegs.

Definition to_le_bytes (x : Z) : list Z :=
  [Z.land x 255; Z.land (Z.shiftr x 8) 255; Z.land (Z.shiftr x 16) 255; Z.land (Z.shiftr x 24) 255].

(** [copy_from_slice] of a range; out of range it panics. *)
Definition copy_at (buf : list Z) (offset : nat) (src : list Z) : outcome (list Z) :=
  if decide (offset + length src <= length buf)%nat then Ret (list_inserts offset src buf) else Panic.

Fixpoint brand_loop `{Cpuid} (leaves : list Z) (i : nat) (name : list Z) : outcome (list Z) :=
  match leaves with
  | [] => Ret name
  | leaf :: leaves =>
      let regs := cpuid leaf 0 in
      let offset := (i * 16)%nat in
      name ← copy_at name offset (to_le_bytes (eax regs));
      name ← copy_at name (offset + 4) (to_le_bytes (ebx regs));
      name ← copy_at name (offset + 8) (to_le_bytes (ecx regs));
      name ← copy_at name (offset + 12) (to_le_bytes (edx regs));
      brand_loop leaves (S i) name
  end.

Fixpoint position_zero (bs : list Z) : option nat :=
  match bs with
  | [] => None
  | b :: bs => if b =? 0 then Some 0%nat else S <$> position_zero bs
  end.

Definition cpu_name_x86 `{Cpuid} : outcome text :=
  if eax (cpuid 2147483648 0) <? 2147483652 then Ret unknown
  else
    name ← brand_loop [2147483650; 2147483651; 2147483652] 0 (replicate 48 0);
    let len := default 48%nat (position_zero name) in
    Ret (trim (from_utf8_lossy (take len name))).

Record CpuFeatures := {
  f_sse2 : bool; f_sse3 : bool; f_ssse3 : bool; f_sse41 : bool; f_sse42 : bool; f_avx : bool; f_avx2 : bool;
  f_avx512f : bool; f_avx512bw : bool; f_avx512dq : bool; f_avx512vl : bool; f_adx : bool; f_bmi1 : bool;
  f_bmi2 : bool; f_rdrand : bool; f_rdseed : bool; f_aes_ni : bool; f_pclmulqdq : bool;
}.

(** [reg & (1 << k) != 0]. *)
Definition bit_set (reg k : Z) : bool := negb (Z.land reg (Z.shiftl 1 k) =? 0).

Definition detect_features `{Cpuid} : CpuFeatures :=
  let leaf1 := cpuid 1 0 in
  let leaf7 := cpuid 7 0 in
  {| f_sse2 := bit_set (edx leaf1) 26;
     f_sse3 := bit_set (ecx leaf1) 0;
     f_ssse3 := bit_set (ecx leaf1) 9;
     f_sse41 := bit_set (ecx leaf1) 19;
     f_sse42 := bit_set (ecx leaf1) 20;
     f_avx := bit_set (ecx leaf1) 28;
     f_aes_ni := bit_set (ecx leaf1) 25;
     f_pclmulqdq := bit_set (ecx leaf1) 1;
     f_rdrand := bit_set (ecx leaf1) 30;
     f_avx2 := bit_set (ebx leaf7) 5;
     f_bmi1 := bit_set (ebx leaf7) 3;
     f_bmi2 := bit_set (ebx leaf7) 8;
     f_adx := bit_set (ebx leaf7) 19;
     f_avx512f := bit_set (ebx leaf7) 16;
     f_avx512bw := bit_set (ebx leaf7) 30;
     f_avx512dq := bit_set (ebx leaf7) 17;
     f_avx512vl := bit_set (ebx leaf7) 31;
     f_rdseed := bit_set (ebx leaf7) 18 |}.

(** [static FEATURES: OnceLock<CpuFeatures>]: [get_or_init]. *)
Definition detect `{Cpuid} (features : option CpuFeatures) : CpuFeatures * option CpuFeatures :=
  match features with
  | Some f => (f, features)
  | None => let f := detect_features in (f, Some f)
  end.

Section queries.
Context `{Cpuid} (features : option CpuFeatures).
Definition has_sse2 : bool * option CpuFeatures := let '(f, s) := detect features in (f_sse2 f, s).
Definition has_sse3 : bool * option CpuFeatures := let '(f, s) := detect features in (f_sse3 f, s).
Definition has_ssse3 : bool * option CpuFeatures := let '(f, s) := detect features in (f_ssse3 f, s).
Definition has_sse41 : bool * option CpuFeatures := let '(f, s) := detect features in (f_sse41 f, s).
Definition has_sse42 : bool * option CpuFeatures := let '(f, s) := detect features in (f_sse42 f, s).
Definition has_avx : bool * option CpuFeatures := let '(f, s) := detect features in (f_avx f, s).
Definition has_avx2 : bool * option CpuFeatures := let '(f, s) := detect features in (f_avx2 f, s).
Definition has_avx512f : bool * option CpuFeatures := let '(f, s) := detect features in (f_avx512f f, s).
Definition has_avx512bw : bool * option CpuFeatures := let '(f, s) := detect features in (f_avx512bw f, s).
Definition has_avx512dq : bool * option CpuFeatures := let '(f, s) := detect features in (f_avx512dq f, s).
Definition has_avx512vl : bool * option CpuFeatures := let '(f, s) := detect features in (f_avx512vl f, s).
Definition has_adx : bool * option CpuFeatures := let '(f, s) := detect features in (f_adx f, s).
Definition has_bmi1 : bool * option CpuFeatures := let '(f, s) := detect features in (f_bmi1 f, s).
Definition has_bmi2 : bool * option CpuFeatures := let '(f, s) := detect features in (f_bmi2 f, s).
Definition has_rdrand : bool * option CpuFeatures := let '(f, s) := detect features in (f_rdrand f, s).
Definition has_rdseed : bool * option CpuFeatures := let '(f, s) := detect features in (f_rdseed f, s).
Definition has_aes_ni : bool * option CpuFeatures := let '(f, s) := detect features in (f_aes_ni f, s).
Definition has_pclmulqdq : bool * option CpuFeatures := let '(f, s) := detect features in (f_pclmulqdq f, s).
End queries.

(** ** intrinsics/compiler_hints.rs *)

Inductive PrefetchRW := PfRead | PfWrite.
Inductive PrefetchLocality := NoTemporal | Low | Moderate | High.

Inductive target := X86_64 | Aarch64 | OtherTarget.

(** The instruction a prefetch compiles to. *)
Inductive hint := MM_NTA | MM_T2 | MM_T1 | MM_T0 | MM_ET0 | PLDL1KEEP | PSTL1KEEP.

Definition prefetch (t : target) (ptr : Z) (rw : PrefetchRW) (locality : PrefetchLocality) : list (hint * Z) :=
  match t with
  | X86_64 =>
      [(match rw, locality with
        | PfWrite, High => MM_ET0
        | _, NoTemporal => MM_NTA
        | _, Low => MM_T2
        | _, Moderate => MM_T1
        | _, High => MM_T0
        end, ptr)]
  | Aarch64 => [(match rw with PfRead => PLDL1KEEP | PfWrite => PSTL1KEEP end, ptr)]
  | OtherTarget => []
  end.

Definition prefetch_large (t : target) (size : Z) (ptr : Z) (rw : PrefetchRW) (locality : PrefetchLocality) (max_lines : Z)
    : list (hint * Z) :=
  let span := size / 64 in
  let n := if max_lines =? 0 then span else Z.min span max_lines in
  concat ((fun i => prefetch t (ptr + Z.of_nat i * 64) rw locality) <$> seq 0 (Z.to_nat n)).

(** * Properties *)

(** ** Text *)

Lemma utf8_lossy_ascii bs : Forall (fun b => b < 128) bs -> from_utf8_lossy bs = bs.
Proof.
  unfold from_utf8_lossy. induction 1 as [|b bs Hb _ IH]; [done|]. cbn [length utf8_lossy_from].
  unfold decode_char. apply Z.ltb_lt in Hb. rewrite Hb. cbn [drop]. by rewrite drop_0, IH.
Qed.

(** The decoder consumes every byte: the fuel is enough. *)
Lemma decode_char_progress b rest : (1 <= (decode_char b rest).2)%nat.
Proof. unfold decode_char. repeat case_match; cbn; lia. Qed.

Lemma utf8_lossy_fuel fuel bs : (length bs <= fuel)%nat -> utf8_lossy_from fuel bs = from_utf8_lossy bs.
Proof.
  unfold from_utf8_lossy. remember (length bs) as n eqn:En. revert fuel bs En.
  induction (lt_wf n) as [n _ IH]. intros fuel bs En Hf. destruct bs as [|b rest]; [by subst; destruct fuel|].
  destruct fuel as [|fuel]; [cbn in *; lia|]. subst n. cbn [length utf8_lossy_from].
  pose proof (decode_char_progress b rest) as Hp. destruct (decode_char b rest) as [c n]. cbn [snd] in Hp. f_equal.
  destruct n as [|n]; [lia|]. cbn [drop]. set (k := length (drop n rest)).
  assert (k <= length rest)%nat by (subst k; rewrite length_drop; lia).
  transitivity (utf8_lossy_from k (drop n rest)); [|symmetry]; apply (IH k); try done; cbn in *; lia.
Qed.

Lemma trim_start_spec s : exists w, s = w ++ trim_start s /\ Forall (fun c => is_whitespace c = true) w /\
  match trim_start s with c :: _ => is_whitespace c = false | [] => True end.
Proof.
  induction s as [|c s (w & E & Hw & Hh)]; [by exists []|]. cbn [trim_start]. destruct (is_whitespace c) eqn:Ec.
  - exists (c :: w). split; [by rewrite E at 1|]. split; [by constructor|done].
  - by exists [].
Qed.

(** [trim] removes white space at both ends and nothing else. *)
Lemma trim_spec s : exists w w', s = w ++ trim s ++ w' /\
  Forall (fun c => is_whitespace c = true) w /\ Forall (fun c => is_whitespace c = true) w' /\
  match trim s with c :: _ => is_whitespace c = false | [] => True end /\
  match last (trim s) with Some c => is_whitespace c = false | None => True end.
Proof.
  destruct (trim_start_spec s) as (w & E & Hw & Hh). destruct (trim_start_spec (reverse (trim_start s))) as (v & E' & Hv & Hl).
  set (r := trim_start (reverse (trim_start s))) in *.
  assert (Et : trim_start s = reverse r ++ reverse v) by (rewrite <- reverse_app, <- E'; by rewrite reverse_involutive).
  exists w, (reverse v). unfold trim. fold r. split; [by rewrite <- Et|]. split; [done|].
  split; [by apply Forall_reverse|]. split.
  - rewrite Et in Hh. by destruct (reverse r) as [|c l].
  - rewrite last_reverse. by destruct r.
Qed.

Lemma trim_start_none s : match s with c :: _ => is_whitespace c = false | [] => True end -> trim_start s = s.
Proof. destruct s as [|c s]; [done|]. cbn. by intros ->. Qed.

Lemma trim_start_app w s : Forall (fun c => is_whitespace c = true) w -> trim_start (w ++ s) = trim_start s.
Proof. induction 1 as [|c w Hc _ IH]; [done|]. cbn. by rewrite Hc. Qed.

Lemma trim_around w s w' :
  Forall (fun c => is_whitespace c = true) w -> Forall (fun c => is_whitespace c = true) w' ->
  match s with c :: _ => is_whitespace c = false | [] => False end ->
  match last s with Some c => is_whitespace c = false | None => False end -> trim (w ++ s ++ w') = s.
Proof.
  intros Hw Hw' Hh Hl. unfold trim. rewrite trim_start_app by done.
  rewrite (trim_start_none (s ++ w')) by (by destruct s).
  rewrite reverse_app, trim_start_app by (by apply Forall_reverse).
  rewrite trim_start_none; [by rewrite reverse_involutive|].
  destruct (reverse s) as [|c r] eqn:E; [done|]. rewrite <- (reverse_involutive s), E, last_reverse in Hl. done.
Qed.

Lemma split_on_none sep s : Forall (fun c => c <> sep) s -> split_on sep s = [s].
Proof.
  induction 1 as [|c s Hc _ IH]; [done|]. cbn. apply Z.eqb_neq in Hc. by rewrite Hc, IH.
Qed.

Lemma split_on_app sep a b : Forall (fun c => c <> sep) a -> split_on sep (a ++ sep :: b) = a :: split_on sep b.
Proof.
  induction 1 as [|c a Hc _ IH]; cbn; [by rewrite Z.eqb_refl|]. apply Z.eqb_neq in Hc. by rewrite Hc, IH.
Qed.

(** Splitting joins back: nothing of the text is lost. *)
Lemma split_on_join sep s : exists p ps, split_on sep s = p :: ps /\
  s = p ++ concat ((fun q => sep :: q) <$> ps) /\ Forall (Forall (fun c => c <> sep)) (p :: ps).
Proof.
  induction s as [|c s (p & ps & E & Es & Hf)]; cbn; [exists [], []; repeat constructor|].
  pose proof Hf as [Hp Hps]%Forall_cons. destruct (Z.eqb_spec c sep) as [->|Hc].
  - exists [], (split_on sep s). rewrite E. cbn. split; [done|]. split; [by rewrite Es at 1|]. constructor; [constructor|done].
  - rewrite E. exists (c :: p), ps. split; [done|]. split; [by rewrite Es at 1|]. constructor; [by constructor|done].
Qed.

(** ** Names *)

Lemma split_lines before line rest :
  Forall (fun l => Forall (fun c => c <> 10) l) before -> Forall (fun c => c <> 10) line ->
  split_on 10 (concat ((fun l => l ++ [10]) <$> before) ++ line ++ 10 :: rest) = before ++ line :: split_on 10 rest.
Proof.
  intros Hb Hl. induction Hb as [|l before Hl' _ IH]; cbn; [by apply split_on_app|].
  rewrite <- !app_assoc. cbn. rewrite split_on_app by done. by rewrite IH.
Qed.

Lemma lines_prefix before line rest :
  Forall (fun l => Forall (fun c => c <> 10) l) before -> Forall (fun c => c <> 10) line ->
  exists tail, lines (concat ((fun l => l ++ [10]) <$> before) ++ line ++ 10 :: rest)
    = (strip_cr <$> before) ++ strip_cr line :: tail.
Proof.
  intros Hb Hl. unfold lines. rewrite split_lines by done.
  destruct (split_on_join 10 rest) as (p & ps & -> & _).
  destruct (exists_last (l := p :: ps)) as (init & z & E); [done|]. rewrite E.
  replace (before ++ line :: init ++ [z]) with ((before ++ line :: init) ++ [z]) by (by rewrite <- app_assoc).
  rewrite reverse_snoc. destruct z as [|c z].
  - rewrite reverse_involutive, fmap_app. by eexists.
  - rewrite !fmap_app. cbn [fmap list_fmap]. rewrite <- app_assoc. by eexists.
Qed.

Lemma strip_cr_none s : Forall (fun c => c <> 13) s -> strip_cr s = s.
Proof.
  intros Hs. unfold strip_cr. apply Forall_reverse in Hs. destruct (reverse s) as [|c r]; [done|].
  apply Forall_cons in Hs as [Hc _]. by repeat case_match.
Qed.

(** On Linux the name is the text after the first colon of the first line that
    starts with "model name", without the white space around it. *)
Theorem cpu_name_linux_spec (before : list text) (key name rest : text) :
  Forall (fun l => Forall (fun c => c <> 10) l /\ starts_with (strip_cr l) MODEL_NAME = false) before ->
  starts_with key MODEL_NAME = true -> Forall (fun c => c <> 10 /\ c <> 13 /\ c <> 58) key ->
  Forall (fun c => c <> 10 /\ c <> 13 /\ c <> 58) name ->
  cpu_name_linux (Some (concat ((fun l => l ++ [10]) <$> before) ++ (key ++ 58 :: name) ++ 10 :: rest)) = trim name.
Proof.
  intros Hb Hk Hkey Hname. unfold cpu_name_linux. cbn [mbind option_bind].
  assert (Hline : Forall (fun c => c <> 10 /\ c <> 13) (key ++ 58 :: name)).
  { apply Forall_app_2; [|constructor; [done|]]; (eapply Forall_impl; [eassumption|]); naive_solver. }
  destruct (lines_prefix before (key ++ 58 :: name) rest) as [tail ->].
  { eapply Forall_impl; [exact Hb|]. naive_solver. }
  { eapply Forall_impl; [exact Hline|]. naive_solver. }
  rewrite strip_cr_none by (eapply Forall_impl; [exact Hline|]; naive_solver).
  assert (head (filter (fun l => starts_with l MODEL_NAME = true) ((strip_cr <$> before) ++ (key ++ 58 :: name) :: tail))
    = Some (key ++ 58 :: name)) as ->.
  { clear Hline. induction Hb as [|l before [_ Hl] _ IH]; cbn [fmap list_fmap app].
    - rewrite filter_cons_True; [done|]. unfold starts_with in *. apply bool_decide_eq_true in Hk.
      apply bool_decide_eq_true. rewrite take_app_le; [done|].
      apply (f_equal length) in Hk. rewrite length_take in Hk. lia.
    - rewrite filter_cons_False by (by rewrite Hl). exact IH. }
  cbn [mbind option_bind]. rewrite split_on_app, split_on_none; [done|..]; (eapply Forall_impl; [eassumption|]); naive_solver.
Qed.

(** The brand string: the loop stays inside the 48 bytes, and an ASCII brand is
    read up to its first zero byte, trimmed. *)
Definition brand_bytes `{Cpuid} : list Z :=
  concat ((fun leaf => let r := cpuid leaf 0 in
    to_le_bytes (eax r) ++ to_le_bytes (ebx r) ++ to_le_bytes (ecx r) ++ to_le_bytes (edx r))
    <$> [2147483650; 2147483651; 2147483652]).

Lemma brand_loop_ok `{Cpuid} :
  brand_loop [2147483650; 2147483651; 2147483652] 0 (replicate 48 0) = Ret brand_bytes.
Proof. reflexivity. Qed.

Theorem cpu_name_x86_spec `{Cpuid} :
  exists s, cpu_name_x86 = Ret s /\
    (eax (cpuid 2147483648 0) < 2147483652 -> s = unknown) /\
    (2147483652 <= eax (cpuid 2147483648 0) ->
     let brand := take (default 48%nat (position_zero brand_bytes)) brand_bytes in
     s = trim (from_utf8_lossy brand) /\ (Forall (fun b => b < 128) brand -> s = trim brand)).
Proof.
  unfold cpu_name_x86. rewrite brand_loop_ok. cbn [mbind outcome_bind].
  destruct (Z.ltb_spec (eax (cpuid 2147483648 0)) 2147483652).
  - eexists. split; [done|]. split; [done|lia].
  - eexists. split; [done|]. split; [lia|]. intros _. cbv zeta. split; [done|]. intros Ha. by rewrite utf8_lossy_ascii.
Qed.

(** ** Features *)

Lemma bit_set_testbit reg k : 0 <= k -> bit_set reg k = Z.testbit reg k.
Proof.
  intros Hk. unfold bit_set. rewrite Z.shiftl_1_l. destruct (Z.testbit reg k) eqn:E.
  - apply negb_true_iff, Z.eqb_neq. intros E0. apply (f_equal (fun z => Z.testbit z k)) in E0.
    rewrite Z.land_spec, E, Z.pow2_bits_true, Z.bits_0 in E0 by lia. done.
  - apply negb_false_iff, Z.eqb_eq. apply Z.bits_inj'. intros n Hn. rewrite Z.land_spec, Z.bits_0.
    destruct (decide (n = k)) as [->|]; [by rewrite E|]. by rewrite Z.pow2_bits_false, andb_false_r by lia.
Qed.

(** The processor manual's table: leaf, register and bit of each feature. *)
Inductive feature :=
| SSE2 | SSE3 | SSSE3 | SSE41 | SSE42 | AVX | AVX2 | AVX512F | AVX512BW | AVX512DQ | AVX512VL | ADX | BMI1 | BMI2
| RDRAND | RDSEED | AESNI | PCLMULQDQ.

Definition manual_bit (f : feature) : Z * (CpuIdRegs -> Z) * Z :=
  match f with
  | SSE2 => (1, edx, 26)
  | SSE3 => (1, ecx, 0) | PCLMULQDQ => (1, ecx, 1) | SSSE3 => (1, ecx, 9) | SSE41 => (1, ecx, 19) | SSE42 => (1, ecx, 20)
  | AESNI => (1, ecx, 25) | AVX => (1, ecx, 28) | RDRAND => (1, ecx, 30)
  | BMI1 => (7, ebx, 3) | AVX2 => (7, ebx, 5) | BMI2 => (7, ebx, 8) | AVX512F => (7, ebx, 16) | AVX512DQ => (7, ebx, 17)
  | RDSEED => (7, ebx, 18) | ADX => (7, ebx, 19) | AVX512BW => (7, ebx, 30) | AVX512VL => (7, ebx, 31)
  end.

Definition query `{Cpuid} (f : feature) : option CpuFeatures -> bool * option CpuFeatures :=
  match f with
  | SSE2 => has_sse2 | SSE3 => has_sse3 | SSSE3 => has_ssse3 | SSE41 => has_sse41 | SSE42 => has_sse42 | AVX => has_avx
  | AVX2 => has_avx2 | AVX512F => has_avx512f | AVX512BW => has_avx512bw | AVX512DQ => has_avx512dq
  | AVX512VL => has_avx512vl | ADX => has_adx | BMI1 => has_bmi1 | BMI2 => has_bmi2 | RDRAND => has_rdrand
  | RDSEED => has_rdseed | AESNI => has_aes_ni | PCLMULQDQ => has_pclmulqdq
  end.

(** Queries in sequence, the instruction possibly answering differently each
    time. *)
Fixpoint queries (qs : list (Cpuid * feature)) (s : option CpuFeatures) : list bool :=
  match qs with
  | [] => []
  | (cp, f) :: qs => let '(b, s) := @query cp f s in b :: queries qs s
  end.

(** Every query of the process answers the bit the manual names, as the
    instruction reported it at the first query. *)
Theorem features_cached (first : Cpuid) (f : feature) (qs : list (Cpuid * feature)) :
  queries ((first, f) :: qs) None =
  (fun q => let '(leaf, reg, bit) := manual_bit q in Z.testbit (reg (@cpuid first leaf 0)) bit) <$> f :: qs.*2.
Proof.
  assert (Hq : forall (cp : Cpuid) q, @query cp q (Some (@detect_features first))
    = (let '(leaf, reg, bit) := manual_bit q in Z.testbit (reg (@cpuid first leaf 0)) bit, Some (@detect_features first))).
  { intros cp q. destruct q; cbn; by rewrite bit_set_testbit by lia. }
  assert (Hrun : forall qs, queries qs (Some (@detect_features first))
    = (fun q => let '(leaf, reg, bit) := manual_bit q in Z.testbit (reg (@cpuid first leaf 0)) bit) <$> qs.*2).
  { intros l. induction l as [|[cp q] l IH]; [done|]. cbn [queries fmap list_fmap snd]. by rewrite Hq, IH. }
  cbn [queries fmap list_fmap].
  assert (@query first f None = @query first f (Some (@detect_features first))) as -> by (by destruct f).
  by rewrite Hq, Hrun.
Qed.

(** ** Prefetching *)

(** [prefetch_large] hints at the starts of the whole 64-byte lines of the
    value, from its address on, at most [max_lines]; the bytes after them, in
    particular all of a value shorter than a line, get no hint. *)
Lemma prefetch_large_lines t size ptr rw loc max_lines :
  0 <= size -> 0 <= max_lines -> t <> OtherTarget ->
  let n := if max_lines =? 0 then size / 64 else Z.min (size / 64) max_lines in
  snd <$> prefetch_large t size ptr rw loc max_lines = (fun i => ptr + Z.of_nat i * 64) <$> seq 0 (Z.to_nat n)
  /\ (size < 64 -> prefetch_large t size ptr rw loc max_lines = []).
Proof.
  intros Hs Hm Ht n. unfold prefetch_large. fold n. split.
  - induction (seq 0 (Z.to_nat n)) as [|i l IH]; [done|]. cbn [fmap list_fmap concat]. rewrite fmap_app, IH.
    by destruct t.
  - intros Hl. assert (n <= 0) as Hn by (unfold n; rewrite Z.div_small by lia; destruct (_ =? _); lia).
    by replace (Z.to_nat n) with 0%nat by lia.
Qed.
