(* ===== verification/Types.v ===== *)
(** * Domain newtypes ([crates/types])

    Prices in ticks, quantities in lots, signed positions, sides, identifiers
    and the instrument metadata that converts fixed-point prices and
    quantities to ticks and lots.  Each newtype is a one-field record; its
    plain operators are the machine operations of the prelude. *)

From stdpp Require Import base decidable list numbers option tactics.
From Stdlib Require Import ZArith Lia.
From S2P Require Import Prelude Platform Fixed.

#[local] Open Scope Z_scope.

(** ** ticks.rs, lots.rs, signed_lots.rs *)

Record Ticks := ticks_from_raw { ticks_to_raw : Z }.
Record Lots := lots_from_raw { lots_to_raw : Z }.
Record SignedLots := slots_from_raw { slots_to_raw : Z }.

#[global] Instance Ticks_eq_dec : EqDecision Ticks.
Proof. solve_decision. Defined.
#[global] Instance Lots_eq_dec : EqDecision Lots.
Proof. solve_decision. Defined.
#[global] Instance SignedLots_eq_dec : EqDecision SignedLots.
Proof. solve_decision. Defined.

Definition ticks_ZERO : Ticks := ticks_from_raw 0.
Definition lots_ZERO : Lots := lots_from_raw 0.
Definition slots_ZERO : SignedLots := slots_from_raw 0.

Section newtype_operators.
Context `{BuildProfile}.

Definition ticks_add (a b : Ticks) : outcome Ticks :=
  ticks_from_raw <$> arith I64 (ticks_to_raw a + ticks_to_raw b).
Definition ticks_sub (a b : Ticks) : outcome Ticks :=
  ticks_from_raw <$> arith I64 (ticks_to_raw a - ticks_to_raw b).
Definition ticks_neg (a : Ticks) : outcome Ticks := ticks_from_raw <$> arith I64 (- ticks_to_raw a).
Definition ticks_mul (a : Ticks) (rhs : Z) : outcome Ticks :=
  ticks_from_raw <$> arith I64 (ticks_to_raw a * rhs).
Definition ticks_div (a : Ticks) (rhs : Z) : outcome Ticks :=
  ticks_from_raw <$> div_op I64 (ticks_to_raw a) rhs.

Definition lots_add (a b : Lots) : outcome Lots :=
  lots_from_raw <$> arith I64 (lots_to_raw a + lots_to_raw b).
Definition lots_sub (a b : Lots) : outcome Lots :=
  lots_from_raw <$> arith I64 (lots_to_raw a - lots_to_raw b).
Definition lots_neg (a : Lots) : outcome Lots := lots_from_raw <$> arith I64 (- lots_to_raw a).
Definition lots_mul (a : Lots) (rhs : Z) : outcome Lots :=
  lots_from_raw <$> arith I64 (lots_to_raw a * rhs).
Definition lots_div (a : Lots) (rhs : Z) : outcome Lots :=
  lots_from_raw <$> div_op I64 (lots_to_raw a) rhs.

Definition slots_add (a b : SignedLots) : outcome SignedLots :=
  slots_from_raw <$> arith I64 (slots_to_raw a + slots_to_raw b).
Definition slots_sub (a b : SignedLots) : outcome SignedLots :=
  slots_from_raw <$> arith I64 (slots_to_raw a - slots_to_raw b).
Definition slots_neg (a : SignedLots) : outcome SignedLots :=
  slots_from_raw <$> arith I64 (- slots_to_raw a).
End newtype_operators.

Definition slots_is_zero (a : SignedLots) : bool := slots_to_raw a =? 0.
Definition slots_signum (a : SignedLots) : Z := Z.sgn (slots_to_raw a).
Definition slots_abs (a : SignedLots) : SignedLots :=
  slots_from_raw (saturate I64 (Z.abs (slots_to_raw a))).
Definition slots_from_lots (l : Lots) : SignedLots := slots_from_raw (lots_to_raw l).

(** ** side.rs *)

Inductive Side := Bid | Ask.

#[global] Instance Side_eq_dec : EqDecision Side.
Proof. solve_decision. Defined.

Definition opposite (s : Side) : Side := match s with Bid => Ask | Ask => Bid end.

(** ** Identifiers and timestamps *)

Record InstrumentId := inst_from_raw { inst_to_raw : Z }.
Record SourceId := source_from_raw { source_to_raw : Z }.
Record OrderId := order_from_raw { order_to_raw : Z }.
Record SeqNum := seqnum_from_raw { seqnum_to_raw : Z }.
Record Timestamp := from_nanos { as_nanos : Z }.

#[global] Instance InstrumentId_eq_dec : EqDecision InstrumentId.
Proof. solve_decision. Defined.
#[global] Instance SourceId_eq_dec : EqDecision SourceId.
Proof. solve_decision. Defined.
#[global] Instance OrderId_eq_dec : EqDecision OrderId.
Proof. solve_decision. Defined.
#[global] Instance SeqNum_eq_dec : EqDecision SeqNum.
Proof. solve_decision. Defined.
#[global] Instance Timestamp_eq_dec : EqDecision Timestamp.
Proof. solve_decision. Defined.

Definition inst_NONE : InstrumentId := inst_from_raw 0.
Definition seqnum_ZERO : SeqNum := seqnum_from_raw 0.
Definition timestamp_ZERO : Timestamp := from_nanos 0.

(** ** lib.rs *)

Record SlotIndex := slot_index { slot_raw : Z }.

#[global] Instance SlotIndex_eq_dec : EqDecision SlotIndex.
Proof. solve_decision. Defined.

(** [AssertPowerOfTwo<N>::VALID]; the panic is one of the compiler's. *)
Definition assert_power_of_two (N : Z) : outcome unit := if is_power_of_two N && (0 <? N) then Ret tt else Panic.

(** ** probability.rs *)

Record Probability := prob_wrap { prob_to_fixed : FixedI64 6 }.

Definition prob_ZERO : Probability := prob_wrap fixed_ZERO.
Definition prob_ONE : Probability := prob_wrap fixed_ONE.

Definition prob_new (value : FixedI64 6) : option Probability :=
  let raw := to_raw value in
  if (raw <? 0) || (SCALE 6 <? raw) then None else Some (prob_wrap value).

Definition prob_from_raw (raw : Z) : option Probability := prob_new (from_raw raw).

Definition prob_complement `{BuildProfile} (p : Probability) : outcome Probability :=
  (fun r => prob_wrap (from_raw r)) <$> arith I64 (SCALE 6 - to_raw (prob_to_fixed p)).

Definition prob_is_zero (p : Probability) : bool := fixed_is_zero (prob_to_fixed p).

(** ** usdc.rs, btc_qty.rs *)

Record UsdcAmount := usdc_from_fixed { usdc_to_fixed : FixedI64 6 }.
Record BtcQty := btc_from_fixed { btc_to_fixed : FixedI64 8 }.

Definition usdc_ZERO : UsdcAmount := usdc_from_fixed fixed_ZERO.
Definition usdc_checked_add (a b : UsdcAmount) : option UsdcAmount :=
  usdc_from_fixed <$> checked_add (usdc_to_fixed a) (usdc_to_fixed b).
Definition usdc_checked_sub (a b : UsdcAmount) : option UsdcAmount :=
  usdc_from_fixed <$> checked_sub (usdc_to_fixed a) (usdc_to_fixed b).
Definition usdc_checked_neg (a : UsdcAmount) : option UsdcAmount :=
  usdc_from_fixed <$> checked_neg (usdc_to_fixed a).
Definition usdc_checked_mul_int (a : UsdcAmount) (rhs : Z) : option UsdcAmount :=
  usdc_from_fixed <$> checked_mul_int (usdc_to_fixed a) rhs.
Definition usdc_checked_abs (a : UsdcAmount) : option UsdcAmount :=
  usdc_from_fixed <$> checked_abs (usdc_to_fixed a).
Definition usdc_checked_div_int (a : UsdcAmount) (rhs : Z) : outcome (option UsdcAmount) :=
  @fmap outcome _ _ _ (@fmap option _ _ _ usdc_from_fixed) (checked_div_int (usdc_to_fixed a) rhs).
Definition usdc_is_zero (a : UsdcAmount) : bool := fixed_is_zero (usdc_to_fixed a).
Definition usdc_add `{BuildProfile} (a b : UsdcAmount) : outcome UsdcAmount :=
  usdc_from_fixed <$> fixed_add (usdc_to_fixed a) (usdc_to_fixed b).
Definition usdc_sub `{BuildProfile} (a b : UsdcAmount) : outcome UsdcAmount :=
  usdc_from_fixed <$> fixed_sub (usdc_to_fixed a) (usdc_to_fixed b).
Definition usdc_neg `{BuildProfile} (a : UsdcAmount) : outcome UsdcAmount :=
  usdc_from_fixed <$> fixed_neg (usdc_to_fixed a).

Definition btc_ZERO : BtcQty := btc_from_fixed fixed_ZERO.
Definition btc_checked_add (a b : BtcQty) : option BtcQty :=
  btc_from_fixed <$> checked_add (btc_to_fixed a) (btc_to_fixed b).
Definition btc_checked_sub (a b : BtcQty) : option BtcQty :=
  btc_from_fixed <$> checked_sub (btc_to_fixed a) (btc_to_fixed b).
Definition btc_checked_neg (a : BtcQty) : option BtcQty :=
  btc_from_fixed <$> checked_neg (btc_to_fixed a).
Definition btc_checked_mul_int (a : BtcQty) (rhs : Z) : option BtcQty :=
  btc_from_fixed <$> checked_mul_int (btc_to_fixed a) rhs.
Definition btc_checked_abs (a : BtcQty) : option BtcQty :=
  btc_from_fixed <$> checked_abs (btc_to_fixed a).
Definition btc_checked_div_int (a : BtcQty) (rhs : Z) : outcome (option BtcQty) :=
  @fmap outcome _ _ _ (@fmap option _ _ _ btc_from_fixed) (checked_div_int (btc_to_fixed a) rhs).
Definition btc_is_zero (a : BtcQty) : bool := fixed_is_zero (btc_to_fixed a).
Definition btc_add `{BuildProfile} (a b : BtcQty) : outcome BtcQty :=
  btc_from_fixed <$> fixed_add (btc_to_fixed a) (btc_to_fixed b).
Definition btc_sub `{BuildProfile} (a b : BtcQty) : outcome BtcQty :=
  btc_from_fixed <$> fixed_sub (btc_to_fixed a) (btc_to_fixed b).
Definition btc_neg `{BuildProfile} (a : BtcQty) : outcome BtcQty :=
  btc_from_fixed <$> fixed_neg (btc_to_fixed a).

(** ** instrument.rs *)

Record InstrumentMeta (D : Z) := mkMeta { tick_size : FixedI64 D; lot_size : FixedI64 D }.
Arguments mkMeta {D} _ _.
Arguments tick_size {D} _.
Arguments lot_size {D} _.

Inductive InstrumentMetaError := InvalidTickSize | InvalidLotSize.

Section instrument.
Context {D : Z}.

Definition meta_new (tick lot : FixedI64 D) : result (InstrumentMeta D) InstrumentMetaError :=
  if negb (is_positive tick) then Err InvalidTickSize
  else if negb (is_positive lot) then Err InvalidLotSize
  else Ok (mkMeta tick lot).

Definition price_to_ticks (m : InstrumentMeta D) (price : FixedI64 D) : outcome (option Ticks) :=
  let divisor := to_raw (tick_size m) in
  if divisor =? 0 then Ret None
  else (fun q => Some (ticks_from_raw q)) <$> div_op I64 (to_raw price) divisor.

Definition ticks_to_price (m : InstrumentMeta D) (ticks : Ticks) : option (FixedI64 D) :=
  checked_mul_int (tick_size m) (ticks_to_raw ticks).

Definition qty_to_lots (m : InstrumentMeta D) (qty : FixedI64 D) : outcome (option Lots) :=
  let divisor := to_raw (lot_size m) in
  if divisor =? 0 then Ret None
  else (fun q => Some (lots_from_raw q)) <$> div_op I64 (to_raw qty) divisor.

Definition lots_to_qty (m : InstrumentMeta D) (lots : Lots) : option (FixedI64 D) :=
  checked_mul_int (lot_size m) (lots_to_raw lots).
End instrument.

(** * Properties *)

(** The construction invariant of [InstrumentMeta::new]. *)
Definition meta_wf {D} (m : InstrumentMeta D) : Prop :=
  fixed_wf (tick_size m) /\ fixed_wf (lot_size m) /\ 0 < to_raw (tick_size m) /\ 0 < to_raw (lot_size m).

#[global] Instance meta_wf_dec {D} (m : InstrumentMeta D) : Decision (meta_wf m).
Proof. unfold meta_wf, fixed_wf. apply _. Defined.

Lemma meta_new_wf {D} (tick lot : FixedI64 D) m :
  fixed_wf tick -> fixed_wf lot -> meta_new tick lot = Ok m ->
  m = mkMeta tick lot /\ meta_wf m.
Proof.
  unfold meta_new, is_positive. intros Ht Hl.
  destruct (Z.ltb_spec 0 (to_raw tick)); [|done]. destruct (Z.ltb_spec 0 (to_raw lot)); [|done].
  intros [= <-]. by split_and!.
Qed.

(** Dividing a raw value by a positive unit truncates toward zero, never
    panics, and multiplying back stays in range. *)
Lemma unit_division p s :
  in_range I64 p -> in_range I64 s -> 0 < s ->
  div_op I64 p s = Ret (Z.quot p s) /\ in_range I64 (s * Z.quot p s)
  /\ Z.abs (p - s * Z.quot p s) < s /\ 0 <= p * (s * Z.quot p s) /\ Z.abs (s * Z.quot p s) <= Z.abs p.
Proof.
  intros Hp Hs Hs0. rewrite Z.quot_div, (Z.sgn_pos s), (Z.abs_eq s) by lia.
  pose proof (Z.div_mod (Z.abs p) s ltac:(lia)). pose proof (Z.mod_pos_bound (Z.abs p) s ltac:(lia)).
  pose proof (Z.div_pos (Z.abs p) s ltac:(lia) ltac:(lia)) as Hq.
  set (q := Z.abs p / s) in *. assert (q <= Z.abs p) by nia.
  assert (Z.quot p s = Z.sgn p * 1 * q) as E by
    (rewrite Z.quot_div, (Z.sgn_pos s), (Z.abs_eq s) by lia; done).
  assert (in_range I64 (Z.sgn p * 1 * q)) as Hr.
  { destruct (Z.sgn_spec p) as [[? ->]|[[? ->]|[? ->]]]; mnia. }
  split_and!.
  - rewrite <- E in Hr |- *. apply div_op_ok; [lia|done].
  - destruct (Z.sgn_spec p) as [[? ->]|[[? ->]|[? ->]]]; mnia.
  - destruct (Z.sgn_spec p) as [[? ->]|[[? ->]|[? ->]]]; nia.
  - destruct (Z.sgn_spec p) as [[? ->]|[[? ->]|[? ->]]]; nia.
  - destruct (Z.sgn_spec p) as [[? ->]|[[? ->]|[? ->]]]; nia.
Qed.

Lemma unit_multiple_back s n : 0 < s -> Z.quot (s * n) s = n.
Proof. intros Hs. rewrite Z.mul_comm. apply Z.quot_mul. lia. Qed.

(** The multiple of a unit, when it fits. *)
Definition unit_multiple {D} (unit : FixedI64 D) (n : Z) : option (FixedI64 D) :=
  if decide (in_range I64 (to_raw unit * n)) then Some (from_raw (to_raw unit * n)) else None.

Lemma checked_mul_int_multiple {D} (unit : FixedI64 D) n : checked_mul_int unit n = unit_multiple unit n.
Proof.
  unfold checked_mul_int, unit_multiple. case_decide; [by rewrite checked_Some|].
  destruct (checked I64 _) as [r|] eqn:E; [|done]. by apply checked_inv in E as [_ ?].
Qed.

(** Rounding toward zero to a multiple of the unit. *)
Lemma unit_rounding {D} (unit x : FixedI64 D) :
  fixed_wf unit -> fixed_wf x -> 0 < to_raw unit ->
  div_op I64 (to_raw x) (to_raw unit) = Ret (Z.quot (to_raw x) (to_raw unit))
  /\ unit_multiple unit (Z.quot (to_raw x) (to_raw unit))
     = Some (from_raw (to_raw unit * Z.quot (to_raw x) (to_raw unit)))
  /\ Z.abs (to_raw x - to_raw unit * Z.quot (to_raw x) (to_raw unit)) < to_raw unit
  /\ Z.abs (to_raw unit * Z.quot (to_raw x) (to_raw unit)) <= Z.abs (to_raw x).
Proof.
  intros Hu Hx H0. destruct (unit_division (to_raw x) (to_raw unit)) as (E & Hr & ? & _ & ?); [done..|].
  unfold unit_multiple. by rewrite decide_True.
Qed.

Lemma unit_multiple_divides {D} (unit x : FixedI64 D) n :
  fixed_wf unit -> 0 < to_raw unit -> unit_multiple unit n = Some x ->
  div_op I64 (to_raw x) (to_raw unit) = Ret n.
Proof.
  unfold unit_multiple. intros Hu H0. case_decide as Hr; [|done]. intros [= <-]. cbn [to_raw].
  destruct (unit_division (to_raw unit * n) (to_raw unit)) as (-> & _); [done..|]. by rewrite unit_multiple_back.
Qed.

(** C9: the tick and lot conversions.  [InstrumentMeta::new] accepts exactly
    positive sizes, and names the one at fault otherwise.  With the metadata it
    returns, a price [p] converts, without panicking, to [p / tick] truncated
    toward zero; [n] ticks convert to the price [tick * n], or to nothing when
    that does not fit an [i64]; so a price always converts to ticks and back to
    itself rounded toward zero to a multiple of the tick size, and ticks that
    convert to a price convert back to themselves.  The same holds for
    quantities and lots. *)
Theorem instrument_conversions {D} (tick lot : FixedI64 D) :
  fixed_wf tick -> fixed_wf lot ->
  match meta_new tick lot with
  | Err InvalidTickSize => to_raw tick <= 0
  | Err InvalidLotSize => 0 < to_raw tick /\ to_raw lot <= 0
  | Ok m =>
      0 < to_raw tick /\ 0 < to_raw lot
      /\ (forall t, ticks_to_price m t = unit_multiple tick (ticks_to_raw t))
      /\ (forall l, lots_to_qty m l = unit_multiple lot (lots_to_raw l))
      /\ (forall p, fixed_wf p -> let t := ticks_from_raw (Z.quot (to_raw p) (to_raw tick)) in
            price_to_ticks m p = Ret (Some t)
            /\ exists p', ticks_to_price m t = Some p' /\ to_raw p' = to_raw tick * ticks_to_raw t
                 /\ Z.abs (to_raw p - to_raw p') < to_raw tick /\ Z.abs (to_raw p') <= Z.abs (to_raw p))
      /\ (forall q, fixed_wf q -> let l := lots_from_raw (Z.quot (to_raw q) (to_raw lot)) in
            qty_to_lots m q = Ret (Some l)
            /\ exists q', lots_to_qty m l = Some q' /\ to_raw q' = to_raw lot * lots_to_raw l
                 /\ Z.abs (to_raw q - to_raw q') < to_raw lot /\ Z.abs (to_raw q') <= Z.abs (to_raw q))
      /\ (forall t p, ticks_to_price m t = Some p -> price_to_ticks m p = Ret (Some t))
      /\ (forall l q, lots_to_qty m l = Some q -> qty_to_lots m q = Ret (Some l))
  end.
Proof.
  intros Ht Hl. unfold meta_new, is_positive.
  destruct (Z.ltb_spec 0 (to_raw tick)) as [Ht0|]; cbn [negb]; [|lia].
  destruct (Z.ltb_spec 0 (to_raw lot)) as [Hl0|]; cbn [negb]; [|lia].
  unfold price_to_ticks, ticks_to_price, qty_to_lots, lots_to_qty. cbn [tick_size lot_size].
  setoid_rewrite checked_mul_int_multiple. rewrite !(proj2 (Z.eqb_neq _ 0)) by lia.
  do 4 (split; [done|]). split_and!.
  - intros p Hp. destruct (unit_rounding tick p Ht Hp Ht0) as (-> & Em & ? & ?).
    split; [done|]. eexists. split; [exact Em|]. by split_and!.
  - intros q Hq. destruct (unit_rounding lot q Hl Hq Hl0) as (-> & Em & ? & ?).
    split; [done|]. eexists. split; [exact Em|]. by split_and!.
  - intros [t] p E. by rewrite (unit_multiple_divides _ _ _ Ht Ht0 E).
  - intros [l] q E. by rewrite (unit_multiple_divides _ _ _ Hl Hl0 E).
Qed.

(** The price 0.537 at ticks of 0.01. *)
Lemma instrument_conversions_witness :
  exists m, meta_new (from_raw (D := 6) 10000) (from_raw 1000000) = Ok m
    /\ price_to_ticks m (from_raw 537000) = Ret (Some (ticks_from_raw 53))
    /\ exists p', ticks_to_price m (ticks_from_raw 53) = Some p' /\ to_raw p' = 530000.
Proof.
  pose proof (instrument_conversions (from_raw (D := 6) 10000) (from_raw 1000000)
                ltac:(by vm_compute) ltac:(by vm_compute)) as Hw.
  eexists. split; [reflexivity|]. destruct Hw as (_ & _ & _ & _ & Hp & _).
  destruct (Hp (from_raw 537000) ltac:(by vm_compute)) as (E & p' & E' & Ep & _).
  split; [exact E|]. exists p'. split; [exact E'|exact Ep].
Defined.

(** A probability's complement is a probability, and complementing twice gives
    it back. *)
Lemma prob_complement_involutive `{BuildProfile} raw p :
  prob_from_raw raw = Some p ->
  exists q, prob_complement p = Ret q /\ prob_from_raw (to_raw (prob_to_fixed q)) = Some q
    /\ prob_complement q = Ret p.
Proof.
  unfold prob_from_raw, prob_new. change (SCALE 6) with 1000000. cbn.
  destruct (Z.ltb_spec raw 0); [done|]. destruct (Z.ltb_spec 1000000 raw); [done|]. intros [= <-].
  unfold prob_complement. change (SCALE 6) with 1000000. cbn.
  rewrite arith_ok by mlia. eexists. split; [done|]. cbn.
  destruct (Z.ltb_spec (1000000 - raw) 0); [lia|]. destruct (Z.ltb_spec 1000000 (1000000 - raw)); [lia|].
  rewrite arith_ok by mlia. cbn. split; [done|]. do 3 f_equal. lia.
Qed.
