(* ===== verification/Events.v ===== *)
(** * Hot events ([crates/events])

    The event model that connects feeds, engine and strategies: flags, header,
    payloads, the discriminated body and the constructors of [HotEvent].  The
    [_pad] fields of the [repr(C)] payloads are always zero and never read;
    they have no counterpart here. *)

From stdpp Require Import base decidable list numbers option tactics.
From Stdlib Require Import ZArith Lia.
From S2P Require Import Prelude Types.

#[local] Open Scope Z_scope.

(** ** flags.rs *)

Record EventFlags := flags_from_raw { flags_to_raw : Z }.

#[global] Instance EventFlags_eq_dec : EqDecision EventFlags.
Proof. solve_decision. Defined.

Definition flags_EMPTY : EventFlags := flags_from_raw 0.
Definition IS_SNAPSHOT : EventFlags := flags_from_raw (Z.shiftl 1 0).
Definition LAST_IN_BATCH : EventFlags := flags_from_raw (Z.shiftl 1 1).

Definition flags_contains (self other : EventFlags) : bool :=
  Z.land (flags_to_raw self) (flags_to_raw other) =? flags_to_raw other.
Definition flags_with (self other : EventFlags) : EventFlags :=
  flags_from_raw (Z.lor (flags_to_raw self) (flags_to_raw other)).
Definition flags_is_empty (self : EventFlags) : bool := flags_to_raw self =? 0.
Definition flags_bitor (self rhs : EventFlags) : EventFlags :=
  flags_from_raw (Z.lor (flags_to_raw self) (flags_to_raw rhs)).

(** ** header.rs *)

Record EventHeader := {
  recv_ts : Timestamp;
  hdr_seq : SeqNum;
  hdr_instrument_id : InstrumentId;
  hdr_source_id : SourceId;
  hdr_flags : EventFlags;
}.

(** ** market.rs *)

Inductive UpdateAction := ActNew | ActChange | ActDelete.

#[global] Instance UpdateAction_eq_dec : EqDecision UpdateAction.
Proof. solve_decision. Defined.

Record BookDeltaPayload := {
  bd_price : Ticks;
  bd_qty : Lots;
  bd_side : Side;
  bd_action : UpdateAction;
  bd_depth : Z;
}.

Record TradePayload := { tr_price : Ticks; tr_qty : Lots; tr_aggressor : Side }.

Record TopOfBookPayload := {
  tp_bid_price : Ticks;
  tp_bid_qty : Lots;
  tp_ask_price : Ticks;
  tp_ask_qty : Lots;
}.

(** ** execution.rs *)

Inductive OrderStatus := StAccepted | StCancelled | StExpired.

Inductive RejectReason :=
| InsufficientFunds | InvalidPrice | InvalidQty | DuplicateOrderId | RiskLimitBreached
| VenueError | UnknownReason.

Record OrderAckPayload := { ack_order_id : OrderId; ack_client_order_id : Z; ack_status : OrderStatus }.

Record FillPayload := {
  fill_order_id : OrderId;
  fill_price : Ticks;
  fill_qty : Lots;
  fill_side : Side;
  fill_is_maker : Z;
}.

Record OrderRejectPayload := {
  rej_order_id : OrderId;
  rej_client_order_id : Z;
  rej_reason : RejectReason;
}.

(** ** control.rs *)

Inductive TimerKind := StaleFeed | Periodic | Deadline.

Record TimerPayload := { timer_id : Z; timer_kind : TimerKind }.

Record HeartbeatPayload := { hb_counter : Z }.

(** ** body.rs, event.rs *)

Inductive EventBody :=
| BookDelta (p : BookDeltaPayload)
| Trade (p : TradePayload)
| TopOfBookEv (p : TopOfBookPayload)
| OrderAck (p : OrderAckPayload)
| Fill (p : FillPayload)
| OrderReject (p : OrderRejectPayload)
| TimerEv (p : TimerPayload)
| Heartbeat (p : HeartbeatPayload).

Inductive EventKind :=
| KBookDelta | KTrade | KTopOfBook | KOrderAck | KFill | KOrderReject | KTimer | KHeartbeat.

#[global] Instance EventKind_eq_dec : EqDecision EventKind.
Proof. solve_decision. Defined.

Definition body_kind (b : EventBody) : EventKind :=
  match b with
  | BookDelta _ => KBookDelta
  | Trade _ => KTrade
  | TopOfBookEv _ => KTopOfBook
  | OrderAck _ => KOrderAck
  | Fill _ => KFill
  | OrderReject _ => KOrderReject
  | TimerEv _ => KTimer
  | Heartbeat _ => KHeartbeat
  end.

Record HotEvent := { ev_header : EventHeader; ev_body : EventBody }.

Definition event_kind (e : HotEvent) : EventKind := body_kind (ev_body e).

Section constructors.
Context (ts : Timestamp) (seq : SeqNum) (inst : InstrumentId) (src : SourceId) (flags : EventFlags).

Definition mk_header : EventHeader :=
  {| recv_ts := ts; hdr_seq := seq; hdr_instrument_id := inst; hdr_source_id := src; hdr_flags := flags |}.

Definition ev_book_delta p : HotEvent := {| ev_header := mk_header; ev_body := BookDelta p |}.
Definition ev_trade p : HotEvent := {| ev_header := mk_header; ev_body := Trade p |}.
Definition ev_top_of_book p : HotEvent := {| ev_header := mk_header; ev_body := TopOfBookEv p |}.
Definition ev_order_ack p : HotEvent := {| ev_header := mk_header; ev_body := OrderAck p |}.
Definition ev_fill p : HotEvent := {| ev_header := mk_header; ev_body := Fill p |}.
Definition ev_order_reject p : HotEvent := {| ev_header := mk_header; ev_body := OrderReject p |}.
Definition ev_timer p : HotEvent := {| ev_header := mk_header; ev_body := TimerEv p |}.
End constructors.

(** Heartbeats carry no instrument. *)
Definition ev_heartbeat (ts : Timestamp) (seq : SeqNum) (src : SourceId) (flags : EventFlags)
    (p : HeartbeatPayload) : HotEvent :=
  {| ev_header := mk_header ts seq inst_NONE src flags; ev_body := Heartbeat p |}.

(** * Flag algebra *)

Lemma flags_with_contains a b x :
  flags_contains x b = true -> flags_contains (flags_with a x) b = true.
Proof.
  unfold flags_contains, flags_with. cbn. rewrite !Z.eqb_eq. intros E.
  rewrite Z.land_lor_distr_l, E. apply Z.bits_inj'. intros i Hi.
  rewrite Z.lor_spec, Z.land_spec. destruct (Z.testbit (flags_to_raw b) i);
    [by rewrite orb_true_r|by rewrite andb_false_r].
Qed.

(** The two defined flags are independent bits. *)
Lemma flags_contains_bits f :
  flags_contains f IS_SNAPSHOT = Z.testbit (flags_to_raw f) 0
  /\ flags_contains f LAST_IN_BATCH = Z.testbit (flags_to_raw f) 1.
Proof.
  assert (forall k, 0 <= k ->
    (Z.land (flags_to_raw f) (2 ^ k) =? 2 ^ k) = Z.testbit (flags_to_raw f) k) as Hbit.
  { intros k Hk. destruct (Z.testbit (flags_to_raw f) k) eqn:E.
    - apply Z.eqb_eq, Z.bits_inj'. intros i Hi. rewrite Z.land_spec.
      destruct (decide (i = k)) as [->|]; [by rewrite E|].
      rewrite Z.pow2_bits_false by lia. apply andb_false_r.
    - apply Z.eqb_neq. intros Heq. apply (f_equal (fun z => Z.testbit z k)) in Heq.
      rewrite Z.land_spec, E, Z.pow2_bits_true in Heq by lia. done. }
  split; [apply (Hbit 0)|apply (Hbit 1)]; lia.
Qed.
