(* ===== verification/Book.v ===== *)
(** * Order books ([crates/market-state/src/book])

    The [OrderBook] trait as a class of operations, what its clients rely on as
    a class of laws over an abstract map from price to quantity, and the
    implementation [ArrayBook<N>] (array_book.rs) with its lazily refreshed
    best-price cache. *)

From stdpp Require Import base decidable list numbers option tactics sorting.
From Stdlib Require Import ZArith Lia.
From S2P Require Import Prelude Types Events.

#[local] Open Scope Z_scope.

(** ** book/mod.rs: the trait *)

Class OrderBook (B : Type) := {
  ob_default : B;
  apply_delta : B -> Ticks -> Lots -> Side -> UpdateAction -> outcome B;
  clear_side : B -> Side -> B;
  ob_clear : B -> B;
  best_bid : B -> outcome (B * option (Ticks * Lots));
  best_ask : B -> outcome (B * option (Ticks * Lots));
  ob_depth : B -> Side -> list (Ticks * Lots) -> outcome (nat * list (Ticks * Lots));
  level_count : B -> Side -> nat;
  total_depth : B -> Side -> nat -> outcome Lots;
}.

(** The best level of one side: the highest price with a positive quantity for
    bids, the lowest for asks. *)
Definition better (s : Side) (p p' : Z) : Prop := match s with Bid => p' < p | Ask => p < p' end.

Definition is_best (s : Side) (lv : Z -> Z) (r : option (Ticks * Lots)) : Prop :=
  match r with
  | None => forall p, lv p <= 0
  | Some (p, q) =>
      0 < lots_to_raw q /\ lv (ticks_to_raw p) = lots_to_raw q
      /\ forall p', better s p' (ticks_to_raw p) -> lv p' <= 0
  end.

(** The abstract effect of a level update. *)
Definition set_level (dom : Z -> bool) (lv : Side -> Z -> Z) (s : Side) (p q : Z) : Side -> Z -> Z :=
  fun s' p' => if decide (s' = s /\ p' = p /\ dom p = true) then q else lv s' p'.

(** What a book promises: an invariant, the prices it can store, and for each
    operation its effect on the abstract levels. *)
Class OrderBookLaws (B : Type) `{OrderBook B} := {
  ob_wf : B -> Prop;
  ob_dom : Z -> bool;
  ob_levels : B -> Side -> Z -> Z;
  ob_default_wf : ob_wf ob_default;
  ob_default_levels s p : ob_levels ob_default s p = 0;
  ob_dom_i64 p : ob_dom p = true -> in_range I64 p;
  ob_levels_dom b s p : ob_wf b -> ob_dom p = false -> ob_levels b s p = 0;
  apply_delta_law b p q s a :
    ob_wf b -> in_range I64 (ticks_to_raw p) ->
    exists b', apply_delta b p q s a = Ret b' /\ ob_wf b'
      /\ forall s' p', ob_levels b' s' p'
           = set_level ob_dom (ob_levels b) s (ticks_to_raw p) (lots_to_raw q) s' p';
  clear_side_law b s :
    ob_wf b -> ob_wf (clear_side b s)
    /\ forall s' p, ob_levels (clear_side b s) s' p = if decide (s' = s) then 0 else ob_levels b s' p;
  ob_clear_law b : ob_wf b -> ob_wf (ob_clear b) /\ forall s p, ob_levels (ob_clear b) s p = 0;
  best_bid_law b :
    ob_wf b -> exists b' r, best_bid b = Ret (b', r) /\ ob_wf b'
      /\ (forall s p, ob_levels b' s p = ob_levels b s p) /\ is_best Bid (ob_levels b Bid) r;
  best_ask_law b :
    ob_wf b -> exists b' r, best_ask b = Ret (b', r) /\ ob_wf b'
      /\ (forall s p, ob_levels b' s p = ob_levels b s p) /\ is_best Ask (ob_levels b Ask) r;
}.

(** ** book/array_book.rs *)

(** [N] is the const generic; the arrays are lists of length [N]. *)
Record ArrayBook (N : nat) := {
  bids : list Lots;
  asks : list Lots;
  best_bid_idx : option Z;
  best_ask_idx : option Z;
  bid_dirty : bool;
  ask_dirty : bool;
}.
Arguments bids {N} _.
Arguments asks {N} _.
Arguments best_bid_idx {N} _.
Arguments best_ask_idx {N} _.
Arguments bid_dirty {N} _.
Arguments ask_dirty {N} _.

Definition is_live (q : Lots) : bool := 0 <? lots_to_raw q.

(** The index orders of the loops [for i in (0..N).rev()] and [for i in 0..N]. *)
Definition bid_order (N : nat) : list nat := rev (seq 0 N).
Definition ask_order (N : nat) : list nat := seq 0 N.

(** The scan for the first live level in an index order. *)
Fixpoint scan_best (levels : list Lots) (idxs : list nat) : outcome (option nat) :=
  match idxs with
  | [] => Ret None
  | i :: idxs =>
      q ← index levels i;
      if is_live q then Ret (Some i) else scan_best levels idxs
  end.

Definition idx_to_ticks (idx : nat) : option Ticks := ticks_from_raw <$> checked I64 (Z.of_nat idx).

(** [self.best_*_idx.map(|i| (Ticks::from_raw(i64::from(i)), self.*[usize::from(i)]))]. *)
Definition cached_level (levels : list Lots) (idx : option Z) : outcome (option (Ticks * Lots)) :=
  match idx with
  | None => Ret None
  | Some i => q ← index levels (Z.to_nat i); Ret (Some (ticks_from_raw i, q))
  end.

(** The loop of [depth] over one side. *)
Fixpoint depth_loop (levels : list Lots) (idxs : list nat) (count : nat)
    (buf : list (Ticks * Lots)) : outcome (nat * list (Ticks * Lots)) :=
  match idxs with
  | [] => Ret (count, buf)
  | i :: idxs =>
      if decide (length buf <= count)%nat then Ret (count, buf)
      else
        q ← index levels i;
        if is_live q then
          match idx_to_ticks i with
          | None => depth_loop levels idxs count buf
          | Some price =>
              buf ← set_index buf count (price, q);
              depth_loop levels idxs (S count) buf
          end
        else depth_loop levels idxs count buf
  end.

(** The loop of [total_depth] over one side. *)
Fixpoint total_loop `{BuildProfile} (levels : list Lots) (idxs : list nat) (limit count : nat)
    (total : Lots) : outcome Lots :=
  match idxs with
  | [] => Ret total
  | i :: idxs =>
      if decide (limit <= count)%nat then Ret total
      else
        q ← index levels i;
        if is_live q then
          total ← lots_add total q;
          total_loop levels idxs limit (S count) total
        else total_loop levels idxs limit count total
  end.

Section array_book.
Context `{BuildProfile} {N : nat}.
Implicit Types b : ArrayBook N.

Definition array_default : ArrayBook N :=
  {| bids := replicate N lots_ZERO; asks := replicate N lots_ZERO;
     best_bid_idx := None; best_ask_idx := None; bid_dirty := true; ask_dirty := true |}.

Definition array_apply_delta b (price : Ticks) (qty : Lots) (side : Side) (_action : UpdateAction)
    : outcome (ArrayBook N) :=
  match checked USIZE (ticks_to_raw price) with
  | None => Ret b
  | Some idx =>
      if Z.of_nat N <=? idx then Ret b
      else
        match side with
        | Bid =>
            bids' ← set_index (bids b) (Z.to_nat idx) qty;
            Ret {| bids := bids'; asks := asks b; best_bid_idx := best_bid_idx b;
                   best_ask_idx := best_ask_idx b; bid_dirty := true; ask_dirty := ask_dirty b |}
        | Ask =>
            asks' ← set_index (asks b) (Z.to_nat idx) qty;
            Ret {| bids := bids b; asks := asks'; best_bid_idx := best_bid_idx b;
                   best_ask_idx := best_ask_idx b; bid_dirty := bid_dirty b; ask_dirty := true |}
        end
  end.

Definition array_clear_side b (side : Side) : ArrayBook N :=
  match side with
  | Bid => {| bids := replicate N lots_ZERO; asks := asks b; best_bid_idx := None;
              best_ask_idx := best_ask_idx b; bid_dirty := true; ask_dirty := ask_dirty b |}
  | Ask => {| bids := bids b; asks := replicate N lots_ZERO; best_bid_idx := best_bid_idx b;
              best_ask_idx := None; bid_dirty := bid_dirty b; ask_dirty := true |}
  end.

Definition array_clear b : ArrayBook N :=
  {| bids := replicate N lots_ZERO; asks := replicate N lots_ZERO;
     best_bid_idx := None; best_ask_idx := None; bid_dirty := true; ask_dirty := true |}.

Definition array_best_bid b : outcome (ArrayBook N * option (Ticks * Lots)) :=
  if negb (bid_dirty b) then
    r ← cached_level (bids b) (best_bid_idx b); Ret (b, r)
  else
    found ← scan_best (bids b) (bid_order N);
    let idx := (fun i => wrap U16 (Z.of_nat i)) <$> found in
    let b' := {| bids := bids b; asks := asks b; best_bid_idx := idx;
                 best_ask_idx := best_ask_idx b; bid_dirty := false; ask_dirty := ask_dirty b |} in
    r ← cached_level (bids b) idx;
    Ret (b', r).

Definition array_best_ask b : outcome (ArrayBook N * option (Ticks * Lots)) :=
  if negb (ask_dirty b) then
    r ← cached_level (asks b) (best_ask_idx b); Ret (b, r)
  else
    found ← scan_best (asks b) (ask_order N);
    let idx := (fun i => wrap U16 (Z.of_nat i)) <$> found in
    let b' := {| bids := bids b; asks := asks b; best_bid_idx := best_bid_idx b;
                 best_ask_idx := idx; bid_dirty := bid_dirty b; ask_dirty := false |} in
    r ← cached_level (asks b) idx;
    Ret (b', r).

Definition array_depth b (side : Side) (buf : list (Ticks * Lots)) : outcome (nat * list (Ticks * Lots)) :=
  match side with
  | Bid => depth_loop (bids b) (bid_order N) 0 buf
  | Ask => depth_loop (asks b) (ask_order N) 0 buf
  end.

Definition array_level_count b (side : Side) : nat :=
  match side with
  | Bid => length (filter is_live (bids b))
  | Ask => length (filter is_live (asks b))
  end.

Definition array_total_depth b (side : Side) (levels : nat) : outcome Lots :=
  match side with
  | Bid => total_loop (bids b) (bid_order N) levels 0 lots_ZERO
  | Ask => total_loop (asks b) (ask_order N) levels 0 lots_ZERO
  end.

#[export] Instance ArrayBook_book : OrderBook (ArrayBook N) := {
  ob_default := array_default;
  apply_delta := array_apply_delta;
  clear_side := array_clear_side;
  ob_clear := array_clear;
  best_bid := array_best_bid;
  best_ask := array_best_ask;
  ob_depth := array_depth;
  level_count := array_level_count;
  total_depth := array_total_depth;
}.
End array_book.

(** * [ArrayBook] implements the trait *)

Definition side_levels {N} (b : ArrayBook N) (s : Side) : list Lots :=
  match s with Bid => bids b | Ask => asks b end.
Definition side_idx {N} (b : ArrayBook N) (s : Side) : option Z :=
  match s with Bid => best_bid_idx b | Ask => best_ask_idx b end.
Definition side_dirty {N} (b : ArrayBook N) (s : Side) : bool :=
  match s with Bid => bid_dirty b | Ask => ask_dirty b end.
Definition side_order (s : Side) (N : nat) : list nat :=
  match s with Bid => bid_order N | Ask => ask_order N end.

Definition live_at (l : list Lots) (i : nat) : bool :=
  match l !! i with Some q => is_live q | None => false end.

(** The quantity a level array stores at a price. *)
Definition level_of (l : list Lots) (p : Z) : Z :=
  if decide (0 <= p) then default 0 (lots_to_raw <$> l !! Z.to_nat p) else 0.

(** The cache invariant: a clean side caches the first live level of its scan
    order. *)
Definition array_wf {N} (b : ArrayBook N) : Prop :=
  (forall s, length (side_levels b s) = N)
  /\ forall s, side_dirty b s = false ->
       side_idx b s = Z.of_nat <$> find (live_at (side_levels b s)) (side_order s N).

Section scan_lemmas.
Implicit Types (l : list Lots) (s : Side) (N : nat).

Lemma side_order_bound s N : Forall (fun i => (i < N)%nat) (side_order s N).
Proof.
  apply List.Forall_forall. intros i Hi. destruct s; cbn in Hi.
  - apply in_rev, in_seq in Hi. lia.
  - apply in_seq in Hi. lia.
Qed.

Lemma elem_of_side_order s N i : (i < N)%nat -> In i (side_order s N).
Proof.
  intros Hi. destruct s; cbn [side_order]; unfold bid_order, ask_order; rewrite <- ?in_rev; apply in_seq; lia.
Qed.

(** Each scan visits better prices first. *)
Lemma side_order_sorted s N :
  StronglySorted (fun i j => better s (Z.of_nat i) (Z.of_nat j)) (side_order s N).
Proof.
  destruct s; cbn.
  - unfold bid_order. induction N as [|N IH]; [constructor|].
    rewrite seq_S, rev_app_distr. cbn. constructor; [done|].
    eapply List.Forall_impl; [|apply (side_order_bound Bid)]. cbn. lia.
  - unfold ask_order. generalize 0%nat. induction N as [|N IH]; intros k; cbn; constructor; [done|].
    apply List.Forall_forall. intros j [? ?]%in_seq. lia.
Qed.

Lemma sorted_before {A} (R : A -> A -> Prop) pre x post y :
  StronglySorted R (pre ++ x :: post) -> In y post -> R x y.
Proof.
  induction pre as [|z pre IH]; cbn; inversion 1; subst; [|by apply IH].
  by apply (proj1 (List.Forall_forall _ _)).
Qed.

Lemma find_split {A} (f : A -> bool) xs x :
  find f xs = Some x -> f x = true /\ exists pre post, xs = pre ++ x :: post /\ forall y, In y pre -> f y = false.
Proof.
  induction xs as [|z xs IH]; cbn; [done|]. destruct (f z) eqn:E.
  - intros [= <-]. split; [done|]. by exists [], xs.
  - intros (? & pre & post & -> & Hpre)%IH. split; [done|]. exists (z :: pre), post.
    split; [done|]. intros y [<-|]; auto.
Qed.

Lemma find_first_best s N (f : nat -> bool) i j :
  find f (side_order s N) = Some i -> (j < N)%nat -> better s (Z.of_nat j) (Z.of_nat i) -> f j = false.
Proof.
  intros (_ & pre & post & E & Hpre)%find_split Hj Hb.
  pose proof (elem_of_side_order s N j Hj) as Hin. pose proof (side_order_sorted s N) as Hs.
  rewrite E in Hin, Hs. apply in_app_iff in Hin as [?|[<-|Hpost]]; [by apply Hpre| |].
  - exfalso. destruct s; cbn in Hb; lia.
  - pose proof (sorted_before _ _ _ _ _ Hs Hpost) as Hb'. exfalso. destruct s; cbn in Hb, Hb'; lia.
Qed.

Lemma scan_best_find l idxs :
  Forall (fun i => (i < length l)%nat) idxs -> scan_best l idxs = Ret (find (live_at l) idxs).
Proof.
  induction 1 as [|i idxs Hi _ IH]; [done|]. cbn.
  destruct (lookup_lt_is_Some_2 l i Hi) as [q Eq]. rewrite (index_ok _ _ _ Eq). cbn.
  unfold live_at at 1. rewrite Eq. by destruct (is_live q).
Qed.

Lemma live_level l i : live_at l i = (0 <? level_of l (Z.of_nat i)).
Proof.
  unfold live_at, level_of. rewrite decide_True, Nat2Z.id by lia.
  by destruct (l !! i).
Qed.

(** A level index that is out of range holds nothing. *)
Lemma level_of_out l p : p < 0 \/ Z.of_nat (length l) <= p -> level_of l p = 0.
Proof.
  unfold level_of. intros Hp. case_decide; [|done]. by rewrite lookup_ge_None_2 by lia.
Qed.

Lemma level_of_insert l i q p :
  (i < length l)%nat ->
  level_of (<[i:=q]> l) p = if decide (p = Z.of_nat i) then lots_to_raw q else level_of l p.
Proof.
  intros Hi. unfold level_of. case_decide as Hp.
  - destruct (decide (p = Z.of_nat i)) as [->|Hne].
    + by rewrite Nat2Z.id, list_lookup_insert_eq.
    + by rewrite list_lookup_insert_ne by lia.
  - rewrite decide_False by lia. done.
Qed.

Lemma level_of_replicate n p : level_of (replicate n lots_ZERO) p = 0.
Proof.
  unfold level_of. case_decide; [|done].
  destruct (replicate n lots_ZERO !! Z.to_nat p) eqn:E; [|done].
  apply lookup_replicate in E as [-> _]. done.
Qed.

(** The first live index of the scan is the best level. *)
Lemma find_is_best s N l :
  length l = N ->
  match find (live_at l) (side_order s N) with
  | Some i => exists q, l !! i = Some q /\ is_best s (level_of l) (Some (ticks_from_raw (Z.of_nat i), q))
  | None => is_best s (level_of l) None
  end.
Proof.
  intros HN. destruct (find _ _) as [i|] eqn:E; cbn.
  - pose proof (find_split _ _ _ E) as [Hi _]. unfold live_at in Hi.
    destruct (l !! i) as [q|] eqn:Eq; [|done]. exists q. apply Z.ltb_lt in Hi.
    split_and!; [done|done| |].
    + unfold level_of. by rewrite decide_True, Nat2Z.id, Eq by lia.
    + intros p' Hb. destruct (decide (p' < 0 \/ Z.of_nat N <= p')) as [Ho|Ho];
        [rewrite level_of_out by lia; lia|].
      replace p' with (Z.of_nat (Z.to_nat p')) in * by lia.
      apply Z.ltb_ge. rewrite <- live_level.
      apply (find_first_best s N (live_at l) i); [done|lia|done].
  - intros p. destruct (decide (p < 0 \/ Z.of_nat N <= p)); [rewrite level_of_out by lia; lia|].
    replace p with (Z.of_nat (Z.to_nat p)) by lia. apply Z.ltb_ge. rewrite <- live_level.
    eapply find_none; [done|]. apply elem_of_side_order. lia.
Qed.
End scan_lemmas.

(** The largest [N] whose indices fit the cached [u16]. *)
Class BookSize (N : nat) := book_size : Z.of_nat N <= 65536.

Definition array_levels {N} (b : ArrayBook N) (s : Side) (p : Z) : Z := level_of (side_levels b s) p.
Definition array_dom (N : nat) (p : Z) : bool := (0 <=? p) && (p <? Z.of_nat N).

Section array_book_laws.
Context `{BuildProfile} {N : nat} `{!BookSize N}.
Implicit Types b : ArrayBook N.

Lemma array_dom_spec p : array_dom N p = true <-> 0 <= p < Z.of_nat N.
Proof. unfold array_dom. rewrite andb_true_iff, Z.leb_le, Z.ltb_lt. done. Qed.

(** Reading the cache of a level array. *)
Lemma cached_level_best s l :
  length l = N ->
  exists r, cached_level l (Z.of_nat <$> find (live_at l) (side_order s N)) = Ret r
    /\ is_best s (level_of l) r.
Proof.
  intros Hl. pose proof (find_is_best s N l Hl) as Hf.
  destruct (find _ _) as [i|]; cbn; [|by eexists].
  destruct Hf as (q & Eq & Hbest). rewrite Nat2Z.id, (index_ok _ _ _ Eq). cbn. eauto.
Qed.

(** The [u16] cast of a found index is the identity. *)
Lemma find_wrap_u16 s l :
  ((fun i => wrap U16 (Z.of_nat i)) <$> find (live_at l) (side_order s N))
  = Z.of_nat <$> find (live_at l) (side_order s N).
Proof.
  destruct (find _ _) as [i|] eqn:E; [|done]. cbn [fmap option_fmap option_map].
  apply find_some in E as [Hin _].
  pose proof (proj1 (List.Forall_forall _ _) (side_order_bound s N) _ Hin) as Hi. cbn in Hi.
  pose proof book_size. by rewrite wrap_id by mlia.
Qed.

Lemma array_apply_delta_wf b p q s a :
  array_wf b -> in_range I64 (ticks_to_raw p) ->
  exists b', array_apply_delta b p q s a = Ret b' /\ array_wf b'
    /\ forall s' p', array_levels b' s' p'
         = set_level (array_dom N) (array_levels b) s (ticks_to_raw p) (lots_to_raw q) s' p'.
Proof.
  intros [Hlen Hcache] Hp. unfold array_apply_delta, set_level.
  destruct (array_dom N (ticks_to_raw p)) eqn:Edom.
  - apply array_dom_spec in Edom. rewrite checked_Some by mlia.
    rewrite (proj2 (Z.leb_gt _ _)) by lia.
    pose proof (Hlen Bid) as Hb. pose proof (Hlen Ask) as Ha.
    pose proof (Hcache Bid) as Cb. pose proof (Hcache Ask) as Ca. cbn in Hb, Ha, Cb, Ca.
    destruct s; (rewrite set_index_ok by lia); eexists; (split; [done|]); (split; [split|]).
    1,4: by intros []; cbn; rewrite ?length_insert.
    1,3: by intros [].
    all: intros [] p'; unfold array_levels; cbn;
      rewrite ?level_of_insert, ?Z2Nat.id by lia; repeat case_decide; naive_solver.
  - exists b. split; [|split; [done|]].
    + destruct (decide (in_range U64 (ticks_to_raw p))); [|by rewrite checked_None].
      rewrite checked_Some by done. destruct (Z.leb_spec (Z.of_nat N) (ticks_to_raw p)); [done|].
      assert (array_dom N (ticks_to_raw p) = true) by (apply array_dom_spec; mlia). congruence.
    + intros s' p'. rewrite decide_False by naive_solver. done.
Qed.

Lemma array_clear_side_wf b s :
  array_wf b -> array_wf (array_clear_side b s)
  /\ forall s' p, array_levels (array_clear_side b s) s' p = if decide (s' = s) then 0 else array_levels b s' p.
Proof.
  intros [Hlen Hcache]. pose proof (Hlen Bid). pose proof (Hlen Ask).
  pose proof (Hcache Bid). pose proof (Hcache Ask). unfold array_levels.
  destruct s; (split; [split|]).
  1,4: intros []; cbn; by rewrite ?length_replicate.
  1,3: by intros [].
  all: intros [] p; cbn; rewrite ?level_of_replicate; by case_decide.
Qed.

Lemma array_clear_wf b : array_wf (array_clear b) /\ forall s p, array_levels (array_clear b) s p = 0.
Proof.
  split; [split|].
  - intros []; cbn; apply length_replicate.
  - by intros [].
  - intros [] p; apply level_of_replicate.
Qed.

Lemma array_best_bid_wf b :
  array_wf b -> exists b' r, array_best_bid b = Ret (b', r) /\ array_wf b'
    /\ (forall s p, array_levels b' s p = array_levels b s p) /\ is_best Bid (array_levels b Bid) r.
Proof.
  intros [Hlen Hcache]. pose proof (Hlen Bid) as Hb. cbn in Hb.
  destruct (cached_level_best Bid (bids b) Hb) as (r & Er & Hr). unfold array_best_bid.
  destruct (bid_dirty b) eqn:Ed; cbn [negb].
  - rewrite scan_best_find by (rewrite Hb; apply (side_order_bound Bid)). cbn [mbind outcome_bind].
    change (bid_order N) with (side_order Bid N). rewrite find_wrap_u16. cbn zeta. rewrite Er. cbn. eexists _, _. split; [done|]. split_and!; [|by intros []|done].
    split; [by intros []; [|apply (Hlen Ask)]|]. intros []; [done|]. apply (Hcache Ask).
  - pose proof (Hcache Bid Ed) as E. cbn [side_idx side_levels] in E. rewrite E, Er. cbn. eexists _, _. by split_and!.
Qed.

Lemma array_best_ask_wf b :
  array_wf b -> exists b' r, array_best_ask b = Ret (b', r) /\ array_wf b'
    /\ (forall s p, array_levels b' s p = array_levels b s p) /\ is_best Ask (array_levels b Ask) r.
Proof.
  intros [Hlen Hcache]. pose proof (Hlen Ask) as Hb. cbn in Hb.
  destruct (cached_level_best Ask (asks b) Hb) as (r & Er & Hr). unfold array_best_ask.
  destruct (ask_dirty b) eqn:Ed; cbn [negb].
  - rewrite scan_best_find by (rewrite Hb; apply (side_order_bound Ask)). cbn [mbind outcome_bind].
    change (ask_order N) with (side_order Ask N). rewrite find_wrap_u16. cbn zeta. rewrite Er. cbn. eexists _, _. split; [done|]. split_and!; [|by intros []|done].
    split; [by intros []; [apply (Hlen Bid)|]|]. intros []; [|done]. apply (Hcache Bid).
  - pose proof (Hcache Ask Ed) as E. cbn [side_idx side_levels] in E. rewrite E, Er. cbn. eexists _, _. by split_and!.
Qed.

#[export] Program Instance ArrayBook_laws : OrderBookLaws (ArrayBook N) := {
  ob_wf := array_wf;
  ob_dom := array_dom N;
  ob_levels := array_levels;
}.
Next Obligation. apply (array_clear_wf array_default). Qed.
Next Obligation. intros. apply (array_clear_wf array_default). Qed.
Next Obligation. intros p ?%array_dom_spec. pose proof book_size. mlia. Qed.
Next Obligation.
  intros b s p [Hlen _] Hd. apply level_of_out. rewrite Hlen.
  apply andb_false_iff in Hd. rewrite Z.leb_gt, Z.ltb_ge in Hd. lia.
Qed.
Next Obligation. intros. by apply array_apply_delta_wf. Qed.
Next Obligation. intros. by apply array_clear_side_wf. Qed.
Next Obligation. intros. apply array_clear_wf. Qed.
Next Obligation. intros. by apply array_best_bid_wf. Qed.
Next Obligation. intros. by apply array_best_ask_wf. Qed.
End array_book_laws.

(** * Sequences of operations *)

Inductive book_op :=
| OpDelta (p : Ticks) (q : Lots) (s : Side) (a : UpdateAction)
| OpClearSide (s : Side)
| OpClear
| OpBestBid
| OpBestAsk.

Definition op_ok (op : book_op) : Prop :=
  match op with OpDelta p _ _ _ => in_range I64 (ticks_to_raw p) | _ => True end.

(** The abstract effect of an operation; queries have none. *)
Definition spec_op (dom : Z -> bool) (lv : Side -> Z -> Z) (op : book_op) : Side -> Z -> Z :=
  match op with
  | OpDelta p q s _ => set_level dom lv s (ticks_to_raw p) (lots_to_raw q)
  | OpClearSide s => fun s' p => if decide (s' = s) then 0 else lv s' p
  | OpClear => fun _ _ => 0
  | OpBestBid | OpBestAsk => lv
  end.

Definition spec_run (dom : Z -> bool) (ops : list book_op) : Side -> Z -> Z :=
  foldl (spec_op dom) (fun _ _ => 0) ops.

Section operations.
Context {B} `{OrderBookLaws B}.

Definition run_op (b : B) (op : book_op) : outcome B :=
  match op with
  | OpDelta p q s a => apply_delta b p q s a
  | OpClearSide s => Ret (clear_side b s)
  | OpClear => Ret (ob_clear b)
  | OpBestBid => fst <$> best_bid b
  | OpBestAsk => fst <$> best_ask b
  end.

Fixpoint run_ops (b : B) (ops : list book_op) : outcome B :=
  match ops with [] => Ret b | op :: ops => b' ← run_op b op; run_ops b' ops end.

Lemma run_op_spec b lv op :
  ob_wf b -> (forall s p, ob_levels b s p = lv s p) -> op_ok op ->
  exists b', run_op b op = Ret b' /\ ob_wf b' /\ forall s p, ob_levels b' s p = spec_op ob_dom lv op s p.
Proof.
  intros Hwf Hlv Hok. destruct op as [p q s a|s| | |]; cbn in *.
  - destruct (apply_delta_law b p q s a Hwf Hok) as (b' & -> & ? & Hb'). exists b'. split_and!; [done..|].
    intros s' p'. rewrite Hb'. unfold set_level. case_decide; [done|apply Hlv].
  - destruct (clear_side_law b s Hwf) as [? Hb']. eexists. split_and!; [done..|].
    intros s' p'. rewrite Hb'. case_decide; [done|apply Hlv].
  - destruct (ob_clear_law b Hwf). by eexists.
  - destruct (best_bid_law b Hwf) as (b' & r & -> & ? & Hb' & _). exists b'. split_and!; [done..|].
    intros. by rewrite Hb'.
  - destruct (best_ask_law b Hwf) as (b' & r & -> & ? & Hb' & _). exists b'. split_and!; [done..|].
    intros. by rewrite Hb'.
Qed.

Lemma run_ops_spec ops b lv :
  ob_wf b -> (forall s p, ob_levels b s p = lv s p) -> Forall op_ok ops ->
  exists b', run_ops b ops = Ret b' /\ ob_wf b'
    /\ forall s p, ob_levels b' s p = foldl (spec_op ob_dom) lv ops s p.
Proof.
  revert b lv. induction ops as [|op ops IH]; intros b lv Hwf Hlv Hok; cbn; [by eexists|].
  inversion Hok; subst. destruct (run_op_spec b lv op) as (b' & -> & Hwf' & Hlv'); [done..|].
  cbn. by apply IH.
Qed.
End operations.

(** The best level depends on the level function only pointwise. *)
Lemma is_best_ext s lv lv' r : (forall p, lv p = lv' p) -> is_best s lv r -> is_best s lv' r.
Proof. destruct r as [[p q]|]; cbn; intros E; setoid_rewrite <- E; done. Qed.

(** C10: an [ArrayBook<N>] with [N <= 65536] refines a map from price to
    quantity.  After any sequence of level updates, clears and (cache
    refreshing) queries from the default book, no operation panics, the best
    bid is the highest price whose last written quantity is positive and the
    best ask the lowest, each with that quantity, and [None] exactly when the
    side has no positive level; updates outside [0, N) are ignored. *)
Theorem array_book_refines_levels `{BuildProfile} (N : nat) (ops : list book_op) :
  Z.of_nat N <= 65536 -> Forall op_ok ops ->
  exists b, run_ops (ob_default : ArrayBook N) ops = Ret b
    /\ (exists b' r, best_bid b = Ret (b', r) /\ is_best Bid (spec_run (array_dom N) ops Bid) r)
    /\ (exists b' r, best_ask b = Ret (b', r) /\ is_best Ask (spec_run (array_dom N) ops Ask) r).
Proof.
  intros HN Hok. assert (BookSize N) by done.
  destruct (run_ops_spec (B := ArrayBook N) ops ob_default (fun _ _ => 0)) as (b & Eb & Hwf & Hlv);
    [apply ob_default_wf|apply ob_default_levels|done|].
  exists b. split_and!; [done| |].
  - destruct (best_bid_law b Hwf) as (b' & r & ? & _ & _ & Hr). exists b', r. split; [done|].
    eapply is_best_ext, Hr. intros p. apply Hlv.
  - destruct (best_ask_law b Hwf) as (b' & r & ? & _ & _ & Hr). exists b', r. split; [done|].
    eapply is_best_ext, Hr. intros p. apply Hlv.
Qed.

(** * Depth queries *)

(** The live levels of one side, best first. *)
Definition live_list (l : list Lots) (idxs : list nat) : list (Ticks * Lots) :=
  omap (fun i => q ← l !! i; if is_live q then Some (ticks_from_raw (Z.of_nat i), q) else None) idxs.

Definition live_levels {N} (b : ArrayBook N) (s : Side) : list (Ticks * Lots) :=
  live_list (side_levels b s) (side_order s N).

Definition qty_sum (ls : list (Ticks * Lots)) : Z := foldr (fun l a => lots_to_raw l.2 + a) 0 ls.

Lemma live_list_cons l i idxs :
  (i < length l)%nat -> exists q, l !! i = Some q /\ live_list l (i :: idxs)
    = (if is_live q then [(ticks_from_raw (Z.of_nat i), q)] else []) ++ live_list l idxs.
Proof.
  intros [q Eq]%lookup_lt_is_Some_2. exists q. split; [done|]. cbn. rewrite Eq. cbn.
  by destruct (is_live q).
Qed.

Lemma live_list_pos l idxs : Forall (fun e => 0 < lots_to_raw e.2) (live_list l idxs).
Proof.
  apply Forall_forall. intros [p q] (i & _ & E)%list_elem_of_omap.
  destruct (l !! i) as [q'|]; [|done]. cbn in E. unfold is_live in E.
  destruct (Z.ltb_spec 0 (lots_to_raw q')); naive_solver.
Qed.

Lemma qty_sum_take_nonneg ls n : Forall (fun e => 0 < lots_to_raw e.2) ls -> 0 <= qty_sum (take n ls).
Proof.
  intros Hpos. unfold qty_sum. revert n. induction Hpos as [|e ls He _ IH]; intros [|n]; cbn; try lia.
  specialize (IH n). lia.
Qed.

Section depth_lemmas.
Context `{BuildProfile} (l : list Lots).
Implicit Types (idxs : list nat) (buf : list (Ticks * Lots)).

Lemma depth_loop_spec idxs count buf :
  Forall (fun i => (i < length l)%nat) idxs -> Z.of_nat (length l) <= 65536 -> (count <= length buf)%nat ->
  depth_loop l idxs count buf
  = let L := take (length buf - count) (live_list l idxs) in
    Ret ((count + length L)%nat, take count buf ++ L ++ drop (count + length L) buf).
Proof.
  intros Hi Hl. revert count buf. induction Hi as [|i idxs Hi Hidx IH]; intros count buf Hc; cbn zeta.
  - cbn [live_list omap list_omap depth_loop]. rewrite take_nil. cbn [length app].
    by rewrite Nat.add_0_r, take_drop.
  - cbn [depth_loop]. case_decide as Hfull.
    + replace (length buf - count)%nat with 0%nat by lia. rewrite take_0. cbn [length app]. by rewrite Nat.add_0_r, take_drop.
    + destruct (live_list_cons l i idxs Hi) as (q & Eq & ->). rewrite (index_ok _ _ _ Eq).
      cbn [mbind outcome_bind]. destruct (is_live q); cbn [app]; [|by apply IH].
      unfold idx_to_ticks. rewrite checked_Some by mlia. cbn [fmap option_fmap option_map].
      rewrite set_index_ok by lia. cbn [mbind outcome_bind].
      rewrite IH by (rewrite length_insert; lia). cbn zeta. rewrite length_insert.
      replace (length buf - count)%nat with (S (length buf - S count)) by lia. cbn [take length app].
      set (L := take _ (live_list l idxs)). replace (count + S (length L))%nat with (S count + length L)%nat by lia.
      f_equal. f_equal.
      rewrite (take_S_r _ _ (ticks_from_raw (Z.of_nat i), q)) by (apply list_lookup_insert_eq; lia).
      rewrite take_insert_ge, drop_insert_lt, <- app_assoc by lia. done.
Qed.

(** Live quantities are positive, so the running total stays below the final
    one and no addition overflows. *)
Lemma total_loop_spec idxs limit count total :
  Forall (fun i => (i < length l)%nat) idxs -> 0 <= lots_to_raw total ->
  in_range I64 (lots_to_raw total + qty_sum (take (limit - count) (live_list l idxs))) ->
  total_loop l idxs limit count total
  = Ret (lots_from_raw (lots_to_raw total + qty_sum (take (limit - count) (live_list l idxs)))).
Proof.
  intros Hi. revert count total. induction Hi as [|i idxs Hi Hidx IH]; intros count total Ht Hr.
  - cbn. rewrite take_nil. cbn. rewrite Z.add_0_r. by destruct total.
  - cbn [total_loop]. case_decide as Hfull.
    + replace (limit - count)%nat with 0%nat by lia. cbn. rewrite Z.add_0_r. by destruct total.
    + destruct (live_list_cons l i idxs Hi) as (q & Eq & EL). rewrite EL in *. rewrite (index_ok _ _ _ Eq).
      cbn [mbind outcome_bind]. destruct (is_live q) eqn:Elive; cbn [app] in *; [|by apply IH].
      replace (limit - count)%nat with (S (limit - S count)) in * by lia. cbn [take] in *.
      apply Z.ltb_lt in Elive.
      pose proof (qty_sum_take_nonneg (live_list l idxs) (limit - S count) (live_list_pos l idxs)).
      unfold qty_sum in *. cbn [foldr snd] in *. unfold lots_add. rewrite arith_ok by mlia.
      cbn [mbind outcome_bind fmap outcome_fmap]. rewrite IH; cbn [lots_to_raw]; [|mlia|mlia].
      do 2 f_equal. lia.
Qed.

Lemma live_list_length s : length (live_list l (side_order s (length l))) = length (filter is_live l).
Proof.
  assert (live_list l (side_order s (length l)) ≡ₚ live_list l (seq 0 (length l))) as ->.
  { apply omap_Permutation. destruct s; [symmetry; apply Permutation_rev|done]. }
  unfold live_list. induction l as [|q l' IH] using rev_ind; [done|].
  rewrite length_app, Nat.add_1_r, seq_S, omap_app, filter_app, !length_app. f_equal.
  - rewrite <- IH. f_equal. apply list_omap_ext. apply Forall_Forall2_diag, List.Forall_forall.
    intros i [_ Hi]%in_seq. by rewrite lookup_app_l by lia.
  - cbn. rewrite lookup_app_r, Nat.sub_diag by lia. cbn.
    by destruct (is_live q).
Qed.
End depth_lemmas.

(** The depth queries of a well-formed [ArrayBook].  [depth] writes the
    best [min(buf.len(), level_count)] live levels to the front of the buffer,
    best first, and leaves the rest of it untouched; [level_count] is the
    number of live levels; [total_depth] is the sum of the best [levels] live
    quantities whenever that sum fits an [i64]. *)
Theorem array_depth_queries `{BuildProfile} {N : nat} (b : ArrayBook N) (s : Side)
    (buf : list (Ticks * Lots)) (levels : nat) :
  Z.of_nat N <= 65536 -> array_wf b ->
  (let L := take (length buf) (live_levels b s) in
   ob_depth b s buf = Ret (length L, L ++ drop (length L) buf))
  /\ level_count b s = length (live_levels b s)
  /\ (in_range I64 (qty_sum (take levels (live_levels b s))) ->
      total_depth b s levels = Ret (lots_from_raw (qty_sum (take levels (live_levels b s))))).
Proof.
  intros HN [Hlen _].
  assert (Forall (fun i => (i < length (side_levels b s))%nat) (side_order s N)) as Hidx
    by (rewrite Hlen; apply side_order_bound).
  split_and!.
  - cbn zeta. transitivity (depth_loop (side_levels b s) (side_order s N) 0 buf); [by destruct s|].
    rewrite depth_loop_spec; [|done|rewrite Hlen; lia|lia]. cbn zeta. by rewrite Nat.sub_0_r.
  - transitivity (length (filter is_live (side_levels b s))); [by destruct s|].
    rewrite <- (live_list_length _ s), Hlen. done.
  - intros Hr. transitivity (total_loop (side_levels b s) (side_order s N) levels 0 lots_ZERO); [by destruct s|].
    rewrite total_loop_spec; rewrite ?Nat.sub_0_r; done.
Qed.

Lemma array_book_refines_witness :
  let ops := [OpDelta (ticks_from_raw 2) (lots_from_raw 5) Bid ActNew; OpBestBid;
              OpDelta (ticks_from_raw 3) (lots_from_raw 7) Bid ActNew;
              OpDelta (ticks_from_raw 9) (lots_from_raw 7) Bid ActNew;
              OpDelta (ticks_from_raw 3) (lots_from_raw 0) Bid ActDelete] in
  exists b, run_ops (H := @ArrayBook_book debug_profile 5) (@ob_default _ (@ArrayBook_book debug_profile 5)) ops = Ret b
    /\ (exists b' r, @best_bid _ (@ArrayBook_book debug_profile 5) b = Ret (b', r)
         /\ is_best Bid (spec_run (array_dom 5) ops Bid) r)
    /\ (exists b' r, @best_ask _ (@ArrayBook_book debug_profile 5) b = Ret (b', r)
         /\ is_best Ask (spec_run (array_dom 5) ops Ask) r).
Proof.
  apply (@array_book_refines_levels debug_profile 5); [lia|]. by repeat constructor.
Defined.

Definition sample_book : ArrayBook 3 :=
  {| bids := [lots_from_raw 4; lots_from_raw 0; lots_from_raw 7]; asks := replicate 3 lots_ZERO;
     best_bid_idx := None; best_ask_idx := None; bid_dirty := true; ask_dirty := true |}.

Lemma array_depth_queries_witness :
  (@ob_depth _ (@ArrayBook_book debug_profile 3) sample_book Bid [(ticks_ZERO, lots_ZERO)]
    = Ret (1%nat, [(ticks_from_raw 2, lots_from_raw 7)]))
  /\ @level_count _ (@ArrayBook_book debug_profile 3) sample_book Bid = 2%nat
  /\ (in_range I64 11 ->
      @total_depth _ (@ArrayBook_book debug_profile 3) sample_book Bid 2 = Ret (lots_from_raw 11)).
Proof.
  exact (@array_depth_queries debug_profile 3 sample_book Bid [(ticks_ZERO, lots_ZERO)] 2
           ltac:(lia) ltac:(split; by intros [])).
Defined.
