(* ===== verification/MarketEngine.v ===== *)
(** * Market-state engine ([crates/market-state]: state.rs, engine.rs)

    The passive state machine that turns a stream of hot events into one order
    book per instrument and reports changes of the best bid and ask.  It is
    generic in the book, so everything here is proved against the
    [OrderBookLaws] interface. *)

From stdpp Require Import base decidable list sorting numbers option tactics sets.
From Stdlib Require Import ZArith Lia.
From Stdlib.Floats Require Import SpecFloat.
From S2P Require Import Prelude Float64 Types Events Book.

#[local] Open Scope Z_scope.

(** ** state.rs *)

Record TradeInfo := { ti_price : Ticks; ti_qty : Lots; ti_side : Side; ti_ts : Timestamp }.

Record InstrumentState (B : Type) := {
  is_book : B;
  prev_bid : option Ticks;
  prev_ask : option Ticks;
  is_last_trade : option TradeInfo;
  last_event_ts : Timestamp;
  is_seq : SeqNum;
  snapshot_received : bool;
  in_snapshot : bool;
}.
Arguments is_book {B} _.
Arguments prev_bid {B} _.
Arguments prev_ask {B} _.
Arguments is_last_trade {B} _.
Arguments last_event_ts {B} _.
Arguments is_seq {B} _.
Arguments snapshot_received {B} _.
Arguments in_snapshot {B} _.

Record TopOfBook := {
  tob_bid_price : Ticks;
  tob_bid_qty : Lots;
  tob_ask_price : Ticks;
  tob_ask_qty : Lots;
  tob_micro_price : Ticks;
  tob_spread : Ticks;
  tob_instrument_id : InstrumentId;
  tob_ts : Timestamp;
}.

(** ** engine.rs *)

(** [MAX] is the length of [instruments]. *)
Record MarketStateEngine (B : Type) := {
  instruments : list (InstrumentState B);
  active_count : nat;
  stale_timeout_ns : Z;
  tob_changed : bool;
  last_tob : option TopOfBook;
}.
Arguments instruments {B} _.
Arguments active_count {B} _.
Arguments stale_timeout_ns {B} _.
Arguments tob_changed {B} _.
Arguments last_tob {B} _.

Section engine.
Context `{BuildProfile} {B} `{!OrderBook B}.
Implicit Types (eng : MarketStateEngine B) (st : InstrumentState B).

Definition instrument_default : InstrumentState B :=
  {| is_book := ob_default; prev_bid := None; prev_ask := None; is_last_trade := None;
     last_event_ts := from_nanos 0; is_seq := seqnum_ZERO;
     snapshot_received := false; in_snapshot := false |}.

Definition engine_new (MAX count : nat) (stale : Z) : outcome (MarketStateEngine B) :=
  if decide (count <= MAX)%nat then
    Ret {| instruments := replicate MAX instrument_default; active_count := count;
           stale_timeout_ns := stale; tob_changed := false; last_tob := None |}
  else Panic.

(** [let raw = inst.to_raw() as usize; if raw == 0 || raw > active_count]:
    the slot of a valid instrument. *)
Definition slot_of eng (inst : InstrumentId) : option nat :=
  let raw := Z.to_nat (inst_to_raw inst) in
  if decide (raw = 0 \/ active_count eng < raw)%nat then None else Some (raw - 1)%nat.

Definition set_instrument eng (slot : nat) st : outcome (MarketStateEngine B) :=
  insts ← set_index (instruments eng) slot st;
  Ret {| instruments := insts; active_count := active_count eng;
         stale_timeout_ns := stale_timeout_ns eng; tob_changed := tob_changed eng;
         last_tob := last_tob eng |}.

(** [i64::midpoint], which rounds toward zero and does not overflow. *)
Definition i64_midpoint (a b : Z) : Z := Z.quot (a + b) 2.

(** [(bp * aq + ap * bq) / total], with the [i64] operators. *)
Definition weighted_price (bp bq ap aq total : Z) : outcome Z :=
  x ← arith I64 (bp * aq);
  y ← arith I64 (ap * bq);
  s ← arith I64 (x + y);
  div_op I64 s total.

(** The price observations and the [TopOfBook] of one instrument's state; the
    [slot] only names the instrument. *)
Definition check_bbo_state st (slot : nat) : outcome (InstrumentState B * option TopOfBook) :=
  '(book1, bid) ← best_bid (is_book st);
  '(book2, ask) ← best_ask book1;
  let bid_price := fst <$> bid in
  let ask_price := fst <$> ask in
  let keep pb pa :=
    {| is_book := book2; prev_bid := pb; prev_ask := pa; is_last_trade := is_last_trade st;
       last_event_ts := last_event_ts st; is_seq := is_seq st;
       snapshot_received := snapshot_received st; in_snapshot := in_snapshot st |} in
  if decide (bid_price = prev_bid st /\ ask_price = prev_ask st) then
    Ret (keep (prev_bid st) (prev_ask st), None)
  else
    match bid, ask with
    | Some (bp, bq), Some (ap, aq) =>
        total ← arith I64 (lots_to_raw bq + lots_to_raw aq);
        micro ← (if 0 <? total then
                   weighted_price (ticks_to_raw bp) (lots_to_raw bq) (ticks_to_raw ap) (lots_to_raw aq) total
                 else Ret (i64_midpoint (ticks_to_raw bp) (ticks_to_raw ap)));
        spread ← arith I64 (ticks_to_raw ap - ticks_to_raw bp);
        Ret (keep bid_price ask_price,
             Some {| tob_bid_price := bp; tob_bid_qty := bq; tob_ask_price := ap; tob_ask_qty := aq;
                     tob_micro_price := ticks_from_raw micro; tob_spread := ticks_from_raw spread;
                     tob_instrument_id := inst_from_raw (wrap U32 (Z.of_nat slot + 1));
                     tob_ts := last_event_ts st |})
    | _, _ => Ret (keep bid_price ask_price, None)
    end.

Definition check_bbo_price_change eng (slot : nat) : outcome (MarketStateEngine B * option TopOfBook) :=
  st ← index (instruments eng) slot;
  '(st', r) ← check_bbo_state st slot;
  eng' ← set_instrument eng slot st';
  Ret (eng', r).

(** [if let Some(tob) = self.check_bbo_price_change(slot) { ... }]. *)
Definition emit_if_changed eng (slot : nat) : outcome (MarketStateEngine B) :=
  '(eng', r) ← check_bbo_price_change eng slot;
  match r with
  | None => Ret eng'
  | Some tob =>
      Ret {| instruments := instruments eng'; active_count := active_count eng';
             stale_timeout_ns := stale_timeout_ns eng'; tob_changed := true; last_tob := Some tob |}
  end.

(** The [BookDelta] arm up to the top-of-book check: the new instrument state. *)
Definition delta_state st (h : EventHeader) (d : BookDeltaPayload) : outcome (InstrumentState B) :=
  let snap := flags_contains (hdr_flags h) IS_SNAPSHOT in
  let book0 := if snap then ob_clear (is_book st) else is_book st in
  book1 ← apply_delta book0 (bd_price d) (bd_qty d) (bd_side d) (bd_action d);
  let in0 := if snap then true else in_snapshot st in
  let rec0 := if snap then false else snapshot_received st in
  let finish := flags_contains (hdr_flags h) LAST_IN_BATCH && in0 in
  Ret {| is_book := book1; prev_bid := prev_bid st; prev_ask := prev_ask st;
         is_last_trade := is_last_trade st; last_event_ts := recv_ts h; is_seq := hdr_seq h;
         snapshot_received := if finish then true else rec0;
         in_snapshot := if finish then false else in0 |}.

(** The [TopOfBook] arm up to the top-of-book check. *)
Definition tob_state st (h : EventHeader) (t : TopOfBookPayload) : outcome (InstrumentState B) :=
  book1 ← apply_delta (ob_clear (is_book st)) (tp_bid_price t) (tp_bid_qty t) Bid ActNew;
  book2 ← apply_delta book1 (tp_ask_price t) (tp_ask_qty t) Ask ActNew;
  Ret {| is_book := book2; prev_bid := prev_bid st; prev_ask := prev_ask st;
         is_last_trade := is_last_trade st; last_event_ts := recv_ts h; is_seq := is_seq st;
         snapshot_received := true; in_snapshot := in_snapshot st |}.

Definition trade_state st (h : EventHeader) (t : TradePayload) : InstrumentState B :=
  {| is_book := is_book st; prev_bid := prev_bid st; prev_ask := prev_ask st;
     is_last_trade := Some {| ti_price := tr_price t; ti_qty := tr_qty t; ti_side := tr_aggressor t;
                              ti_ts := recv_ts h |};
     last_event_ts := recv_ts h; is_seq := is_seq st;
     snapshot_received := snapshot_received st; in_snapshot := in_snapshot st |}.

Definition process eng (event : HotEvent) : outcome (MarketStateEngine B) :=
  let h := ev_header event in
  match ev_body event with
  | BookDelta d =>
      match slot_of eng (hdr_instrument_id h) with
      | None => Ret eng
      | Some slot =>
          st ← index (instruments eng) slot;
          st' ← delta_state st h d;
          eng' ← set_instrument eng slot st';
          if flags_contains (hdr_flags h) LAST_IN_BATCH && snapshot_received st'
          then emit_if_changed eng' slot else Ret eng'
      end
  | Trade t =>
      match slot_of eng (hdr_instrument_id h) with
      | None => Ret eng
      | Some slot =>
          st ← index (instruments eng) slot;
          set_instrument eng slot (trade_state st h t)
      end
  | TopOfBookEv t =>
      match slot_of eng (hdr_instrument_id h) with
      | None => Ret eng
      | Some slot =>
          st ← index (instruments eng) slot;
          st' ← tob_state st h t;
          eng' ← set_instrument eng slot st';
          emit_if_changed eng' slot
      end
  | _ => Ret eng
  end.

(** ** Queries *)

(** The best levels of an instrument, through the refreshing [best_*] calls. *)
Definition micro_price eng (inst : InstrumentId) : outcome (MarketStateEngine B * option Ticks) :=
  match slot_of eng inst with
  | None => Ret (eng, None)
  | Some slot =>
      st ← index (instruments eng) slot;
      let with_book b :=
        {| is_book := b; prev_bid := prev_bid st; prev_ask := prev_ask st;
           is_last_trade := is_last_trade st; last_event_ts := last_event_ts st; is_seq := is_seq st;
           snapshot_received := snapshot_received st; in_snapshot := in_snapshot st |} in
      '(book1, bid) ← best_bid (is_book st);
      match bid with
      | None => eng' ← set_instrument eng slot (with_book book1); Ret (eng', None)
      | Some (bp, bq) =>
          '(book2, ask) ← best_ask book1;
          eng' ← set_instrument eng slot (with_book book2);
          match ask with
          | None => Ret (eng', None)
          | Some (ap, aq) =>
              total ← arith I64 (lots_to_raw bq + lots_to_raw aq);
              if total =? 0 then Ret (eng', None)
              else
                m ← weighted_price (ticks_to_raw bp) (lots_to_raw bq) (ticks_to_raw ap) (lots_to_raw aq) total;
                Ret (eng', Some (ticks_from_raw m))
          end
      end
  end.

Definition engine_spread eng (inst : InstrumentId) : outcome (MarketStateEngine B * option Ticks) :=
  match slot_of eng inst with
  | None => Ret (eng, None)
  | Some slot =>
      st ← index (instruments eng) slot;
      let with_book b :=
        {| is_book := b; prev_bid := prev_bid st; prev_ask := prev_ask st;
           is_last_trade := is_last_trade st; last_event_ts := last_event_ts st; is_seq := is_seq st;
           snapshot_received := snapshot_received st; in_snapshot := in_snapshot st |} in
      '(book1, bid) ← best_bid (is_book st);
      match bid with
      | None => eng' ← set_instrument eng slot (with_book book1); Ret (eng', None)
      | Some (bp, _) =>
          '(book2, ask) ← best_ask book1;
          eng' ← set_instrument eng slot (with_book book2);
          match ask with
          | None => Ret (eng', None)
          | Some (ap, _) =>
              s ← arith I64 (ticks_to_raw ap - ticks_to_raw bp);
              Ret (eng', Some (ticks_from_raw s))
          end
      end
  end.

Definition book_imbalance eng (inst : InstrumentId) (levels : nat) : outcome (option spec_float) :=
  match slot_of eng inst with
  | None => Ret None
  | Some slot =>
      st ← index (instruments eng) slot;
      bd ← total_depth (is_book st) Bid levels;
      ad ← total_depth (is_book st) Ask levels;
      let bd := f64_of_Z (lots_to_raw bd) in
      let ad := f64_of_Z (lots_to_raw ad) in
      if f64_eq (f64_add bd ad) (S754_zero false) then Ret None
      else Ret (Some (f64_div (f64_sub bd ad) (f64_add bd ad)))
  end.

Definition engine_last_trade eng (inst : InstrumentId) : outcome (option TradeInfo) :=
  match slot_of eng inst with
  | None => Ret None
  | Some slot => is_last_trade <$> index (instruments eng) slot
  end.

Definition is_stale eng (inst : InstrumentId) (now : Timestamp) : outcome bool :=
  match slot_of eng inst with
  | None => Ret true
  | Some slot =>
      st ← index (instruments eng) slot;
      let last := as_nanos (last_event_ts st) in
      if last =? 0 then Ret true
      else Ret (stale_timeout_ns eng <? saturate U64 (as_nanos now - last))
  end.

Definition is_ready eng (inst : InstrumentId) : outcome bool :=
  match slot_of eng inst with
  | None => Ret false
  | Some slot => snapshot_received <$> index (instruments eng) slot
  end.

Definition engine_book eng (inst : InstrumentId) : outcome (option B) :=
  match slot_of eng inst with
  | None => Ret None
  | Some slot => (fun st => Some (is_book st)) <$> index (instruments eng) slot
  end.

Definition take_tob eng : MarketStateEngine B * option TopOfBook :=
  if tob_changed eng then
    ({| instruments := instruments eng; active_count := active_count eng;
        stale_timeout_ns := stale_timeout_ns eng; tob_changed := false; last_tob := last_tob eng |},
     last_tob eng)
  else (eng, None).

Fixpoint process_all eng (events : list HotEvent) : outcome (MarketStateEngine B) :=
  match events with [] => Ret eng | e :: events => eng' ← process eng e; process_all eng' events end.
End engine.

(** * The abstract instrument *)

(** One instrument as its events determine it: the price levels, the snapshot
    machine and the last reported best prices. *)
Record abs_inst := {
  a_levels : Side -> Z -> Z;
  a_received : bool;
  a_in_snapshot : bool;
}.

Definition abs_init : abs_inst :=
  {| a_levels := fun _ _ => 0; a_received := false; a_in_snapshot := false |}.

(** The effect of an event addressed to the instrument. *)
Definition abs_process (dom : Z -> bool) (a : abs_inst) (e : HotEvent) : abs_inst :=
  let snap := flags_contains (hdr_flags (ev_header e)) IS_SNAPSHOT in
  let fin := flags_contains (hdr_flags (ev_header e)) LAST_IN_BATCH in
  match ev_body e with
  | BookDelta d =>
      let base := if snap then abs_init else a in
      {| a_levels := set_level dom (a_levels base) (bd_side d) (ticks_to_raw (bd_price d)) (lots_to_raw (bd_qty d));
         a_received := (fin && (snap || a_in_snapshot a)) || a_received base;
         a_in_snapshot := negb fin && (snap || a_in_snapshot a) |}
  | TopOfBookEv t =>
      {| a_levels :=
           set_level dom
             (set_level dom (fun _ _ => 0) Bid (ticks_to_raw (tp_bid_price t)) (lots_to_raw (tp_bid_qty t)))
             Ask (ticks_to_raw (tp_ask_price t)) (lots_to_raw (tp_ask_qty t));
         a_received := true;
         a_in_snapshot := a_in_snapshot a |}
  | _ => a
  end.

Definition addressed (id : Z) (e : HotEvent) : bool := inst_to_raw (hdr_instrument_id (ev_header e)) =? id.

(** The abstract instrument after a stream: only its own events matter. *)
Definition abs_run (dom : Z -> bool) (id : Z) (events : list HotEvent) : abs_inst :=
  foldl (fun a e => if addressed id e then abs_process dom a e else a) abs_init events.

(** * Well-formed states *)

(** Quantities up to [2^46] lots and prices below [2^16] ticks keep the [i64]
    products of the micro price in range. *)
Definition max_qty : Z := 2 ^ 46.

Class SmallPrices (B : Type) `{OrderBookLaws B} :=
  small_price p : ob_dom p = true -> 0 <= p < 65536.

#[export] Instance array_small_prices `{BuildProfile} {N} `{!BookSize N} : SmallPrices (ArrayBook N).
Proof. intros p Hp%array_dom_spec. pose proof (book_size (N := N)). lia. Qed.

Section engine_lemmas.
Context `{BuildProfile} {B} `{!OrderBook B} `{!OrderBookLaws B} `{!SmallPrices B}.
Implicit Types (eng : MarketStateEngine B) (st : InstrumentState B).

Definition inst_wf st : Prop :=
  ob_wf (is_book st) /\ forall s p, ob_levels (is_book st) s p <= max_qty.

Definition engine_wf eng : Prop :=
  (active_count eng <= length (instruments eng))%nat
  /\ Z.of_nat (active_count eng) <= tmax U32 /\ Forall inst_wf (instruments eng).

Definition level_ok (p : Ticks) (q : Lots) : Prop :=
  in_range I64 (ticks_to_raw p) /\ lots_to_raw q <= max_qty.

Definition event_ok (e : HotEvent) : Prop :=
  in_range U32 (inst_to_raw (hdr_instrument_id (ev_header e))) /\
  match ev_body e with
  | BookDelta d => level_ok (bd_price d) (bd_qty d)
  | TopOfBookEv t => level_ok (tp_bid_price t) (tp_bid_qty t) /\ level_ok (tp_ask_price t) (tp_ask_qty t)
  | _ => True
  end.

(** Same book contents and snapshot flags. *)
Definition inst_rel st (a : abs_inst) : Prop :=
  (forall s p, ob_levels (is_book st) s p = a_levels a s p)
  /\ snapshot_received st = a_received a /\ in_snapshot st = a_in_snapshot a.

(** A best level of a well-formed book is a storable price with a bounded
    positive quantity. *)
Lemma best_bounds s st p q :
  inst_wf st -> is_best s (ob_levels (is_book st) s) (Some (p, q)) ->
  0 <= ticks_to_raw p < 65536 /\ 0 < lots_to_raw q <= max_qty.
Proof.
  intros [Hwf Hq] (Hpos & Hlv & _). rewrite <- Hlv. split; [|split; [lia|apply Hq]].
  apply small_price. destruct (ob_dom (ticks_to_raw p)) eqn:E; [done|].
  rewrite (ob_levels_dom _ s _ Hwf E) in Hlv. lia.
Qed.

(** The micro price of bounded levels: no overflow, and between the prices. *)
Lemma weighted_price_between bp bq ap aq :
  0 <= bp < 65536 -> 0 <= ap < 65536 -> 0 < bq <= max_qty -> 0 < aq <= max_qty ->
  exists m, weighted_price bp bq ap aq (bq + aq) = Ret m
    /\ m = (bp * aq + ap * bq) / (bq + aq) /\ Z.min bp ap <= m <= Z.max bp ap.
Proof.
  unfold max_qty, weighted_price. intros. change (2 ^ 46) with 70368744177664 in *.
  assert (0 <= bp * aq <= 65535 * 70368744177664) by nia.
  assert (0 <= ap * bq <= 65535 * 70368744177664) by nia.
  rewrite (arith_ok I64 (bp * aq)) by mlia. cbn [mbind outcome_bind].
  rewrite (arith_ok I64 (ap * bq)) by mlia. cbn [mbind outcome_bind].
  rewrite arith_ok by mlia. cbn [mbind outcome_bind].
  assert (Z.min bp ap <= (bp * aq + ap * bq) / (bq + aq) <= Z.max bp ap) as Hm.
  { split; [apply Z.div_le_lower_bound; nia|apply Z.div_le_upper_bound; nia]. }
  exists ((bp * aq + ap * bq) / (bq + aq)). split_and!; [|done|lia..].
  rewrite <- Z.quot_div_nonneg in * by lia. apply div_op_ok; [lia|mlia].
Qed.

(** What [check_bbo_state] reports, given the best levels [bid] and [ask]. *)
Definition report_spec st (slot : nat) (bid ask : option (Ticks * Lots)) (r : option TopOfBook) : Prop :=
  match r with
  | None => (fst <$> bid = prev_bid st /\ fst <$> ask = prev_ask st) \/ bid = None \/ ask = None
  | Some t =>
      ~ (fst <$> bid = prev_bid st /\ fst <$> ask = prev_ask st)
      /\ bid = Some (tob_bid_price t, tob_bid_qty t) /\ ask = Some (tob_ask_price t, tob_ask_qty t)
      /\ ticks_to_raw (tob_micro_price t)
         = (ticks_to_raw (tob_bid_price t) * lots_to_raw (tob_ask_qty t)
            + ticks_to_raw (tob_ask_price t) * lots_to_raw (tob_bid_qty t))
           / (lots_to_raw (tob_bid_qty t) + lots_to_raw (tob_ask_qty t))
      /\ ticks_to_raw (tob_spread t) = ticks_to_raw (tob_ask_price t) - ticks_to_raw (tob_bid_price t)
      /\ tob_instrument_id t = inst_from_raw (Z.of_nat slot + 1) /\ tob_ts t = last_event_ts st
  end.

Definition observed st st' (slot : nat) (r : option TopOfBook) : Prop :=
  exists bid ask,
    is_best Bid (ob_levels (is_book st) Bid) bid /\ is_best Ask (ob_levels (is_book st) Ask) ask
    /\ prev_bid st' = fst <$> bid /\ prev_ask st' = fst <$> ask /\ report_spec st slot bid ask r.

Lemma check_bbo_state_spec st slot :
  inst_wf st -> Z.of_nat slot < tmax U32 ->
  exists st' r, check_bbo_state st slot = Ret (st', r) /\ inst_wf st'
    /\ (forall a, inst_rel st a -> inst_rel st' a) /\ observed st st' slot r.
Proof.
  intros Hwf Hslot. pose proof Hwf as [Hb Hq].
  destruct (best_bid_law _ Hb) as (b1 & bid & E1 & Hb1 & L1 & Hbid).
  destruct (best_ask_law _ Hb1) as (b2 & ask & E2 & Hb2 & L2 & Hask).
  apply (is_best_ext Ask _ (ob_levels (is_book st) Ask)) in Hask; [|intros; apply L1].
  unfold check_bbo_state. rewrite E1. cbn [mbind outcome_bind]. rewrite E2. cbn [mbind outcome_bind].
  assert (forall st', is_book st' = b2 -> snapshot_received st' = snapshot_received st ->
    in_snapshot st' = in_snapshot st -> inst_wf st' /\ forall a, inst_rel st a -> inst_rel st' a) as Hkeep.
  { intros st' Eb Er Ei. unfold inst_wf, inst_rel. rewrite Eb, Er, Ei. setoid_rewrite L2. setoid_rewrite L1. done. }
  unfold observed, report_spec. case_decide as Hprev.
  { destruct Hprev as [<- <-]. eexists _, None. split; [done|]. split_and!; [by apply Hkeep..|].
    exists bid, ask. cbn. naive_solver. }
  destruct bid as [[bp bq]|], ask as [[ap aq]|].
  2-4: eexists _, None; (split; [done|]); (split_and!; [by apply Hkeep..|]);
    eexists _, _; (split; [exact Hbid|]); (split; [exact Hask|]); cbn; naive_solver.
  destruct (best_bounds Bid st bp bq Hwf Hbid). destruct (best_bounds Ask st ap aq Hwf Hask).
  destruct (weighted_price_between (ticks_to_raw bp) (lots_to_raw bq) (ticks_to_raw ap) (lots_to_raw aq))
    as (m & Em & Hm & _); [done..|].
  unfold max_qty in *. change (2 ^ 46) with 70368744177664 in *.
  rewrite (arith_ok I64 (lots_to_raw bq + _)) by mlia. cbn [mbind outcome_bind].
  rewrite (proj2 (Z.ltb_lt _ _)) by lia. rewrite Em. cbn [mbind outcome_bind].
  rewrite arith_ok by mlia. cbn [mbind outcome_bind]. rewrite wrap_id by mlia.
  eexists _, (Some _). split; [done|]. split_and!; [by apply Hkeep..|].
  exists (Some (bp, bq)), (Some (ap, aq)). do 2 (split; [done|]). do 2 (split; [done|]). cbn.
  split_and!; done || lia.
Qed.

(** Updates keep quantities bounded. *)
Lemma set_level_bound lv s p q s' p' :
  (forall s p, lv s p <= max_qty) -> q <= max_qty -> set_level ob_dom lv s p q s' p' <= max_qty.
Proof. intros. unfold set_level. by case_decide. Qed.

Lemma delta_state_spec st h d :
  inst_wf st -> level_ok (bd_price d) (bd_qty d) ->
  exists st', delta_state st h d = Ret st' /\ inst_wf st'
    /\ (forall a, inst_rel st a ->
         inst_rel st' (abs_process ob_dom a {| ev_header := h; ev_body := BookDelta d |}))
    /\ prev_bid st' = prev_bid st /\ prev_ask st' = prev_ask st /\ last_event_ts st' = recv_ts h.
Proof.
  intros [Hb Hq] [Hp Hqty]. unfold delta_state. cbn zeta.
  set (snap := flags_contains (hdr_flags h) IS_SNAPSHOT).
  set (b0 := if snap then ob_clear (is_book st) else is_book st).
  assert (ob_wf b0 /\ forall s p, ob_levels b0 s p = if snap then 0 else ob_levels (is_book st) s p) as [Hb0 L0].
  { unfold b0. destruct snap; [by apply ob_clear_law|done]. }
  destruct (apply_delta_law b0 (bd_price d) (bd_qty d) (bd_side d) (bd_action d) Hb0 Hp) as (b1 & -> & Hb1 & L1).
  cbn [mbind outcome_bind]. eexists. split; [done|]. split_and!; [|intros a (La & Ra & Ia)|done..].
  - split; [done|]. intros s p. cbn [is_book]. rewrite L1. apply set_level_bound; [|done].
    intros s' p'. rewrite L0. destruct snap; [by vm_compute|apply Hq].
  - unfold inst_rel, abs_process. cbn. fold snap. split_and!.
    + intros s p. rewrite L1. unfold set_level. case_decide; [done|]. rewrite L0. by destruct snap.
    + rewrite <- Ia. destruct snap; cbn; rewrite <- ?Ra;
        by destruct (flags_contains _ LAST_IN_BATCH), (in_snapshot st), (snapshot_received st).
    + rewrite <- Ia. by destruct snap, (flags_contains _ LAST_IN_BATCH), (in_snapshot st).
Qed.

Lemma tob_state_spec st h t :
  inst_wf st -> level_ok (tp_bid_price t) (tp_bid_qty t) -> level_ok (tp_ask_price t) (tp_ask_qty t) ->
  exists st', tob_state st h t = Ret st' /\ inst_wf st'
    /\ (forall a, inst_rel st a ->
         inst_rel st' (abs_process ob_dom a {| ev_header := h; ev_body := TopOfBookEv t |}))
    /\ prev_bid st' = prev_bid st /\ prev_ask st' = prev_ask st /\ last_event_ts st' = recv_ts h.
Proof.
  intros [Hb Hq] [Hbp Hbq] [Hap Haq]. destruct (ob_clear_law _ Hb) as [Hb0 L0]. unfold tob_state.
  destruct (apply_delta_law _ (tp_bid_price t) (tp_bid_qty t) Bid ActNew Hb0 Hbp) as (b1 & -> & Hb1 & L1).
  cbn [mbind outcome_bind].
  destruct (apply_delta_law _ (tp_ask_price t) (tp_ask_qty t) Ask ActNew Hb1 Hap) as (b2 & -> & Hb2 & L2).
  cbn [mbind outcome_bind]. eexists. split; [done|]. split_and!; [|intros a (La & Ra & Ia)|done..].
  - split; [done|]. intros s p. cbn [is_book]. rewrite L2. apply set_level_bound; [|done].
    intros s' p'. rewrite L1. apply set_level_bound; [|done]. intros. rewrite L0. by vm_compute.
  - unfold inst_rel, abs_process. cbn. split_and!; [|done|done].
    intros s p. rewrite L2. unfold set_level. case_decide; [done|]. rewrite L1. unfold set_level.
    case_decide; [done|apply L0].
Qed.

(** The engine with one instrument replaced. *)
Lemma set_instrument_ok eng slot st :
  (slot < length (instruments eng))%nat ->
  set_instrument eng slot st
  = Ret {| instruments := <[slot:=st]> (instruments eng); active_count := active_count eng;
           stale_timeout_ns := stale_timeout_ns eng; tob_changed := tob_changed eng;
           last_tob := last_tob eng |}.
Proof. intros. unfold set_instrument. by rewrite set_index_ok. Qed.

(** The pending report after a check with result [r]. *)
Definition pending_after eng (r : option TopOfBook) : bool * option TopOfBook :=
  match r with None => (tob_changed eng, last_tob eng) | Some t => (true, Some t) end.

Lemma emit_if_changed_spec eng slot st :
  instruments eng !! slot = Some st -> inst_wf st -> Z.of_nat slot < tmax U32 ->
  exists eng' st' r, emit_if_changed eng slot = Ret eng'
    /\ instruments eng' = <[slot:=st']> (instruments eng) /\ active_count eng' = active_count eng
    /\ inst_wf st' /\ (forall a, inst_rel st a -> inst_rel st' a) /\ observed st st' slot r
    /\ (tob_changed eng', last_tob eng') = pending_after eng r.
Proof.
  intros Est Hwf Hslot. destruct (check_bbo_state_spec st slot Hwf Hslot) as (st' & r & E & Hwf' & Hrel & Hobs).
  unfold emit_if_changed, check_bbo_price_change. rewrite (index_ok _ _ _ Est). cbn [mbind outcome_bind].
  rewrite E. cbn [mbind outcome_bind]. rewrite set_instrument_ok by (by eapply lookup_lt_Some).
  cbn [mbind outcome_bind]. destruct r as [t|]; eexists _, st', _; (split; [done|]); cbn [instruments active_count];
    (split; [done|]); (split; [done|]); (split; [exact Hwf'|]); (split; [exact Hrel|]); (split; [exact Hobs|done]).
Qed.

(** When an event triggers a check of the best prices. *)
Definition reporting (e : HotEvent) st' : bool :=
  match ev_body e with
  | BookDelta _ => flags_contains (hdr_flags (ev_header e)) LAST_IN_BATCH && snapshot_received st'
  | TopOfBookEv _ => true
  | _ => false
  end.

(** One step on the addressed instrument. *)
Definition step_spec eng eng' (e : HotEvent) (slot : nat) st st' : Prop :=
  instruments eng' = <[slot:=st']> (instruments eng) /\ active_count eng' = active_count eng /\ inst_wf st'
  /\ (forall a, inst_rel st a -> inst_rel st' (abs_process ob_dom a e))
  /\ if reporting e st' then
       exists st1 r, observed st1 st' slot r /\ prev_bid st1 = prev_bid st /\ prev_ask st1 = prev_ask st
         /\ (forall s p, ob_levels (is_book st1) s p = ob_levels (is_book st') s p)
         /\ last_event_ts st1 = recv_ts (ev_header e) /\ (tob_changed eng', last_tob eng') = pending_after eng r
     else tob_changed eng' = tob_changed eng /\ last_tob eng' = last_tob eng
       /\ prev_bid st' = prev_bid st /\ prev_ask st' = prev_ask st.

Lemma slot_of_Some eng inst slot :
  engine_wf eng -> slot_of eng inst = Some slot ->
  exists st, instruments eng !! slot = Some st /\ inst_wf st /\ (slot < active_count eng)%nat
    /\ Z.of_nat slot < tmax U32 /\ inst_to_raw inst = Z.of_nat slot + 1.
Proof.
  intros (Hlen & Hmax & Hall) E. unfold slot_of in E. cbn zeta in E. case_decide as Hd; [done|].
  injection E as <-. destruct (lookup_lt_is_Some_2 (instruments eng) (Z.to_nat (inst_to_raw inst) - 1)) as [st Est];
    [lia|]. exists st. split_and!; [done|by eapply Forall_lookup_1|lia..].
Qed.

(** A check after the instrument was replaced by [st1]. *)
Lemma emit_after_set eng slot st st1 e :
  instruments eng !! slot = Some st -> inst_wf st1 -> Z.of_nat slot < tmax U32 ->
  (forall a, inst_rel st a -> inst_rel st1 (abs_process ob_dom a e)) ->
  prev_bid st1 = prev_bid st -> prev_ask st1 = prev_ask st ->
  last_event_ts st1 = recv_ts (ev_header e) -> reporting e st1 = true ->
  exists eng', (eng1 ← set_instrument eng slot st1; emit_if_changed eng1 slot) = Ret eng'
    /\ exists st', step_spec eng eng' e slot st st'.
Proof.
  intros Est Hwf1 Hslot Hrel Hpb Hpa Hts Hrep. pose proof (lookup_lt_Some _ _ _ Est) as Hlt.
  rewrite set_instrument_ok by done. cbn [mbind outcome_bind].
  match goal with |- context [emit_if_changed ?e1 slot] =>
    destruct (emit_if_changed_spec e1 slot st1) as (eng' & st' & r & -> & Ei & Ea & Hwf' & Hrel' & Hobs & Hpend) end;
    [by apply list_lookup_insert_eq|done..|].
  cbn [instruments active_count] in *. rewrite list_insert_insert_eq in Ei.
  assert (inst_rel st' {| a_levels := ob_levels (is_book st1); a_received := snapshot_received st1;
                          a_in_snapshot := in_snapshot st1 |}) as (Hlv & Hrc & _) by by apply Hrel'.
  exists eng'. split; [done|]. exists st'. unfold step_spec. split_and!; [done|done|done..|by eauto|].
  assert (reporting e st' = true) as ->.
  { unfold reporting in *. by rewrite Hrc. }
  exists st1, r. split_and!; done.
Qed.

Lemma process_step eng e :
  engine_wf eng -> event_ok e ->
  exists eng', process eng e = Ret eng' /\
    match slot_of eng (hdr_instrument_id (ev_header e)) with
    | None => eng' = eng
    | Some slot => exists st st', instruments eng !! slot = Some st /\ step_spec eng eng' e slot st st'
    end.
Proof.
  intros Hwf [Hid Hok]. destruct (slot_of eng _) as [slot|] eqn:Eslot.
  2: { exists eng. split; [|done]. unfold process. rewrite Eslot. by destruct (ev_body e). }
  destruct (slot_of_Some _ _ _ Hwf Eslot) as (st & Est & Hst & _ & Hs32 & _).
  pose proof (lookup_lt_Some _ _ _ Est) as Hlt.
  destruct e as [h body]. cbn [ev_header ev_body] in *. unfold process. cbn [ev_header ev_body]. rewrite Eslot.
  destruct body as [d|t|t|p|p|p|p|p].
  4-8: exists eng; (split; [done|]); exists st, st; (split; [done|]);
    unfold step_spec; rewrite list_insert_id by done; by split_and!; auto.
  - destruct (delta_state_spec st h d Hst Hok) as (st1 & E1 & Hwf1 & Hrel1 & Hpb & Hpa & Hts).
    rewrite (index_ok _ _ _ Est). cbn [mbind outcome_bind]. rewrite E1. cbn [mbind outcome_bind].
    destruct (flags_contains (hdr_flags h) LAST_IN_BATCH && snapshot_received st1) eqn:Erep.
    + destruct (emit_after_set eng slot st st1 {| ev_header := h; ev_body := BookDelta d |})
        as (eng' & E & st' & Hs); [done..|]. rewrite set_instrument_ok in E |- * by done.
      cbn [mbind outcome_bind] in *. exists eng'. split; [exact E|]. exists st, st'. done.
    + rewrite set_instrument_ok by done. cbn [mbind outcome_bind]. eexists. split; [done|].
      exists st, st1. split; [done|]. unfold step_spec, reporting. cbn [ev_body ev_header]. rewrite Erep. by split_and!.
  - rewrite (index_ok _ _ _ Est). cbn [mbind outcome_bind]. rewrite set_instrument_ok by done.
    eexists. split; [done|]. exists st, (trade_state st h t). split; [done|]. by split_and!.
  - destruct Hok as [Hb Ha].
    destruct (tob_state_spec st h t Hst Hb Ha) as (st1 & E1 & Hwf1 & Hrel1 & Hpb & Hpa & Hts).
    rewrite (index_ok _ _ _ Est). cbn [mbind outcome_bind]. rewrite E1. cbn [mbind outcome_bind].
    destruct (emit_after_set eng slot st st1 {| ev_header := h; ev_body := TopOfBookEv t |})
      as (eng' & E & st' & Hs); [done..|].
    exists eng'. split; [exact E|]. exists st, st'. done.
Qed.

Lemma step_spec_wf eng eng' e slot st st' :
  engine_wf eng -> step_spec eng eng' e slot st st' -> engine_wf eng'.
Proof.
  intros (Hlen & Hmax & Hall) (Ei & Ea & Hst & _). unfold engine_wf. rewrite Ei, Ea, length_insert.
  split_and!; [done|done|]. by apply Forall_insert.
Qed.

Lemma slot_of_addressed eng e slot :
  event_ok e -> engine_wf eng -> (slot < active_count eng)%nat ->
  addressed (Z.of_nat slot + 1) e
  = bool_decide (slot_of eng (hdr_instrument_id (ev_header e)) = Some slot).
Proof.
  intros [Hid _] (_ & Hmax & _) Hs. unfold addressed, slot_of. cbn zeta. unfold in_range in Hid. cbn [tmin tmax] in *.
  case_decide as Hd.
  - rewrite bool_decide_false by done. apply Z.eqb_neq. lia.
  - destruct (decide (inst_to_raw (hdr_instrument_id (ev_header e)) = Z.of_nat slot + 1)) as [E|E].
    + rewrite bool_decide_true by (f_equal; lia). by apply Z.eqb_eq.
    + rewrite bool_decide_false by (intros [= ?]; lia). by apply Z.eqb_neq.
Qed.

(** Every instrument of the engine matches its abstract state. *)
Definition engine_rel eng (abs : nat -> abs_inst) : Prop :=
  forall slot, (slot < active_count eng)%nat ->
    exists st, instruments eng !! slot = Some st /\ inst_rel st (abs slot).

Lemma process_rel eng e abs :
  engine_wf eng -> event_ok e -> engine_rel eng abs ->
  exists eng', process eng e = Ret eng' /\ engine_wf eng' /\ active_count eng' = active_count eng
    /\ engine_rel eng' (fun slot =>
         if addressed (Z.of_nat slot + 1) e then abs_process ob_dom (abs slot) e else abs slot).
Proof.
  intros Hwf He Hrel. destruct (process_step eng e Hwf He) as (eng' & E & Hstep). exists eng'.
  split; [done|]. destruct (slot_of eng _) as [slot|] eqn:Eslot.
  - destruct Hstep as (st & st' & Est & Hs). split; [by eapply step_spec_wf|].
    destruct Hs as (Ei & Ea & _ & Hst & _). split; [done|]. intros k Hk. rewrite Ea in Hk.
    rewrite (slot_of_addressed eng e k He Hwf Hk), Eslot, Ei.
    destruct (decide (k = slot)) as [->|Hne].
    + exists st'. rewrite list_lookup_insert_eq by (by eapply lookup_lt_Some).
      rewrite bool_decide_true by done. split; [done|]. apply Hst.
      destruct (Hrel slot Hk) as (st0 & Est0 & ?). congruence.
    + rewrite list_lookup_insert_ne, bool_decide_false by naive_solver. by apply Hrel.
  - subst eng'. split_and!; [apply Hwf..|done|]. intros k Hk.
    rewrite (slot_of_addressed eng e k He Hwf Hk), Eslot, bool_decide_false by done. by apply Hrel.
Qed.

Lemma process_all_rel events eng abs :
  engine_wf eng -> Forall event_ok events -> engine_rel eng abs ->
  exists eng', process_all eng events = Ret eng' /\ engine_wf eng' /\ active_count eng' = active_count eng
    /\ engine_rel eng' (fun slot => foldl (fun a e =>
          if addressed (Z.of_nat slot + 1) e then abs_process ob_dom a e else a) (abs slot) events).
Proof.
  intros Hwf He. revert eng abs Hwf. induction He as [|e events He _ IH]; intros eng abs Hwf Hrel; cbn.
  - by exists eng.
  - destruct (process_rel eng e abs Hwf He Hrel) as (eng1 & -> & Hwf1 & Ea & Hrel1). cbn.
    destruct (IH eng1 _ Hwf1 Hrel1) as (eng' & ? & ? & ? & ?). exists eng'. split_and!; [done|done|congruence|done].
Qed.

Lemma engine_new_ok MAX count stale :
  (count <= MAX)%nat -> Z.of_nat count <= tmax U32 ->
  exists eng, engine_new MAX count stale = Ret eng /\ active_count eng = count /\ engine_wf eng
    /\ engine_rel eng (fun _ => abs_init).
Proof.
  intros Hc Hm. unfold engine_new. rewrite decide_True by done. eexists. split; [done|]. split; [done|].
  split; [split_and!|]; cbn [active_count instruments].
  - by rewrite length_replicate.
  - done.
  - apply Forall_replicate. split; [apply ob_default_wf|]. intros. cbn. rewrite ob_default_levels. by vm_compute.
  - intros slot Hs. cbn in *. exists instrument_default. split; [apply lookup_replicate_2; lia|].
    split_and!; [|done|done]. intros. apply ob_default_levels.
Qed.
End engine_lemmas.

(** C12: the engine refines one abstract instrument per slot.  From a new
    engine over [ArrayBook<N>], processing any stream of events whose prices
    are [i64]s and whose quantities are at most [2^46] never panics, in either
    build profile; afterwards the book levels and the snapshot flags of every
    active instrument are those its own events determine, whatever the events
    of other instruments, unknown instruments and other kinds in between. *)
Theorem engine_refines_instruments `{BuildProfile} (N MAX count : nat) (stale : Z) (events : list HotEvent) :
  Z.of_nat N <= 65536 -> (count <= MAX)%nat -> Z.of_nat count <= tmax U32 -> Forall event_ok events ->
  exists eng eng' : MarketStateEngine (ArrayBook N),
    engine_new MAX count stale = Ret eng /\ process_all eng events = Ret eng'
    /\ forall slot, (slot < count)%nat -> exists st, instruments eng' !! slot = Some st
         /\ (forall s p, array_levels (is_book st) s p
                = a_levels (abs_run (array_dom N) (Z.of_nat slot + 1) events) s p)
         /\ snapshot_received st = a_received (abs_run (array_dom N) (Z.of_nat slot + 1) events)
         /\ in_snapshot st = a_in_snapshot (abs_run (array_dom N) (Z.of_nat slot + 1) events).
Proof.
  intros HN Hc Hm He. assert (BookSize N) by done.
  destruct (engine_new_ok (B := ArrayBook N) MAX count stale Hc Hm) as (eng & En & Ea & Hwf & Hrel).
  destruct (process_all_rel events eng _ Hwf He Hrel) as (eng' & Ep & _ & Ea' & Hrel').
  exists eng, eng'. split_and!; [done|done|]. intros slot Hs.
  destruct (Hrel' slot) as (st & ? & ?); [congruence|]. by exists st.
Qed.

(** ** Reports *)

(** The best level of a side with prices below [N]: the last price with a
    positive quantity for bids, the first for asks. *)
Definition best_of (N : nat) (s : Side) (lv : Z -> Z) : option (Ticks * Lots) :=
  let prices := filter (fun p => 0 < lv p) (seqZ 0 (Z.of_nat N)) in
  p ← match s with Bid => last prices | Ask => head prices end;
  Some (ticks_from_raw p, lots_from_raw (lv p)).

(** One instrument as someone watching its events sees it: the abstract
    instrument, and the best prices at the last look. *)
Record watcher := { w_inst : abs_inst; w_seen : option Ticks * option Ticks }.

Definition watch_init : watcher := {| w_inst := abs_init; w_seen := (None, None) |}.

(** The watcher looks after a [TopOfBook] event, and after the last event of a
    batch once a snapshot is complete. *)
Definition looks (e : HotEvent) (a : abs_inst) : bool :=
  match ev_body e with
  | BookDelta _ => flags_contains (hdr_flags (ev_header e)) LAST_IN_BATCH && a_received a
  | TopOfBookEv _ => true
  | _ => false
  end.

Definition quote (id : Z) (ts : Timestamp) (bid ask : Ticks * Lots) : TopOfBook :=
  let bp := ticks_to_raw bid.1 in
  let bq := lots_to_raw bid.2 in
  let ap := ticks_to_raw ask.1 in
  let aq := lots_to_raw ask.2 in
  {| tob_bid_price := bid.1; tob_bid_qty := bid.2; tob_ask_price := ask.1; tob_ask_qty := ask.2;
     tob_micro_price := ticks_from_raw ((bp * aq + ap * bq) / (bq + aq)); tob_spread := ticks_from_raw (ap - bp);
     tob_instrument_id := inst_from_raw id; tob_ts := ts |}.

(** An event of the instrument: a report when both sides are there and a best
    price is not the one seen at the last look. *)
Definition watch (N : nat) (id : Z) (w : watcher) (e : HotEvent) : watcher * option TopOfBook :=
  let a := abs_process (array_dom N) (w_inst w) e in
  if looks e a then
    let bid := best_of N Bid (a_levels a Bid) in
    let ask := best_of N Ask (a_levels a Ask) in
    let seen := (fst <$> bid, fst <$> ask) in
    ({| w_inst := a; w_seen := seen |},
     if decide (seen = w_seen w) then None
     else b ← bid; k ← ask; Some (quote id (recv_ts (ev_header e)) b k))
  else ({| w_inst := a; w_seen := w_seen w |}, None).

(** The watcher after a stream, of which only the instrument's events count. *)
Definition watch_run (N : nat) (id : Z) (events : list HotEvent) : watcher :=
  foldl (fun w e => if addressed id e then (watch N id w e).1 else w) watch_init events.

(** A consumer that takes the report after every event. *)
Fixpoint process_taking `{BuildProfile} {B} `{!OrderBook B} (eng : MarketStateEngine B) (events : list HotEvent)
    : outcome (MarketStateEngine B * list (option TopOfBook)) :=
  match events with
  | [] => Ret (eng, [])
  | e :: events =>
      eng ← process eng e;
      let '(eng, r) := take_tob eng in
      '(eng, rs) ← process_taking eng events;
      Ret (eng, r :: rs)
  end.

Lemma is_best_unique s lv r r' : is_best s lv r -> is_best s lv r' -> r = r'.
Proof.
  destruct r as [[[p] [q]]|], r' as [[[p'] [q']]|]; cbn; [|intros (? & ? & _) Hn; specialize (Hn p); lia
    |intros Hn (? & ? & _); specialize (Hn p'); lia|done].
  intros (Hq & E & Hb) (Hq' & E' & Hb').
  assert (p = p') as -> by (pose proof (Hb p'); pose proof (Hb' p); destruct s; cbn in *; lia). by rewrite <- E, <- E'.
Qed.

Lemma seqZ_sorted n : forall m, StronglySorted Z.lt (seqZ m (Z.of_nat n)).
Proof.
  induction n as [|n IH]; intros m; [constructor|]. rewrite seqZ_cons by lia.
  replace (Z.pred (Z.of_nat (S n))) with (Z.of_nat n) by lia. constructor; [apply IH|].
  apply Forall_lookup_2. intros i p [-> _]%lookup_seqZ. lia.
Qed.

Lemma filter_sorted (P : Z -> Prop) `{!forall x, Decision (P x)} (l : list Z) :
  StronglySorted Z.lt l -> StronglySorted Z.lt (filter P l).
Proof.
  induction 1 as [|x l Hs IH Hx]; [constructor|]. rewrite filter_cons. case_decide; [|done]. constructor; [done|].
  clear -Hx. induction Hx as [|y l Hy _ IH]; [constructor|]. rewrite filter_cons. case_decide; [by constructor|done].
Qed.

Lemma best_of_best N s lv : (forall p, array_dom N p = false -> lv p = 0) -> is_best s lv (best_of N s lv).
Proof.
  intros Hdom. unfold best_of. set (ps := filter (fun p => 0 < lv p) (seqZ 0 (Z.of_nat N))).
  assert (forall p, p ∈ ps <-> 0 < lv p) as Hin.
  { intros p. unfold ps. rewrite list_elem_of_filter, elem_of_seqZ. split; [by intros []|]. intros Hp. split; [done|].
    destruct (array_dom N p) eqn:E; [unfold array_dom in E; lia|]. rewrite (Hdom _ E) in Hp. lia. }
  assert (StronglySorted Z.lt ps) as Hs.
  { unfold ps. apply filter_sorted, seqZ_sorted. }
  clearbody ps. destruct s; cbn [mbind option_bind].
  - destruct (last ps) as [p|] eqn:El; cbn.
    + apply last_Some in El as [l ->]. assert (0 < lv p) as Hp by (apply Hin; set_solver). split_and!; [done|done|].
      intros p' Hlt. destruct (decide (0 < lv p')) as [Hp'|]; [|lia]. apply Hin in Hp'.
      apply elem_of_app in Hp' as [Hp'|Hp']; [|apply list_elem_of_singleton in Hp'; lia].
      pose proof (StronglySorted_app_1_elem_of _ _ _ _ _ Hs Hp' (list_elem_of_here p [])). lia.
    + apply last_None in El as ->. intros p. destruct (decide (0 < lv p)) as [Hp|]; [|lia]. apply Hin in Hp. set_solver.
  - destruct ps as [|p ps]; cbn.
    + intros p. destruct (decide (0 < lv p)) as [Hp|]; [|lia]. apply Hin in Hp. set_solver.
    + assert (0 < lv p) as Hp by (apply Hin; set_solver). split_and!; [done|done|].
      intros p' Hlt. destruct (decide (0 < lv p')) as [Hp'|]; [|lia]. apply Hin in Hp'.
      apply elem_of_cons in Hp' as [->|Hp']; [lia|]. apply StronglySorted_inv in Hs as [_ Hs].
      apply list_elem_of_lookup in Hp' as [i Hi]. pose proof (Forall_lookup_1 _ _ _ _ Hs Hi) as Hl. cbn in Hl. lia.
Qed.


Section watching.
Context `{BuildProfile} {N : nat} `{!BookSize N}.
Implicit Types (eng : MarketStateEngine (ArrayBook N)) (st : InstrumentState (ArrayBook N)) (w : watcher).

Definition watched st w : Prop := inst_rel st (w_inst w) /\ w_seen w = (prev_bid st, prev_ask st).

(** The watchers of all instruments match an engine without a pending report. *)
Definition engine_watched eng (ws : nat -> watcher) : Prop :=
  tob_changed eng = false /\
  forall slot, (slot < active_count eng)%nat -> exists st, instruments eng !! slot = Some st /\ watched st (ws slot).

Lemma reporting_looks e st a : inst_rel st a -> reporting e st = looks e a.
Proof. intros (_ & E & _). unfold reporting, looks. by rewrite E. Qed.

Lemma best_of_levels st a s r :
  inst_wf st -> inst_rel st a -> is_best s (ob_levels (is_book st) s) r -> r = best_of N s (a_levels a s).
Proof.
  intros [Hwf _] (Hlv & _) Hb. eapply is_best_unique; [|apply best_of_best].
  - eapply is_best_ext, Hb. intros p. apply Hlv.
  - intros p Hd. rewrite <- Hlv. by apply (ob_levels_dom (is_book st) s p).
Qed.

(** A report of [check_bbo_state] is the watcher's. *)
Lemma report_quote st slot bid ask r :
  report_spec st slot bid ask r ->
  r = if decide ((fst <$> bid, fst <$> ask) = (prev_bid st, prev_ask st)) then None
      else b ← bid; k ← ask; Some (quote (Z.of_nat slot + 1) (last_event_ts st) b k).
Proof.
  destruct r as [t|]; cbn [report_spec].
  - intros (Hne & -> & -> & Hm & Hs & Hi & Ht). rewrite decide_False by (by intros [= E1 E2]; apply Hne; split).
    cbn [mbind option_bind]. destruct t as [bp bq ap aq [m] [sp] i ts]. cbn in *. subst. done.
  - intros [[-> ->]|[->| ->]]; case_decide; try done. by destruct bid.
Qed.

Lemma step_watched eng eng' e slot st st' w :
  step_spec eng eng' e slot st st' -> watched st w -> tob_changed eng = false ->
  watched st' (watch N (Z.of_nat slot + 1) w e).1 /\ (take_tob eng').2 = (watch N (Z.of_nat slot + 1) w e).2.
Proof.
  intros (_ & _ & Hwf & Hrel & Hrep) [Hst Hseen] Hq. specialize (Hrel _ Hst).
  change ob_dom with (array_dom N) in Hrel. unfold watch. cbv zeta.
  rewrite <- (reporting_looks e st' _ Hrel). unfold take_tob, watched. destruct (reporting e st').
  - destruct Hrep as (st1 & r & (bid & ask & Hbid & Hask & Epb & Epa & Hr) & E1 & E2 & Hlv & Ets & Hpend).
    apply (is_best_ext _ _ _ _ (Hlv Bid)) in Hbid. apply (is_best_ext _ _ _ _ (Hlv Ask)) in Hask.
    apply (best_of_levels st' _ _ _ Hwf Hrel) in Hbid, Hask.
    rewrite <- Hbid, <- Hask. cbn [fst snd w_inst w_seen]. split; [by rewrite Epb, Epa|].
    apply report_quote in Hr. rewrite E1, E2, Ets, <- Hseen in Hr. rewrite <- Hr.
    destruct r; cbn in Hpend; injection Hpend as -> ->; [done|]. by rewrite Hq.
  - destruct Hrep as (-> & -> & -> & ->). rewrite Hq. by split.
Qed.

(** What the watcher of the addressed instrument reports. *)
Definition watch_report (count : nat) (ws : nat -> watcher) (e : HotEvent) : option TopOfBook :=
  let id := inst_to_raw (hdr_instrument_id (ev_header e)) in
  if decide (1 <= id <= Z.of_nat count) then (watch N id (ws (Z.to_nat id - 1)%nat) e).2 else None.
Definition watch_all (ws : nat -> watcher) (e : HotEvent) (slot : nat) : watcher :=
  if addressed (Z.of_nat slot + 1) e then (watch N (Z.of_nat slot + 1) (ws slot) e).1 else ws slot.

Lemma slot_of_active eng e :
  in_range U32 (inst_to_raw (hdr_instrument_id (ev_header e))) ->
  let id := inst_to_raw (hdr_instrument_id (ev_header e)) in
  slot_of eng (hdr_instrument_id (ev_header e))
  = if decide (1 <= id <= Z.of_nat (active_count eng)) then Some (Z.to_nat id - 1)%nat else None.
Proof. intros Hr id. unfold slot_of, in_range in *. fold id in Hr |- *. cbn [tmin] in Hr. by repeat case_decide; try lia. Qed.

Lemma process_watched eng e ws :
  engine_wf eng -> event_ok e -> engine_watched eng ws ->
  exists eng', process eng e = Ret eng' /\ engine_wf (take_tob eng').1
    /\ active_count (take_tob eng').1 = active_count eng /\ engine_watched (take_tob eng').1 (watch_all ws e)
    /\ (take_tob eng').2 = watch_report (active_count eng) ws e.
Proof.
  intros Hwf He [Hq Hws]. destruct (process_step eng e Hwf He) as (eng' & Ep & Hstep). exists eng'. split; [done|].
  assert (forall g, instruments (take_tob (B := ArrayBook N) g).1 = instruments g
    /\ active_count (take_tob g).1 = active_count g /\ tob_changed (take_tob g).1 = false) as Htake.
  { intros g. unfold take_tob. by destruct (tob_changed g) eqn:E. }
  destruct (Htake eng') as (Ti & Ta & Tc). unfold watch_report.
  pose proof (slot_of_active eng e (proj1 He)) as Es. cbv zeta in Es.
  set (id := inst_to_raw (hdr_instrument_id (ev_header e))) in *. destruct (slot_of eng _) as [slot|] eqn:Eslot.
  - destruct Hstep as (st & st' & Est & Hs). destruct (slot_of_Some _ _ _ Hwf Eslot) as (_ & _ & _ & Hsl & _ & Hid).
    fold id in Hid. case_decide as Hr; [|done]. injection Es as Es. rewrite <- Es, Hid.
    destruct (Hws slot Hsl) as (st0 & Est0 & Hw). assert (st0 = st) as -> by congruence.
    destruct (step_watched _ _ _ _ _ _ _ Hs Hw Hq) as [Hw' Hrep]. pose proof (step_spec_wf _ _ _ _ _ _ Hwf Hs) as Hwf'.
    destruct Hs as (Ei & Ea & _). split_and!.
    + unfold engine_wf in *. by rewrite Ti, Ta.
    + by rewrite Ta.
    + split; [done|]. intros k Hk. rewrite Ta, Ea in Hk. rewrite Ti, Ei. unfold watch_all.
      rewrite (slot_of_addressed eng e k He Hwf Hk), Eslot. destruct (decide (k = slot)) as [->|Hne].
      * exists st'. rewrite list_lookup_insert_eq by (by eapply lookup_lt_Some). by rewrite bool_decide_true.
      * rewrite list_lookup_insert_ne, bool_decide_false by naive_solver. by apply Hws.
    + by rewrite Hrep.
  - subst eng'. case_decide; [done|]. unfold take_tob. rewrite Hq. cbn. split; [done|]. split; [done|]. split; [|done]. split; [done|].
    intros k Hk. unfold watch_all. rewrite (slot_of_addressed eng e k He Hwf Hk), Eslot, bool_decide_false by done.
    by apply Hws.
Qed.

Lemma process_taking_watched events : forall eng ws,
  engine_wf eng -> Forall event_ok events -> engine_watched eng ws ->
  exists eng' rs, process_taking eng events = Ret (eng', rs)
    /\ forall i e, events !! i = Some e ->
         rs !! i = Some (watch_report (active_count eng) (foldl watch_all ws (take i events)) e).
Proof.
  induction events as [|e events IH]; intros eng ws Hwf He Hws; cbn [process_taking]; [by exists eng, []|].
  apply Forall_cons in He as [He Hes].
  destruct (process_watched eng e ws Hwf He Hws) as (eng1 & -> & Hwf1 & Ha & Hws1 & Hr). cbn [mbind outcome_bind].
  destruct (take_tob eng1) as [eng2 r]. cbn [fst snd] in *. destruct (IH eng2 _ Hwf1 Hes Hws1) as (eng' & rs & -> & Hrs).
  cbn [mbind outcome_bind]. eexists _, _. split; [done|]. intros [|i] e'; cbn; [by intros [= <-]; rewrite Hr|].
  intros Hi. rewrite <- Ha. by apply Hrs.
Qed.

(** Watching all instruments at once is watching each. *)
Lemma watch_all_run events ws slot :
  foldl watch_all ws events slot
  = foldl (fun w e => if addressed (Z.of_nat slot + 1) e then (watch N (Z.of_nat slot + 1) w e).1 else w) (ws slot) events.
Proof. revert ws. induction events as [|e events IH]; intros ws; [done|]. cbn. by rewrite IH. Qed.

Lemma engine_new_watched MAX count stale :
  (count <= MAX)%nat -> Z.of_nat count <= tmax U32 ->
  exists eng, engine_new MAX count stale = Ret eng /\ active_count eng = count /\ engine_wf eng
    /\ engine_watched eng (fun _ => watch_init).
Proof.
  intros Hc Hm. destruct (engine_new_ok (B := ArrayBook N) MAX count stale Hc Hm) as (eng & En & Ea & Hwf & Hrel).
  exists eng. do 3 (split; [done|]). revert En. unfold engine_new. rewrite decide_True by done. intros [= <-]. split; [done|].
  intros slot Hs. cbn in *. destruct (Hrel slot Hs) as (st & Est & Hst). exists st. split; [done|]. split; [done|].
  apply lookup_replicate in Est as [-> _]. done.
Qed.
End watching.

(** C13: the reports of a whole stream.  A new engine that processes any stream
    of storable events, with the pending report taken after each, returns after
    every event exactly what a watcher of the addressed instrument reports who
    knows only that instrument's earlier events: nothing for events of unknown
    instruments; otherwise the watcher looks after [TopOfBook] events, and after
    the last event of a batch when the snapshot is complete, and reports when
    both sides have a level and a best price differs from those at its last
    look, so that an unchanged top is never reported twice.  The report carries
    the best levels, their spread, the micro price
    [(bid * ask_qty + ask * bid_qty) / (bid_qty + ask_qty)] rounded down, the
    instrument and the event's timestamp. *)
Theorem process_reports_bbo_changes `{BuildProfile} (N MAX count : nat) (stale : Z) (events : list HotEvent) :
  Z.of_nat N <= 65536 -> (count <= MAX)%nat -> Z.of_nat count <= tmax U32 -> Forall event_ok events ->
  exists (eng eng' : MarketStateEngine (ArrayBook N)) reports,
    engine_new MAX count stale = Ret eng /\ process_taking eng events = Ret (eng', reports)
    /\ forall i e, events !! i = Some e ->
         let id := inst_to_raw (hdr_instrument_id (ev_header e)) in
         reports !! i = Some (if decide (1 <= id <= Z.of_nat count)
                              then (watch N id (watch_run N id (take i events)) e).2 else None).
Proof.
  intros HN Hc Hm He. assert (BookSize N) by done.
  destruct (engine_new_watched (N := N) MAX count stale Hc Hm) as (eng & En & Ea & Hwf & Hws).
  destruct (process_taking_watched events eng _ Hwf He Hws) as (eng' & rs & Ep & Hrs).
  exists eng, eng', rs. split_and!; [done..|]. intros i e Hi. rewrite (Hrs i e Hi), Ea. unfold watch_report. cbv zeta.
  case_decide; [|done]. rewrite watch_all_run. unfold watch_run. do 2 f_equal.
  by replace (Z.of_nat (Z.to_nat (inst_to_raw (hdr_instrument_id (ev_header e))) - 1) + 1)
    with (inst_to_raw (hdr_instrument_id (ev_header e))) by lia.
Qed.

(** A two-level snapshot, as a venue would send it. *)
Definition sample_delta (flags : Z) (side : Side) (p q : Z) : HotEvent :=
  ev_book_delta (from_nanos 7) (seqnum_from_raw 1) (inst_from_raw 1) (source_from_raw 1)
    (flags_from_raw flags)
    {| bd_price := ticks_from_raw p; bd_qty := lots_from_raw q; bd_side := side;
       bd_action := ActNew; bd_depth := 0 |}.

Lemma engine_refines_witness :
  let events := [sample_delta 1 Bid 3 10; sample_delta 2 Ask 5 20] in
  exists eng eng' : MarketStateEngine (ArrayBook 10),
    @engine_new _ (@ArrayBook_book debug_profile 10) 4 1 1000 = Ret eng
    /\ @process_all debug_profile _ (@ArrayBook_book debug_profile 10) eng events = Ret eng'
    /\ forall slot, (slot < 1)%nat -> exists st, instruments eng' !! slot = Some st
         /\ (forall s p, array_levels (is_book st) s p
                = a_levels (abs_run (array_dom 10) (Z.of_nat slot + 1) events) s p)
         /\ snapshot_received st = a_received (abs_run (array_dom 10) (Z.of_nat slot + 1) events)
         /\ in_snapshot st = a_in_snapshot (abs_run (array_dom 10) (Z.of_nat slot + 1) events).
Proof.
  apply (@engine_refines_instruments debug_profile 10 4 1 1000); [lia|lia|by vm_compute|].
  repeat constructor; by vm_compute.
Defined.

(** A snapshot of two events, a batch that leaves the best prices, one that
    moves the bid. *)
Definition sample_stream : list HotEvent :=
  [sample_delta 1 Bid 3 10; sample_delta 2 Ask 5 20; sample_delta 2 Ask 7 1; sample_delta 2 Bid 4 30].

Lemma process_reports_witness :
  exists (eng eng' : MarketStateEngine (ArrayBook 10)) reports,
    @engine_new _ (@ArrayBook_book debug_profile 10) 4 1 1000 = Ret eng
    /\ @process_taking debug_profile _ (@ArrayBook_book debug_profile 10) eng sample_stream = Ret (eng', reports)
    /\ reports !! 2%nat = Some None /\ exists t, reports !! 3%nat = Some (Some t) /\ tob_micro_price t = ticks_from_raw 4.
Proof.
  destruct (@process_reports_bbo_changes debug_profile 10 4 1 1000 sample_stream) as (eng & eng' & rs & En & Ep & Hr);
    [lia|lia|by vm_compute|repeat constructor; by vm_compute|].
  exists eng, eng', rs. split; [exact En|]. split; [exact Ep|].
  split; [rewrite (Hr 2%nat _ eq_refl); vm_compute; reflexivity|].
  eexists. rewrite (Hr 3%nat _ eq_refl). vm_compute. split; reflexivity.
Defined.
