(* ===== verification/Registry.v ===== *)
(** * Instrument registry ([crates/registry])

    The map from venue identifiers to stable instrument ids.  Hash maps are
    [gmap]s, strings are byte lists.  Operations take the registry and return
    the registry they leave behind together with their [Result], because some
    errors are returned after a mutation. *)

From stdpp Require Import base decidable list numbers option tactics gmap countable.
From Stdlib Require Import ZArith Lia.
From S2P Require Import Prelude Types FixedText.

#[local] Open Scope Z_scope.

(** ** types.rs *)

Inductive InstrumentClass := Spot | Perp | PredictionBinary | OracleReference.
Inductive Asset := Btc | Eth | Sol | Xrp | Doge | Usdt | Usdc | Usd.
Inductive Timeframe := M5 | M15 | M60 | H4.
Inductive OutcomeSide := Up | Down | Yes | No.

#[global] Instance InstrumentClass_eq_dec : EqDecision InstrumentClass.
Proof. solve_decision. Defined.
#[global] Instance Asset_eq_dec : EqDecision Asset.
Proof. solve_decision. Defined.
#[global] Instance Timeframe_eq_dec : EqDecision Timeframe.
Proof. solve_decision. Defined.
#[global] Instance OutcomeSide_eq_dec : EqDecision OutcomeSide.
Proof. solve_decision. Defined.

Record InstrumentKey := {
  key_class : InstrumentClass;
  key_base : Asset;
  key_quote : option Asset;
  key_timeframe : option Timeframe;
  key_outcome : option OutcomeSide;
}.

#[global] Instance InstrumentKey_eq_dec : EqDecision InstrumentKey.
Proof. solve_decision. Defined.

(** Hashing: each component is numbered. *)
Definition class_code (c : InstrumentClass) : nat :=
  match c with Spot => 0 | Perp => 1 | PredictionBinary => 2 | OracleReference => 3 end.
Definition asset_code (a : Asset) : nat :=
  match a with Btc => 0 | Eth => 1 | Sol => 2 | Xrp => 3 | Doge => 4 | Usdt => 5 | Usdc => 6 | Usd => 7 end.
Definition timeframe_code (t : Timeframe) : nat := match t with M5 => 0 | M15 => 1 | M60 => 2 | H4 => 3 end.
Definition outcome_code (o : OutcomeSide) : nat := match o with Up => 0 | Down => 1 | Yes => 2 | No => 3 end.

#[global] Instance InstrumentClass_countable : Countable InstrumentClass.
Proof.
  apply (inj_countable class_code
    (fun n => match n with 0 => Some Spot | 1 => Some Perp | 2 => Some PredictionBinary | _ => Some OracleReference end)%nat).
  by intros [].
Defined.
#[global] Instance Asset_countable : Countable Asset.
Proof.
  apply (inj_countable asset_code
    (fun n => match n with
              | 0 => Some Btc | 1 => Some Eth | 2 => Some Sol | 3 => Some Xrp
              | 4 => Some Doge | 5 => Some Usdt | 6 => Some Usdc | _ => Some Usd end)%nat).
  by intros [].
Defined.
#[global] Instance Timeframe_countable : Countable Timeframe.
Proof.
  apply (inj_countable timeframe_code
    (fun n => match n with 0 => Some M5 | 1 => Some M15 | 2 => Some M60 | _ => Some H4 end)%nat).
  by intros [].
Defined.
#[global] Instance OutcomeSide_countable : Countable OutcomeSide.
Proof.
  apply (inj_countable outcome_code
    (fun n => match n with 0 => Some Up | 1 => Some Down | 2 => Some Yes | _ => Some No end)%nat).
  by intros [].
Defined.
#[global] Instance InstrumentKey_countable : Countable InstrumentKey.
Proof.
  apply (inj_countable' (fun k => (key_class k, key_base k, key_quote k, key_timeframe k, key_outcome k))
    (fun '(c, b, q, t, o) => {| key_class := c; key_base := b; key_quote := q; key_timeframe := t; key_outcome := o |})).
  by intros [].
Defined.
#[global] Instance InstrumentId_countable : Countable InstrumentId.
Proof. apply (inj_countable' inst_to_raw inst_from_raw). by intros []. Defined.

Definition key_prediction (base : Asset) (tf : Timeframe) (o : OutcomeSide) : InstrumentKey :=
  {| key_class := PredictionBinary; key_base := base; key_quote := Some Usdc;
     key_timeframe := Some tf; key_outcome := Some o |}.

Definition key_spot_reference (base quote : Asset) : InstrumentKey :=
  {| key_class := OracleReference; key_base := base; key_quote := Some quote;
     key_timeframe := None; key_outcome := None |}.

(** ** bindings.rs, record.rs, error.rs *)

Record BinanceBinding := { bn_symbol : bytes }.

Record PolymarketWindowBinding := {
  token_id : bytes;
  market_slug : bytes;
  window_start : Timestamp;
  window_end : Timestamp;
  condition_id : option bytes;
}.

Record PolymarketBinding := {
  pm_current : option PolymarketWindowBinding;
  pm_next : option PolymarketWindowBinding;
}.

Definition polymarket_default : PolymarketBinding := {| pm_current := None; pm_next := None |}.

Record InstrumentRecord (D : Z) := {
  rec_id : InstrumentId;
  rec_key : InstrumentKey;
  rec_meta : InstrumentMeta D;
  rec_binance : option BinanceBinding;
  rec_polymarket : option PolymarketBinding;
}.
Arguments rec_id {D} _.
Arguments rec_key {D} _.
Arguments rec_meta {D} _.
Arguments rec_binance {D} _.
Arguments rec_polymarket {D} _.

Inductive RegistryError :=
| DuplicateInstrumentId (id : InstrumentId)
| DuplicateInstrumentKey
| DuplicateBinanceSymbol (s : bytes)
| DuplicatePolymarketTokenId (t : bytes)
| MissingInstrument (id : InstrumentId)
| MissingPolymarketBinding (id : InstrumentId)
| NoNextWindow (id : InstrumentId)
| IdSpaceExhausted.

(** ** lib.rs *)

Record InstrumentRegistry (D : Z) := {
  by_id : gmap InstrumentId (InstrumentRecord D);
  reg_by_key : gmap InstrumentKey InstrumentId;
  reg_by_binance : gmap bytes InstrumentId;
  reg_by_token : gmap bytes InstrumentId;
  next_id : Z;
}.
Arguments by_id {D} _.
Arguments reg_by_key {D} _.
Arguments reg_by_binance {D} _.
Arguments reg_by_token {D} _.
Arguments next_id {D} _.

Section registry.
Context {D : Z}.
Implicit Types (r : InstrumentRegistry D) (rec : InstrumentRecord D) (id : InstrumentId).

Definition registry_new : InstrumentRegistry D :=
  {| by_id := ∅; reg_by_key := ∅; reg_by_binance := ∅; reg_by_token := ∅; next_id := 1 |}.

Definition reg_get r id : option (InstrumentRecord D) := by_id r !! id.
Definition reg_meta r id : option (InstrumentMeta D) := rec_meta <$> by_id r !! id.
Definition by_binance_symbol r (s : bytes) : option InstrumentId := reg_by_binance r !! s.
Definition by_polymarket_token_id r (t : bytes) : option InstrumentId := reg_by_token r !! t.
Definition by_key r (k : InstrumentKey) : option InstrumentId := reg_by_key r !! k.
Definition active_polymarket_token_ids r : list bytes := (map_to_list (reg_by_token r)).*1.
Definition reg_len r : nat := size (by_id r).
Definition reg_is_empty r : bool := bool_decide (by_id r = ∅).

Definition alloc_id r : InstrumentRegistry D * result InstrumentId RegistryError :=
  if next_id r =? 0 then (r, Err IdSpaceExhausted)
  else
    ({| by_id := by_id r; reg_by_key := reg_by_key r; reg_by_binance := reg_by_binance r;
        reg_by_token := reg_by_token r; next_id := wrap U32 (next_id r + 1) |},
     Ok (inst_from_raw (next_id r))).

Definition reg_insert r (key : InstrumentKey) (meta : InstrumentMeta D) (binance : option BinanceBinding)
    (polymarket : option PolymarketBinding) : InstrumentRegistry D * result InstrumentId RegistryError :=
  match reg_by_key r !! key with
  | Some _ => (r, Err DuplicateInstrumentKey)
  | None =>
      match alloc_id r with
      | (r, Err e) => (r, Err e)
      | (r, Ok id) =>
          match binance with
          | Some bn =>
              match reg_by_binance r !! bn_symbol bn with
              | Some _ => (r, Err (DuplicateBinanceSymbol (bn_symbol bn)))
              | None =>
                  ({| by_id := <[id := {| rec_id := id; rec_key := key; rec_meta := meta;
                                          rec_binance := binance; rec_polymarket := polymarket |}]> (by_id r);
                      reg_by_key := <[key := id]> (reg_by_key r);
                      reg_by_binance := <[bn_symbol bn := id]> (reg_by_binance r);
                      reg_by_token := reg_by_token r; next_id := next_id r |}, Ok id)
              end
          | None =>
              ({| by_id := <[id := {| rec_id := id; rec_key := key; rec_meta := meta;
                                      rec_binance := binance; rec_polymarket := polymarket |}]> (by_id r);
                  reg_by_key := <[key := id]> (reg_by_key r);
                  reg_by_binance := reg_by_binance r;
                  reg_by_token := reg_by_token r; next_id := next_id r |}, Ok id)
          end
      end
  end.

Definition insert_prediction_pair r (base : Asset) (tf : Timeframe) (meta : InstrumentMeta D)
    (binance_symbol : option bytes)
    : InstrumentRegistry D * result (InstrumentId * InstrumentId) RegistryError :=
  let up_key := key_prediction base tf Up in
  let down_key := key_prediction base tf Down in
  if bool_decide (is_Some (reg_by_key r !! up_key)) || bool_decide (is_Some (reg_by_key r !! down_key))
  then (r, Err DuplicateInstrumentKey)
  else
    match (sym ← binance_symbol; _ ← reg_by_binance r !! sym; Some sym) with
    | Some sym => (r, Err (DuplicateBinanceSymbol sym))
    | None =>
        let bn := (fun s => {| bn_symbol := s |}) <$> binance_symbol in
        match reg_insert r up_key meta bn (Some polymarket_default) with
        | (r, Err e) => (r, Err e)
        | (r, Ok up_id) =>
            match reg_insert r down_key meta None (Some polymarket_default) with
            | (r, Err e) => (r, Err e)
            | (r, Ok down_id) => (r, Ok (up_id, down_id))
            end
        end
    end.

(** The record with its Polymarket binding replaced, through [get_mut]. *)
Definition set_polymarket r id rec (pm : PolymarketBinding) (tokens : gmap bytes InstrumentId)
    : InstrumentRegistry D :=
  {| by_id := <[id := {| rec_id := rec_id rec; rec_key := rec_key rec; rec_meta := rec_meta rec;
                         rec_binance := rec_binance rec; rec_polymarket := Some pm |}]> (by_id r);
     reg_by_key := reg_by_key r; reg_by_binance := reg_by_binance r;
     reg_by_token := tokens; next_id := next_id r |}.

(** [if let Some(ref old) = window { index.remove(&old.token_id) }]. *)
Definition remove_window (w : option PolymarketWindowBinding) (tokens : gmap bytes InstrumentId)
    : gmap bytes InstrumentId :=
  match w with Some old => delete (token_id old) tokens | None => tokens end.

Definition bind_polymarket_current r id (binding : PolymarketWindowBinding)
    : InstrumentRegistry D * result unit RegistryError :=
  match by_id r !! id with
  | None => (r, Err (MissingInstrument id))
  | Some rec =>
      match rec_polymarket rec with
      | None => (r, Err (MissingPolymarketBinding id))
      | Some pm =>
          (set_polymarket r id rec {| pm_current := Some binding; pm_next := pm_next pm |}
             (<[token_id binding := id]> (remove_window (pm_current pm) (reg_by_token r))), Ok tt)
      end
  end.

Definition bind_polymarket_next r id (binding : PolymarketWindowBinding)
    : InstrumentRegistry D * result unit RegistryError :=
  match by_id r !! id with
  | None => (r, Err (MissingInstrument id))
  | Some rec =>
      match rec_polymarket rec with
      | None => (r, Err (MissingPolymarketBinding id))
      | Some pm =>
          (set_polymarket r id rec {| pm_current := pm_current pm; pm_next := Some binding |}
             (<[token_id binding := id]> (remove_window (pm_next pm) (reg_by_token r))), Ok tt)
      end
  end.

Definition promote_polymarket_next r id : InstrumentRegistry D * result unit RegistryError :=
  match by_id r !! id with
  | None => (r, Err (MissingInstrument id))
  | Some rec =>
      match rec_polymarket rec with
      | None => (r, Err (MissingPolymarketBinding id))
      | Some pm =>
          match pm_next pm with
          | None => (r, Err (NoNextWindow id))
          | Some next =>
              (set_polymarket r id rec {| pm_current := Some next; pm_next := None |}
                 (remove_window (pm_current pm) (reg_by_token r)), Ok tt)
          end
      end
  end.

Definition unbind_polymarket r id : InstrumentRegistry D * result unit RegistryError :=
  match by_id r !! id with
  | None => (r, Err (MissingInstrument id))
  | Some rec =>
      match rec_polymarket rec with
      | None => (r, Err (MissingPolymarketBinding id))
      | Some pm =>
          (set_polymarket r id rec {| pm_current := None; pm_next := None |}
             (remove_window (pm_next pm) (remove_window (pm_current pm) (reg_by_token r))), Ok tt)
      end
  end.
End registry.

(** * Invariant *)

Definition window_bound (pm : PolymarketBinding) (t : bytes) : Prop :=
  token_id <$> pm_current pm = Some t \/ token_id <$> pm_next pm = Some t.

Record reg_inv {D} (r : InstrumentRegistry D) : Prop := {
  inv_next : in_range U32 (next_id r);
  inv_ids id rec : by_id r !! id = Some rec ->
    rec_id rec = id /\ 0 < inst_to_raw id <= tmax U32 /\ (next_id r = 0 \/ inst_to_raw id < next_id r);
  inv_keys k id : reg_by_key r !! k = Some id <-> exists rec, by_id r !! id = Some rec /\ rec_key rec = k;
  inv_binance s id : reg_by_binance r !! s = Some id <->
    exists rec, by_id r !! id = Some rec /\ bn_symbol <$> rec_binance rec = Some s;
  inv_tokens t id : reg_by_token r !! t = Some id ->
    exists rec pm, by_id r !! id = Some rec /\ rec_polymarket rec = Some pm /\ window_bound pm t;
}.

(** Registered instruments keep their identity. *)
Definition reg_extends {D} (r r' : InstrumentRegistry D) : Prop :=
  forall id rec, by_id r !! id = Some rec -> exists rec', by_id r' !! id = Some rec'
    /\ rec_id rec' = rec_id rec /\ rec_key rec' = rec_key rec /\ rec_meta rec' = rec_meta rec
    /\ rec_binance rec' = rec_binance rec.

#[global] Instance reg_extends_preorder {D} : PreOrder (@reg_extends D).
Proof.
  split; [by intros r id rec ?; exists rec|].
  intros r1 r2 r3 H12 H23 id rec E. destruct (H12 id rec E) as (rec2 & E2 & ? & ? & ? & ?).
  destruct (H23 id rec2 E2) as (rec3 & E3 & ? & ? & ? & ?). exists rec3. split_and!; congruence.
Qed.

Section registry_lemmas.
Context {D : Z}.
Implicit Types (r : InstrumentRegistry D) (rec : InstrumentRecord D) (id : InstrumentId).

Lemma registry_new_inv : reg_inv (registry_new : InstrumentRegistry D).
Proof.
  split; [by vm_compute| | | |]; intros *; cbn.
  - by rewrite lookup_empty.
  - rewrite lookup_empty. split; [done|]. intros (? & E & _). by rewrite lookup_empty in E.
  - rewrite lookup_empty. split; [done|]. intros (? & E & _). by rewrite lookup_empty in E.
  - by rewrite lookup_empty.
Qed.

Lemma alloc_id_inv r r' id :
  reg_inv r -> alloc_id r = (r', Ok id) ->
  reg_inv r' /\ by_id r' = by_id r /\ reg_by_key r' = reg_by_key r /\ reg_by_binance r' = reg_by_binance r
  /\ reg_by_token r' = reg_by_token r /\ by_id r !! id = None
  /\ 0 < inst_to_raw id <= tmax U32 /\ (next_id r' = 0 \/ inst_to_raw id < next_id r').
Proof.
  intros Hinv. unfold alloc_id. destruct (Z.eqb_spec (next_id r) 0) as [|Hne]; [done|].
  intros [= <- <-]. pose proof (inv_next r Hinv) as Hn.
  assert (in_range U32 (wrap U32 (next_id r + 1))) by apply wrap_in_range.
  assert (wrap U32 (next_id r + 1) = 0 \/ next_id r < wrap U32 (next_id r + 1)) as Hw.
  { destruct (decide (next_id r = tmax U32)) as [->|]; [by left|]. right. rewrite wrap_id by mlia. lia. }
  split_and!; cbn [by_id reg_by_key reg_by_binance reg_by_token next_id inst_to_raw]; [|done..| | | |done].
  - destruct Hinv as [_ Hids ? ? ?]. split; cbn [by_id reg_by_key reg_by_binance reg_by_token next_id]; [done| |done..].
    intros id rec E. destruct (Hids id rec E) as (? & ? & ?). split_and!; [done|lia..].
  - destruct (by_id r !! _) as [rec|] eqn:E; [|done].
    apply (inv_ids r Hinv) in E as (_ & ? & ?). cbn in *. lia.
  - mlia.
  - mlia.
Qed.

(** Adding a record under a fresh id, key and symbol. *)
Lemma fresh_record_inv r id rec bn :
  reg_inv r -> by_id r !! id = None -> rec_id rec = id -> 0 < inst_to_raw id <= tmax U32 ->
  next_id r = 0 \/ inst_to_raw id < next_id r -> reg_by_key r !! rec_key rec = None ->
  bn = bn_symbol <$> rec_binance rec -> (forall s, bn = Some s -> reg_by_binance r !! s = None) ->
  reg_inv {| by_id := <[id := rec]> (by_id r); reg_by_key := <[rec_key rec := id]> (reg_by_key r);
             reg_by_binance := match bn with Some s => <[s := id]> (reg_by_binance r) | None => reg_by_binance r end;
             reg_by_token := reg_by_token r; next_id := next_id r |}.
Proof.
  intros [Hn Hids Hkeys Hbn Htok] Hfresh Hid Hrange Hlt Hk Ebn Hb.
  split; cbn [by_id reg_by_key reg_by_binance reg_by_token next_id]; [done| | | |].
  - intros id' rec'. rewrite lookup_insert_Some. intros [[<- <-]|[_ ?]]; [done|by apply Hids].
  - intros k id'. rewrite lookup_insert_Some. setoid_rewrite lookup_insert_Some. rewrite Hkeys. split.
    + intros [[<- <-]|[Hne (rec' & E & <-)]]; [by eauto|]. exists rec'. split; [|done].
      right. split; [|done]. congruence.
    + intros (rec' & [[<- <-]|[Hne E]] & <-); [by left|]. right. split; [|by eauto].
      intros Ek. assert (reg_by_key r !! rec_key rec' = Some id') by (apply Hkeys; eauto). congruence.
  - intros s id'. setoid_rewrite lookup_insert_Some. destruct bn as [s0|].
    + specialize (Hb s0 eq_refl). rewrite lookup_insert_Some, Hbn. split.
      * intros [[<- <-]|[Hne (rec' & E & ?)]]; [by eauto|]. exists rec'. split; [|done].
        right. split; [|done]. congruence.
      * intros (rec' & [[<- <-]|[Hne E]] & Es); [left; by rewrite Es in Ebn; simplify_eq|].
        right. assert (reg_by_binance r !! s = Some id') by (apply Hbn; eauto).
        split; [congruence|eauto].
    + rewrite Hbn. split.
      * intros (rec' & E & ?). exists rec'. split; [|done]. right. split; [|done]. congruence.
      * intros (rec' & [[<- <-]|[Hne E]] & Es); [congruence|eauto].
  - intros t id' E. apply Htok in E as (rec' & pm & E & ? & ?). exists rec', pm.
    split_and!; [|done..]. rewrite lookup_insert_ne; [done|]. congruence.
Qed.

Lemma reg_insert_inv r key meta bn pm r' res :
  reg_inv r -> reg_insert r key meta bn pm = (r', res) -> reg_inv r' /\ reg_extends r r'.
Proof.
  intros Hinv. unfold reg_insert. destruct (reg_by_key r !! key) eqn:Ek; [by intros [= <- <-]|].
  destruct (alloc_id r) as [r1 [id|e]] eqn:Ea.
  2: { unfold alloc_id in Ea. case_match; simplify_eq. by intros [= <- <-]. }
  destruct (alloc_id_inv r r1 id Hinv Ea) as (Hinv1 & E1 & E2 & E3 & E4 & Hfresh & Hr & Hn).
  assert (forall rec X Y Z n, reg_extends r {| by_id := <[id := rec]> (by_id r1); reg_by_key := X;
    reg_by_binance := Y; reg_by_token := Z; next_id := n |}) as Hext.
  { intros rec X Y Z n id' rec' E. exists rec'. cbn. rewrite E1, lookup_insert_ne by congruence. done. }
  assert (reg_extends r r1) as Hext1 by (intros id' rec' E; exists rec'; by rewrite E1).
  rewrite <- E1 in Hfresh. rewrite <- E2 in Ek.
  destruct bn as [bn|]; [destruct (reg_by_binance r1 !! bn_symbol bn) eqn:Eb|].
  - by intros [= <- <-].
  - intros [= <- <-]. split; [|apply Hext].
    by apply (fresh_record_inv r1 id {| rec_id := id; rec_key := key; rec_meta := meta; rec_binance := Some bn;
      rec_polymarket := pm |} (Some (bn_symbol bn))); try done; intros ? [= <-].
  - intros [= <- <-]. split; [|apply Hext].
    by apply (fresh_record_inv r1 id {| rec_id := id; rec_key := key; rec_meta := meta; rec_binance := None;
      rec_polymarket := pm |} None).
Qed.

Lemma set_polymarket_inv r id rec pm tokens :
  reg_inv r -> by_id r !! id = Some rec ->
  (forall t id', tokens !! t = Some id' ->
     if decide (id' = id) then window_bound pm t else reg_by_token r !! t = Some id') ->
  reg_inv (set_polymarket r id rec pm tokens) /\ reg_extends r (set_polymarket r id rec pm tokens).
Proof.
  intros [Hn Hids Hkeys Hbn Htok] Erec Ht. unfold set_polymarket.
  set (rec' := {| rec_id := rec_id rec; rec_key := rec_key rec; rec_meta := rec_meta rec;
                  rec_binance := rec_binance rec; rec_polymarket := Some pm |}).
  assert (forall (P : InstrumentRecord D -> Prop) id',
    (P rec' <-> P rec) ->
    (exists x, <[id := rec']> (by_id r) !! id' = Some x /\ P x) <-> (exists x, by_id r !! id' = Some x /\ P x)) as Hex.
  { intros P id' HP. setoid_rewrite lookup_insert_Some. split.
    - intros (x & [[<- <-]|[? ?]] & ?); [exists rec; tauto|eauto].
    - intros (x & E & ?). destruct (decide (id = id')) as [<-|]; [|by exists x; split; [right|]].
      assert (x = rec) as -> by congruence.
      exists rec'. split; [by left|]. by apply HP. }
  split; [split|]; cbn [by_id reg_by_key reg_by_binance reg_by_token next_id].
  - done.
  - intros id' x. rewrite lookup_insert_Some. intros [[<- <-]|[_ ?]]; [|by apply Hids].
    destruct (Hids id rec Erec) as (Hr & ? & ?). split; [exact Hr|]. by split.
  - intros k id'. by rewrite Hkeys, (Hex (fun x => rec_key x = k)).
  - intros s0 id'. by rewrite Hbn, (Hex (fun x => bn_symbol <$> rec_binance x = Some s0)).
  - intros t id' E. apply Ht in E. case_decide as Hd.
    + subst. exists rec', pm. by rewrite lookup_insert_eq.
    + apply Htok in E as (x & pm' & ? & ? & ?). exists x, pm'. by rewrite lookup_insert_ne.
  - intros id' x E. cbn. destruct (decide (id = id')) as [<-|].
    + exists rec'. rewrite lookup_insert_eq. simplify_eq. done.
    + exists x. by rewrite lookup_insert_ne.
Qed.

Lemma remove_window_Some (w : option PolymarketWindowBinding) (tokens : gmap bytes InstrumentId) (t : bytes) id :
  remove_window w tokens !! t = Some id <-> tokens !! t = Some id /\ token_id <$> w <> Some t.
Proof.
  destruct w as [w|]; cbn; [|naive_solver]. rewrite lookup_delete_Some. naive_solver.
Qed.

(** The tokens that the index attributes to an instrument are its windows. *)
Lemma tokens_of_record r id rec pm t :
  reg_inv r -> by_id r !! id = Some rec -> rec_polymarket rec = Some pm ->
  reg_by_token r !! t = Some id -> window_bound pm t.
Proof. intros Hinv Er Ep (rec' & pm' & ? & ? & ?)%(inv_tokens r Hinv). congruence. Qed.

Lemma bind_current_inv r id w r' res :
  reg_inv r -> bind_polymarket_current r id w = (r', res) -> reg_inv r' /\ reg_extends r r'.
Proof.
  intros Hinv. unfold bind_polymarket_current.
  destruct (by_id r !! id) as [rec|] eqn:Er; [|by intros [= <- <-]].
  destruct (rec_polymarket rec) as [pm|] eqn:Ep; [|by intros [= <- <-]].
  intros [= <- <-]. apply set_polymarket_inv; [done..|]. intros t id'.
  rewrite lookup_insert_Some, remove_window_Some. intros [[<- <-]|[_ [E Hne]]].
  - rewrite decide_True by done. by left.
  - case_decide; [subst|done]. destruct (tokens_of_record r id rec pm t); [done..|by right].
Qed.

Lemma bind_next_inv r id w r' res :
  reg_inv r -> bind_polymarket_next r id w = (r', res) -> reg_inv r' /\ reg_extends r r'.
Proof.
  intros Hinv. unfold bind_polymarket_next.
  destruct (by_id r !! id) as [rec|] eqn:Er; [|by intros [= <- <-]].
  destruct (rec_polymarket rec) as [pm|] eqn:Ep; [|by intros [= <- <-]].
  intros [= <- <-]. apply set_polymarket_inv; [done..|]. intros t id'.
  rewrite lookup_insert_Some, remove_window_Some. intros [[<- <-]|[_ [E Hne]]].
  - rewrite decide_True by done. by right.
  - case_decide; [subst|done]. destruct (tokens_of_record r id rec pm t); [done..|by left|done].
Qed.

Lemma promote_inv r id r' res :
  reg_inv r -> promote_polymarket_next r id = (r', res) -> reg_inv r' /\ reg_extends r r'.
Proof.
  intros Hinv. unfold promote_polymarket_next.
  destruct (by_id r !! id) as [rec|] eqn:Er; [|by intros [= <- <-]].
  destruct (rec_polymarket rec) as [pm|] eqn:Ep; [|by intros [= <- <-]].
  destruct (pm_next pm) as [w|] eqn:En; [|by intros [= <- <-]].
  intros [= <- <-]. apply set_polymarket_inv; [done..|]. intros t id'.
  rewrite remove_window_Some. intros [E Hne]. case_decide; [subst|done].
  destruct (tokens_of_record r id rec pm t); [done..|]. left. by rewrite <- En.
Qed.

Lemma unbind_inv r id r' res :
  reg_inv r -> unbind_polymarket r id = (r', res) -> reg_inv r' /\ reg_extends r r'.
Proof.
  intros Hinv. unfold unbind_polymarket.
  destruct (by_id r !! id) as [rec|] eqn:Er; [|by intros [= <- <-]].
  destruct (rec_polymarket rec) as [pm|] eqn:Ep; [|by intros [= <- <-]].
  intros [= <- <-]. apply set_polymarket_inv; [done..|]. intros t id'.
  rewrite !remove_window_Some. intros [[E Hc] Hn]. case_decide; [subst|done].
  by destruct (tokens_of_record r id rec pm t).
Qed.

Lemma insert_pair_inv r base tf meta sym r' res :
  reg_inv r -> insert_prediction_pair r base tf meta sym = (r', res) -> reg_inv r' /\ reg_extends r r'.
Proof.
  intros Hinv. unfold insert_prediction_pair. case_match; [by intros [= <- <-]|].
  case_match; [by intros [= <- <-]|].
  destruct (reg_insert r _ _ _ _) as [r1 [up|e]] eqn:E1;
    destruct (reg_insert_inv _ _ _ _ _ _ _ Hinv E1) as [Hinv1 Hext1]; [|by intros [= <- <-]].
  destruct (reg_insert r1 _ _ _ _) as [r2 [dn|e]] eqn:E2;
    destruct (reg_insert_inv _ _ _ _ _ _ _ Hinv1 E2) as [Hinv2 Hext2];
    intros [= <- <-]; (split; [done|]); by etransitivity.
Qed.
End registry_lemmas.

(** * Sequences of operations *)

Inductive reg_op (D : Z) :=
| RInsert (k : InstrumentKey) (m : InstrumentMeta D) (bn : option BinanceBinding) (pm : option PolymarketBinding)
| RInsertPair (b : Asset) (tf : Timeframe) (m : InstrumentMeta D) (sym : option bytes)
| RBindCurrent (id : InstrumentId) (w : PolymarketWindowBinding)
| RBindNext (id : InstrumentId) (w : PolymarketWindowBinding)
| RPromote (id : InstrumentId)
| RUnbind (id : InstrumentId).
Arguments RInsert {D} _ _ _ _.
Arguments RInsertPair {D} _ _ _ _.
Arguments RBindCurrent {D} _ _.
Arguments RBindNext {D} _ _.
Arguments RPromote {D} _.
Arguments RUnbind {D} _.

Definition reg_step {D} (r : InstrumentRegistry D) (op : reg_op D) : InstrumentRegistry D :=
  match op with
  | RInsert k m bn pm => (reg_insert r k m bn pm).1
  | RInsertPair b tf m sym => (insert_prediction_pair r b tf m sym).1
  | RBindCurrent id w => (bind_polymarket_current r id w).1
  | RBindNext id w => (bind_polymarket_next r id w).1
  | RPromote id => (promote_polymarket_next r id).1
  | RUnbind id => (unbind_polymarket r id).1
  end.

Lemma reg_step_inv {D} (r : InstrumentRegistry D) op : reg_inv r -> reg_inv (reg_step r op) /\ reg_extends r (reg_step r op).
Proof.
  intros Hinv. destruct op; cbn.
  - destruct (reg_insert r k m bn pm) eqn:E. by eapply reg_insert_inv.
  - destruct (insert_prediction_pair r b tf m sym) eqn:E. by eapply insert_pair_inv.
  - destruct (bind_polymarket_current r id w) eqn:E. by eapply bind_current_inv.
  - destruct (bind_polymarket_next r id w) eqn:E. by eapply bind_next_inv.
  - destruct (promote_polymarket_next r id) eqn:E. by eapply promote_inv.
  - destruct (unbind_polymarket r id) eqn:E. by eapply unbind_inv.
Qed.

Lemma reg_run_inv {D} ops (r : InstrumentRegistry D) :
  reg_inv r -> reg_inv (foldl reg_step r ops) /\ reg_extends r (foldl reg_step r ops).
Proof.
  revert r. induction ops as [|op ops IH]; intros r Hinv; cbn; [done|].
  destruct (reg_step_inv r op Hinv) as [Hinv1 Hext]. destruct (IH _ Hinv1) as [? ?].
  split; [done|]. by etransitivity.
Qed.

(** C14: whatever operations are applied to a new registry, including failing
    ones, ids are never zero and never reused, the key and Binance indexes are
    exactly the inverse of the records, every token the Polymarket index
    resolves is a current or next window of the instrument it resolves to, and
    further operations never change the id, key, metadata or Binance symbol of
    a registered instrument. *)
Theorem registry_indexes_sound {D} (ops more : list (reg_op D)) :
  let r := foldl reg_step registry_new ops in
  (forall id rec, by_id r !! id = Some rec -> rec_id rec = id /\ 0 < inst_to_raw id <= tmax U32)
  /\ (forall k id, by_key r k = Some id <-> exists rec, reg_get r id = Some rec /\ rec_key rec = k)
  /\ (forall s id, by_binance_symbol r s = Some id <->
        exists rec, reg_get r id = Some rec /\ bn_symbol <$> rec_binance rec = Some s)
  /\ (forall t id, by_polymarket_token_id r t = Some id ->
        exists rec pm, reg_get r id = Some rec /\ rec_polymarket rec = Some pm /\ window_bound pm t)
  /\ reg_extends r (foldl reg_step registry_new (ops ++ more)).
Proof.
  cbn zeta. destruct (reg_run_inv ops registry_new registry_new_inv) as [Hinv _].
  rewrite foldl_app. destruct (reg_run_inv more _ Hinv) as [_ Hext].
  destruct Hinv as [Hn Hids Hkeys Hbn Htok]. split_and!; [|done..].
  intros id rec E. destruct (Hids id rec E) as (? & ? & _). done.
Qed.

(** * Tokens that are never shared *)

(** The tokens of the windows that inserted bindings bring along. *)
Definition binding_tokens (pm : PolymarketBinding) : list bytes :=
  option_list (token_id <$> pm_current pm) ++ option_list (token_id <$> pm_next pm).
Definition inserted_tokens {D} (ops : list (reg_op D)) : list bytes :=
  concat (map (fun op => match op with RInsert _ _ _ (Some pm) => binding_tokens pm | _ => [] end) ops).

(** The tokens bound by an operation are new: the registry does not resolve
    them and no inserted binding brings them along ([brought]). *)
Definition binds_new {D} (brought : list bytes) (r : InstrumentRegistry D) (op : reg_op D) : Prop :=
  match op with
  | RBindCurrent _ w | RBindNext _ w => reg_by_token r !! token_id w = None /\ (token_id w ∉ brought)
  | _ => True
  end.

Fixpoint binds_new_run {D} (brought : list bytes) (r : InstrumentRegistry D) (ops : list (reg_op D)) : Prop :=
  match ops with
  | [] => True
  | op :: ops => binds_new brought r op /\ binds_new_run brought (reg_step r op) ops
  end.

Section completeness.
Context {D : Z} (brought : list bytes).
Implicit Types (r : InstrumentRegistry D) (id : InstrumentId) (rec : InstrumentRecord D)
  (pm : PolymarketBinding) (t : bytes).

(** A bound window is one that no insertion brought along. *)
Definition bound_window pm t : Prop := window_bound pm t /\ (t ∉ brought).

(** Every bound window's token resolves to its instrument, the two windows of an
    instrument carry different tokens, and brought tokens do not resolve. *)
Record reg_complete r : Prop := {
  rc_resolves id rec pm t : by_id r !! id = Some rec -> rec_polymarket rec = Some pm ->
    bound_window pm t -> reg_by_token r !! t = Some id;
  rc_apart id rec pm t : by_id r !! id = Some rec -> rec_polymarket rec = Some pm -> (t ∉ brought) ->
    token_id <$> pm_current pm = Some t -> token_id <$> pm_next pm <> Some t;
  rc_brought t id : reg_by_token r !! t = Some id -> t ∉ brought;
}.

Lemma reg_insert_complete r key meta bn (pm : option PolymarketBinding) r' res :
  reg_inv r -> reg_complete r -> match pm with Some pm => Forall (.∈ brought) (binding_tokens pm) | None => True end ->
  reg_insert r key meta bn pm = (r', res) -> reg_complete r'.
Proof.
  intros Hinv Hc Hpm. unfold reg_insert. destruct (reg_by_key r !! key); [by intros [= <- <-]|].
  destruct (alloc_id r) as [r1 [id|e]] eqn:Ea;
    [|unfold alloc_id in Ea; case_match; simplify_eq; by intros [= <- <-]].
  destruct (alloc_id_inv r r1 id Hinv Ea) as (_ & E1 & _ & _ & E4 & Hfresh & _).
  assert (reg_complete r1) as Hc1 by (destruct Hc; split; rewrite ?E1, ?E4; done).
  assert (forall t, match pm with Some pm => window_bound pm t -> t ∈ brought | None => True end) as Hw.
  { intros t. destruct pm as [pm|]; [|done]. rewrite Forall_forall in Hpm. unfold window_bound, binding_tokens in *.
    intros [E|E]; apply Hpm, in_or_app; rewrite E; [left|right]; by left. }
  assert (forall bnd K Bn n, reg_complete {| by_id := <[id := {| rec_id := id; rec_key := key; rec_meta := meta;
      rec_binance := bnd; rec_polymarket := pm |}]> (by_id r1); reg_by_key := K; reg_by_binance := Bn;
      reg_by_token := reg_by_token r1; next_id := n |}) as Hnew.
  { intros bnd K Bn n. destruct Hc1 as [Hr Ha Hb]. split; cbn; [| |done].
    - intros id' rec' pm' t. rewrite lookup_insert_Some. intros [[<- <-]|[_ E]]; [|by apply (Hr id' rec')].
      cbn. intros -> [Ht Hn]. by destruct Hn; apply Hw.
    - intros id' rec' pm' t. rewrite lookup_insert_Some. intros [[<- <-]|[_ E]]; [|by apply (Ha id' rec')].
      cbn. intros -> Hn Ht _. destruct Hn. apply Hw. by left. }
  destruct bn as [bn|]; [destruct (reg_by_binance r1 !! bn_symbol bn)|]; intros E; injection E as <- _; [done|apply Hnew..].
Qed.

(** Replacing an instrument's windows when the index follows. *)
Lemma set_polymarket_complete r id rec pm (tokens : gmap bytes InstrumentId) :
  reg_complete r ->
  (forall t id', id' <> id -> reg_by_token r !! t = Some id' -> tokens !! t = Some id') ->
  (forall t, bound_window pm t -> tokens !! t = Some id) ->
  (forall t, (t ∉ brought) -> token_id <$> pm_current pm = Some t -> token_id <$> pm_next pm <> Some t) ->
  (forall t id', tokens !! t = Some id' -> t ∉ brought) ->
  reg_complete (set_polymarket r id rec pm tokens).
Proof.
  intros [Hr Ha Hb] Hother Hown Hdis Hbr. split; cbn; [| |done].
  - intros id' rec' pm' t. rewrite lookup_insert_Some. intros [[<- <-]|[Hne E]]; cbn; [intros [= <-]; apply Hown|].
    intros Ep Ht. apply Hother; [done|]. by apply (Hr id' rec' pm').
  - intros id' rec' pm' t. rewrite lookup_insert_Some. intros [[<- <-]|[Hne E]]; cbn; [intros [= <-]; apply Hdis|].
    apply (Ha id' rec' pm' t E).
Qed.

(** A token of another instrument is none of these windows. *)
Lemma other_window r id rec pm t id' :
  reg_complete r -> by_id r !! id = Some rec -> rec_polymarket rec = Some pm ->
  id' <> id -> reg_by_token r !! t = Some id' ->
  token_id <$> pm_current pm <> Some t /\ token_id <$> pm_next pm <> Some t.
Proof.
  intros Hc Er Ep Hne Et. pose proof (rc_brought r Hc t id' Et) as Hn.
  assert (~ window_bound pm t) as Hw.
  { intros Hw. pose proof (rc_resolves r Hc id rec pm t Er Ep (conj Hw Hn)). congruence. }
  split; intros E; apply Hw; [by left|by right].
Qed.

Lemma bind_current_complete r id w :
  reg_complete r -> reg_by_token r !! token_id w = None -> (token_id w ∉ brought) ->
  reg_complete (bind_polymarket_current r id w).1.
Proof.
  intros Hc Hn Hb. unfold bind_polymarket_current. destruct (by_id r !! id) as [rec|] eqn:Er; [|done].
  destruct (rec_polymarket rec) as [pm|] eqn:Ep; [|done]. cbn [fst].
  apply set_polymarket_complete; [done|..]; unfold bound_window, window_bound; cbn.
  - intros t id' Hne E. rewrite lookup_insert_Some, remove_window_Some. right. split; [congruence|].
    split; [done|]. by eapply other_window.
  - intros t [[[= <-]|E] Ht]; [by rewrite lookup_insert_eq|].
    pose proof (rc_resolves r Hc id rec pm t Er Ep (conj (or_intror E) Ht)).
    rewrite lookup_insert_Some, remove_window_Some. right. split; [congruence|]. split; [done|].
    intros Ec. by apply (rc_apart r Hc id rec pm t Er Ep Ht Ec).
  - intros t Ht [= <-] E. pose proof (rc_resolves r Hc id rec pm _ Er Ep (conj (or_intror E) Ht)). congruence.
  - intros t id'. rewrite lookup_insert_Some, remove_window_Some. intros [[<- _]|[_ [E _]]]; [done|].
    by eapply rc_brought.
Qed.

Lemma bind_next_complete r id w :
  reg_complete r -> reg_by_token r !! token_id w = None -> (token_id w ∉ brought) ->
  reg_complete (bind_polymarket_next r id w).1.
Proof.
  intros Hc Hn Hb. unfold bind_polymarket_next. destruct (by_id r !! id) as [rec|] eqn:Er; [|done].
  destruct (rec_polymarket rec) as [pm|] eqn:Ep; [|done]. cbn [fst].
  apply set_polymarket_complete; [done|..]; unfold bound_window, window_bound; cbn.
  - intros t id' Hne E. rewrite lookup_insert_Some, remove_window_Some. right. split; [congruence|].
    split; [done|]. by eapply other_window.
  - intros t [[E|[= <-]] Ht]; [|by rewrite lookup_insert_eq].
    pose proof (rc_resolves r Hc id rec pm t Er Ep (conj (or_introl E) Ht)).
    rewrite lookup_insert_Some, remove_window_Some. right. split; [congruence|]. split; [done|].
    by apply (rc_apart r Hc id rec pm t Er Ep Ht).
  - intros t Ht E [= <-]. pose proof (rc_resolves r Hc id rec pm _ Er Ep (conj (or_introl E) Ht)). congruence.
  - intros t id'. rewrite lookup_insert_Some, remove_window_Some. intros [[<- _]|[_ [E _]]]; [done|].
    by eapply rc_brought.
Qed.

Lemma promote_complete r id : reg_complete r -> reg_complete (promote_polymarket_next r id).1.
Proof.
  intros Hc. unfold promote_polymarket_next. destruct (by_id r !! id) as [rec|] eqn:Er; [|done].
  destruct (rec_polymarket rec) as [pm|] eqn:Ep; [|done]. destruct (pm_next pm) as [w|] eqn:En; [|done]. cbn [fst].
  apply set_polymarket_complete; [done|..]; unfold bound_window, window_bound; cbn.
  - intros t id' Hne E. rewrite remove_window_Some. split; [done|]. by eapply other_window.
  - intros t [[[= <-]|[=]] Ht]. rewrite remove_window_Some. split.
    + apply (rc_resolves r Hc id rec pm _ Er Ep). split; [right; by rewrite En|done].
    + intros Ec. apply (rc_apart r Hc id rec pm _ Er Ep Ht Ec). by rewrite En.
  - done.
  - intros t id'. rewrite remove_window_Some. intros [E _]. by eapply rc_brought.
Qed.

Lemma unbind_complete r id : reg_complete r -> reg_complete (unbind_polymarket r id).1.
Proof.
  intros Hc. unfold unbind_polymarket. destruct (by_id r !! id) as [rec|] eqn:Er; [|done].
  destruct (rec_polymarket rec) as [pm|] eqn:Ep; [|done]. cbn [fst].
  apply set_polymarket_complete; [done|..]; unfold bound_window, window_bound; cbn; [|naive_solver|done|].
  - intros t id' Hne E. rewrite !remove_window_Some.
    destruct (other_window r id rec pm t id' Hc Er Ep Hne E). by split_and!.
  - intros t id'. rewrite !remove_window_Some. intros [[E _] _]. by eapply rc_brought.
Qed.

Lemma reg_step_complete r op :
  reg_inv r -> reg_complete r -> binds_new brought r op -> Forall (.∈ brought) (inserted_tokens [op]) ->
  reg_complete (reg_step r op).
Proof.
  intros Hinv Hc Hop Hin. destruct op as [k m bn pm|b tf m sym|id w|id w|id|id]; cbn in *.
  - destruct (reg_insert r k m bn pm) eqn:E. eapply reg_insert_complete; [done..| |exact E].
    destruct pm; [|done]. cbn in Hin. by rewrite app_nil_r in Hin.
  - unfold insert_prediction_pair. case_match; [done|]. case_match; [done|].
    destruct (reg_insert r _ _ _ _) as [r1 [up|e]] eqn:E1; cbn.
    2: by eapply reg_insert_complete in E1.
    destruct (reg_insert_inv _ _ _ _ _ _ _ Hinv E1) as [Hinv1 _].
    assert (reg_complete r1) by by eapply reg_insert_complete in E1.
    destruct (reg_insert r1 _ _ _ _) as [r2 [dn|e]] eqn:E2; by eapply reg_insert_complete in E2.
  - destruct Hop. by apply bind_current_complete.
  - destruct Hop. by apply bind_next_complete.
  - by apply promote_complete.
  - by apply unbind_complete.
Qed.

Lemma reg_run_complete ops r :
  reg_inv r -> reg_complete r -> binds_new_run brought r ops -> Forall (.∈ brought) (inserted_tokens ops) ->
  reg_complete (foldl reg_step r ops).
Proof.
  revert r. induction ops as [|op ops IH]; intros r Hinv Hc; cbn; [done|]. intros [Hop Hops] [Hi Hin]%Forall_app.
  apply IH; [by apply reg_step_inv| |done..]. apply reg_step_complete; [done..|]. cbn. by rewrite app_nil_r.
Qed.
End completeness.

(** C15: which tokens resolve, after any operations that bind only new tokens
    (tokens the registry does not resolve at that moment, and that no inserted
    binding brings along): exactly those of the windows that were bound, that
    is, the tokens of all current and next windows, through binding,
    pre-binding, promotion and unbinding, except the ones that [insert] brought
    along in the binding it was given, which never resolve. *)
Theorem registry_tokens_resolve {D} (ops : list (reg_op D)) :
  binds_new_run (inserted_tokens ops) registry_new ops ->
  let r := foldl reg_step registry_new ops in
  forall t id, by_polymarket_token_id r t = Some id <->
    exists rec pm, reg_get r id = Some rec /\ rec_polymarket rec = Some pm /\ window_bound pm t
      /\ (t ∉ inserted_tokens ops).
Proof.
  intros Hf. cbn zeta. intros t id.
  destruct (reg_run_inv ops registry_new registry_new_inv) as [Hinv _].
  assert (reg_complete (inserted_tokens ops) (foldl reg_step registry_new ops)) as Hc.
  { apply reg_run_complete; [apply registry_new_inv| |done|by apply Forall_forall; intros ? ?%list_elem_of_In].
    split; cbn; intros *; by rewrite lookup_empty. }
  split.
  - intros E. destruct (inv_tokens _ Hinv t id E) as (rec & pm & ? & ? & ?). exists rec, pm.
    split_and!; [done..|]. by eapply rc_brought.
  - intros (rec & pm & Er & Ep & Hw & Hn). by apply (rc_resolves _ _ Hc id rec pm).
Qed.

(** An instrument inserted with a window already in its binding: the window is
    stored but its token does not resolve, and promoting it does not help. *)
Theorem inserted_window_unresolved {D} (r : InstrumentRegistry D) key meta w r' id :
  reg_by_token r !! token_id w = None ->
  reg_insert r key meta None (Some {| pm_current := None; pm_next := Some w |}) = (r', Ok id) ->
  let r'' := (promote_polymarket_next r' id).1 in
  (exists rec pm, reg_get r'' id = Some rec /\ rec_polymarket rec = Some pm /\ pm_current pm = Some w)
  /\ by_polymarket_token_id r'' (token_id w) = None.
Proof.
  intros Hn. unfold reg_insert. destruct (reg_by_key r !! key); [done|]. unfold alloc_id.
  destruct (next_id r =? 0); [done|]. intros [= <- <-]. unfold promote_polymarket_next, reg_get, by_polymarket_token_id.
  cbn. rewrite lookup_insert_eq. cbn. rewrite lookup_insert_eq. split; [by eexists _, _|done].
Qed.

(** Without that discipline the registry silently shares a token.  Binding
    the current window of [id1] also to [id2] succeeds (the declared error
    [DuplicatePolymarketTokenId] is never returned) and redirects the token;
    when [id1] then moves to its next token, the token of [id2]'s current window
    no longer resolves at all. *)
Theorem shared_token_is_lost {D} (r : InstrumentRegistry D) id1 id2 rec1 rec2 pm1 pm2 w1 w2 w3 :
  id1 <> id2 -> by_id r !! id1 = Some rec1 -> by_id r !! id2 = Some rec2 ->
  rec_polymarket rec1 = Some pm1 -> rec_polymarket rec2 = Some pm2 ->
  pm_current pm1 = Some w1 -> token_id w2 = token_id w1 -> token_id w3 <> token_id w1 ->
  exists r2 r3, bind_polymarket_current r id2 w2 = (r2, Ok tt)
    /\ by_polymarket_token_id r2 (token_id w1) = Some id2
    /\ bind_polymarket_current r2 id1 w3 = (r3, Ok tt)
    /\ by_polymarket_token_id r3 (token_id w2) = None
    /\ exists rec pm, reg_get r3 id2 = Some rec /\ rec_polymarket rec = Some pm /\ pm_current pm = Some w2.
Proof.
  intros Hne E1 E2 P1 P2 C1 Ht Hfresh. unfold bind_polymarket_current. rewrite E2, P2.
  eexists _, _. split; [done|]. split.
  { unfold by_polymarket_token_id. cbn. by rewrite Ht, lookup_insert_eq. }
  cbn [set_polymarket by_id]. rewrite lookup_insert_ne, E1, P1 by done. split; [done|].
  unfold by_polymarket_token_id, reg_get. cbn. rewrite C1. cbn. split.
  - rewrite lookup_insert_ne, Ht by congruence. apply lookup_delete_eq.
  - rewrite lookup_insert_ne, lookup_insert_eq by done. eauto.
Qed.

Definition sample_window (t : Z) : PolymarketWindowBinding :=
  {| token_id := [t]; market_slug := []; window_start := from_nanos 0; window_end := from_nanos 1;
     condition_id := None |}.

Definition sample_meta : InstrumentMeta 6 := mkMeta (Fixed.from_raw 10000) (Fixed.from_raw 1000000).

Definition sample_ops : list (reg_op 6) :=
  [RInsertPair Btc M15 sample_meta None; RBindCurrent (inst_from_raw 1) (sample_window 7);
   RBindCurrent (inst_from_raw 2) (sample_window 9);
   RBindNext (inst_from_raw 1) (sample_window 8);
   RInsert (key_spot_reference Btc Usdt) sample_meta None
     (Some {| pm_current := Some (sample_window 5); pm_next := None |});
   RPromote (inst_from_raw 1)].

Lemma sample_binds_new : binds_new_run (inserted_tokens sample_ops) registry_new sample_ops.
Proof.
  unfold sample_ops. cbn [binds_new_run binds_new].
  repeat match goal with
  | |- _ /\ _ => split
  | |- True => exact I
  | |- _ ∉ _ => apply (bool_decide_unpack _); vm_compute; exact I
  | |- _ = None => vm_compute; reflexivity
  end.
Qed.

Lemma registry_tokens_witness :
  let r := foldl reg_step registry_new sample_ops in
  by_polymarket_token_id r [8] = Some (inst_from_raw 1) <->
    exists rec pm, reg_get r (inst_from_raw 1) = Some rec /\ rec_polymarket rec = Some pm /\ window_bound pm [8]
      /\ ([8] ∉ inserted_tokens sample_ops).
Proof.
  apply (registry_tokens_resolve sample_ops). apply sample_binds_new.
Defined.

Lemma shared_token_witness :
  let r := foldl reg_step registry_new (take 3 sample_ops) in
  exists r2 r3, bind_polymarket_current r (inst_from_raw 2) (sample_window 7) = (r2, Ok tt)
    /\ by_polymarket_token_id r2 [7] = Some (inst_from_raw 2)
    /\ bind_polymarket_current r2 (inst_from_raw 1) (sample_window 8) = (r3, Ok tt)
    /\ by_polymarket_token_id r3 [7] = None
    /\ exists rec pm, reg_get r3 (inst_from_raw 2) = Some rec /\ rec_polymarket rec = Some pm
         /\ pm_current pm = Some (sample_window 7).
Proof.
  cbn zeta.
  destruct (by_id (foldl reg_step registry_new (take 3 sample_ops)) !! inst_from_raw 1) as [rec1|] eqn:E1;
    [|by vm_compute in E1].
  destruct (by_id (foldl reg_step registry_new (take 3 sample_ops)) !! inst_from_raw 2) as [rec2|] eqn:E2;
    [|by vm_compute in E2].
  eapply (shared_token_is_lost _ (inst_from_raw 1) (inst_from_raw 2) rec1 rec2 _ _ (sample_window 7)
            (sample_window 7) (sample_window 8)); [done|exact E1|exact E2| | | |done|done].
  1: vm_compute in E1; injection E1 as <-; reflexivity.
  1: vm_compute in E2; injection E2 as <-; reflexivity.
  done.
Defined.
