(* ===== verification/Polymarket.v ===== *)
(** * Polymarket market decoder ([crates/polymarket/src/market])

    From a WebSocket frame to hot events: the type peek on the raw bytes, the
    three message kinds, tick and lot conversion through the registry, and the
    snapshot batches.  JSON deserialisation is a third-party crate
    ([sonic_rs], [simd_json] or [serde_json]); its functions are parameters of
    the model, one per message type. *)

From Stdlib Require Import ZArith Lia Ascii String.
From stdpp Require Import base decidable list numbers option tactics gmap.
From S2P Require Import Prelude Platform Fixed FixedText Types Events Registry.

#[local] Open Scope Z_scope.

(** ASCII literals as bytes. *)
Fixpoint lit (s : string) : bytes :=
  match s with
  | EmptyString => []
  | String a s => Z.of_N (N_of_ascii a) :: lit s
  end.
Arguments lit _%_string_scope.

Definition c_quote : Z := 34.

(** ** schema.rs *)

Record BookLevel := { lvl_price : bytes; lvl_size : bytes }.

Record PolymarketBookMsg := {
  bk_asset_id : bytes;
  bk_bids : list BookLevel;
  bk_asks : list BookLevel;
}.

Record PolymarketPriceChangeMsg := {
  pc_asset_id : bytes;
  pc_price : bytes;
  pc_size : bytes;
  pc_side : bytes;
}.

Record PolymarketTradeMsg := {
  tm_asset_id : bytes;
  tm_price : bytes;
  tm_size : bytes;
  tm_side : option bytes;
}.

(** The deserialisers of the JSON crate. *)
Class PolymarketJson := {
  parse_book : bytes -> option PolymarketBookMsg;
  parse_price_change : bytes -> option PolymarketPriceChangeMsg;
  parse_trade : bytes -> option PolymarketTradeMsg;
}.

(** ** Byte scanning *)

Fixpoint memchr_byte_from (byte : Z) (haystack : bytes) (i : nat) : option nat :=
  match haystack with
  | [] => None
  | b :: haystack => if b =? byte then Some i else memchr_byte_from byte haystack (S i)
  end.

Definition memchr_byte (byte : Z) (haystack : bytes) : option nat := memchr_byte_from byte haystack 0.

(** [for i in 0..limit], from index [i] with [fuel] iterations left. *)
Fixpoint memchr_find_from (haystack needle : bytes) (i fuel : nat) : option nat :=
  match fuel with
  | O => None
  | S fuel =>
      if decide (take (length needle) (drop i haystack) = needle) then Some i
      else memchr_find_from haystack needle (S i) fuel
  end.

Definition memchr_find (haystack needle : bytes) : option nat :=
  if decide (length haystack < length needle)%nat then None
  else memchr_find_from haystack needle 0 (length haystack - length needle + 1).

Definition in_span (lo hi b : Z) : bool := (lo <=? b) && (b <=? hi).

(** [core::str::from_utf8]: well-formed UTF-8 (Unicode table 3-7). *)
Fixpoint utf8_valid (bs : bytes) : bool :=
  match bs with
  | [] => true
  | b0 :: r0 =>
      if b0 <? 128 then utf8_valid r0
      else
        match r0 with
        | [] => false
        | b1 :: r1 =>
            if in_span 194 223 b0 then in_span 128 191 b1 && utf8_valid r1
            else
              match r1 with
              | [] => false
              | b2 :: r2 =>
                  if in_span 224 239 b0 then
                    in_span (if b0 =? 224 then 160 else 128) (if b0 =? 237 then 159 else 191) b1
                    && in_span 128 191 b2 && utf8_valid r2
                  else
                    match r2 with
                    | [] => false
                    | b3 :: r3 =>
                        in_span 240 244 b0
                        && in_span (if b0 =? 240 then 144 else 128) (if b0 =? 244 then 143 else 191) b1
                        && in_span 128 191 b2 && in_span 128 191 b3 && utf8_valid r3
                    end
              end
        end
  end.

(** The needle: the quoted word type, a colon and an opening quote. *)
Definition type_needle : bytes := c_quote :: lit "type" ++ [c_quote; 58; c_quote].

Definition peek_type (buf : bytes) : option bytes :=
  pos ← memchr_find buf type_needle;
  let remaining := drop (pos + length type_needle) buf in
  stop ← memchr_byte c_quote remaining;
  let value := take stop remaining in
  if utf8_valid value then Some value else None.

Definition parse_side (s : bytes) : option Side :=
  if decide (s = lit "BUY") then Some Bid
  else if decide (s = lit "SELL") then Some Ask
  else None.

(** ** decoder.rs *)

Record PolymarketMarketDecoder (D : Z) := {
  pd_seq : Z;
  pd_source_id : SourceId;
  pd_registry : InstrumentRegistry D;
}.
Arguments pd_seq {D} _.
Arguments pd_source_id {D} _.
Arguments pd_registry {D} _.

Section polymarket.
Context `{BuildProfile} `{PolymarketJson} {D : Z}.
Implicit Types dec : PolymarketMarketDecoder D.

Definition polymarket_new (source : SourceId) (reg : InstrumentRegistry D) : PolymarketMarketDecoder D :=
  {| pd_seq := 0; pd_source_id := source; pd_registry := reg |}.

Definition set_seq dec (seq : Z) : PolymarketMarketDecoder D :=
  {| pd_seq := seq; pd_source_id := pd_source_id dec; pd_registry := pd_registry dec |}.

Definition resolve dec (asset_id : bytes) : option (InstrumentId * InstrumentMeta D) :=
  id ← by_polymarket_token_id (pd_registry dec) asset_id;
  meta ← reg_meta (pd_registry dec) id;
  Some (id, meta).

Definition parse_price_qty (price_str size_str : bytes) (meta : InstrumentMeta D)
    : outcome (option (Ticks * Lots)) :=
  p ← parse_decimal_bytes D price_str;
  match p with
  | Err _ => Ret None
  | Ok price_fixed =>
      q ← parse_decimal_bytes D size_str;
      match q with
      | Err _ => Ret None
      | Ok qty_fixed =>
          price ← price_to_ticks meta price_fixed;
          match price with
          | None => Ret None
          | Some price =>
              qty ← qty_to_lots meta qty_fixed;
              match qty with
              | None => Ret None
              | Some qty => Ret (Some (price, qty))
              end
          end
      end
  end.

Definition decode_price_change dec (buf : bytes) (ts : Timestamp) (out : list HotEvent)
    : outcome (PolymarketMarketDecoder D * nat * list HotEvent) :=
  match parse_price_change buf with
  | None => Ret (dec, 0%nat, out)
  | Some msg =>
      match resolve dec (pc_asset_id msg) with
      | None => Ret (dec, 0%nat, out)
      | Some (id, meta) =>
          pq ← parse_price_qty (pc_price msg) (pc_size msg) meta;
          match pq, parse_side (pc_side msg) with
          | Some (price, qty), Some side =>
              seq ← arith U64 (pd_seq dec + 1);
              out ← set_index out 0
                (ev_book_delta ts (seqnum_from_raw seq) id (pd_source_id dec) LAST_IN_BATCH
                   {| bd_price := price; bd_qty := qty; bd_side := side; bd_action := ActChange; bd_depth := 0 |});
              Ret (set_seq dec seq, 1%nat, out)
          | _, _ => Ret (dec, 0%nat, out)
          end
      end
  end.

Definition decode_trade dec (buf : bytes) (ts : Timestamp) (out : list HotEvent)
    : outcome (PolymarketMarketDecoder D * nat * list HotEvent) :=
  match parse_trade buf with
  | None => Ret (dec, 0%nat, out)
  | Some msg =>
      match resolve dec (tm_asset_id msg) with
      | None => Ret (dec, 0%nat, out)
      | Some (id, meta) =>
          pq ← parse_price_qty (tm_price msg) (tm_size msg) meta;
          match pq with
          | None => Ret (dec, 0%nat, out)
          | Some (price, qty) =>
              let aggressor := default Bid (s ← tm_side msg; parse_side s) in
              seq ← arith U64 (pd_seq dec + 1);
              out ← set_index out 0
                (ev_trade ts (seqnum_from_raw seq) id (pd_source_id dec) LAST_IN_BATCH
                   {| tr_price := price; tr_qty := qty; tr_aggressor := aggressor |});
              Ret (set_seq dec seq, 1%nat, out)
          end
      end
  end.

(** One of the two level loops of [decode_book]: [depth_idx] enumerates the
    JSON levels, [count] the emitted events; the truncation warning is only
    logged. *)
Fixpoint book_loop (ts : Timestamp) (id : InstrumentId) (meta : InstrumentMeta D) (side : Side)
    dec (depth_idx count : nat) (levels : list BookLevel) (out : list HotEvent)
    : outcome (PolymarketMarketDecoder D * nat * list HotEvent) :=
  match levels with
  | [] => Ret (dec, count, out)
  | level :: levels =>
      if decide (64 <= count)%nat then Ret (dec, count, out)
      else
        pq ← parse_price_qty (lvl_price level) (lvl_size level) meta;
        match pq with
        | None => book_loop ts id meta side dec (S depth_idx) count levels out
        | Some (price, qty) =>
            seq ← arith U64 (pd_seq dec + 1);
            out ← set_index out count
              (ev_book_delta ts (seqnum_from_raw seq) id (pd_source_id dec) IS_SNAPSHOT
                 {| bd_price := price; bd_qty := qty; bd_side := side; bd_action := ActNew;
                    bd_depth := wrap U8 (Z.of_nat depth_idx) |});
            book_loop ts id meta side (set_seq dec seq) (S depth_idx) (S count) levels out
        end
  end.

(** [event.header.flags |= f]. *)
Definition or_flags (e : HotEvent) (f : EventFlags) : HotEvent :=
  let h := ev_header e in
  {| ev_header := {| recv_ts := recv_ts h; hdr_seq := hdr_seq h; hdr_instrument_id := hdr_instrument_id h;
                     hdr_source_id := hdr_source_id h; hdr_flags := flags_bitor (hdr_flags h) f |};
     ev_body := ev_body e |}.

Definition decode_book dec (buf : bytes) (ts : Timestamp) (out : list HotEvent)
    : outcome (PolymarketMarketDecoder D * nat * list HotEvent) :=
  match parse_book buf with
  | None => Ret (dec, 0%nat, out)
  | Some msg =>
      match resolve dec (bk_asset_id msg) with
      | None => Ret (dec, 0%nat, out)
      | Some (id, meta) =>
          match bk_bids msg, bk_asks msg with
          | [], [] => Ret (dec, 0%nat, out)
          | _, _ =>
              '(dec, count, out) ← book_loop ts id meta Bid dec 0 0 (bk_bids msg) out;
              '(dec, count, out) ← book_loop ts id meta Ask dec 0 count (bk_asks msg) out;
              if decide (0 < count)%nat then
                e ← index out (count - 1);
                out ← set_index out (count - 1) (or_flags e LAST_IN_BATCH);
                Ret (dec, count, out)
              else Ret (dec, count, out)
          end
      end
  end.

Definition polymarket_decode dec (buf : bytes) (ts : Timestamp) (out : list HotEvent)
    : outcome (PolymarketMarketDecoder D * nat * list HotEvent) :=
  match buf with
  | [] => Ret (dec, 0%nat, out)
  | _ =>
      match peek_type buf with
      | None => Ret (dec, 0%nat, out)
      | Some ty =>
          if decide (ty = lit "price_change") then decode_price_change dec buf ts out
          else if decide (ty = lit "last_trade_price") then decode_trade dec buf ts out
          else if decide (ty = lit "book") then decode_book dec buf ts out
          else Ret (dec, 0%nat, out)
      end
  end.
End polymarket.

(** * What the decoder emits *)

Definition ev_seq (e : HotEvent) : Z := seqnum_to_raw (hdr_seq (ev_header e)).

(** The side, price and quantity of a book event. *)
Definition ev_level (e : HotEvent) : option (Side * Ticks * Lots) :=
  match ev_body e with BookDelta d => Some (bd_side d, bd_price d, bd_qty d) | _ => None end.

Section decoder_lemmas.
Context `{BuildProfile} `{PolymarketJson} {D : Z} (HD : valid_exp D).
Implicit Types (dec : PolymarketMarketDecoder D) (meta : InstrumentMeta D).

(** The level a JSON level denotes, [None] if its numbers do not parse. *)
Definition parsed_level meta (l : BookLevel) : option (Ticks * Lots) :=
  match parse_price_qty (lvl_price l) (lvl_size l) meta with Ret r => r | Panic => None end.

(** Price and size parsing never panics and yields [i64] ticks and lots. *)
Lemma parse_price_qty_total price size meta :
  meta_wf meta ->
  exists r, parse_price_qty price size meta = Ret r
    /\ forall p q, r = Some (p, q) -> in_range I64 (ticks_to_raw p) /\ in_range I64 (lots_to_raw q).
Proof.
  intros (Ht & Hl & Ht0 & Hl0). unfold parse_price_qty, fixed_wf in *.
  destruct (parse_spec D price HD) as (rp & -> & Hp). cbn [mbind outcome_bind].
  destruct rp as [pf|e]; [|by eexists]. destruct (proj1 (Hp pf) eq_refl) as (_ & _ & _ & _ & _ & _ & Hpr).
  destruct (parse_spec D size HD) as (rq & -> & Hq). cbn [mbind outcome_bind].
  destruct rq as [qf|e]; [|by eexists]. destruct (proj1 (Hq qf) eq_refl) as (_ & _ & _ & _ & _ & _ & Hqr).
  destruct (unit_division _ _ Hpr Ht Ht0) as (Ep & Rp & _ & _ & Ap).
  destruct (unit_division _ _ Hqr Hl Hl0) as (Eq & Rq & _ & _ & Aq).
  unfold price_to_ticks, qty_to_lots. rewrite !(proj2 (Z.eqb_neq _ 0)) by lia.
  rewrite Ep, Eq. cbn [mbind outcome_bind fmap outcome_fmap]. eexists. split; [done|].
  intros p q [= <- <-]. cbn [ticks_to_raw lots_to_raw]. split; mnia.
Qed.

Definition dec_wf dec : Prop :=
  forall id meta, reg_meta (pd_registry dec) id = Some meta -> meta_wf meta.

(** Emitted snapshot events before the final flag is set. *)
Definition snapshot_event dec (ts : Timestamp) (id : InstrumentId) (seq : Z) (e : HotEvent) : Prop :=
  ev_header e = mk_header ts (seqnum_from_raw seq) id (pd_source_id dec) IS_SNAPSHOT.

Lemma book_loop_spec ts id meta side dec depth count levels out :
  meta_wf meta -> length out = 64%nat -> (count <= 64)%nat -> 0 <= pd_seq dec ->
  pd_seq dec + (64 - Z.of_nat count) <= tmax U64 ->
  exists es, book_loop ts id meta side dec depth count levels out
      = Ret (set_seq dec (pd_seq dec + Z.of_nat (length es)), (count + length es)%nat,
             take count out ++ es ++ drop (count + length es) out)
    /\ (count + length es <= 64)%nat
    /\ (ev_level <$> es) = (fun '(p, q) => Some (side, p, q))
         <$> take (64 - count) (omap (parsed_level meta) levels)
    /\ forall i e, es !! i = Some e -> snapshot_event dec ts id (pd_seq dec + Z.of_nat i + 1) e.
Proof.
  intros Hm. revert dec depth count out. induction levels as [|l levels IH]; intros dec depth count out Ho Hc Hpos Hs.
  - exists []. cbn. rewrite Z.add_0_r, Nat.add_0_r, take_drop, take_nil. by destruct dec.
  - cbn [book_loop]. case_decide as Hfull.
    + exists []. cbn [length]. replace (64 - count)%nat with 0%nat by lia.
      rewrite Z.add_0_r, Nat.add_0_r, take_0. cbn [app]. rewrite take_drop. by destruct dec.
    + destruct (parse_price_qty_total (lvl_price l) (lvl_size l) meta Hm) as (r & Er & _).
      rewrite Er. cbn [mbind outcome_bind omap list_omap]. unfold parsed_level at 1. rewrite Er.
      destruct r as [[p q]|]; [|by apply IH].
      rewrite (arith_ok U64) by mlia. cbn [mbind outcome_bind].
      rewrite set_index_ok by lia. cbn [mbind outcome_bind].
      match goal with |- context [<[count := ?ev]> out] => set (e0 := ev) end.
      destruct (IH (set_seq dec (pd_seq dec + 1)) (S depth) (S count) (<[count:=e0]> out))
        as (es & Ees & Hlen & Hlv & Hall); [by rewrite length_insert|lia|cbn [pd_seq set_seq]; lia|cbn [pd_seq set_seq]; lia|].
      exists (e0 :: es). rewrite Ees. cbn [length pd_seq set_seq].
      replace (64 - count)%nat with (S (64 - S count)) by lia. split_and!; [| lia | |].
      * replace (count + S (length es))%nat with (S count + length es)%nat by lia.
        rewrite (take_S_r _ _ e0) by (apply list_lookup_insert_eq; lia).
        rewrite take_insert_ge, drop_insert_lt, <- app_assoc by lia. cbn [app].
        do 2 f_equal. f_equal. unfold set_seq. cbn. f_equal. lia.
      * cbn. by rewrite Hlv.
      * intros [|i] e; cbn; [intros [= <-]; unfold snapshot_event; cbn; do 2 f_equal; lia|].
        intros He%Hall. unfold snapshot_event in *. rewrite He. cbn. do 2 f_equal. lia.
Qed.

(** The levels a book message contributes, bids first, at most 64. *)
Definition book_levels meta (msg : PolymarketBookMsg) : list (option (Side * Ticks * Lots)) :=
  take 64 (((fun '(p, q) => Some (Bid, p, q)) <$> omap (parsed_level meta) (bk_bids msg))
           ++ ((fun '(p, q) => Some (Ask, p, q)) <$> omap (parsed_level meta) (bk_asks msg))).

(** A snapshot batch: consecutive sequence numbers, every event flagged as
    snapshot, the last one also as last in its batch. *)
Definition snapshot_batch dec (ts : Timestamp) (id : InstrumentId) (es : list HotEvent) : Prop :=
  forall i e, es !! i = Some e ->
    ev_header e = mk_header ts (seqnum_from_raw (pd_seq dec + Z.of_nat i + 1)) id (pd_source_id dec)
      (if decide (S i = length es) then flags_bitor IS_SNAPSHOT LAST_IN_BATCH else IS_SNAPSHOT).

(** Setting the flag on the last event of a prefix of the buffer. *)
Lemma flag_last dec ts id es out :
  length (es ++ out) = 64%nat ->
  (forall i e, es !! i = Some e -> snapshot_event dec ts id (pd_seq dec + Z.of_nat i + 1) e) ->
  exists es', (if decide (0 < length es)%nat then
      e ← index (es ++ out) (length es - 1);
      o ← set_index (es ++ out) (length es - 1) (or_flags e LAST_IN_BATCH);
      Ret (set_seq dec (pd_seq dec + Z.of_nat (length es)), length es, o)
    else Ret (set_seq dec (pd_seq dec + Z.of_nat (length es)), length es, es ++ out))
    = Ret (set_seq dec (pd_seq dec + Z.of_nat (length es)), length es', es' ++ out)
    /\ length es' = length es /\ ev_level <$> es' = ev_level <$> es /\ snapshot_batch dec ts id es'.
Proof.
  intros Hlen Hes. case_decide as Hpos.
  - destruct (lookup_lt_is_Some_2 es (length es - 1)) as [e Ee]; [lia|].
    rewrite (index_ok _ _ e) by (rewrite lookup_app_l; [done|lia]). cbn [mbind outcome_bind].
    rewrite set_index_ok by (rewrite length_app in *; lia). cbn [mbind outcome_bind].
    exists (<[(length es - 1)%nat := or_flags e LAST_IN_BATCH]> es).
    rewrite insert_app_l, length_insert by lia. split_and!; [done|done| |].
    + rewrite list_fmap_insert. apply list_insert_id. by rewrite list_lookup_fmap, Ee.
    + intros i e'. rewrite length_insert. destruct (decide (i = length es - 1)%nat) as [->|Hne].
      * rewrite list_lookup_insert_eq by lia. intros [= <-]. rewrite decide_True by lia.
        specialize (Hes _ e Ee). unfold snapshot_event in Hes. unfold or_flags. cbn. by rewrite Hes.
      * rewrite list_lookup_insert_ne by lia. intros E. rewrite decide_False
          by (apply lookup_lt_Some in E; lia). by apply Hes.
  - exists es. split_and!; [done..|]. intros i e E%lookup_lt_Some. lia.
Qed.

Lemma decode_book_spec dec buf ts out msg id meta :
  dec_wf dec -> parse_book buf = Some msg -> resolve dec (bk_asset_id msg) = Some (id, meta) ->
  length out = 64%nat -> 0 <= pd_seq dec <= tmax U64 - 64 ->
  exists es, decode_book dec buf ts out
      = Ret (set_seq dec (pd_seq dec + Z.of_nat (length es)), length es, es ++ drop (length es) out)
    /\ (length es <= 64)%nat /\ ev_level <$> es = book_levels meta msg /\ snapshot_batch dec ts id es.
Proof.
  intros Hwf Emsg Eres Hout Hseq. assert (meta_wf meta) as Hm.
  { unfold resolve in Eres. destruct (by_polymarket_token_id _ _) as [id'|]; [|done]. cbn in Eres.
    destruct (reg_meta (pd_registry dec) id') as [m'|] eqn:Em; [|done]. cbn in Eres. simplify_eq. by eapply Hwf. }
  destruct (book_loop_spec ts id meta Bid dec 0 0 (bk_bids msg) out) as (eb & Eb & Lb & Vb & Hb);
    [done|done|lia|lia|lia|].
  set (dec1 := set_seq dec (pd_seq dec + Z.of_nat (length eb))) in *.
  destruct (book_loop_spec ts id meta Ask dec1 0 (0 + length eb) (bk_asks msg) (take 0 out ++ eb ++ drop (0 + length eb) out))
    as (ea & Ea & La & Va & Ha); [done| |lia|cbn; lia|cbn [pd_seq set_seq dec1]; lia|].
  { rewrite take_0, !length_app, length_drop. cbn [length]. lia. }
  set (es := eb ++ ea).
  assert (ev_level <$> es = book_levels meta msg) as Hlv.
  { unfold es, book_levels. rewrite fmap_app, Vb, Va, take_app, length_fmap.
    rewrite Nat.sub_0_r, !fmap_take. do 2 f_equal.
    apply (f_equal length) in Vb. rewrite !length_fmap, length_take, Nat.sub_0_r in Vb. lia. }
  destruct (flag_last dec ts id es (drop (length es) out)) as (es' & Efl & Les & Vs & Hbatch).
  { rewrite length_app, length_drop. unfold es in *. rewrite length_app in *. lia. }
  { intros i e. unfold es. rewrite lookup_app_Some. intros [He|[Hi He]]; [by apply Hb|].
    apply Ha in He. unfold snapshot_event in *. rewrite He. cbn. do 2 f_equal. lia. }
  exists es'. rewrite Les. split_and!; [|unfold es; rewrite length_app; lia|congruence|done].
  unfold decode_book. rewrite Emsg, Eres.
  rewrite take_0 in Eb, Ea. cbn [app Nat.add] in Eb, Ea.
  rewrite take_app_length, drop_app_add, drop_drop, <- length_app in Ea. fold es in Ea.
  rewrite app_assoc in Ea. fold es in Ea.
  replace (set_seq dec1 (pd_seq dec1 + Z.of_nat (length ea)))
    with (set_seq dec (pd_seq dec + Z.of_nat (length es))) in Ea
    by (unfold set_seq, dec1, es; cbn; rewrite length_app; f_equal; lia).
  rewrite Les in Efl. rewrite <- Efl.
  destruct (decide (bk_bids msg = [] /\ bk_asks msg = [])) as [[E1 E2]|Hne].
  - rewrite E1, E2 in *. assert (es = []) as E0.
    { unfold es. cbn [omap list_omap] in Vb, Va. rewrite take_nil in Vb, Va. apply fmap_nil_inv in Vb, Va. by subst. }
    rewrite E0. cbn. rewrite Z.add_0_r, drop_0. by destruct dec.
  - transitivity ('(dec, count, out) ← book_loop ts id meta Bid dec 0 0 (bk_bids msg) out;
      '(dec, count, out) ← book_loop ts id meta Ask dec 0 count (bk_asks msg) out;
      if decide (0 < count)%nat then
        e ← index out (count - 1);
        out ← set_index out (count - 1) (or_flags e LAST_IN_BATCH);
        Ret (dec, count, out)
      else Ret (dec, count, out)).
    { destruct (bk_bids msg), (bk_asks msg); try done; by destruct Hne. }
    rewrite Eb. cbn [mbind outcome_bind]. rewrite Ea. done.
Qed.
End decoder_lemmas.

Section decoder_theorems.
Context `{BuildProfile} `{PolymarketJson} {D : Z}.
Implicit Types dec : PolymarketMarketDecoder D.

(** A decode that writes [n] events at the front of the buffer. *)
Definition wrote dec (out : list HotEvent) (r : outcome (PolymarketMarketDecoder D * nat * list HotEvent)) : Prop :=
  exists n es, r = Ret (set_seq dec (pd_seq dec + Z.of_nat n), n, es ++ drop n out)
    /\ length es = n /\ (n <= 64)%nat.

Lemma wrote_none dec out : wrote dec out (Ret (dec, 0%nat, out)).
Proof. exists 0%nat, []. split_and!; [|done|lia]. rewrite Z.add_0_r, drop_0. by destruct dec. Qed.

(** The single-event handlers write slot 0. *)
Lemma wrote_one dec out ev :
  length out = 64%nat -> 0 <= pd_seq dec < tmax U64 ->
  wrote dec out (seq ← arith U64 (pd_seq dec + 1); o ← set_index out 0 (ev seq); Ret (set_seq dec seq, 1%nat, o)).
Proof.
  intros Hout Hseq. rewrite arith_ok by mlia. cbn [mbind outcome_bind].
  rewrite set_index_ok by lia. cbn [mbind outcome_bind].
  exists 1%nat, [ev (pd_seq dec + 1)]. destruct out as [|o out]; [done|]. split_and!; [done|done|lia].
Qed.

Lemma resolve_meta_wf dec asset id meta : dec_wf dec -> resolve dec asset = Some (id, meta) -> meta_wf meta.
Proof.
  intros Hwf. unfold resolve. destruct (by_polymarket_token_id _ _) as [id'|]; [|done]. cbn.
  destruct (reg_meta (pd_registry dec) id') as [m'|] eqn:Em; [|done]. cbn. intros [= <- <-]. by eapply Hwf.
Qed.

(** Decoding writes a prefix of the buffer and numbers it. *)
Lemma polymarket_decode_wrote dec (buf : bytes) (ts : Timestamp) (out : list HotEvent) :
  valid_exp D -> dec_wf dec -> length out = 64%nat -> 0 <= pd_seq dec <= tmax U64 - 64 ->
  wrote dec out (polymarket_decode dec buf ts out).
Proof.
  intros HD Hwf Hout Hseq.
  unfold polymarket_decode. destruct buf as [|b buf']; [apply wrote_none|].
  set (buf := b :: buf'). destruct (peek_type buf) as [ty|]; [|apply wrote_none].
  repeat case_decide; [| | |apply wrote_none].
  - unfold decode_price_change. destruct (parse_price_change buf) as [msg|]; [|apply wrote_none].
    destruct (resolve dec _) as [[id meta]|] eqn:Er; [|apply wrote_none].
    destruct (parse_price_qty_total HD (pc_price msg) (pc_size msg) meta (resolve_meta_wf _ _ _ _ Hwf Er)) as (r & -> & _).
    cbn [mbind outcome_bind]. destruct r as [[p q]|]; [|apply wrote_none].
    destruct (parse_side _) as [s|]; [|apply wrote_none].
    apply (wrote_one dec out (fun seq => ev_book_delta ts (seqnum_from_raw seq) id (pd_source_id dec) LAST_IN_BATCH _));
      [done|lia].
  - unfold decode_trade. destruct (parse_trade buf) as [msg|]; [|apply wrote_none].
    destruct (resolve dec _) as [[id meta]|] eqn:Er; [|apply wrote_none].
    destruct (parse_price_qty_total HD (tm_price msg) (tm_size msg) meta (resolve_meta_wf _ _ _ _ Hwf Er)) as (r & -> & _).
    cbn [mbind outcome_bind]. destruct r as [[p q]|]; [|apply wrote_none].
    apply (wrote_one dec out (fun seq => ev_trade ts (seqnum_from_raw seq) id (pd_source_id dec) LAST_IN_BATCH _));
      [done|lia].
  - destruct (parse_book buf) as [msg|] eqn:Em; [|unfold decode_book; rewrite Em; apply wrote_none].
    destruct (resolve dec (bk_asset_id msg)) as [[id meta]|] eqn:Er;
      [|unfold decode_book; rewrite Em, Er; apply wrote_none].
    destruct (decode_book_spec HD dec buf ts out msg id meta) as (es & -> & Hn & _); [done..|].
    exists (length es), es. by split_and!.
Qed.

(** C17: decoding any byte string never panics, writes at most 64 events at
    the front of the buffer and leaves the rest of it untouched, and advances
    the sequence number by exactly the number of events reported. *)
Theorem polymarket_decode_total dec (buf : bytes) (ts : Timestamp) (out : list HotEvent) :
  valid_exp D -> dec_wf dec -> length out = 64%nat -> 0 <= pd_seq dec <= tmax U64 - 64 ->
  exists n es, polymarket_decode dec buf ts out
      = Ret (set_seq dec (pd_seq dec + Z.of_nat n), n, es ++ drop n out)
    /\ length es = n /\ (n <= 64)%nat.
Proof. apply polymarket_decode_wrote. Qed.

(** C18: a book message becomes one snapshot batch: the events are exactly the
    levels whose price and size parse, bids before asks, the first 64 of them,
    converted with the instrument's tick and lot sizes; they carry consecutive
    sequence numbers and the message's instrument, every one is flagged as
    snapshot and the last one, and only it, also as last in its batch. *)
Theorem decode_book_snapshot_batch dec (buf : bytes) (ts : Timestamp) (out : list HotEvent) msg id meta :
  valid_exp D -> dec_wf dec -> length out = 64%nat -> 0 <= pd_seq dec <= tmax U64 - 64 ->
  buf <> [] -> peek_type buf = Some (lit "book") -> parse_book buf = Some msg ->
  resolve dec (bk_asset_id msg) = Some (id, meta) ->
  exists es, polymarket_decode dec buf ts out
      = Ret (set_seq dec (pd_seq dec + Z.of_nat (length es)), length es, es ++ drop (length es) out)
    /\ ev_level <$> es = book_levels meta msg /\ snapshot_batch dec ts id es.
Proof.
  intros HD Hwf Hout Hseq Hne Hty Em Er. unfold polymarket_decode.
  destruct buf as [|b buf']; [done|]. rewrite Hty.
  rewrite decide_False, decide_False, decide_True by done.
  destruct (decode_book_spec HD dec (b :: buf') ts out msg id meta) as (es & -> & _ & ? & ?); [done..|]. eauto.
Qed.
End decoder_theorems.

(** * A concrete frame *)

Definition sample_frame : bytes :=
  123 :: c_quote :: lit "type" ++ [c_quote; 58; c_quote] ++ lit "book" ++ [c_quote; 125].

Definition sample_msg : PolymarketBookMsg :=
  {| bk_asset_id := [8];
     bk_bids := [{| lvl_price := lit "0.50"; lvl_size := lit "10" |}; {| lvl_price := lit "x"; lvl_size := lit "1" |}];
     bk_asks := [{| lvl_price := lit "0.52"; lvl_size := lit "20" |}] |}.

Definition sample_json : PolymarketJson :=
  {| parse_book := fun b => if decide (b = sample_frame) then Some sample_msg else None;
     parse_price_change := fun _ => None; parse_trade := fun _ => None |}.

Definition sample_decoder : PolymarketMarketDecoder 6 :=
  polymarket_new (source_from_raw 2) (foldl reg_step registry_new sample_ops).

Definition blank_event : HotEvent :=
  ev_heartbeat (from_nanos 0) seqnum_ZERO (source_from_raw 0) flags_EMPTY {| hb_counter := 0 |}.

Lemma sample_decoder_wf : dec_wf sample_decoder.
Proof.
  intros id meta. unfold reg_meta. intros (rec & E & ->)%fmap_Some.
  assert (map_Forall (fun _ r => meta_wf (rec_meta r)) (by_id (pd_registry sample_decoder))) as Hall.
  { apply (bool_decide_unpack _). by vm_compute. }
  by apply (Hall id).
Qed.

Lemma polymarket_decode_total_witness :
  exists n es, @polymarket_decode debug_profile sample_json 6 sample_decoder sample_frame (from_nanos 5)
        (replicate 64 blank_event)
      = Ret (set_seq sample_decoder (0 + Z.of_nat n), n, es ++ drop n (replicate 64 blank_event))
    /\ length es = n /\ (n <= 64)%nat.
Proof.
  apply (@polymarket_decode_total debug_profile sample_json 6 sample_decoder);
    [by vm_compute|apply sample_decoder_wf|done|by vm_compute].
Defined.

Lemma decode_book_witness :
  exists es, @polymarket_decode debug_profile sample_json 6 sample_decoder sample_frame (from_nanos 5)
        (replicate 64 blank_event)
      = Ret (set_seq sample_decoder (0 + Z.of_nat (length es)), length es,
             es ++ drop (length es) (replicate 64 blank_event))
    /\ ev_level <$> es = [Some (Bid, ticks_from_raw 50, lots_from_raw 10); Some (Ask, ticks_from_raw 52, lots_from_raw 20)]
    /\ snapshot_batch sample_decoder (from_nanos 5) (inst_from_raw 1) es.
Proof.
  exact (@decode_book_snapshot_batch debug_profile sample_json 6 sample_decoder sample_frame (from_nanos 5)
    (replicate 64 blank_event) sample_msg (inst_from_raw 1) sample_meta ltac:(by vm_compute) sample_decoder_wf
    eq_refl ltac:(by vm_compute) ltac:(done) ltac:(by vm_compute) ltac:(by vm_compute) ltac:(by vm_compute)).
Defined.
