(* ===== verification/Binance.v ===== *)
(** * Binance bookTicker decoder ([crates/binance])

    From a WebSocket frame to one top-of-book event: the symbol table the
    decoder copies into fixed arrays, the single and combined stream formats,
    decimal parsing and tick conversion.  JSON deserialisation is a third-party
    crate; its functions are parameters of the model. *)

From Stdlib Require Import ZArith Lia.
From stdpp Require Import base decidable numbers option tactics list.
From S2P Require Import Prelude Platform Fixed FixedText Types Events.

#[local] Open Scope Z_scope.

Definition MAX_BINANCE_SYMBOLS : nat := 8.
Definition MAX_SYMBOL_LEN : nat := 16.

(** ** schema.rs *)

Record BinanceBookTicker := {
  bt_s : bytes; bt_b : bytes; bt_bid_qty : bytes; bt_a : bytes; bt_ask_qty : bytes;
}.

Record BinanceCombinedStream := { bc_data : BinanceBookTicker }.

(** The deserialisers of the JSON crate. *)
Class BinanceJson := {
  parse_ticker : bytes -> option BinanceBookTicker;
  parse_combined : bytes -> option BinanceCombinedStream;
}.

(** ** decoder.rs *)

Record BinanceSymbolMapping (D : Z) := { bm_symbol : bytes; bm_instrument : InstrumentId; bm_meta : InstrumentMeta D }.
Arguments bm_symbol {D} _.
Arguments bm_instrument {D} _.
Arguments bm_meta {D} _.

Inductive DecoderError := TooManySymbols | EmptyMappings | SymbolTooLong.

Record BinanceDecoder (D : Z) := {
  bd_seq : Z;
  bd_source_id : SourceId;
  instrument_ids : list InstrumentId;
  metas : list (InstrumentMeta D);
  symbol_names : list bytes;
  symbol_lens : list Z;
  bd_len : nat;
  combined_stream : bool;
}.
Arguments bd_seq {D} _.
Arguments bd_source_id {D} _.
Arguments instrument_ids {D} _.
Arguments metas {D} _.
Arguments symbol_names {D} _.
Arguments symbol_lens {D} _.
Arguments bd_len {D} _.
Arguments combined_stream {D} _.

Section binance.
Context `{BuildProfile} `{BinanceJson} {D : Z}.
Implicit Types dec : BinanceDecoder D.

(** The four arrays of the symbol table. *)
Definition symbol_table : Type := list InstrumentId * list (InstrumentMeta D) * list bytes * list Z.

(** The loop of [new], from index [i] on. *)
Fixpoint fill_table (i : nat) (ms : list (BinanceSymbolMapping D)) (t : symbol_table)
    : outcome (result symbol_table DecoderError) :=
  match ms with
  | [] => Ret (Ok t)
  | m :: ms =>
      let '(ids, mts, names, lens) := t in
      ids ← set_index ids i (bm_instrument m);
      mts ← set_index mts i (bm_meta m);
      let sym := bm_symbol m in
      if decide (MAX_SYMBOL_LEN < length sym)%nat then Ret (Err SymbolTooLong)
      else
        name ← index names i;
        names ← set_index names i (sym ++ drop (length sym) name);
        lens ← set_index lens i (wrap U8 (Z.of_nat (length sym)));
        fill_table (S i) ms (ids, mts, names, lens)
  end.

Definition binance_new (source : SourceId) (ms : list (BinanceSymbolMapping D))
    : outcome (result (BinanceDecoder D) DecoderError) :=
  match ms with
  | [] => Ret (Err EmptyMappings)
  | m0 :: _ =>
      if decide (MAX_BINANCE_SYMBOLS < length ms)%nat then Ret (Err TooManySymbols)
      else
        r ← fill_table 0 ms
          (replicate MAX_BINANCE_SYMBOLS inst_NONE, replicate MAX_BINANCE_SYMBOLS (bm_meta m0),
           replicate MAX_BINANCE_SYMBOLS (replicate MAX_SYMBOL_LEN 0), replicate MAX_BINANCE_SYMBOLS 0);
        match r with
        | Err e => Ret (Err e)
        | Ok (ids, mts, names, lens) => Ret (Ok
            {| bd_seq := 0; bd_source_id := source; instrument_ids := ids; metas := mts; symbol_names := names;
               symbol_lens := lens; bd_len := length ms; combined_stream := bool_decide (1 < length ms)%nat |})
        end
  end.

Definition set_combined_stream dec (combined : bool) : BinanceDecoder D :=
  {| bd_seq := bd_seq dec; bd_source_id := bd_source_id dec; instrument_ids := instrument_ids dec; metas := metas dec;
     symbol_names := symbol_names dec; symbol_lens := symbol_lens dec; bd_len := bd_len dec; combined_stream := combined |}.

Definition set_bseq dec (seq : Z) : BinanceDecoder D :=
  {| bd_seq := seq; bd_source_id := bd_source_id dec; instrument_ids := instrument_ids dec; metas := metas dec;
     symbol_names := symbol_names dec; symbol_lens := symbol_lens dec; bd_len := bd_len dec;
     combined_stream := combined_stream dec |}.

(** [for i in 0..self.len], from index [i] with [fuel] iterations left. *)
Fixpoint find_symbol_from dec (symbol : bytes) (i fuel : nat) : outcome (option nat) :=
  match fuel with
  | O => Ret None
  | S fuel =>
      slen ← index (symbol_lens dec) i;
      if slen =? Z.of_nat (length symbol) then
        name ← index (symbol_names dec) i;
        if decide (take (Z.to_nat slen) name = symbol) then Ret (Some i) else find_symbol_from dec symbol (S i) fuel
      else find_symbol_from dec symbol (S i) fuel
  end.

Definition find_symbol dec (symbol : bytes) : outcome (option nat) := find_symbol_from dec symbol 0 (bd_len dec).

(** [let Ok(x) = ... else return 0] and [let Some(x) = ... else return 0]. *)
Definition or_return {A E B} (m : outcome (result A E)) (k : A -> outcome (option B)) : outcome (option B) :=
  r ← m; match r with Ok a => k a | Err _ => Ret None end.
Definition some_or_return {A B} (m : outcome (option A)) (k : A -> outcome (option B)) : outcome (option B) :=
  r ← m; match r with Some a => k a | None => Ret None end.

(** The parsing and conversion steps of [decode]. *)
Definition ticker_payload (meta : InstrumentMeta D) (t : BinanceBookTicker) : outcome (option TopOfBookPayload) :=
  or_return (parse_decimal_bytes D (bt_b t)) (fun bid_price_fixed =>
  or_return (parse_decimal_bytes D (bt_a t)) (fun ask_price_fixed =>
  or_return (parse_decimal_bytes D (bt_bid_qty t)) (fun bid_qty_fixed =>
  or_return (parse_decimal_bytes D (bt_ask_qty t)) (fun ask_qty_fixed =>
  some_or_return (price_to_ticks meta bid_price_fixed) (fun bid_price =>
  some_or_return (price_to_ticks meta ask_price_fixed) (fun ask_price =>
  some_or_return (qty_to_lots meta bid_qty_fixed) (fun bid_qty =>
  some_or_return (qty_to_lots meta ask_qty_fixed) (fun ask_qty =>
    Ret (Some {| tp_bid_price := bid_price; tp_bid_qty := bid_qty; tp_ask_price := ask_price; tp_ask_qty := ask_qty |}))))))))).

Definition read_ticker (combined : bool) (buf : bytes) : option BinanceBookTicker :=
  if combined then match parse_combined buf with Some c => Some (bc_data c) | None => None end else parse_ticker buf.

Definition binance_decode dec (buf : bytes) (ts : Timestamp) (out : list HotEvent)
    : outcome (BinanceDecoder D * nat * list HotEvent) :=
  match read_ticker (combined_stream dec) buf with
  | None => Ret (dec, 0%nat, out)
  | Some ticker =>
      found ← find_symbol dec (bt_s ticker);
      match found with
      | None => Ret (dec, 0%nat, out)
      | Some idx =>
          meta ← index (metas dec) idx;
          p ← ticker_payload meta ticker;
          match p with
          | None => Ret (dec, 0%nat, out)
          | Some payload =>
              seq ← arith U64 (bd_seq dec + 1);
              id ← index (instrument_ids dec) idx;
              out ← set_index out 0 (ev_top_of_book ts (seqnum_from_raw seq) id (bd_source_id dec) flags_EMPTY payload);
              Ret (set_bseq dec seq, 1%nat, out)
          end
      end
  end.
End binance.

(** * The symbol table represents the mappings *)

Section table.
Context `{BuildProfile} `{BinanceJson} {D : Z}.
Implicit Types (dec : BinanceDecoder D) (m : BinanceSymbolMapping D) (ms : list (BinanceSymbolMapping D)).

(** The first mapping of a symbol. *)
Fixpoint mapping_of ms (symbol : bytes) : option (BinanceSymbolMapping D) :=
  match ms with
  | [] => None
  | m :: ms => if decide (bm_symbol m = symbol) then Some m else mapping_of ms symbol
  end.

(** Row [i] of the table holds mapping [m]. *)
Definition row_is (t : symbol_table (D := D)) (i : nat) m : Prop :=
  let '(ids, mts, names, lens) := t in
  ids !! i = Some (bm_instrument m) /\ mts !! i = Some (bm_meta m)
  /\ (exists pad, names !! i = Some (bm_symbol m ++ pad)) /\ lens !! i = Some (Z.of_nat (length (bm_symbol m))).

Definition table_size (t : symbol_table (D := D)) : Prop :=
  let '(ids, mts, names, lens) := t in
  length ids = MAX_BINANCE_SYMBOLS /\ length mts = MAX_BINANCE_SYMBOLS
  /\ length names = MAX_BINANCE_SYMBOLS /\ length lens = MAX_BINANCE_SYMBOLS.

Definition too_long m : Prop := (MAX_SYMBOL_LEN < length (bm_symbol m))%nat.

Lemma fill_table_spec ms i t :
  table_size t -> (i + length ms <= MAX_BINANCE_SYMBOLS)%nat ->
  (Exists too_long ms /\ fill_table i ms t = Ret (Err SymbolTooLong)) \/
  (Forall (fun m => ~ too_long m) ms /\ exists t', fill_table i ms t = Ret (Ok t') /\ table_size t'
    /\ (forall j m, ms !! j = Some m -> row_is t' (i + j) m)
    /\ (forall k m, (k < i)%nat -> row_is t k m -> row_is t' k m)).
Proof.
  revert i t. induction ms as [|m ms IH]; intros i t Ht Hi.
  { right. split; [done|]. by exists t. }
  destruct t as [[[ids mts] names] lens]. destruct Ht as (H1 & H2 & H3 & H4). cbn [fill_table length] in *.
  rewrite !set_index_ok by lia. cbn [mbind outcome_bind].
  destruct (decide (MAX_SYMBOL_LEN < length (bm_symbol m))%nat) as [Hl|Hl]; [left; split; [by left|done]|].
  destruct (lookup_lt_is_Some_2 names i) as [name En]; [lia|]. rewrite (index_ok _ _ _ En). cbn [mbind outcome_bind].
  rewrite set_index_ok by lia. cbn [mbind outcome_bind].
  rewrite (wrap_id U8) by (unfold MAX_SYMBOL_LEN in Hl; mlia).
  match goal with |- context [fill_table (S i) ms ?t] => set (t1 := t) end.
  destruct (IH (S i) t1) as [[HE E]|(HF & t' & E & Hs & Hrows & Hkeep)].
  { unfold t1, table_size. rewrite !length_insert. done. }
  { lia. }
  - left. split; [by right|done].
  - right. split; [by constructor|]. exists t'. split; [done|]. split; [done|].
    assert (row_is t1 i m) as Hrow.
    { unfold t1, row_is. rewrite !list_lookup_insert_eq by lia. split_and!; try done. by eexists. }
    split.
    + intros [|j] m' Hj; cbn in Hj.
      * injection Hj as <-. rewrite Nat.add_0_r. apply Hkeep; [lia|done].
      * replace (i + S j)%nat with (S i + j)%nat by lia. by apply Hrows.
    + intros k m' Hk Hr. apply Hkeep; [lia|]. unfold t1, row_is in *. by rewrite !list_lookup_insert_ne by lia.
Qed.

Definition table_of dec : symbol_table (D := D) := (instrument_ids dec, metas dec, symbol_names dec, symbol_lens dec).

(** The decoder represents the mappings it was built from. *)
Definition represents dec ms : Prop :=
  bd_len dec = length ms /\ forall i m, ms !! i = Some m -> row_is (table_of dec) i m.

Lemma find_symbol_spec dec ms symbol :
  represents dec ms ->
  (find_symbol dec symbol = Ret None /\ mapping_of ms symbol = None) \/
  exists i m, find_symbol dec symbol = Ret (Some i) /\ ms !! i = Some m /\ mapping_of ms symbol = Some m.
Proof.
  intros [Hl Hrows]. unfold find_symbol. rewrite Hl.
  assert (forall pre post, ms = pre ++ post ->
    (find_symbol_from dec symbol (length pre) (length post) = Ret None /\ mapping_of post symbol = None) \/
    exists i m, find_symbol_from dec symbol (length pre) (length post) = Ret (Some i) /\ ms !! i = Some m
      /\ mapping_of post symbol = Some m) as Hgo; [|by apply (Hgo [] ms)].
  intros pre post. revert pre. induction post as [|m post IH]; intros pre E; [by left|].
  cbn [length find_symbol_from mapping_of].
  assert (ms !! length pre = Some m) as Em by (rewrite E; by apply list_lookup_middle).
  destruct (Hrows _ _ Em) as (_ & _ & (pad & En) & Es). cbn in En, Es.
  rewrite (index_ok _ _ _ Es). cbn [mbind outcome_bind].
  specialize (IH (pre ++ [m]) ltac:(by rewrite <- app_assoc)). rewrite length_app, Nat.add_1_r in IH.
  destruct (Z.eqb_spec (Z.of_nat (length (bm_symbol m))) (Z.of_nat (length symbol))) as [El|El].
  - rewrite (index_ok _ _ _ En). cbn [mbind outcome_bind]. rewrite Nat2Z.id, take_app_length.
    destruct (decide (bm_symbol m = symbol)); [|done]. right. by exists (length pre), m.
  - destruct (decide (bm_symbol m = symbol)) as [E'|]; [by rewrite E' in El|done].
Qed.
End table.

Section claims.
Context `{BuildProfile} `{BinanceJson} {D : Z}.
Implicit Types (dec : BinanceDecoder D) (ms : list (BinanceSymbolMapping D)).

Lemma binance_new_spec source ms :
  (ms = [] /\ binance_new source ms = Ret (Err EmptyMappings)) \/
  ((MAX_BINANCE_SYMBOLS < length ms)%nat /\ binance_new source ms = Ret (Err TooManySymbols)) \/
  ((0 < length ms <= MAX_BINANCE_SYMBOLS)%nat /\
   ((Exists too_long ms /\ binance_new source ms = Ret (Err SymbolTooLong)) \/
    (Forall (fun m => ~ too_long m) ms /\ exists dec, binance_new source ms = Ret (Ok dec) /\ represents dec ms
      /\ bd_seq dec = 0 /\ bd_source_id dec = source /\ combined_stream dec = bool_decide (1 < length ms)%nat))).
Proof.
  unfold binance_new. destruct ms as [|m0 ms0] eqn:Ems; [by left|]. right. rewrite <- Ems.
  destruct (decide (MAX_BINANCE_SYMBOLS < length ms)%nat) as [Hl|Hl]; [by left|]. right.
  split; [subst ms; cbn [length] in *; lia|].
  match goal with |- context [fill_table 0 ms ?t] => destruct (fill_table_spec ms 0 t) as [[HE E]|(HF & t' & E & Hs & Hrows & _)] end.
  { unfold table_size. rewrite !length_replicate. done. }
  { lia. }
  - left. rewrite E. done.
  - right. split; [done|]. rewrite E. cbn [mbind outcome_bind]. destruct t' as [[[ids mts] names] lens].
    eexists. split; [done|]. split; [|done]. split; [done|]. apply Hrows.
Qed.

(** What a decimal string denotes in ticks and lots. *)
Definition ticks_of (meta : InstrumentMeta D) (s : bytes) : option Ticks :=
  match parse_decimal_bytes D s with
  | Ret (Ok x) => match price_to_ticks meta x with Ret r => r | Panic => None end
  | _ => None
  end.
Definition lots_of (meta : InstrumentMeta D) (s : bytes) : option Lots :=
  match parse_decimal_bytes D s with
  | Ret (Ok x) => match qty_to_lots meta x with Ret r => r | Panic => None end
  | _ => None
  end.

(** The specification of [decode]: the instrument and the payload a frame
    denotes. *)
Definition frame_tob ms (combined : bool) (buf : bytes) : option (InstrumentId * TopOfBookPayload) :=
  match read_ticker combined buf with
  | Some t =>
      match mapping_of ms (bt_s t) with
      | Some m =>
          match ticks_of (bm_meta m) (bt_b t), ticks_of (bm_meta m) (bt_a t),
                lots_of (bm_meta m) (bt_bid_qty t), lots_of (bm_meta m) (bt_ask_qty t) with
          | Some bp, Some ap, Some bq, Some aq =>
              Some (bm_instrument m, {| tp_bid_price := bp; tp_bid_qty := bq; tp_ask_price := ap; tp_ask_qty := aq |})
          | _, _, _, _ => None
          end
      | None => None
      end
  | None => None
  end.

(** Parsing and conversion never panic. *)
Lemma convert_total (HD : valid_exp D) (meta : InstrumentMeta D) s :
  meta_wf meta ->
  (exists x t l, parse_decimal_bytes D s = Ret (Ok x) /\ price_to_ticks meta x = Ret (Some t) /\ qty_to_lots meta x = Ret (Some l))
  \/ exists e, parse_decimal_bytes D s = Ret (Err e).
Proof.
  intros (Ht & Hl & Ht0 & Hl0). destruct (parse_spec D s HD) as ([x|e] & E & Hx); [left|right; by exists e].
  destruct (proj1 (Hx x) eq_refl) as (_ & _ & _ & _ & _ & _ & Hr).
  destruct (unit_division _ _ Hr Ht Ht0) as (Ep & _). destruct (unit_division _ _ Hr Hl Hl0) as (Eq & _).
  exists x. unfold price_to_ticks, qty_to_lots. rewrite !(proj2 (Z.eqb_neq _ 0)) by lia. rewrite Ep, Eq. by do 2 eexists.
Qed.

Lemma ticker_payload_spec (HD : valid_exp D) (meta : InstrumentMeta D) t :
  meta_wf meta ->
  ticker_payload meta t = Ret
    match ticks_of meta (bt_b t), ticks_of meta (bt_a t), lots_of meta (bt_bid_qty t), lots_of meta (bt_ask_qty t) with
    | Some bp, Some ap, Some bq, Some aq =>
        Some {| tp_bid_price := bp; tp_bid_qty := bq; tp_ask_price := ap; tp_ask_qty := aq |}
    | _, _, _, _ => None
    end.
Proof.
  intros Hm. unfold ticker_payload, or_return, some_or_return, ticks_of, lots_of.
  destruct (convert_total HD meta (bt_b t) Hm) as [(x1 & t1 & l1 & -> & E1 & _)|(e & ->)]; [cbn [mbind outcome_bind]|done].
  destruct (convert_total HD meta (bt_a t) Hm) as [(x2 & t2 & l2 & -> & E2 & _)|(e & ->)]; cbn [mbind outcome_bind]; rewrite E1; [|done].
  rewrite E2. destruct (convert_total HD meta (bt_bid_qty t) Hm) as [(x3 & t3 & l3 & -> & _ & E3)|(e & ->)]; [|done].
  cbn [mbind outcome_bind]. rewrite E3.
  destruct (convert_total HD meta (bt_ask_qty t) Hm) as [(x4 & t4 & l4 & -> & _ & E4)|(e & ->)]; [|done].
  cbn [mbind outcome_bind]. by rewrite E4.
Qed.

Lemma binance_decode_spec (HD : valid_exp D) dec ms buf ts out :
  represents dec ms -> Forall (fun m => meta_wf (bm_meta m)) ms -> length out = 64%nat -> 0 <= bd_seq dec < tmax U64 ->
  binance_decode dec buf ts out = Ret
    match frame_tob ms (combined_stream dec) buf with
    | None => (dec, 0%nat, out)
    | Some (id, p) =>
        let seq := bd_seq dec + 1 in
        (set_bseq dec seq, 1%nat,
         <[0%nat := ev_top_of_book ts (seqnum_from_raw seq) id (bd_source_id dec) flags_EMPTY p]> out)
    end.
Proof.
  intros Hr Hm Ho Hs. unfold binance_decode, frame_tob. destruct (read_ticker _ _) as [t|]; [|done].
  destruct (find_symbol_spec dec ms (bt_s t) Hr) as [[-> ->]|(i & m & -> & Ei & ->)]; [done|]. cbn [mbind outcome_bind].
  destruct (proj2 Hr _ _ Ei) as (Eid & Emeta & _ & _). rewrite (index_ok _ _ _ Emeta). cbn [mbind outcome_bind].
  pose proof (Forall_lookup_1 _ _ _ _ Hm Ei) as Hwf. rewrite (ticker_payload_spec HD _ t Hwf). cbn [mbind outcome_bind].
  destruct (ticks_of _ (bt_b t)) as [bp|]; [|done]. destruct (ticks_of _ (bt_a t)) as [ap|]; [|done].
  destruct (lots_of _ (bt_bid_qty t)) as [bq|]; [|done]. destruct (lots_of _ (bt_ask_qty t)) as [aq|]; [|done].
  rewrite arith_ok by mlia. cbn [mbind outcome_bind]. rewrite (index_ok _ _ _ Eid). cbn [mbind outcome_bind].
  rewrite set_index_ok by lia. done.
Qed.
End claims.

(** ** Streams of frames *)

Section streams.
Context `{BuildProfile} `{BinanceJson} {D : Z}.
Implicit Types (dec : BinanceDecoder D) (ms : list (BinanceSymbolMapping D)).

(** Decoding a stream into one event buffer: the events of each frame, in
    order. *)
Fixpoint binance_run dec (frames : list (bytes * Timestamp)) (out : list HotEvent)
    : outcome (BinanceDecoder D * list HotEvent * list HotEvent) :=
  match frames with
  | [] => Ret (dec, out, [])
  | (buf, ts) :: frames =>
      '(dec1, n, out1) ← binance_decode dec buf ts out;
      '(dec2, out2, es) ← binance_run dec1 frames out1;
      Ret (dec2, out2, take n out1 ++ es)
  end.

(** The specification: one event per frame that denotes a top of book, numbered
    consecutively. *)
Fixpoint stream_events ms (combined : bool) (source : SourceId) (seq : Z) (frames : list (bytes * Timestamp)) : list HotEvent :=
  match frames with
  | [] => []
  | (buf, ts) :: frames =>
      match frame_tob ms combined buf with
      | Some (id, p) =>
          ev_top_of_book ts (seqnum_from_raw (seq + 1)) id source flags_EMPTY p
            :: stream_events ms combined source (seq + 1) frames
      | None => stream_events ms combined source seq frames
      end
  end.

Lemma binance_run_spec (HD : valid_exp D) frames dec ms out :
  represents dec ms -> Forall (fun m => meta_wf (bm_meta m)) ms -> length out = 64%nat ->
  0 <= bd_seq dec -> bd_seq dec + Z.of_nat (length frames) <= tmax U64 ->
  exists dec' out', binance_run dec frames out
    = Ret (dec', out', stream_events ms (combined_stream dec) (bd_source_id dec) (bd_seq dec) frames).
Proof.
  revert dec out. induction frames as [|[buf ts] frames IH]; intros dec out Hr Hm Ho Hs Hn; [by exists dec, out|].
  cbn [binance_run stream_events length] in *.
  rewrite (binance_decode_spec HD dec ms buf ts out) by (done || mlia). cbn [mbind outcome_bind].
  destruct (frame_tob ms (combined_stream dec) buf) as [[id p]|].
  - match goal with |- context [binance_run ?d frames ?o] => destruct (IH d o) as (d' & o' & E) end;
      [done|done|by rewrite length_insert|cbn [set_bseq bd_seq]; lia|cbn [set_bseq bd_seq]; lia|].
    rewrite E. cbn [mbind outcome_bind]. exists d', o'. destruct out as [|o0 out]; [done|]. done.
  - destruct (IH dec out) as (d' & o' & E); [done..|lia|]. rewrite E. by exists d', o'.
Qed.

(** C31. The decoder emits exactly the top-of-book events its frames denote:
    from a decoder that [new] accepted, whichever stream format is chosen,
    decoding any sequence of frames never panics and emits, in order, one event
    for each frame whose JSON parses, whose symbol is mapped and whose four
    decimals are in range, addressed to the first mapping of the symbol and
    converted with its metadata; other frames emit nothing, and the sequence
    numbers of the events are 1, 2, 3, ... *)
Theorem binance_decodes_tickers (source : SourceId) ms dec (override : option bool)
    (frames : list (bytes * Timestamp)) (out : list HotEvent) :
  valid_exp D -> Forall (fun m => meta_wf (bm_meta m)) ms -> binance_new source ms = Ret (Ok dec) ->
  length out = 64%nat -> Z.of_nat (length frames) <= tmax U64 ->
  let dec := match override with Some c => set_combined_stream dec c | None => dec end in
  exists dec' out', binance_run dec frames out
    = Ret (dec', out', stream_events ms (default (bool_decide (1 < length ms)%nat) override) source 0 frames).
Proof.
  intros HD Hm Hnew Ho Hn. destruct (binance_new_spec source ms)
    as [[_ E]|[[_ E]|[_ [[_ E]|(_ & dec0 & E & Hr & Es & Esrc & Ec)]]]]; rewrite E in Hnew; try done.
  injection Hnew as <-. destruct override as [c|]; cbn [default].
  - destruct (binance_run_spec HD frames (set_combined_stream dec0 c) ms out) as (d' & o' & Er);
      [done|done|done|cbn [bd_seq set_combined_stream]; lia|cbn [bd_seq set_combined_stream]; lia|].
    exists d', o'. rewrite Er. cbn [bd_seq bd_source_id combined_stream set_combined_stream]. by rewrite Es, Esrc.
  - destruct (binance_run_spec HD frames dec0 ms out) as (d' & o' & Er); [done|done|done|lia|lia|].
    exists d', o'. by rewrite Er, Es, Esrc, Ec.
Qed.

(** [new] validates its mappings: it never panics, and fails exactly when
    there are none, more than eight, or one of them has a symbol of more than
    sixteen bytes, with the corresponding error. *)
Theorem binance_new_validates (source : SourceId) ms :
  exists r, binance_new source ms = Ret r
    /\ (r = Err EmptyMappings <-> ms = [])
    /\ (r = Err TooManySymbols <-> (MAX_BINANCE_SYMBOLS < length ms)%nat)
    /\ (r = Err SymbolTooLong <-> (length ms <= MAX_BINANCE_SYMBOLS)%nat /\ Exists too_long ms).
Proof.
  destruct (binance_new_spec source ms) as [[-> E]|[[Hl E]|[[Hl0 Hl] [[HE E]|(HF & dec & E & _)]]]]; rewrite E;
    eexists; (split; [done|]); (split; [|split]); split; intros Hx; try done; try (cbn in Hx; lia);
    try (subst ms; cbn in *; lia).
  - destruct Hx as [_ Hx]. by apply Exists_nil in Hx.
  - destruct Hx as [_ Hx]. exfalso. rewrite Exists_exists in Hx. destruct Hx as (m & Hin & Hm).
    rewrite Forall_forall in HF. by apply (HF m).
Qed.
End streams.

(** ** A concrete decoder *)

(** The characters of BTCUSDT, 67.40, 67.50 and 8.5. *)
Definition btcusdt : bytes := [66; 84; 67; 85; 83; 68; 84].

Definition sample_mapping : BinanceSymbolMapping 3 :=
  {| bm_symbol := btcusdt; bm_instrument := inst_from_raw 1; bm_meta := mkMeta (from_raw 100) (from_raw 500) |}.

Definition sample_ticker : BinanceBookTicker :=
  {| bt_s := btcusdt; bt_b := [54; 46; 52]; bt_bid_qty := [56; 46; 53]; bt_a := [54; 46; 53]; bt_ask_qty := [55] |}.

(** A deserialiser that knows one frame. *)
Definition sample_binance_json : BinanceJson :=
  {| parse_ticker := fun buf => if decide (buf = [123; 125]) then Some sample_ticker else None;
     parse_combined := fun _ => None |}.

Definition sample_payload : TopOfBookPayload :=
  {| tp_bid_price := ticks_from_raw 64; tp_bid_qty := lots_from_raw 17;
     tp_ask_price := ticks_from_raw 65; tp_ask_qty := lots_from_raw 14 |}.

Definition sample_out : list HotEvent :=
  replicate 64 (ev_heartbeat (from_nanos 0) seqnum_ZERO (source_from_raw 0) flags_EMPTY {| hb_counter := 0 |}).

Lemma binance_decodes_tickers_witness :
  exists dec dec' out', binance_new (source_from_raw 2) [sample_mapping] = Ret (Ok dec)
    /\ @binance_run debug_profile sample_binance_json 3 dec
         [([123; 125], from_nanos 7); ([0], from_nanos 8); ([123; 125], from_nanos 9)] sample_out
       = Ret (dec', out',
           [ev_top_of_book (from_nanos 7) (seqnum_from_raw 1) (inst_from_raw 1) (source_from_raw 2) flags_EMPTY sample_payload;
            ev_top_of_book (from_nanos 9) (seqnum_from_raw 2) (inst_from_raw 1) (source_from_raw 2) flags_EMPTY sample_payload]).
Proof.
  let r := eval vm_compute in (binance_new (source_from_raw 2) [sample_mapping]) in
  match r with Ret (Ok ?d) => exists d end.
  destruct (@binance_decodes_tickers debug_profile sample_binance_json 3 (source_from_raw 2) [sample_mapping]
    ltac:(let r := eval vm_compute in (binance_new (source_from_raw 2) [sample_mapping]) in match r with Ret (Ok ?d) => exact d end) None
    [([123; 125], from_nanos 7); ([0], from_nanos 8); ([123; 125], from_nanos 9)] sample_out) as (dec' & out' & E).
  - by vm_compute.
  - repeat constructor; by vm_compute.
  - vm_compute. reflexivity.
  - reflexivity.
  - by vm_compute.
  - exists dec', out'. split; [vm_compute; reflexivity|]. exact E.
Defined.
