(* ===== verification/EndToEnd.v ===== *)
(** * From venue frame to top of book

    The decoder ([crates/polymarket]) and the engine ([crates/market-state])
    meet in the event flags.  The engine clears a book on every event flagged
    [IS_SNAPSHOT] and documents that only the first event of a batch carries
    the flag; the decoder sets it on every event of a snapshot. *)

From Stdlib Require Import ZArith Lia.
From stdpp Require Import base decidable list numbers option tactics gmap.
From S2P Require Import Prelude Platform Fixed FixedText Types Events Book MarketEngine Registry Polymarket Binance.

#[local] Open Scope Z_scope.

Section quiet.
Context `{BuildProfile} {B} `{!OrderBook B} `{!OrderBookLaws B} `{!SmallPrices B}.
Implicit Types eng : MarketStateEngine B.

(** Events that trigger no check leave the pending report alone. *)
Lemma process_all_quiet events eng :
  engine_wf eng -> Forall event_ok events ->
  Forall (fun e => forall st : InstrumentState B, reporting e st = false) events ->
  exists eng', process_all eng events = Ret eng' /\ engine_wf eng' /\ active_count eng' = active_count eng
    /\ tob_changed eng' = tob_changed eng /\ last_tob eng' = last_tob eng.
Proof.
  intros Hwf He. revert eng Hwf. induction He as [|e events He _ IH]; intros eng Hwf Hq; cbn; [by exists eng|].
  inversion Hq as [|?? Hq1 Hq2]; subst. destruct (process_step eng e Hwf He) as (eng1 & -> & Hstep). cbn.
  destruct (slot_of eng _) as [slot|].
  - destruct Hstep as (st & st' & _ & Hs). pose proof (step_spec_wf _ _ _ _ _ _ Hwf Hs) as Hwf1.
    destruct Hs as (_ & Ea & _ & _ & Hr). rewrite Hq1 in Hr. destruct Hr as (E1 & E2 & _).
    destruct (IH eng1 Hwf1 Hq2) as (eng' & ? & ? & ? & ? & ?). exists eng'. split_and!; congruence.
  - subst. by apply IH.
Qed.

Lemma process_all_app eng es es' eng1 :
  process_all eng es = Ret eng1 -> process_all eng (es ++ es') = process_all eng1 es'.
Proof.
  revert eng. induction es as [|e es IH]; intros eng; cbn; [by intros [= ->]|].
  destruct (process eng e); [apply IH|done].
Qed.

(** A side without positive levels has no best level. *)
Lemma is_best_empty s lv r : (forall p, lv p <= 0) -> is_best s lv r -> r = None.
Proof. destruct r as [[p q]|]; [|done]. intros Hl (? & E & _). specialize (Hl (ticks_to_raw p)). lia. Qed.

(** A snapshot event resets the instrument to its own level. *)
Lemma snapshot_resets dom a e d :
  ev_body e = BookDelta d -> flags_contains (hdr_flags (ev_header e)) IS_SNAPSHOT = true ->
  a_levels (abs_process dom a e)
  = set_level dom (fun _ _ => 0) (bd_side d) (ticks_to_raw (bd_price d)) (lots_to_raw (bd_qty d)).
Proof. intros Eb Ef. unfold abs_process. by rewrite Eb, Ef. Qed.

(** The last event of a snapshot batch whose every event is flagged. *)
Lemma last_snapshot_event eng e d slot :
  engine_wf eng -> event_ok e -> ev_body e = BookDelta d ->
  flags_contains (hdr_flags (ev_header e)) IS_SNAPSHOT = true ->
  slot_of eng (hdr_instrument_id (ev_header e)) = Some slot ->
  exists eng' st', process eng e = Ret eng' /\ instruments eng' !! slot = Some st'
    /\ (forall s p, ob_levels (is_book st') s p
          = set_level ob_dom (fun _ _ => 0) (bd_side d) (ticks_to_raw (bd_price d)) (lots_to_raw (bd_qty d)) s p)
    /\ tob_changed eng' = tob_changed eng /\ last_tob eng' = last_tob eng.
Proof.
  intros Hwf He Eb Ef Eslot. destruct (process_step eng e Hwf He) as (eng' & Ep & Hstep). rewrite Eslot in Hstep.
  destruct Hstep as (st & st' & Est & Ei & _ & _ & Hrel & Hr). exists eng', st'.
  destruct (Hrel {| a_levels := ob_levels (is_book st); a_received := snapshot_received st;
                    a_in_snapshot := in_snapshot st |}) as (Hlv & _); [done|].
  rewrite (snapshot_resets _ _ _ d Eb Ef) in Hlv.
  split_and!; [done|rewrite Ei; by apply list_lookup_insert_eq, (lookup_lt_Some _ _ _ Est)|done|..];
    (destruct (reporting e st'); [|by destruct_and! Hr]);
    destruct Hr as (st1 & r & (bid & ask & Hbid & Hask & _ & _ & Hrep) & _ & _ & L1 & _ & Hpend);
    (destruct r as [t|]; [|by injection Hpend]); exfalso;
    destruct Hrep as (_ & Eb' & Ea' & _);
    (assert (forall s, s <> bd_side d -> forall p, ob_levels (is_book st1) s p <= 0) as Hzero
      by (intros s Hs p; rewrite L1, Hlv; unfold set_level; rewrite decide_False by naive_solver; done));
    (destruct (bd_side d);
      [apply (is_best_empty Ask) in Hask; [congruence|by apply Hzero]
      |apply (is_best_empty Bid) in Hbid; [congruence|by apply Hzero]]).
Qed.
End quiet.

Section snapshot.
Context `{BuildProfile} `{PolymarketJson} {D : Z}.
Implicit Types (dec : PolymarketMarketDecoder D) (meta : InstrumentMeta D).

(** Quantities small enough for the engine's arithmetic. *)
Definition bounded_levels (ls : list (option (Side * Ticks * Lots))) : Prop :=
  Forall (fun l => match l with Some (_, _, q) => lots_to_raw q <= max_qty | None => True end) ls.

(** Every decoded level has an [i64] price. *)
Lemma book_levels_prices meta msg s p q :
  valid_exp D -> meta_wf (D := D) meta -> Some (s, p, q) ∈ book_levels meta msg -> in_range I64 (ticks_to_raw p).
Proof.
  intros HD Hm Hin. apply (subseteq_take 64) in Hin.
  assert (exists l, parsed_level meta l = Some (p, q)) as [l El].
  { apply elem_of_app in Hin as [Hin|Hin]; apply list_elem_of_fmap in Hin as ([p' q'] & [= -> -> ->] & Hin);
      apply list_elem_of_omap in Hin as (l & _ & El); eauto. }
  unfold parsed_level in El.
  destruct (parse_price_qty_total HD (lvl_price l) (lvl_size l) meta Hm) as (r & Er & Hr).
  rewrite Er in El. by apply (Hr p q).
Qed.

(** The events of a batch are admissible for the engine. *)
Lemma batch_events_ok dec ts id es meta msg :
  valid_exp D -> meta_wf meta -> in_range U32 (inst_to_raw id) -> bounded_levels (book_levels meta msg) ->
  ev_level <$> es = book_levels meta msg -> snapshot_batch dec ts id es -> Forall event_ok es.
Proof.
  intros HD Hm Hid Hb Hlv Hbatch. apply Forall_lookup. intros i e Ee. split; [by rewrite (Hbatch i e Ee)|].
  assert (ev_level e ∈ book_levels meta msg) as Hin.
  { rewrite <- Hlv. apply list_elem_of_fmap. exists e. split; [done|]. by eapply list_elem_of_lookup_2. }
  pose proof (proj1 (Forall_forall _ _) Hb _ Hin) as Hq. unfold ev_level in Hin, Hq.
  destruct (ev_body e) as [d|?|?|?|?|?|?|?] eqn:Eb; try done.
  - split; [by eapply book_levels_prices|done].
  - exfalso. revert Hin. unfold book_levels. intros [Hin|Hin]%(subseteq_take 64)%elem_of_app;
      by apply list_elem_of_fmap in Hin as ([??] & ? & _).
Qed.

(** C19: a Polymarket book snapshot does not survive the engine.  Because the
    decoder flags every event of the batch as snapshot and the engine clears
    the book on each of them, processing a decoded book message leaves the
    instrument with only the last emitted level, whatever the message held,
    and never reports a top of book, since one side is always empty. *)
Theorem polymarket_snapshot_keeps_last_level {N : nat} dec (eng : MarketStateEngine (ArrayBook N))
    (buf : bytes) (ts : Timestamp) (out : list HotEvent) msg id meta slot s0 p0 q0 :
  forall HN : BookSize N,
  valid_exp D -> dec_wf dec -> length out = 64%nat -> 0 <= pd_seq dec <= tmax U64 - 64 ->
  parse_book buf = Some msg -> resolve dec (bk_asset_id msg) = Some (id, meta) ->
  bounded_levels (book_levels meta msg) -> last (book_levels meta msg) = Some (Some (s0, p0, q0)) ->
  engine_wf eng -> slot_of eng id = Some slot ->
  exists dec' n out' eng' st,
    decode_book dec buf ts out = Ret (dec', n, out')
    /\ n = length (book_levels meta msg)
    /\ process_all eng (take n out') = Ret eng'
    /\ instruments eng' !! slot = Some st
    /\ (forall s p, array_levels (is_book st) s p
          = if decide (s = s0 /\ p = ticks_to_raw p0 /\ array_dom N p = true) then lots_to_raw q0 else 0)
    /\ tob_changed eng' = tob_changed eng /\ last_tob eng' = last_tob eng.
Proof.
  intros HN HD Hwf Hout Hseq Em Er Hb Hlast Heng Eslot.
  pose proof (resolve_meta_wf _ _ _ _ Hwf Er) as Hm.
  destruct (slot_of_Some _ _ _ Heng Eslot) as (_ & _ & _ & _ & Hs32 & Hid).
  destruct (decode_book_spec HD dec buf ts out msg id meta) as (es & Ed & _ & Hlv & Hbatch); [done..|].
  assert (length es = length (book_levels meta msg)) as Hn by (rewrite <- Hlv; by rewrite length_fmap).
  assert (Forall event_ok es) as Hok by (apply (batch_events_ok dec ts id es meta msg); [done|done|mlia|done..]).
  destruct es as [|e es _] using rev_ind; [rewrite <- Hlv in Hlast; done|].
  rewrite <- Hlv, fmap_app in Hlast. change (ev_level <$> [e]) with [ev_level e] in Hlast. rewrite last_snoc in Hlast.
  rewrite Forall_app, Forall_singleton in Hok. destruct Hok as [Hok Hoke].
  assert (ev_header e = mk_header ts (seqnum_from_raw (pd_seq dec + Z.of_nat (length es) + 1)) id (pd_source_id dec)
            (flags_bitor IS_SNAPSHOT LAST_IN_BATCH)) as Hh.
  { rewrite (Hbatch (length es) e) by (rewrite lookup_app_r, Nat.sub_diag; [done|lia]).
    by rewrite decide_True by (rewrite length_app; cbn; lia). }
  destruct (process_all_quiet es eng Heng Hok) as (eng1 & E1 & Hwf1 & Ea1 & T1 & T2).
  { apply Forall_lookup. intros i x Ex st. pose proof (lookup_lt_Some _ _ _ Ex) as Hi.
    unfold reporting. rewrite (Hbatch i x) by (by rewrite lookup_app_l).
    rewrite decide_False by (rewrite length_app; cbn; lia).
    assert (ev_level x <> None) as Hx; [|unfold ev_level in Hx; by destruct (ev_body x)].
    intros Ex'. assert (None ∈ book_levels meta msg) as Hin.
    { rewrite <- Hlv, fmap_app, elem_of_app. left. apply list_elem_of_fmap. exists x.
      split; [done|]. by eapply list_elem_of_lookup_2. }
    apply (subseteq_take 64), elem_of_app in Hin as [Hin|Hin]; by apply list_elem_of_fmap in Hin as ([??] & ? & _). }
  injection Hlast as Hlast. unfold ev_level in Hlast.
  destruct (ev_body e) as [d|?|?|?|?|?|?|?] eqn:Ebody; try done. injection Hlast as <- <- <-.
  destruct (last_snapshot_event eng1 e d slot) as (eng' & st' & E2 & Est & Hl & T3 & T4); [done..| | |].
  { by rewrite Hh. }
  { rewrite Hh. cbn. unfold slot_of in *. by rewrite Ea1. }
  eexists _, _, _, eng', st'. split; [exact Ed|]. split; [done|].
  rewrite take_app_length. split_and!; [|done| |congruence|congruence].
  - rewrite (process_all_app _ _ _ eng1 E1). cbn. by rewrite E2.
  - intros s p. change (array_levels (is_book st') s p) with (ob_levels (is_book st') s p). rewrite Hl.
    unfold set_level. cbn [ob_dom ArrayBook_laws]. apply decide_ext. naive_solver.
Qed.
End snapshot.

Section ticker.
Context `{BuildProfile} `{BinanceJson} {D : Z}.

(** The levels a top-of-book payload sets. *)
Definition tob_levels (dom : Z -> bool) (p : TopOfBookPayload) : Side -> Z -> Z :=
  set_level dom (set_level dom (fun _ _ => 0) Bid (ticks_to_raw (tp_bid_price p)) (lots_to_raw (tp_bid_qty p)))
    Ask (ticks_to_raw (tp_ask_price p)) (lots_to_raw (tp_ask_qty p)).

(** A positive level in range is the best of its side. *)
Lemma tob_best (dom : Z -> bool) p (s : Side) pr q r :
  (match s with Bid => (tp_bid_price p, tp_bid_qty p) | Ask => (tp_ask_price p, tp_ask_qty p) end) = (pr, q) ->
  dom (ticks_to_raw pr) = true -> 0 < lots_to_raw q -> is_best s (tob_levels dom p s) r -> r = Some (pr, q).
Proof.
  intros E Hd Hq Hb.
  assert (forall p', tob_levels dom p s p' = if decide (p' = ticks_to_raw pr) then lots_to_raw q else 0) as Hl.
  { intros p'. unfold tob_levels, set_level. destruct s; injection E as -> ->; repeat case_decide; naive_solver. }
  destruct r as [[p1 q1]|]; cbn in Hb.
  - destruct Hb as (Hp & El & _). rewrite Hl in El. destruct (decide (ticks_to_raw p1 = ticks_to_raw pr)) as [Ep|]; [|lia].
    destruct p1 as [t1], pr as [t], q1 as [l1], q as [l]. cbn in *. congruence.
  - specialize (Hb (ticks_to_raw pr)). rewrite Hl, decide_True in Hb by done. lia.
Qed.

(** C33. A ticker frame sets the top of book: when a frame of the stream
    denotes a bid and an ask for an instrument of the engine, decoding it and
    processing the event replaces the instrument's book by these two levels
    (those outside the book's price range are dropped); when both are in range
    and positive and differ from the last best prices, the engine reports
    them, with their spread, under the frame's timestamp. *)
Theorem binance_ticker_sets_top {N : nat} (dec : BinanceDecoder D) ms (eng : MarketStateEngine (ArrayBook N))
    (buf : bytes) (ts : Timestamp) (out : list HotEvent) id p slot st :
  forall HN : BookSize N,
  valid_exp D -> represents dec ms -> Forall (fun m => meta_wf (bm_meta m)) ms ->
  length out = 64%nat -> 0 <= bd_seq dec < tmax U64 -> frame_tob ms (combined_stream dec) buf = Some (id, p) ->
  level_ok (tp_bid_price p) (tp_bid_qty p) -> level_ok (tp_ask_price p) (tp_ask_qty p) ->
  engine_wf eng -> slot_of eng id = Some slot -> instruments eng !! slot = Some st ->
  exists dec' out' eng' st',
    binance_decode dec buf ts out = Ret (dec', 1%nat, out') /\ process_all eng (take 1 out') = Ret eng'
    /\ instruments eng' !! slot = Some st' /\ snapshot_received st' = true
    /\ (forall s x, array_levels (is_book st') s x = tob_levels (array_dom N) p s x)
    /\ (array_dom N (ticks_to_raw (tp_bid_price p)) = true -> array_dom N (ticks_to_raw (tp_ask_price p)) = true ->
        0 < lots_to_raw (tp_bid_qty p) -> 0 < lots_to_raw (tp_ask_qty p) ->
        ~ (prev_bid st = Some (tp_bid_price p) /\ prev_ask st = Some (tp_ask_price p)) ->
        tob_changed eng' = true /\ exists t, last_tob eng' = Some t /\ tob_ts t = ts
          /\ (tob_bid_price t, tob_bid_qty t) = (tp_bid_price p, tp_bid_qty p)
          /\ (tob_ask_price t, tob_ask_qty t) = (tp_ask_price p, tp_ask_qty p)
          /\ ticks_to_raw (tob_spread t) = ticks_to_raw (tp_ask_price p) - ticks_to_raw (tp_bid_price p)).
Proof.
  intros HN HD Hr Hm Ho Hs Hf Hb Ha Hwf Eslot Est.
  destruct (slot_of_Some _ _ _ Hwf Eslot) as (_ & _ & _ & _ & Hs32 & Hid).
  set (e := ev_top_of_book ts (seqnum_from_raw (bd_seq dec + 1)) id (bd_source_id dec) flags_EMPTY p).
  assert (event_ok e) as He by (split; [cbn; mlia|done]).
  destruct (process_step eng e Hwf He) as (eng' & Ep & Hstep). change (hdr_instrument_id (ev_header e)) with id in Hstep.
  rewrite Eslot in Hstep.
  destruct Hstep as (st0 & st' & Est0 & Ei & _ & _ & Hrel & st1 & r & Hobs & Epb & Epa & Hlv & Hts & Hpend).
  assert (st0 = st) as -> by congruence.
  destruct (Hrel {| a_levels := ob_levels (is_book st); a_received := snapshot_received st;
                    a_in_snapshot := in_snapshot st |}) as (Hlv' & Hrec & _); [done|].
  rewrite (binance_decode_spec HD dec ms buf ts out), Hf by done.
  eexists _, _, eng', st'. split; [done|]. fold e. destruct out as [|o0 out]; [done|]. cbn [take insert list_insert process_all].
  rewrite Ep. split; [done|]. split; [rewrite Ei; by apply list_lookup_insert_eq, (lookup_lt_Some _ _ _ Est)|].
  split; [done|]. split; [exact Hlv'|]. intros Db Da Qb Qa Hne.
  destruct Hobs as (bid & ask & Hbid & Hask & _ & _ & Hrep).
  assert (forall s x, ob_levels (is_book st1) s x = tob_levels (array_dom N) p s x) as Hl1
    by (intros; rewrite Hlv; apply Hlv').
  apply (is_best_ext _ _ _ _ (Hl1 Bid)) in Hbid. apply (is_best_ext _ _ _ _ (Hl1 Ask)) in Hask.
  apply (tob_best _ _ Bid _ _ _ eq_refl Db Qb) in Hbid. apply (tob_best _ _ Ask _ _ _ eq_refl Da Qa) in Hask. subst bid ask.
  unfold report_spec in Hrep. rewrite Epb, Epa in Hrep. destruct r as [t|].
  - injection Hpend as -> ->. destruct Hrep as (_ & [= E1 E2] & [= E3 E4] & _ & Esp & _ & Et).
    split; [done|]. exists t. rewrite Et, Hts, Esp, <- E1, <- E2, <- E3, <- E4. done.
  - exfalso. destruct Hrep as [[E1 E2]|[?|?]]; [apply Hne; split; symmetry; done|done|done].
Qed.
End ticker.

#[export] Instance book_size_100 : BookSize 100.
Proof. by vm_compute. Defined.

Lemma polymarket_snapshot_witness :
  exists eng : MarketStateEngine (ArrayBook 100),
    @engine_new _ (@ArrayBook_book debug_profile 100) 1 1 1000 = Ret eng /\
    exists dec' n out' eng' st,
      @decode_book debug_profile sample_json 6 sample_decoder sample_frame (from_nanos 5) (replicate 64 blank_event)
        = Ret (dec', n, out')
      /\ n = 2%nat
      /\ @process_all debug_profile _ (@ArrayBook_book debug_profile 100) eng (take n out') = Ret eng'
      /\ instruments eng' !! 0%nat = Some st
      /\ (forall s p, array_levels (is_book st) s p
            = if decide (s = Ask /\ p = 52 /\ array_dom 100 p = true) then 20 else 0)
      /\ tob_changed eng' = tob_changed eng /\ last_tob eng' = last_tob eng.
Proof.
  destruct (@engine_new_ok (ArrayBook 100) (@ArrayBook_book debug_profile 100) _ 1 1 1000) as (eng & En & Ea & Hwf & _); [lia|by vm_compute|].
  exists eng. split; [exact En|].
  refine (@polymarket_snapshot_keeps_last_level debug_profile sample_json 6 100 sample_decoder eng sample_frame
    (from_nanos 5) (replicate 64 blank_event) sample_msg (inst_from_raw 1) sample_meta 0%nat Ask
    (ticks_from_raw 52) (lots_from_raw 20) _ ltac:(by vm_compute) sample_decoder_wf eq_refl ltac:(by vm_compute)
    ltac:(by vm_compute) ltac:(by vm_compute) _ ltac:(by vm_compute) Hwf _).
  - repeat constructor; by vm_compute.
  - unfold slot_of. rewrite Ea. done.
Defined.

Lemma binance_ticker_sets_top_witness :
  exists (dec : BinanceDecoder 3) (eng : MarketStateEngine (ArrayBook 100)),
    binance_new (source_from_raw 2) [sample_mapping] = Ret (Ok dec) /\
    @engine_new _ (@ArrayBook_book debug_profile 100) 1 1 1000 = Ret eng /\
    exists dec' out' eng',
      @binance_decode debug_profile sample_binance_json 3 dec [123; 125] (from_nanos 7) sample_out = Ret (dec', 1%nat, out')
      /\ @process_all debug_profile _ (@ArrayBook_book debug_profile 100) eng (take 1 out') = Ret eng'
      /\ tob_changed eng' = true.
Proof.
  destruct (binance_new_spec (source_from_raw 2) [sample_mapping])
    as [[? _]|[[Hl _]|[_ [[HE _]|(_ & dec & E & Hr & Es & _ & Ec)]]]]; [done|unfold MAX_BINANCE_SYMBOLS in Hl; cbn in Hl; lia| |].
  { apply Exists_cons in HE as [HE|HE]; [unfold too_long, MAX_SYMBOL_LEN in HE; cbn in HE; lia|by apply Exists_nil in HE]. }
  destruct (@engine_new_ok (ArrayBook 100) (@ArrayBook_book debug_profile 100) _ 1 1 1000) as (eng & En & Ea & Hwf & Hrel);
    [lia|by vm_compute|].
  exists dec, eng. split; [exact E|]. split; [exact En|].
  destruct (Hrel 0%nat) as (st & Est & _); [lia|].
  destruct (@binance_ticker_sets_top debug_profile sample_binance_json 3 100 dec [sample_mapping] eng [123; 125]
    (from_nanos 7) sample_out (inst_from_raw 1) sample_payload 0%nat st _) as (dec' & out' & eng' & st' & Hd & Hp & _ & _ & _ & Ht).
  - by vm_compute.
  - exact Hr.
  - repeat constructor; by vm_compute.
  - reflexivity.
  - rewrite Es. by vm_compute.
  - rewrite Ec. reflexivity.
  - by vm_compute.
  - by vm_compute.
  - exact Hwf.
  - unfold slot_of. rewrite Ea. done.
  - exact Est.
  - exists dec', out', eng'. split; [exact Hd|]. split; [exact Hp|]. apply Ht; try reflexivity.
    injection En as <-. cbn in Est. injection Est as <-. by intros [? _].
Defined.
