(* ===== verification/Ring.v ===== *)
(** * SPSC ring buffer ([crates/core], [crates/queue]: storage.rs, raw/, engine.rs, handle.rs)

    The ring engine that the split handles and [RawRing] expose, here with the
    sequential semantics of [RawRing] (all operations take [&mut self]); the
    concurrent protocol is in [Spsc].  A slot is [Some v] while it holds an
    initialised value and [None] while it is uninitialised or moved out.  A
    broken safety contract (an index out of bounds, reading an empty slot,
    overwriting an occupied one) is [Panic], so a theorem that an operation
    returns also shows that its unsafe code stays within its contract. *)

From stdpp Require Import base decidable list numbers option tactics.
From Stdlib Require Import ZArith Lia.
From S2P Require Import Prelude Platform.

#[local] Open Scope Z_scope.

(** ** core/lib.rs: strategies *)

(** [IndexStrategy::wrap(index, capacity)]. *)
Class IndexStrategy := wrap_index : Z -> Z -> outcome Z.

(** The [debug_assert!]s are compiled in with the development profile, like the
    overflow checks. *)
Definition Pow2Masked `{BuildProfile} : IndexStrategy := fun index capacity =>
  if overflow_checks && negb (is_power_of_two capacity) then Panic
  else m ← arith USIZE (capacity - 1); Ret (Z.land index m).

Definition BranchWrap : IndexStrategy := fun index capacity =>
  Ret (if capacity <=? index then 0 else index).

(** The hooks of [Instrumentation]. *)
Class Instrumentation (In : Type) := {
  on_push : In -> In;
  on_pop : In -> In;
  on_push_full : In -> In;
  on_pop_empty : In -> In;
}.

Record CountingInstr := { c_pushes : Z; c_pops : Z; c_push_full : Z; c_pop_empty : Z }.

Definition counting_new : CountingInstr :=
  {| c_pushes := 0; c_pops := 0; c_push_full := 0; c_pop_empty := 0 |}.

(** [fetch_add] wraps around. *)
#[export] Instance counting_instr : Instrumentation CountingInstr := {
  on_push c := {| c_pushes := wrap U64 (c_pushes c + 1); c_pops := c_pops c;
                  c_push_full := c_push_full c; c_pop_empty := c_pop_empty c |};
  on_pop c := {| c_pushes := c_pushes c; c_pops := wrap U64 (c_pops c + 1);
                 c_push_full := c_push_full c; c_pop_empty := c_pop_empty c |};
  on_push_full c := {| c_pushes := c_pushes c; c_pops := c_pops c;
                       c_push_full := wrap U64 (c_push_full c + 1); c_pop_empty := c_pop_empty c |};
  on_pop_empty c := {| c_pushes := c_pushes c; c_pops := c_pops c;
                       c_push_full := c_push_full c; c_pop_empty := wrap U64 (c_pop_empty c + 1) |};
}.

Inductive NoInstr := no_instr.

#[export] Instance no_instrumentation : Instrumentation NoInstr :=
  {| on_push c := c; on_pop c := c; on_push_full c := c; on_pop_empty c := c |}.

(** ** storage.rs, raw/slot.rs, raw/mod.rs *)

Section slots.
Context {T : Type}.
Implicit Types slots : list (option T).

Definition capacity_of slots : Z := Z.of_nat (length slots).

(** [InlineStorage::new], with the compile-time check [AssertPowerOfTwo]. *)
Definition inline_storage (N : nat) : outcome (list (option T)) :=
  if is_power_of_two (Z.of_nat N) then Ret (replicate N None) else Panic.

(** [HeapStorage::new]. *)
Definition heap_storage `{BuildProfile} (min_capacity : Z) : outcome (list (option T)) :=
  if decide (0 < min_capacity) then
    cap ← next_power_of_two min_capacity;
    Ret (replicate (Z.to_nat cap) None)
  else Panic.

(** [ptr::write] into an empty slot. *)
Definition write_slot slots (i : Z) (v : T) : outcome (list (option T)) :=
  match slots !! Z.to_nat i with
  | Some None => if decide (0 <= i) then Ret (<[Z.to_nat i := Some v]> slots) else Panic
  | _ => Panic
  end.

(** [ptr::read]: the value is moved out. *)
Definition read_slot slots (i : Z) : outcome (T * list (option T)) :=
  match slots !! Z.to_nat i with
  | Some (Some v) => if decide (0 <= i) then Ret (v, <[Z.to_nat i := None]> slots) else Panic
  | _ => Panic
  end.

(** [ptr::drop_in_place]; the dropped value is recorded. *)
Definition drop_occupied_slot slots (i : Z) : outcome (T * list (option T)) := read_slot slots i.

(** [drop_range]: the [while tail != head] loop, with [fuel] iterations; the
    values dropped, in order. *)
Fixpoint drop_range `{BuildProfile} `{IndexStrategy} (fuel : nat) slots (tail head : Z)
    : outcome (option (list T * list (option T))) :=
  if tail =? head then Ret (Some ([], slots))
  else
    match fuel with
    | O => Ret None
    | S fuel =>
        '(v, slots1) ← drop_occupied_slot slots tail;
        t1 ← arith USIZE (tail + 1);
        tail1 ← wrap_index t1 (capacity_of slots);
        r ← drop_range fuel slots1 tail1 head;
        Ret (match r with Some (vs, s) => Some (v :: vs, s) | None => None end)
    end.
End slots.

(** ** engine.rs *)

(** [cfg(target_arch = "aarch64")]. *)
Class TargetArch := aarch64 : bool.

(** [head_local] and [tail_local] exist on aarch64 only; they are never read on
    other targets. *)
Record RingEngine (T In : Type) := {
  head : Z;
  head_local : Z;
  tail_cached : Z;
  tail : Z;
  tail_local : Z;
  head_cached : Z;
  slots : list (option T);
  ring_instr : In;
}.
Arguments head {T In} _.
Arguments head_local {T In} _.
Arguments tail_cached {T In} _.
Arguments tail {T In} _.
Arguments tail_local {T In} _.
Arguments head_cached {T In} _.
Arguments slots {T In} _.
Arguments ring_instr {T In} _.

(** [PushError::Full(value)] and [QueueError::Empty]. *)
Inductive PushError (T : Type) := Full (v : T).
Arguments Full {T} _.
Inductive QueueError := QueueFull | QueueEmpty.

Section engine.
Context `{BuildProfile} `{TargetArch} `{IndexStrategy} {T In : Type} `{Instrumentation In}.
Implicit Types r : RingEngine T In.

Definition ring_new (storage : list (option T)) (instr : In) : RingEngine T In :=
  {| head := 0; head_local := 0; tail_cached := 0; tail := 0; tail_local := 0; head_cached := 0;
     slots := storage; ring_instr := instr |}.

Definition ring_capacity r : outcome Z := arith USIZE (capacity_of (slots r) - 1).

Definition own_head r : Z := if aarch64 then head_local r else head r.
Definition own_tail r : Z := if aarch64 then tail_local r else tail r.

Definition set_tail_cached r (t : Z) : RingEngine T In :=
  {| head := head r; head_local := head_local r; tail_cached := t; tail := tail r;
     tail_local := tail_local r; head_cached := head_cached r; slots := slots r; ring_instr := ring_instr r |}.
Definition set_head_cached r (h : Z) : RingEngine T In :=
  {| head := head r; head_local := head_local r; tail_cached := tail_cached r; tail := tail r;
     tail_local := tail_local r; head_cached := h; slots := slots r; ring_instr := ring_instr r |}.
Definition set_instr r (i : In) : RingEngine T In :=
  {| head := head r; head_local := head_local r; tail_cached := tail_cached r; tail := tail r;
     tail_local := tail_local r; head_cached := head_cached r; slots := slots r; ring_instr := i |}.

(** The stores that publish a new head, respectively tail, with the slots. *)
Definition publish_head r (next : Z) (s : list (option T)) : RingEngine T In :=
  {| head := next; head_local := if aarch64 then next else head_local r; tail_cached := tail_cached r;
     tail := tail r; tail_local := tail_local r; head_cached := head_cached r; slots := s;
     ring_instr := ring_instr r |}.
Definition publish_tail r (next : Z) (s : list (option T)) : RingEngine T In :=
  {| head := head r; head_local := head_local r; tail_cached := tail_cached r;
     tail := next; tail_local := if aarch64 then next else tail_local r; head_cached := head_cached r;
     slots := s; ring_instr := ring_instr r |}.

Definition try_push r (value : T) : outcome (RingEngine T In * result unit (PushError T)) :=
  let hd := own_head r in
  h1 ← arith USIZE (hd + 1);
  next_head ← wrap_index h1 (capacity_of (slots r));
  let write r :=
    s ← write_slot (slots r) hd value;
    let r := publish_head r next_head s in
    Ret (set_instr r (on_push (ring_instr r)), Ok tt) in
  if next_head =? tail_cached r then
    let tl := tail r in
    let r := set_tail_cached r tl in
    if next_head =? tl then Ret (set_instr r (on_push_full (ring_instr r)), Err (Full value))
    else write r
  else write r.

Definition try_pop r : outcome (RingEngine T In * result T QueueError) :=
  let tl := own_tail r in
  let read r :=
    '(value, s) ← read_slot (slots r) tl;
    t1 ← arith USIZE (tl + 1);
    next_tail ← wrap_index t1 (capacity_of (slots r));
    let r := publish_tail r next_tail s in
    Ret (set_instr r (on_pop (ring_instr r)), Ok value) in
  if tl =? head_cached r then
    let hd := head r in
    let r := set_head_cached r hd in
    if tl =? hd then Ret (set_instr r (on_pop_empty (ring_instr r)), Err QueueEmpty)
    else read r
  else read r.

Definition ring_push r (value : T) : outcome (RingEngine T In * bool) :=
  let hd := own_head r in
  h1 ← arith USIZE (hd + 1);
  next_head ← wrap_index h1 (capacity_of (slots r));
  let write r :=
    s ← write_slot (slots r) hd value;
    let r := publish_head r next_head s in
    Ret (set_instr r (on_push (ring_instr r)), true) in
  if next_head =? tail_cached r then
    let tl := tail r in
    let r := set_tail_cached r tl in
    if next_head =? tl then Ret (set_instr r (on_push_full (ring_instr r)), false)
    else write r
  else write r.

(** [pop(out)]: the flag and what is in [out] afterwards. *)
Definition ring_pop r (out : T) : outcome (RingEngine T In * bool * T) :=
  let tl := own_tail r in
  let read r :=
    '(value, s) ← read_slot (slots r) tl;
    t1 ← arith USIZE (tl + 1);
    next_tail ← wrap_index t1 (capacity_of (slots r));
    let r := publish_tail r next_tail s in
    Ret (set_instr r (on_pop (ring_instr r)), true, value) in
  if tl =? head_cached r then
    let hd := head r in
    let r := set_head_cached r hd in
    if tl =? hd then Ret (set_instr r (on_pop_empty (ring_instr r)), false, out)
    else read r
  else read r.

Definition ring_len r : outcome Z :=
  let cap := capacity_of (slots r) in
  a ← arith USIZE (head r + cap);
  b ← arith USIZE (a - tail r);
  rem_op USIZE b cap.

Definition ring_is_empty r : outcome bool := (fun n => n =? 0) <$> ring_len r.

(** [Drop for RingEngine]: the values dropped. *)
Definition ring_drop r : outcome (option (list T)) :=
  d ← drop_range (length (slots r)) (slots r) (tail r) (head r);
  Ret (match d with Some (vs, _) => Some vs | None => None end).
End engine.

(** * Laws of the index strategies *)

(** Advancing a valid index by one wraps it modulo the capacity: all the
    element-wise operations need. *)
Class StepWrap `{IndexStrategy} (cap : Z) :=
  wrap_step i : 0 <= i < cap -> wrap_index (i + 1) cap = Ret ((i + 1) mod cap).

(** Any index below twice the capacity wraps modulo the capacity: what the
    batch operations need. *)
Class BatchWrap `{IndexStrategy} (cap : Z) :=
  wrap_batch i : 0 <= i < 2 * cap -> wrap_index i cap = Ret (i mod cap).

#[export] Instance batch_step `{IndexStrategy} cap `{!BatchWrap cap} : StepWrap cap.
Proof. intros i Hi. apply wrap_batch. lia. Qed.

Lemma pow2_masked_wraps `{BuildProfile} k : 0 <= k <= 62 -> @BatchWrap Pow2Masked (2 ^ k).
Proof.
  intros Hk i Hi. unfold wrap_index, Pow2Masked.
  assert (1 <= 2 ^ k <= 2 ^ 62) by (split; [apply (Z.pow_le_mono_r 2 0)|apply Z.pow_le_mono_r]; lia).
  rewrite (proj2 (is_power_of_two_spec (2 ^ k) ltac:(lia))) by (by rewrite Z.log2_pow2 by lia).
  rewrite andb_false_r, arith_ok by mlia. cbn [mbind outcome_bind].
  by rewrite <- Z.land_ones, Z.ones_equiv by lia.
Qed.

Lemma branch_wraps cap : 0 < cap -> @StepWrap BranchWrap cap.
Proof.
  intros Hc i Hi. unfold wrap_index, BranchWrap. destruct (Z.leb_spec cap (i + 1)).
  - replace (i + 1) with cap by lia. by rewrite Z.mod_same by lia.
  - by rewrite Z.mod_small by lia.
Qed.

(** * The slot array as a window of a queue *)

Lemma mod_window a x y cap :
  0 < cap -> a <= x < a + cap -> a <= y < a + cap -> x mod cap = y mod cap -> x = y.
Proof.
  intros Hc Hx Hy E. pose proof (Z.div_mod x cap ltac:(lia)). pose proof (Z.div_mod y cap ltac:(lia)).
  assert (x / cap = y / cap); nia.
Qed.

Section window.
Context {T : Type} (cap : Z).
Implicit Types (s : list (option T)) (q : list T).

(** The slots of the positions [t, t + cap) hold the queue [q] from [t] on and
    are empty behind it. *)
Definition slots_hold s (t : Z) q : Prop :=
  capacity_of s = cap /\
  forall k, t <= k < t + cap -> s !! Z.to_nat (k mod cap) = Some (q !! Z.to_nat (k - t)).

Lemma slot_bound s i : capacity_of s = cap -> 0 < cap -> (Z.to_nat (i mod cap) < length s)%nat.
Proof. unfold capacity_of. intros E Hc. pose proof (Z.mod_pos_bound i cap Hc). lia. Qed.

Lemma slots_hold_push s t q v :
  0 < cap -> slots_hold s t q -> Z.of_nat (length q) < cap ->
  write_slot s ((t + Z.of_nat (length q)) mod cap) v
  = Ret (<[Z.to_nat ((t + Z.of_nat (length q)) mod cap) := Some v]> s)
  /\ slots_hold (<[Z.to_nat ((t + Z.of_nat (length q)) mod cap) := Some v]> s) t (q ++ [v]).
Proof.
  intros Hc [Ecap Hs] Hq. set (h := t + Z.of_nat (length q)).
  pose proof (Z.mod_pos_bound h cap Hc). split.
  - unfold write_slot. rewrite Hs by lia. rewrite (lookup_ge_None_2 q) by lia. by rewrite decide_True by lia.
  - split; [unfold capacity_of in *; by rewrite length_insert|]. intros k Hk.
    destruct (decide (k = h)) as [->|Hne].
    + rewrite list_lookup_insert_eq by (by apply slot_bound).
      replace (Z.to_nat (h - t)) with (length q) by lia. by rewrite list_lookup_middle.
    + rewrite list_lookup_insert_ne, Hs by
        (lia || (intros E%Z2Nat.inj; [|apply Z.mod_pos_bound; lia..]; apply (mod_window t) in E; lia)).
      f_equal. destruct (decide (k < h)); [by rewrite lookup_app_l by lia|].
      by rewrite !lookup_ge_None_2 by (rewrite ?length_app; cbn; lia).
Qed.

Lemma slots_hold_pop s t q v :
  0 < cap -> slots_hold s t (v :: q) -> Z.of_nat (length q) < cap ->
  read_slot s (t mod cap) = Ret (v, <[Z.to_nat (t mod cap) := None]> s)
  /\ slots_hold (<[Z.to_nat (t mod cap) := None]> s) (t + 1) q.
Proof.
  intros Hc [Ecap Hs] Hq. pose proof (Z.mod_pos_bound t cap Hc). split.
  - assert (s !! Z.to_nat (t mod cap) = Some (Some v)) as E by (rewrite Hs, Z.sub_diag by lia; done).
    unfold read_slot. by rewrite E, decide_True by lia.
  - split; [unfold capacity_of in *; by rewrite length_insert|]. intros k Hk.
    destruct (decide (k = t + cap)) as [->|Hne].
    + replace ((t + cap) mod cap) with (t mod cap) by (rewrite <- (Z.mul_1_l cap) at 2; by rewrite Z_mod_plus_full).
      rewrite list_lookup_insert_eq by (by apply slot_bound).
      by rewrite lookup_ge_None_2 by lia.
    + rewrite list_lookup_insert_ne, Hs by
        (lia || (intros E%Z2Nat.inj; [|apply Z.mod_pos_bound; lia..]; apply (mod_window t) in E; lia)).
      replace (Z.to_nat (k - t)) with (S (Z.to_nat (k - (t + 1)))) by lia. done.
Qed.

Lemma slots_hold_empty t : 0 < cap -> slots_hold (replicate (Z.to_nat cap) None) t [].
Proof.
  intros Hc. split; [unfold capacity_of; rewrite length_replicate; lia|]. intros k _.
  pose proof (Z.mod_pos_bound k cap Hc). apply lookup_replicate_2. lia.
Qed.
End window.

(** * The engine refines a bounded FIFO *)

(** The physical indices and caches, from unbounded positions: [tc <= t] is the
    last tail the producer saw, [hc <= h] the last head the consumer saw. *)
Record ring_indices `{TargetArch} {T In} (cap : Z) (r : RingEngine T In) (tc t hc h : Z) : Prop := {
  pos_order : 0 <= tc <= t /\ t <= hc <= h /\ h < tc + cap;
  pos_head : head r = h mod cap;
  pos_tail : tail r = t mod cap;
  pos_tail_cached : tail_cached r = tc mod cap;
  pos_head_cached : head_cached r = hc mod cap;
  pos_local : aarch64 = true -> head_local r = head r /\ tail_local r = tail r;
}.

Definition ring_positions `{TargetArch} {T In} (cap : Z) (r : RingEngine T In) (q : list T) (tc t hc h : Z) : Prop :=
  ring_indices cap r tc t hc h /\ h = t + Z.of_nat (length q) /\ slots_hold cap (slots r) t q.

Definition ring_inv `{TargetArch} {T In} (cap : Z) (r : RingEngine T In) (q : list T) : Prop :=
  exists tc t hc h, ring_positions cap r q tc t hc h.

(** The specification: a queue of at most [cap - 1] elements. *)
Inductive ring_op (T : Type) := RingPush (v : T) | RingPop.
Arguments RingPush {T} _.
Arguments RingPop {T}.

Inductive ring_out (T : Type) := Pushed | PushFull (v : T) | Popped (v : T) | PopEmpty.
Arguments Pushed {T}.
Arguments PushFull {T} _.
Arguments Popped {T} _.
Arguments PopEmpty {T}.

Definition fifo_step {T} (cap : Z) (q : list T) (op : ring_op T) : list T * ring_out T :=
  match op with
  | RingPush v => if Z.of_nat (length q) <? cap - 1 then (q ++ [v], Pushed) else (q, PushFull v)
  | RingPop => match q with [] => ([], PopEmpty) | v :: q => (q, Popped v) end
  end.

Fixpoint fifo_run {T} (cap : Z) (q : list T) (ops : list (ring_op T)) : list T * list (ring_out T) :=
  match ops with
  | [] => (q, [])
  | op :: ops =>
      let '(q1, o) := fifo_step cap q op in
      let '(q2, os) := fifo_run cap q1 ops in (q2, o :: os)
  end.

Section refinement.
Context `{BuildProfile} `{TargetArch} `{IndexStrategy} {T In : Type} `{Instrumentation In}.
Context (cap : Z) (Hcap : 1 <= cap <= 2 ^ 62) `{!StepWrap cap}.
Implicit Types (r : RingEngine T In) (q : list T).

Definition push_out (res : result unit (PushError T)) : ring_out T :=
  match res with Ok _ => Pushed | Err (Full v) => PushFull v end.
Definition pop_out (res : result T QueueError) : ring_out T :=
  match res with Ok v => Popped v | Err _ => PopEmpty end.

(** The hook each outcome calls. *)
Definition instr_step (i : In) (o : ring_out T) : In :=
  match o with
  | Pushed => on_push i | PushFull _ => on_push_full i | Popped _ => on_pop i | PopEmpty => on_pop_empty i
  end.

Definition ring_step r (op : ring_op T) : outcome (RingEngine T In * ring_out T) :=
  match op with
  | RingPush v => '(r', res) ← try_push r v; Ret (r', push_out res)
  | RingPop => '(r', res) ← try_pop r; Ret (r', pop_out res)
  end.

Fixpoint ring_run r (ops : list (ring_op T)) : outcome (RingEngine T In * list (ring_out T)) :=
  match ops with
  | [] => Ret (r, [])
  | op :: ops => '(r1, o) ← ring_step r op; '(r2, os) ← ring_run r1 ops; Ret (r2, o :: os)
  end.

(** Equal indices within one lap are equal positions. *)
Lemma next_is_tail tc h :
  tc <= h < tc + cap -> ((h + 1) mod cap =? tc mod cap) = (h + 1 =? tc + cap).
Proof.
  intros Hh. destruct (Z.eqb_spec (h + 1) (tc + cap)) as [->|Hne].
  - apply Z.eqb_eq. rewrite <- (Z.mul_1_l cap) at 1. apply Z_mod_plus_full.
  - apply Z.eqb_neq. intros E. apply (mod_window tc) in E; lia.
Qed.

Lemma tail_is_head t hc : t <= hc < t + cap -> (t mod cap =? hc mod cap) = (t =? hc).
Proof.
  intros Hh. destruct (Z.eqb_spec t hc) as [->|Hne]; [by apply Z.eqb_eq|].
  apply Z.eqb_neq. intros E. apply (mod_window t) in E; lia.
Qed.

Lemma wrap_next i :
  0 <= i -> (h1 ← arith USIZE (i mod cap + 1); wrap_index h1 cap) = Ret ((i + 1) mod cap).
Proof.
  intros Hi. pose proof (Z.mod_pos_bound i cap ltac:(lia)).
  rewrite arith_ok by mlia. cbn [mbind outcome_bind]. rewrite wrap_step by done.
  by rewrite Zplus_mod_idemp_l.
Qed.

Lemma own_indices r tc t hc h :
  ring_indices cap r tc t hc h -> own_head r = h mod cap /\ own_tail r = t mod cap.
Proof.
  intros [_ Eh Et _ _ Hl]. unfold own_head, own_tail.
  destruct aarch64; [|done]. destruct Hl as [-> ->]; done.
Qed.

Lemma refresh_tail r tc t hc h :
  ring_indices cap r tc t hc h -> ring_indices cap (set_tail_cached r (t mod cap)) t t hc h.
Proof. intros [Ho ?????]. split; try done. lia. Qed.

Lemma refresh_head r tc t hc h :
  ring_indices cap r tc t hc h -> ring_indices cap (set_head_cached r (h mod cap)) tc t h h.
Proof. intros [Ho ?????]. split; try done. lia. Qed.

Lemma instr_indices r tc t hc h i :
  ring_indices cap r tc t hc h -> ring_indices cap (set_instr r i) tc t hc h.
Proof. by intros []. Qed.

(** Publishing a head, respectively a tail, further on. *)
Lemma publish_head_indices r tc t hc h n s :
  ring_indices cap r tc t hc h -> 0 <= n -> h + n < tc + cap ->
  ring_indices cap (publish_head r ((h + n) mod cap) s) tc t hc (h + n).
Proof.
  intros [Ho Eh Et Etc Ehc Hl] Hn Hr. split; try done; [lia|].
  cbn [head head_local tail tail_local publish_head]. intros Ha. rewrite Ha. split; [done|]. by apply Hl.
Qed.

Lemma publish_tail_indices r tc t hc h n s :
  ring_indices cap r tc t hc h -> 0 <= n -> t + n <= hc ->
  ring_indices cap (publish_tail r ((t + n) mod cap) s) tc (t + n) hc h.
Proof.
  intros [Ho Eh Et Etc Ehc Hl] Hn Hr. split; try done; [lia|].
  cbn [head head_local tail tail_local publish_tail]. intros Ha. rewrite Ha. split; [|done]. by apply Hl.
Qed.

Lemma bind_assoc_ret {A B C} (m : outcome A) (f : A -> outcome B) (g : B -> outcome C) b :
  (x ← m; f x) = Ret b -> (x ← m; y ← f x; g y) = g b.
Proof. destruct m; cbn; [by intros ->|done]. Qed.

(** The write path of a push, once there is room behind the cached tail. *)
Definition push_write r (next_head : Z) (v : T) : outcome (RingEngine T In) :=
  s ← write_slot (slots r) (own_head r) v;
  let r := publish_head r next_head s in
  Ret (set_instr r (on_push (ring_instr r))).

Lemma push_write_inv r q tc t hc h v :
  ring_positions cap r q tc t hc h -> h + 1 < tc + cap ->
  exists r', push_write r ((h + 1) mod cap) v = Ret r' /\ ring_instr r' = on_push (ring_instr r)
    /\ ring_positions cap r' (q ++ [v]) tc t hc (h + 1).
Proof.
  intros (I & El & Hs) Hroom. destruct (own_indices _ _ _ _ _ I) as [Eoh _]. pose proof (pos_order _ _ _ _ _ _ I).
  destruct (slots_hold_push cap (slots r) t q v ltac:(lia) Hs ltac:(lia)) as [Ew Hs'].
  rewrite <- El in Ew, Hs'. unfold push_write. rewrite Eoh, Ew. cbn [mbind outcome_bind].
  eexists. split; [done|]. split; [done|]. split; [|split; [|done]].
  - apply instr_indices, publish_head_indices; [done|lia..].
  - rewrite length_app. cbn [length]. lia.
Qed.

Lemma push_write_ret {R} r n v (x : R) :
  (s ← write_slot (slots r) (own_head r) v;
   let r := publish_head r n s in Ret (set_instr r (on_push (ring_instr r)), x))
  = (r' ← push_write r n v; Ret (r', x)).
Proof. unfold push_write. by destruct write_slot. Qed.

Lemma try_push_fifo r q v :
  ring_inv cap r q ->
  exists r' res, try_push r v = Ret (r', res) /\ ring_inv cap r' (fifo_step cap q (RingPush v)).1
    /\ (fifo_step cap q (RingPush v)).2 = push_out res /\ ring_instr r' = instr_step (ring_instr r) (push_out res).
Proof.
  intros (tc & t & hc & h & P). pose proof P as (I & El & [Ec _]).
  pose proof (own_indices _ _ _ _ _ I) as [Eoh _]. pose proof I as [Ho Eh Et Etc Ehc _].
  unfold try_push. rewrite Ec, Etc, Et.
  assert (Hw : forall r tc (x : result unit (PushError T)), ring_positions cap r q tc t hc h -> h + 1 < tc + cap ->
    exists r', (s ← write_slot (slots r) (own_head r) v;
      let r := publish_head r ((h + 1) mod cap) s in Ret (set_instr r (on_push (ring_instr r)), x))
      = Ret (r', x) /\ ring_inv cap r' (q ++ [v]) /\ Z.of_nat (length q) < cap - 1
      /\ ring_instr r' = on_push (ring_instr r)).
  { intros r0 tc0 x P0 Hr. pose proof P0 as ([Ho' _ _ _ _ _] & ? & _).
    destruct (push_write_inv _ _ _ _ _ _ v P0 Hr) as (r' & E & Ei & P').
    exists r'. rewrite push_write_ret, E. split; [done|]. split; [by exists tc0, t, hc, (h + 1)|]. split; [lia|done]. }
  rewrite Eoh, (bind_assoc_ret _ _ _ _ (wrap_next h ltac:(lia))), <- Eoh.
  rewrite !next_is_tail by lia. cbn [fifo_step].
  destruct (Z.eqb_spec (h + 1) (tc + cap)); [destruct (Z.eqb_spec (h + 1) (t + cap))|].
  - destruct (Z.ltb_spec (Z.of_nat (length q)) (cap - 1)); [lia|].
    do 2 eexists. split; [done|]. split; [|split; done].
    exists t, t, hc, h. split; [|apply P]. apply instr_indices, (refresh_tail _ tc), I.
  - destruct (Hw (set_tail_cached r (t mod cap)) t (Ok tt) (conj (refresh_tail _ _ _ _ _ I) (proj2 P)) ltac:(lia))
      as (r' & E & Hi & Hlen & Ei).
    destruct (Z.ltb_spec (Z.of_nat (length q)) (cap - 1)); [|lia]. by exists r', (Ok tt).
  - destruct (Hw r tc (Ok tt) P ltac:(lia)) as (r' & E & Hi & Hlen & Ei).
    destruct (Z.ltb_spec (Z.of_nat (length q)) (cap - 1)); [|lia]. by exists r', (Ok tt).
Qed.

(** The read path of a pop, once an element is known to be there. *)
Lemma pop_read_inv r q tc t hc h :
  ring_positions cap r q tc t hc h -> t < hc ->
  exists v q' r', q = v :: q' /\ ring_inv cap r' q' /\ ring_instr r' = on_pop (ring_instr r) /\
    ('(value, s) ← read_slot (slots r) (own_tail r);
     t1 ← arith USIZE (own_tail r + 1);
     next_tail ← wrap_index t1 (capacity_of (slots r));
     let r := publish_tail r next_tail s in
     Ret (set_instr r (on_pop (ring_instr r)), @Ok T QueueError value)) = Ret (r', Ok v).
Proof.
  intros (I & El & Hs) Hn. destruct (own_indices _ _ _ _ _ I) as [_ Eot]. pose proof (pos_order _ _ _ _ _ _ I).
  destruct q as [|v q]; [cbn in El; lia|]. cbn [length] in El.
  destruct (slots_hold_pop cap (slots r) t q v ltac:(lia) Hs ltac:(lia)) as [Er Hs'].
  pose proof Hs as [Ec _].
  rewrite Eot, Er. cbn [mbind outcome_bind]. rewrite Ec.
  pose proof (bind_assoc_ret _ _ (fun n => let r := publish_tail r n (<[Z.to_nat (t mod cap):=None]> (slots r)) in
     Ret (set_instr r (on_pop (ring_instr r)), @Ok T QueueError v)) _ (wrap_next t ltac:(lia))) as E.
  exists v, q. eexists. split; [done|]. split; [|split; [|exact E]; done].
  exists tc, (t + 1), hc, h. split; [|split; [lia|done]].
  apply instr_indices, publish_tail_indices; [done|lia..].
Qed.

Lemma try_pop_fifo r q :
  ring_inv cap r q ->
  exists r' res, try_pop r = Ret (r', res) /\ ring_inv cap r' (fifo_step cap q RingPop).1
    /\ (fifo_step cap q RingPop).2 = pop_out res /\ ring_instr r' = instr_step (ring_instr r) (pop_out res).
Proof.
  intros (tc & t & hc & h & P). pose proof P as (I & El & _).
  pose proof (own_indices _ _ _ _ _ I) as [_ Eot]. pose proof I as [Ho Eh Et Etc Ehc _].
  unfold try_pop. cbv zeta. rewrite Eh, Ehc.
  rewrite (eq_trans (f_equal (fun i => i =? hc mod cap) Eot) (tail_is_head t hc ltac:(lia))).
  rewrite (eq_trans (f_equal (fun i => i =? h mod cap) Eot) (tail_is_head t h ltac:(lia))).
  destruct (Z.eqb_spec t hc).
  - destruct (Z.eqb_spec t h).
    + destruct q; [|cbn [length] in El; lia]. do 2 eexists. split; [done|]. split; [|split; done].
      exists tc, t, h, h. split; [|apply P]. eapply instr_indices, refresh_head, I.
    + destruct (pop_read_inv (set_head_cached r (h mod cap)) q tc t h h) as (v & q' & r' & -> & Hi & Ei & E);
        [split; [by eapply refresh_head|apply P]|lia|]. by exists r', (Ok v).
  - destruct (pop_read_inv r q tc t hc h P ltac:(lia)) as (v & q' & r' & -> & Hi & Ei & E).
    by exists r', (Ok v).
Qed.

Lemma ring_run_fifo ops r q :
  ring_inv cap r q ->
  exists r', ring_run r ops = Ret (r', (fifo_run cap q ops).2) /\ ring_inv cap r' (fifo_run cap q ops).1
    /\ ring_instr r' = foldl instr_step (ring_instr r) (fifo_run cap q ops).2.
Proof.
  revert r q. induction ops as [|op ops IH]; intros r q Hr; [by exists r|].
  assert (exists r1, ring_step r op = Ret (r1, (fifo_step cap q op).2) /\ ring_inv cap r1 (fifo_step cap q op).1
    /\ ring_instr r1 = instr_step (ring_instr r) (fifo_step cap q op).2) as (r1 & E1 & Hr1 & Ei1).
  { destruct op as [v|]; [destruct (try_push_fifo r q v Hr) as (r1 & res & E & Hr1 & Eo & Ei)
                         |destruct (try_pop_fifo r q Hr) as (r1 & res & E & Hr1 & Eo & Ei)];
      exists r1; unfold ring_step; rewrite E, Eo; done. }
  destruct (IH _ _ Hr1) as (r2 & E2 & Hr2 & Ei2). cbn [ring_run fifo_run]. rewrite E1. cbn [mbind outcome_bind].
  rewrite E2. destruct (fifo_step cap q op) as [q1 o], (fifo_run cap q1 ops) as [q2 os] eqn:E.
  cbn [mbind outcome_bind fst snd] in *. rewrite E in *. exists r2. split; [done|]. split; [done|].
  by rewrite Ei2, Ei1.
Qed.

Lemma ring_len_fifo r q : ring_inv cap r q -> ring_len r = Ret (Z.of_nat (length q)).
Proof.
  intros (tc & t & hc & h & [Ho Eh Et _ _ _] & El & [Ec _]). unfold ring_len. rewrite Ec, Eh, Et.
  pose proof (Z.mod_pos_bound h cap ltac:(lia)). pose proof (Z.mod_pos_bound t cap ltac:(lia)).
  rewrite (arith_ok _ (_ + _)) by mlia. cbn [mbind outcome_bind]. rewrite arith_ok by mlia.
  cbn [mbind outcome_bind]. rewrite urem_op_ok; [|done|mlia|lia]. f_equal.
  replace (h mod cap + cap - t mod cap) with (h mod cap - t mod cap + 1 * cap) by lia.
  rewrite Z_mod_plus_full, <- Zminus_mod. rewrite Z.mod_small; lia.
Qed.

Lemma drop_range_fifo q s t fuel :
  0 <= t -> slots_hold cap s t q -> Z.of_nat (length q) < cap -> (length q <= fuel)%nat ->
  exists s', drop_range fuel s (t mod cap) ((t + Z.of_nat (length q)) mod cap) = Ret (Some (q, s')).
Proof.
  revert s t fuel. induction q as [|v q IH]; intros s t fuel Ht Hs Hq Hf.
  { exists s. cbn [length]. rewrite Z.add_0_r. destruct fuel; cbn [drop_range]; by rewrite Z.eqb_refl. }
  cbn [length] in *. destruct fuel as [|fuel]; [lia|]. cbn [drop_range].
  rewrite tail_is_head by lia. destruct (Z.eqb_spec t (t + Z.of_nat (S (length q)))); [lia|].
  destruct (slots_hold_pop cap s t q v ltac:(lia) Hs ltac:(lia)) as [Er Hs'].
  unfold drop_occupied_slot. rewrite Er. cbn [mbind outcome_bind]. rewrite (proj1 Hs).
  rewrite (bind_assoc_ret _ _ _ _ (wrap_next t ltac:(lia))).
  destruct (IH _ (t + 1) fuel ltac:(lia) Hs' ltac:(lia) ltac:(lia)) as [s' E].
  exists s'. replace (t + Z.of_nat (S (length q))) with (t + 1 + Z.of_nat (length q)) by lia. by rewrite E.
Qed.

Lemma ring_drop_fifo r q : ring_inv cap r q -> ring_drop r = Ret (Some q).
Proof.
  intros (tc & t & hc & h & [Ho Eh Et _ _ _] & El & Hs). unfold ring_drop. rewrite Eh, Et, El.
  pose proof (proj1 Hs) as Ec. unfold capacity_of in Ec.
  destruct (drop_range_fifo q (slots r) t (length (slots r))) as [s' ->]; [lia|done|lia|lia|done].
Qed.

Lemma ring_new_indices (storage : list (option T)) (i : In) : ring_indices cap (ring_new storage i) 0 0 0 0.
Proof.
  split; cbn [ring_new head tail tail_cached head_cached head_local tail_local]; rewrite ?Z.mod_0_l by lia;
    try done; lia.
Qed.

Lemma ring_new_inv (i : In) : ring_inv cap (ring_new (replicate (Z.to_nat cap) None) i) (@nil T).
Proof.
  exists 0, 0, 0, 0. split; [apply ring_new_indices|]. split; [done|by apply slots_hold_empty; lia].
Qed.
End refinement.

Lemma storage_pow2 `{BuildProfile} {T} (storage : list (option T)) :
  (exists N, inline_storage N = Ret storage) \/ (exists m, heap_storage m = Ret storage) ->
  0 < capacity_of storage ->
  exists k, 0 <= k /\ capacity_of storage = 2 ^ k /\ storage = replicate (Z.to_nat (2 ^ k)) None.
Proof.
  unfold inline_storage, heap_storage, next_power_of_two, capacity_of. intros [[N E]|[m E]] Hpos.
  - destruct is_power_of_two eqn:Hp; [|done]. injection E as <-. rewrite length_replicate in *.
    apply is_power_of_two_spec in Hp; [|lia]. exists (Z.log2 (Z.of_nat N)).
    split; [apply Z.log2_nonneg|]. rewrite <- Hp. split; [done|]. by rewrite Nat2Z.id.
  - destruct (decide (0 < m)); [|done]. destruct (decide _) in E.
    + injection E as <-. rewrite length_replicate in *. exists (Z.log2_up m).
      split; [apply Z.log2_up_nonneg|]. split; [|done]. lia.
    + destruct overflow_checks; [done|]. injection E as <-. cbn in Hpos. lia.
Qed.

(** The configurations the crate offers: an index strategy of [mantis-core]
    over a storage of [mantis-queue]. *)
Definition supported `{BuildProfile} {T} (St : IndexStrategy) (storage : list (option T)) : Prop :=
  (St = Pow2Masked \/ St = BranchWrap) /\
  ((exists N, inline_storage N = Ret storage) \/ (exists m, heap_storage m = Ret storage)) /\
  0 < capacity_of storage <= 2 ^ 62.

Lemma supported_ring `{BuildProfile} {T} (St : IndexStrategy) (storage : list (option T)) :
  supported St storage ->
  1 <= capacity_of storage <= 2 ^ 62 /\ storage = replicate (Z.to_nat (capacity_of storage)) None
  /\ @StepWrap St (capacity_of storage).
Proof.
  intros (HSt & Hst & Hc). destruct (storage_pow2 _ Hst ltac:(lia)) as (k & Hk & Ec & E). rewrite Ec in *.
  assert (k <= 62) by (apply (Z.pow_le_mono_r_iff 2); lia).
  split; [lia|]. split; [done|]. destruct HSt as [->| ->];
    [eapply @batch_step, pow2_masked_wraps; lia|apply branch_wraps; lia].
Qed.

(** C20. The ring implements a bounded FIFO of [capacity - 1] elements: from
    [RingEngine::new] over inline or heap storage, with either index strategy,
    on either architecture and in either build profile, every sequence of
    [try_push] and [try_pop] returns (no panic, no slot read uninitialised,
    overwritten or out of bounds), its results are those of the queue, each
    calls its instrumentation hook, [len] is the number of elements queued and
    dropping the engine drops exactly these, in order. *)
Theorem ring_implements_fifo `{BuildProfile} `{TargetArch} (St : IndexStrategy) {T In} `{Instrumentation In}
    (storage : list (option T)) (instr : In) (ops : list (ring_op T)) :
  supported St storage ->
  let '(q, outs) := fifo_run (capacity_of storage) [] ops in
  exists r, ring_run (ring_new storage instr) ops = Ret (r, outs)
    /\ ring_instr r = foldl instr_step instr outs
    /\ ring_len r = Ret (Z.of_nat (length q)) /\ ring_is_empty r = Ret (bool_decide (q = []))
    /\ ring_drop r = Ret (Some q).
Proof.
  intros HS. destruct (supported_ring _ _ HS) as (Hc & Es & HW). set (cap := capacity_of storage) in *.
  rewrite Es. destruct (ring_run_fifo cap Hc ops _ _ (ring_new_inv cap Hc instr)) as (r & E & Hr & Ei).
  destruct (fifo_run cap [] ops) as [q outs]. exists r. split; [done|]. split; [done|].
  pose proof (ring_len_fifo cap Hc _ _ Hr) as El.
  split; [done|]. split; [|by apply (ring_drop_fifo cap Hc)].
  unfold ring_is_empty. rewrite El. cbn. f_equal. by destruct q.
Qed.

(** The witness: a four-slot ring filled to its three elements, over-pushed,
    drained past the wrap-around. *)
Lemma ring_implements_fifo_witness :
  let ops := [RingPop; RingPush 1; RingPush 2; RingPush 3; RingPush 4; RingPop; RingPush 5] in
  exists r : RingEngine Z CountingInstr,
    @ring_run debug_profile true BranchWrap _ _ _ (ring_new (replicate 4 None) counting_new) ops
    = Ret (r, [PopEmpty; Pushed; Pushed; Pushed; PushFull 4; Popped 1; Pushed])
    /\ ring_instr r = {| c_pushes := 4; c_pops := 1; c_push_full := 1; c_pop_empty := 1 |}
    /\ @ring_drop debug_profile BranchWrap _ _ r = Ret (Some [2; 3; 5]).
Proof.
  destruct (@ring_implements_fifo debug_profile true BranchWrap Z CountingInstr _ (replicate 4 None) counting_new
    [RingPop; RingPush 1; RingPush 2; RingPush 3; RingPush 4; RingPop; RingPush 5])
    as (r & E & Ei & _ & _ & Ed); [split; [by right|split; [left; by exists 4%nat|done]]|].
  exists r. split; [exact E|]. split; [exact Ei|exact Ed].
Defined.

Section flags.
Context `{BuildProfile} `{TargetArch} `{IndexStrategy} {T In : Type} `{Instrumentation In}.

(** [push] and [pop] do exactly what [try_push] and [try_pop] do, to the
    same state, and return whether they succeeded; [pop] fills [out] with the
    popped value and leaves it unchanged on an empty queue. *)
Theorem flag_variants_agree (r : RingEngine T In) (value out : T) :
  ring_push r value
  = ('(r', res) ← try_push r value; Ret (r', match res with Ok _ => true | Err _ => false end))
  /\ ring_pop r out
  = ('(r', res) ← try_pop r; Ret (r', match res with Ok _ => true | Err _ => false end,
                                     match res with Ok v => v | Err _ => out end)).
Proof.
  split.
  - unfold ring_push, try_push. destruct (arith _ _); [|done]. cbn [mbind outcome_bind].
    destruct (wrap_index _ _); [|done]. cbn [mbind outcome_bind].
    destruct (_ =? tail_cached r); [destruct (_ =? tail r)|]; try done; by destruct write_slot.
  - unfold ring_pop, try_pop.
    destruct (_ =? head_cached r); [destruct (_ =? head r)|]; try done;
      (destruct read_slot as [[v s]|]; [|done]); cbn [mbind outcome_bind];
      (destruct (arith _ _); [|done]); cbn [mbind outcome_bind]; by destruct (wrap_index _ _).
Qed.
End flags.
