(* ===== verification/Layout.v ===== *)
(** * Memory layout ([crates/events], [crates/platform/src/pad.rs], [crates/layout], [crates/queue], [crates/seqlock])

    Sizes, alignments and field offsets of the [repr(C)] types, and the bytes of
    their values.  A codec is a type's layout with its encoding: a list of
    bytes, [None] where the byte is padding.  The combinators follow the
    language's rules: fields of a [repr(C)] struct in order, each at the next
    multiple of its alignment; a [repr(C, u16)] enum as a tag and a union;
    [repr(align)] raising alignment and size.  Where the compiler is free to
    choose (structs without [repr(C)]), a placement is any one that the language
    allows. *)

From Stdlib Require Import ZArith Lia.
From stdpp Require Import base decidable numbers option tactics strings list.
From S2P Require Import Prelude Fixed FixedText Types Events Registry Polymarket Ring CopyDispatch.

(** * Layouts *)

Record layout := Layout { l_size : nat; l_align : nat }.

#[global] Instance layout_eq_dec : EqDecision layout.
Proof. solve_decision. Defined.

(** The next multiple of [a]. *)
Definition align_up (n a : nat) : nat := ((n + a - 1) / a * a)%nat.

(** The offsets of fields from [off] on, and where they end. *)
Fixpoint offsets (off : nat) (fs : list layout) : list nat :=
  match fs with
  | [] => []
  | f :: fs => let o := align_up off (l_align f) in o :: offsets (o + l_size f) fs
  end.
Fixpoint fields_end (off : nat) (fs : list layout) : nat :=
  match fs with [] => off | f :: fs => fields_end (align_up off (l_align f) + l_size f) fs end.

Definition max_align (fs : list layout) : nat := foldr (fun f a => (l_align f `max` a)%nat) 1%nat fs.

(** [offset_of!] of the [i]th field of a [repr(C)] struct. *)
Definition offset_of (fs : list layout) (i : nat) : Z := Z.of_nat (nth i (offsets 0 fs) 0%nat).

(** [repr(C)]. *)
Definition struct_layout (fs : list layout) : layout :=
  Layout (align_up (fields_end 0 fs) (max_align fs)) (max_align fs).

(** [repr(align(n))]. *)
Definition align_layout (n : nat) (l : layout) : layout :=
  Layout (align_up (l_size l) (n `max` l_align l)) (n `max` l_align l).

(** A union, and a [repr(C, tag)] enum of these variants. *)
Definition union_layout (fs : list layout) : layout :=
  Layout (align_up (foldr (fun f a => (l_size f `max` a)%nat) 0%nat fs) (max_align fs)) (max_align fs).
Definition enum_layout (tag : layout) (fs : list layout) : layout := struct_layout [tag; union_layout fs].

(** * Codecs *)

Definition pad (n : nat) : list (option Z) := replicate n None.

Record codec (A : Type) := Codec {
  c_layout : layout;
  c_ok : A -> Prop;   (* the values of the Rust type *)
  enc : A -> list (option Z);
  dec : list (option Z) -> option A;
}.
Arguments Codec {A} _ _ _ _.
Arguments c_layout {A} _.
Arguments c_ok {A} _ _.
Arguments enc {A} _ _.
Arguments dec {A} _ _.

(** Fields, from a running offset on. *)
Record fields (A : Type) := Fields {
  f_layouts : list layout;
  f_ok : A -> Prop;
  f_enc : nat -> A -> list (option Z);
  f_dec : nat -> list (option Z) -> option A;
}.
Arguments Fields {A} _ _ _ _.
Arguments f_layouts {A} _.
Arguments f_ok {A} _ _.
Arguments f_enc {A} _ _ _.
Arguments f_dec {A} _ _ _.

(** Little-endian integers. *)
Fixpoint le_enc (n : nat) (z : Z) : list Z :=
  match n with O => [] | S n => (z mod 256)%Z :: le_enc n (z / 256) end.
Fixpoint le_dec (bs : list Z) : Z := match bs with [] => 0%Z | b :: bs => (b + 256 * le_dec bs)%Z end.

Definition byte_width (t : ity) : nat := Z.to_nat (bits t / 8).

Definition c_int (t : ity) : codec Z :=
  Codec (Layout (byte_width t) (byte_width t)) (in_range t)
    (fun z => Some <$> le_enc (byte_width t) z)
    (fun bs => wrap t ∘ le_dec <$> mapM id bs).

(** An explicit [_pad: [u8; n]]: written as zero, and not looked at. *)
Definition c_zeros (n : nat) : codec unit :=
  Codec (Layout n 1) (fun _ => True) (fun _ => replicate n (Some 0%Z)) (fun _ => Some tt).

(** Through an isomorphic type: newtypes, records, enums with a discriminant. *)
Definition c_map {A B} (c : codec B) (f : A -> B) (g : B -> option A) : codec A :=
  Codec (c_layout c) (fun a => c_ok c (f a)) (fun a => enc c (f a)) (fun bs => dec c bs ≫= g).

Definition f_nil : fields unit := Fields [] (fun _ => True) (fun _ _ => []) (fun _ _ => Some tt).

Definition f_cons {A B} (c : codec A) (fs : fields B) : fields (A * B) :=
  let start off := align_up off (l_align (c_layout c)) in
  let stop off := (start off + l_size (c_layout c))%nat in
  Fields (c_layout c :: f_layouts fs) (fun ab => c_ok c ab.1 /\ f_ok fs ab.2)
    (fun off ab => pad (start off - off) ++ enc c ab.1 ++ f_enc fs (stop off) ab.2)
    (fun off bs =>
       a ← dec c (take (l_size (c_layout c)) (drop (start off - off) bs));
       b ← f_dec fs (stop off) (drop (stop off - off) bs);
       Some (a, b)).

Definition c_struct {A} (fs : fields A) : codec A :=
  let l := struct_layout (f_layouts fs) in
  Codec l (f_ok fs) (fun a => f_enc fs 0 a ++ pad (l_size l - fields_end 0 (f_layouts fs))) (f_dec fs 0).

Declare Scope fields_scope.
Delimit Scope fields_scope with fields.
Infix "::" := f_cons : fields_scope.

(** * Newtypes and discriminants ([repr(transparent)], [repr(u8)]) *)

Definition c_timestamp : codec Timestamp := c_map (c_int U64) as_nanos (Some ∘ from_nanos).
Definition c_seq_num : codec SeqNum := c_map (c_int U64) seqnum_to_raw (Some ∘ seqnum_from_raw).
Definition c_instrument_id : codec InstrumentId := c_map (c_int U32) inst_to_raw (Some ∘ inst_from_raw).
Definition c_source_id : codec SourceId := c_map (c_int U16) source_to_raw (Some ∘ source_from_raw).
Definition c_order_id : codec OrderId := c_map (c_int U64) order_to_raw (Some ∘ order_from_raw).
Definition c_flags : codec EventFlags := c_map (c_int U16) flags_to_raw (Some ∘ flags_from_raw).
Definition c_ticks : codec Ticks := c_map (c_int I64) ticks_to_raw (Some ∘ ticks_from_raw).
Definition c_lots : codec Lots := c_map (c_int I64) lots_to_raw (Some ∘ lots_from_raw).

(** A fieldless enum: the position of the variant. *)
Definition variant_of {A} (vs : list A) (z : Z) : option A := if decide (0 <= z)%Z then vs !! Z.to_nat z else None.

Definition side_raw (s : Side) : Z := match s with Bid => 0 | Ask => 1 end.
Definition action_raw (a : UpdateAction) : Z := match a with ActNew => 0 | ActChange => 1 | ActDelete => 2 end.
Definition status_raw (s : OrderStatus) : Z := match s with StAccepted => 0 | StCancelled => 1 | StExpired => 2 end.
Definition reason_raw (r : RejectReason) : Z :=
  match r with
  | InsufficientFunds => 0 | InvalidPrice => 1 | InvalidQty => 2 | DuplicateOrderId => 3 | RiskLimitBreached => 4
  | VenueError => 5 | UnknownReason => 255
  end.
Definition timer_kind_raw (k : TimerKind) : Z := match k with StaleFeed => 0 | Periodic => 1 | Deadline => 2 end.
Definition kind_raw (k : EventKind) : Z :=
  match k with
  | KBookDelta => 0 | KTrade => 1 | KTopOfBook => 2 | KOrderAck => 3 | KFill => 4 | KOrderReject => 5 | KTimer => 6
  | KHeartbeat => 7
  end.

Definition c_side : codec Side := c_map (c_int U8) side_raw (variant_of [Bid; Ask]).
Definition c_action : codec UpdateAction := c_map (c_int U8) action_raw (variant_of [ActNew; ActChange; ActDelete]).
Definition c_status : codec OrderStatus := c_map (c_int U8) status_raw (variant_of [StAccepted; StCancelled; StExpired]).
Definition c_reason : codec RejectReason := c_map (c_int U8) reason_raw
  (fun z => if decide (z = 255%Z) then Some UnknownReason
            else variant_of [InsufficientFunds; InvalidPrice; InvalidQty; DuplicateOrderId; RiskLimitBreached; VenueError] z).
Definition c_timer_kind : codec TimerKind := c_map (c_int U8) timer_kind_raw (variant_of [StaleFeed; Periodic; Deadline]).
Definition c_kind : codec EventKind := c_map (c_int U16) kind_raw
  (variant_of [KBookDelta; KTrade; KTopOfBook; KOrderAck; KFill; KOrderReject; KTimer; KHeartbeat]).

(** * Events *)

Definition c_header : codec EventHeader :=
  c_map (c_struct (c_timestamp :: c_seq_num :: c_instrument_id :: c_source_id :: c_flags :: f_nil)%fields)
    (fun h => (recv_ts h, (hdr_seq h, (hdr_instrument_id h, (hdr_source_id h, (hdr_flags h, tt))))))
    (fun '(ts, (seq, (inst, (src, (flags, _))))) => Some (mk_header ts seq inst src flags)).

Definition c_book_delta : codec BookDeltaPayload :=
  c_map (c_struct (c_ticks :: c_lots :: c_side :: c_action :: c_int U8 :: c_zeros 5 :: f_nil)%fields)
    (fun p => (bd_price p, (bd_qty p, (bd_side p, (bd_action p, (bd_depth p, (tt, tt)))))))
    (fun '(price, (qty, (side, (action, (depth, _))))) =>
       Some {| bd_price := price; bd_qty := qty; bd_side := side; bd_action := action; bd_depth := depth |}).

Definition c_trade : codec TradePayload :=
  c_map (c_struct (c_ticks :: c_lots :: c_side :: c_zeros 7 :: f_nil)%fields)
    (fun p => (tr_price p, (tr_qty p, (tr_aggressor p, (tt, tt)))))
    (fun '(price, (qty, (side, _))) => Some {| tr_price := price; tr_qty := qty; tr_aggressor := side |}).

Definition c_top_of_book : codec TopOfBookPayload :=
  c_map (c_struct (c_ticks :: c_lots :: c_ticks :: c_lots :: f_nil)%fields)
    (fun p => (tp_bid_price p, (tp_bid_qty p, (tp_ask_price p, (tp_ask_qty p, tt)))))
    (fun '(bp, (bq, (ap, (aq, _)))) => Some {| tp_bid_price := bp; tp_bid_qty := bq; tp_ask_price := ap; tp_ask_qty := aq |}).

Definition c_order_ack : codec OrderAckPayload :=
  c_map (c_struct (c_order_id :: c_int U64 :: c_status :: c_zeros 7 :: f_nil)%fields)
    (fun p => (ack_order_id p, (ack_client_order_id p, (ack_status p, (tt, tt)))))
    (fun '(id, (client, (status, _))) => Some {| ack_order_id := id; ack_client_order_id := client; ack_status := status |}).

Definition c_fill : codec FillPayload :=
  c_map (c_struct (c_order_id :: c_ticks :: c_lots :: c_side :: c_int U8 :: c_zeros 6 :: f_nil)%fields)
    (fun p => (fill_order_id p, (fill_price p, (fill_qty p, (fill_side p, (fill_is_maker p, (tt, tt)))))))
    (fun '(id, (price, (qty, (side, (maker, _))))) =>
       Some {| fill_order_id := id; fill_price := price; fill_qty := qty; fill_side := side; fill_is_maker := maker |}).

Definition c_order_reject : codec OrderRejectPayload :=
  c_map (c_struct (c_order_id :: c_int U64 :: c_reason :: c_zeros 7 :: f_nil)%fields)
    (fun p => (rej_order_id p, (rej_client_order_id p, (rej_reason p, (tt, tt)))))
    (fun '(id, (client, (reason, _))) => Some {| rej_order_id := id; rej_client_order_id := client; rej_reason := reason |}).

Definition c_timer : codec TimerPayload :=
  c_map (c_struct (c_int U32 :: c_timer_kind :: c_zeros 3 :: f_nil)%fields)
    (fun p => (timer_id p, (timer_kind p, (tt, tt))))
    (fun '(id, (kind, _)) => Some {| timer_id := id; timer_kind := kind |}).

Definition c_heartbeat : codec HeartbeatPayload :=
  c_map (c_struct (c_int U32 :: f_nil)%fields) (fun p => (hb_counter p, tt)) (fun '(n, _) => Some {| hb_counter := n |}).

(** The union of the payloads. *)
Definition payload_layouts : list layout :=
  [c_layout c_book_delta; c_layout c_trade; c_layout c_top_of_book; c_layout c_order_ack; c_layout c_fill;
   c_layout c_order_reject; c_layout c_timer; c_layout c_heartbeat].

Definition payload_ok (b : EventBody) : Prop :=
  match b with
  | BookDelta p => c_ok c_book_delta p | Trade p => c_ok c_trade p | TopOfBookEv p => c_ok c_top_of_book p
  | OrderAck p => c_ok c_order_ack p | Fill p => c_ok c_fill p | OrderReject p => c_ok c_order_reject p
  | TimerEv p => c_ok c_timer p | Heartbeat p => c_ok c_heartbeat p
  end.

Definition payload_bytes (b : EventBody) : list (option Z) :=
  match b with
  | BookDelta p => enc c_book_delta p | Trade p => enc c_trade p | TopOfBookEv p => enc c_top_of_book p
  | OrderAck p => enc c_order_ack p | Fill p => enc c_fill p | OrderReject p => enc c_order_reject p
  | TimerEv p => enc c_timer p | Heartbeat p => enc c_heartbeat p
  end.

Definition payload_of (k : EventKind) (bs : list (option Z)) : option EventBody :=
  let read {A} (c : codec A) (f : A -> EventBody) := f <$> dec c (take (l_size (c_layout c)) bs) in
  match k with
  | KBookDelta => read c_book_delta BookDelta | KTrade => read c_trade Trade | KTopOfBook => read c_top_of_book TopOfBookEv
  | KOrderAck => read c_order_ack OrderAck | KFill => read c_fill Fill | KOrderReject => read c_order_reject OrderReject
  | KTimer => read c_timer TimerEv | KHeartbeat => read c_heartbeat Heartbeat
  end.

Definition c_payload (k : EventKind) : codec EventBody :=
  Codec (union_layout payload_layouts) (fun b => body_kind b = k /\ payload_ok b)
    (fun b => payload_bytes b ++ pad (l_size (union_layout payload_layouts) - length (payload_bytes b))) (payload_of k).

(** [EventBody]: the tag decides how the union is read. *)
Definition c_body : codec EventBody :=
  let l := enum_layout (c_layout c_kind) payload_layouts in
  let start := align_up (l_size (c_layout c_kind)) (l_align (union_layout payload_layouts)) in
  let stop := (start + l_size (union_layout payload_layouts))%nat in
  Codec l payload_ok
    (fun b => enc c_kind (body_kind b) ++ pad (start - l_size (c_layout c_kind)) ++ enc (c_payload (body_kind b)) b ++ pad (l_size l - stop))
    (fun bs => k ← dec c_kind (take (l_size (c_layout c_kind)) bs);
       dec (c_payload k) (take (l_size (union_layout payload_layouts)) (drop start bs))).

Definition c_hot_event : codec HotEvent :=
  c_map (c_struct (c_header :: c_body :: f_nil)%fields)
    (fun e => (ev_header e, (ev_body e, tt))) (fun '(h, (b, _)) => Some {| ev_header := h; ev_body := b |}).

(** [TopOfBook] of the market-state engine. *)
Definition top_of_book_layout : layout :=
  struct_layout [c_layout c_ticks; c_layout c_lots; c_layout c_ticks; c_layout c_lots; c_layout c_ticks; c_layout c_ticks;
                 c_layout c_instrument_id; c_layout c_timestamp].

(** * Padding (pad.rs) and its users *)

Record CachePadded (T : Type) := padded_new { padded_deref : T }.
Record CacheLine (T : Type) := line_new { line_deref : T }.
Arguments padded_new {T} _.
Arguments padded_deref {T} _.
Arguments line_new {T} _.
Arguments line_deref {T} _.

Definition cache_padded (l : layout) : layout := align_layout 128 (struct_layout [l]).

Section lines.
Context `{TargetArch}.

(** The line size of the target: 64 bytes on [x86_64], 128 elsewhere. *)
Definition line_size : nat := if aarch64 then 128 else 64.
Definition cache_line (l : layout) : layout := align_layout line_size (struct_layout [l]).

Definition usize_layout : layout := c_layout (c_int USIZE).

Definition producer_line : layout :=
  struct_layout ([usize_layout] ++ (if aarch64 then [usize_layout] else []) ++ [usize_layout]).
Definition consumer_line : layout :=
  struct_layout ([usize_layout] ++ (if aarch64 then [usize_layout] else []) ++ [usize_layout]).

(** The fields of [RingEngine] and [CopyRingEngine] over a storage and an
    instrumentation. *)
Definition engine_fields (storage instr : layout) : list layout :=
  [cache_line producer_line; cache_line consumer_line; storage; instr; Layout 0 1].

(** The fields of [SeqLock<T>]. *)
Definition seqlock_fields (data : layout) : list layout := [cache_padded usize_layout; data; Layout 0 1].
End lines.

(** What the language promises of a struct without [repr(C)]: fields aligned,
    apart and inside, in any order. *)
Record placement (fs : list layout) (offs : list nat) (total : layout) : Prop := {
  pl_aligned i f o : fs !! i = Some f -> offs !! i = Some o -> Nat.divide (l_align f) o /\ (o + l_size f <= l_size total)%nat;
  pl_align i f : fs !! i = Some f -> Nat.divide (l_align f) (l_align total);
  pl_apart i j f g o o' : i <> j -> fs !! i = Some f -> fs !! j = Some g -> offs !! i = Some o -> offs !! j = Some o' ->
    (o + l_size f <= o' \/ o' + l_size g <= o)%nat;
}.

(** The addresses of field [i] of a value at [base]. *)
Definition field_byte (base : nat) (fs : list layout) (offs : list nat) (i a : nat) : Prop :=
  exists f o, fs !! i = Some f /\ offs !! i = Some o /\ (base + o <= a < base + o + l_size f)%nat.

(** * The layout report ([crates/layout]) *)

Record LayoutInfo := { li_name : bytes; li_size : Z; li_align : Z; li_cache_lines : Z }.

Definition inspect (name : bytes) (l : layout) : LayoutInfo :=
  let size := Z.of_nat (l_size l) in
  {| li_name := name; li_size := size; li_align := Z.of_nat (l_align l); li_cache_lines := (size + 63) / 64 |}.

Definition info_display (i : LayoutInfo) : bytes :=
  lit "Type: " ++ li_name i ++ [10%Z] ++
  lit "  size:        " ++ show_nat (li_size i) ++ lit " bytes" ++ [10%Z] ++
  lit "  align:       " ++ show_nat (li_align i) ++ lit " bytes" ++ [10%Z] ++
  lit "  cache lines: " ++ show_nat (li_cache_lines i) ++ lit " (64B)" ++ [10%Z].

(** What [main] prints; the layouts of [QueueError] and [SlotIndex] are the
    compiler's. *)
Definition layout_report (queue_error slot_index : layout) : bytes :=
  let show (name : bytes) l := info_display (inspect name l) ++ [10%Z] in
  lit "=== Mantis Layout Report ===" ++ [10%Z; 10%Z] ++
  show (lit "QueueError") queue_error ++ show (lit "SeqNum") (c_layout c_seq_num) ++ show (lit "SlotIndex") slot_index ++
  lit "=== Event Layout Report ===" ++ [10%Z; 10%Z] ++
  show (lit "HotEvent") (c_layout c_hot_event) ++ show (lit "EventHeader") (c_layout c_header) ++
  show (lit "EventBody") (c_layout c_body) ++ show (lit "BookDeltaPayload") (c_layout c_book_delta) ++
  show (lit "TradePayload") (c_layout c_trade) ++ show (lit "TopOfBookPayload") (c_layout c_top_of_book) ++
  show (lit "FillPayload") (c_layout c_fill) ++ show (lit "OrderAckPayload") (c_layout c_order_ack) ++
  show (lit "OrderRejectPayload") (c_layout c_order_reject) ++ show (lit "TimerPayload") (c_layout c_timer) ++
  show (lit "HeartbeatPayload") (c_layout c_heartbeat).

(** * Laws *)

Definition pow2 (a : nat) : Prop := exists k, a = (2 ^ k)%nat.

(** A layout as the language has them: the alignment is a power of two and
    divides the size. *)
Definition layout_ok (l : layout) : Prop := pow2 (l_align l) /\ Nat.divide (l_align l) (l_size l).

(** Memory that holds a value: the padding may be anything. *)
Definition holds (bs mem : list (option Z)) : Prop := Forall2 (fun b x => b = None \/ x = b) bs mem.

(** Every value takes the size of the type, and memory that holds it gives it
    back, whatever is in the padding. *)
Class CodecLaws {A} (c : codec A) := {
  codec_layout : layout_ok (c_layout c);
  enc_length a : length (enc c a) = l_size (c_layout c);
  dec_holds a mem : c_ok c a -> holds (enc c a) mem -> dec c mem = Some a;
}.

Class FieldsLaws {A} (fs : fields A) := {
  fields_layouts : Forall layout_ok (f_layouts fs);
  f_enc_length off a : (off + length (f_enc fs off a) = fields_end off (f_layouts fs))%nat;
  f_dec_holds off a mem rest : f_ok fs a -> holds (f_enc fs off a) mem -> f_dec fs off (mem ++ rest) = Some a;
}.

Lemma holds_length bs mem : holds bs mem -> length mem = length bs.
Proof. intros H. symmetry. by eapply Forall2_length. Qed.

Lemma holds_app bs bs' mem : holds (bs ++ bs') mem -> exists m1 m2, mem = m1 ++ m2 /\ holds bs m1 /\ holds bs' m2.
Proof. intros (m1 & m2 & ? & ? & ?)%Forall2_app_inv_l. by exists m1, m2. Qed.

Lemma holds_bytes (bs : list Z) mem : holds (Some <$> bs) mem -> mem = Some <$> bs.
Proof.
  intros H. apply list_eq_Forall2. apply Forall2_fmap_l in H. apply Forall2_fmap_r, Forall2_flip.
  eapply Forall2_impl; [done|]. intros b x [|]; [done|]. by symmetry.
Qed.

Lemma pow2_pos a : pow2 a -> (0 < a)%nat.
Proof. intros [k ->]. pose proof (Nat.pow_nonzero 2 k). lia. Qed.

Lemma pow2_divide a b : pow2 a -> pow2 b -> (a <= b)%nat -> Nat.divide a b.
Proof.
  intros [k ->] [j ->] Hle. apply Nat.pow_le_mono_r_iff in Hle; [|lia].
  exists (2 ^ (j - k))%nat. rewrite <- Nat.pow_add_r. f_equal. lia.
Qed.

Lemma pow2_max a b : pow2 a -> pow2 b -> pow2 (a `max` b).
Proof. intros. destruct (Nat.max_spec a b) as [[_ ->]|[_ ->]]; done. Qed.

Lemma align_up_spec n a : (0 < a)%nat -> Nat.divide a (align_up n a) /\ (n <= align_up n a < n + a)%nat.
Proof.
  intros Ha. unfold align_up. split; [by exists ((n + a - 1) / a)%nat|].
  pose proof (Nat.div_mod_eq (n + a - 1) a). pose proof (Nat.mod_upper_bound (n + a - 1) a ltac:(lia)). nia.
Qed.

Lemma max_align_pow2 fs : Forall layout_ok fs -> pow2 (max_align fs).
Proof. induction 1 as [|f fs [Hf _] _ IH]; [by exists 0%nat|]. by apply pow2_max. Qed.

Lemma max_align_ge fs i f : fs !! i = Some f -> (l_align f <= max_align fs)%nat.
Proof. revert i. induction fs as [|g fs IH]; intros [|i] E; simplify_eq/=; [lia|]. specialize (IH i E). lia. Qed.

Lemma align_up_ok n a : pow2 a -> layout_ok (Layout (align_up n a) a).
Proof. intros Ha. split; [done|]. apply (align_up_spec n a), pow2_pos, Ha. Qed.

Lemma struct_layout_ok fs : Forall layout_ok fs -> layout_ok (struct_layout fs).
Proof. intros H. apply align_up_ok, max_align_pow2, H. Qed.
Lemma union_layout_ok fs : Forall layout_ok fs -> layout_ok (union_layout fs).
Proof. intros H. apply align_up_ok, max_align_pow2, H. Qed.
Lemma enum_layout_ok tag fs : layout_ok tag -> Forall layout_ok fs -> layout_ok (enum_layout tag fs).
Proof. intros Ht Hf. apply struct_layout_ok. repeat constructor; try apply Ht; by apply union_layout_ok. Qed.
Lemma align_layout_ok n l : pow2 n -> layout_ok l -> layout_ok (align_layout n l).
Proof. intros Hn [Hl _]. apply align_up_ok, pow2_max; done. Qed.

(** The fields of a [repr(C)] struct are aligned, in order and inside. *)
Lemma offsets_spec fs : Forall layout_ok fs -> forall off i f o,
  fs !! i = Some f -> offsets off fs !! i = Some o ->
  Nat.divide (l_align f) o /\ (off <= o)%nat /\ (o + l_size f <= fields_end off fs)%nat /\
  (forall j o', (i < j)%nat -> offsets off fs !! j = Some o' -> (o + l_size f <= o')%nat).
Proof.
  assert (Hend : forall fs off, Forall layout_ok fs -> (off <= fields_end off fs)%nat).
  { intros gs. induction gs as [|g gs IH]; intros off Hg; cbn; [lia|]. inversion Hg as [|? ? [Ha _] Hg']; subst.
    pose proof (align_up_spec off (l_align g) (pow2_pos _ Ha)). specialize (IH (align_up off (l_align g) + l_size g)%nat Hg'). lia. }
  assert (Hge : forall fs off j o, Forall layout_ok fs -> offsets off fs !! j = Some o -> (off <= o)%nat).
  { intros gs. induction gs as [|g gs IH]; intros off j o Hg E; [done|]. inversion Hg as [|? ? [Ha _] Hg']; subst.
    pose proof (align_up_spec off (l_align g) (pow2_pos _ Ha)). destruct j as [|j]; cbn in E; simplify_eq; [lia|].
    specialize (IH _ j o Hg' E). lia. }
  induction 1 as [|g gs Hg Hgs IH]; intros off i f o Ef Eo; [done|]. pose proof Hg as [Ha _].
  pose proof (align_up_spec off (l_align g) (pow2_pos _ Ha)) as [Hd Hb].
  destruct i as [|i]; cbn in Ef, Eo; simplify_eq; cbn [fields_end offsets].
  - split_and!; [done|lia|by apply Hend|]. intros [|j] o' Hj E; [lia|]. cbn in E. by apply Hge in E.
  - destruct (IH _ i f o Ef Eo) as (? & ? & ? & Hord). split_and!; [done|lia|done|].
    intros [|j] o' Hj E; [lia|]. cbn in E. apply (Hord j); [lia|done].
Qed.

Lemma le_enc_length n z : length (le_enc n z) = n.
Proof. revert z. induction n; intros z; cbn; auto. Qed.

Lemma le_dec_enc n z : le_dec (le_enc n z) = (z mod 2 ^ (8 * Z.of_nat n))%Z.
Proof.
  revert z. induction n as [|n IH]; intros z; cbn [le_enc le_dec]; [by rewrite Z.mod_1_r|]. rewrite IH.
  replace (8 * Z.of_nat (S n))%Z with (8 + 8 * Z.of_nat n)%Z by lia. rewrite Z.pow_add_r by lia. change (2 ^ 8)%Z with 256%Z.
  rewrite Z.rem_mul_r; lia.
Qed.

#[global] Instance c_int_laws t : CodecLaws (c_int t).
Proof.
  split.
  - destruct t; (split; [|by exists 1%nat]); [by exists 2%nat|by exists 3%nat|by exists 4%nat|by exists 0%nat|by exists 1%nat|by exists 2%nat|by exists 3%nat|by exists 4%nat].
  - intros a. cbn. by rewrite length_fmap, le_enc_length.
  - intros a mem Ha ->%holds_bytes. cbn in *. rewrite mapM_fmap_Some by done. cbn. f_equal. rewrite le_dec_enc.
    rewrite <- (wrap_id t a) at 2 by done. apply wrap_congr.
    replace (8 * Z.of_nat (byte_width t))%Z with (bits t) by (by destruct t). by rewrite Z.mod_mod by (by destruct t).
Qed.

#[global] Instance c_zeros_laws n : CodecLaws (c_zeros n).
Proof.
  split; [split; [by exists 0%nat|apply Nat.divide_1_l]|intros; apply length_replicate|by intros []].
Qed.

Lemma c_map_laws {A B} (c : codec B) (f : A -> B) g : CodecLaws c -> (forall a, g (f a) = Some a) -> CodecLaws (c_map c f g).
Proof.
  intros [Hl Hn Hd] Hg. split; [done|intros; apply Hn|]. intros a mem Ha Hm. cbn in *. rewrite (Hd (f a)) by done. cbn. apply Hg.
Qed.

#[global] Instance f_nil_laws : FieldsLaws f_nil.
Proof. split; [constructor|cbn; lia|by intros ? []]. Qed.

#[global] Instance f_cons_laws {A B} (c : codec A) (fs : fields B) : CodecLaws c -> FieldsLaws fs -> FieldsLaws (f_cons c fs).
Proof.
  intros [Hl Hn Hd] [Hf Hfn Hfd]. pose proof (fun off => align_up_spec off _ (pow2_pos _ (proj1 Hl))) as Hup.
  split; [by constructor| |].
  - intros off [a b]. cbn. destruct (Hup off) as [_ ?]. rewrite !length_app, Hn. unfold pad. rewrite length_replicate.
    rewrite <- (Hfn _ b). lia.
  - intros off [a b] mem rest [Ha Hb] Hm. cbn in *. destruct (Hup off) as [_ ?]. set (s := (align_up off _ - off)%nat) in *.
    apply holds_app in Hm as (m1 & mem' & -> & H1 & (m2 & m3 & -> & H2 & H3)%holds_app).
    apply holds_length in H1 as E1. unfold pad in E1. rewrite length_replicate in E1.
    apply holds_length in H2 as E2. rewrite Hn in E2.
    replace (align_up off (l_align (c_layout c)) + l_size (c_layout c) - off)%nat with (s + l_size (c_layout c))%nat by lia.
    rewrite <- !app_assoc, <- drop_drop, !(drop_app_length' m1) by done.
    rewrite take_app_length', drop_app_length' by done. rewrite (Hd a) by done. cbn. by rewrite (Hfd _ b).
Qed.

#[global] Instance c_struct_laws {A} (fs : fields A) : FieldsLaws fs -> CodecLaws (c_struct fs).
Proof.
  intros [Hf Hfn Hfd]. split; [by apply struct_layout_ok| |intros a mem Ha (m1 & m2 & -> & H1 & _)%holds_app; by apply (Hfd _ a)].
  intros a. cbn. unfold pad. rewrite length_app, length_replicate. specialize (Hfn 0%nat a).
  pose proof (align_up_spec (fields_end 0 (f_layouts fs)) (max_align (f_layouts fs)) (pow2_pos _ (max_align_pow2 _ Hf))). lia.
Qed.

#[global] Hint Extern 1 (CodecLaws (c_map _ _ _)) => apply c_map_laws; [|intros []; reflexivity] : typeclass_instances.

(** * The event types obey the laws *)

Ltac solve_codec := match goal with |- CodecLaws ?c => unfold c; apply _ end.

#[global] Instance c_timestamp_laws : CodecLaws c_timestamp.
Proof. solve_codec. Qed.
#[global] Instance c_seq_num_laws : CodecLaws c_seq_num.
Proof. solve_codec. Qed.
#[global] Instance c_instrument_id_laws : CodecLaws c_instrument_id.
Proof. solve_codec. Qed.
#[global] Instance c_source_id_laws : CodecLaws c_source_id.
Proof. solve_codec. Qed.
#[global] Instance c_order_id_laws : CodecLaws c_order_id.
Proof. solve_codec. Qed.
#[global] Instance c_flags_laws : CodecLaws c_flags.
Proof. solve_codec. Qed.
#[global] Instance c_ticks_laws : CodecLaws c_ticks.
Proof. solve_codec. Qed.
#[global] Instance c_lots_laws : CodecLaws c_lots.
Proof. solve_codec. Qed.
#[global] Instance c_side_laws : CodecLaws c_side.
Proof. solve_codec. Qed.
#[global] Instance c_action_laws : CodecLaws c_action.
Proof. solve_codec. Qed.
#[global] Instance c_status_laws : CodecLaws c_status.
Proof. solve_codec. Qed.
#[global] Instance c_reason_laws : CodecLaws c_reason.
Proof. solve_codec. Qed.
#[global] Instance c_timer_kind_laws : CodecLaws c_timer_kind.
Proof. solve_codec. Qed.
#[global] Instance c_kind_laws : CodecLaws c_kind.
Proof. solve_codec. Qed.
#[global] Instance c_header_laws : CodecLaws c_header.
Proof. solve_codec. Qed.
#[global] Instance c_book_delta_laws : CodecLaws c_book_delta.
Proof. solve_codec. Qed.
#[global] Instance c_trade_laws : CodecLaws c_trade.
Proof. solve_codec. Qed.
#[global] Instance c_top_of_book_laws : CodecLaws c_top_of_book.
Proof. solve_codec. Qed.
#[global] Instance c_order_ack_laws : CodecLaws c_order_ack.
Proof. solve_codec. Qed.
#[global] Instance c_fill_laws : CodecLaws c_fill.
Proof. solve_codec. Qed.
#[global] Instance c_order_reject_laws : CodecLaws c_order_reject.
Proof. solve_codec. Qed.
#[global] Instance c_timer_laws : CodecLaws c_timer.
Proof. solve_codec. Qed.
#[global] Instance c_heartbeat_laws : CodecLaws c_heartbeat.
Proof. solve_codec. Qed.

(** Sizes and alignments by computation. *)
Ltac computed_layout := split; [match goal with |- pow2 ?a => let v := eval vm_compute in (Nat.log2 a) in exists v; reflexivity end|
  match goal with |- Nat.divide ?a ?b => let v := eval vm_compute in (b / a)%nat in exists v; reflexivity end].


#[global] Instance c_payload_laws k : CodecLaws (c_payload k).
Proof.
  split; [computed_layout| |].
  - intros b. cbn [c_payload enc c_layout]. unfold pad. rewrite length_app, length_replicate.
    assert (length (payload_bytes b) <= l_size (union_layout payload_layouts))%nat; [|lia].
    destruct b; cbn [payload_bytes]; rewrite enc_length; apply Nat.leb_le; reflexivity.
  - intros b mem [<- Hok] (m1 & m2 & -> & H1 & _)%holds_app. apply holds_length in H1 as E1.
    destruct b; cbn [c_payload enc dec payload_bytes payload_of body_kind payload_ok] in *; rewrite enc_length in E1;
      rewrite take_app_length' by done; erewrite dec_holds by done; reflexivity.
Qed.

Lemma kind_ok k : c_ok c_kind k.
Proof. destruct k; by vm_compute. Qed.

#[global] Instance c_body_laws : CodecLaws c_body.
Proof.
  split; [computed_layout| |].
  - intros b. cbn [c_body enc]. unfold pad. rewrite !length_app, !length_replicate, !enc_length. reflexivity.
  - intros b mem Hok (m1 & mem' & -> & H1 & (m2 & mem'' & -> & H2 & (m3 & m4 & -> & H3 & _)%holds_app)%holds_app)%holds_app.
    apply holds_length in H1 as E1, H2 as E2, H3 as E3. rewrite enc_length in E1. rewrite enc_length in E3. unfold pad in E2. rewrite length_replicate in E2.
    cbn [c_body dec]. rewrite take_app_length' by done. rewrite (dec_holds (body_kind b) m1 (kind_ok _) H1).
    cbn [mbind option_bind]. rewrite app_assoc, drop_app_length' by (rewrite length_app, E1, E2; reflexivity).
    rewrite take_app_length' by done. by apply dec_holds.
Qed.

#[global] Instance c_hot_event_laws : CodecLaws c_hot_event.
Proof. solve_codec. Qed.

(** * Cache lines *)

Lemma struct_placement fs : Forall layout_ok fs -> placement fs (offsets 0 fs) (struct_layout fs).
Proof.
  intros Hok. pose proof (max_align_pow2 _ Hok) as Hm.
  pose proof (align_up_spec (fields_end 0 fs) (max_align fs) (pow2_pos _ Hm)) as [_ Hend]. split.
  - intros i f o Ef Eo. destruct (offsets_spec fs Hok 0 i f o Ef Eo) as (Hd & _ & He & _). split; [done|cbn; lia].
  - intros i f Ef. apply pow2_divide; [|done|by eapply max_align_ge]. by apply (Forall_lookup_1 _ _ i _ Hok Ef).
  - intros i j f g o o' Hij Ef Eg Eo Eo'. destruct (decide (i < j)%nat).
    + left. apply (offsets_spec fs Hok 0 i f o Ef Eo) with j; [lia|done].
    + right. apply (offsets_spec fs Hok 0 j g o' Eg Eo') with i; [lia|done].
Qed.

(** A field that fills whole lines shares none. *)
Lemma whole_lines_apart L fs offs total base i j a b f :
  placement fs offs total -> Nat.divide (l_align total) base -> (0 < L)%nat ->
  fs !! i = Some f -> Nat.divide L (l_align f) -> Nat.divide L (l_size f) -> i <> j ->
  field_byte base fs offs i a -> field_byte base fs offs j b -> (a / L <> b / L)%nat.
Proof.
  intros [Hal Hall Hap] Hbase HL Ef Hla Hls Hij (f' & o & Ef' & Eo & Ha) (g & o' & Eg & Eo' & Hb). simplify_eq.
  destruct (Hal i f o Ef Eo) as [Ho _]. specialize (Hap i j f g o o' Hij Ef Eg Eo Eo').
  assert (Nat.divide L (base + o)) as [x Hx].
  { apply Nat.divide_add_r; (etransitivity; [exact Hla|]); [|done]. etransitivity; [by eapply Hall|done]. }
  destruct Hls as [y Hy]. intros E.
  pose proof (Nat.div_mod_eq a L). pose proof (Nat.mod_upper_bound a L ltac:(lia)).
  pose proof (Nat.div_mod_eq b L). pose proof (Nat.mod_upper_bound b L ltac:(lia)).
  assert (x <= a / L < x + y)%nat by nia. assert (b / L < x \/ x + y <= b / L)%nat by nia. lia.
Qed.

(** * No implicit padding in the payloads *)

Definition dense {A} (c : codec A) : Prop := forall a, Forall is_Some (enc c a).
Definition dense_from {A} (off : nat) (fs : fields A) : Prop := forall a, Forall is_Some (f_enc fs off a).

Lemma dense_int t : dense (c_int t).
Proof. intros z. cbn. apply Forall_fmap, Forall_true. by eexists. Qed.
Lemma dense_zeros n : dense (c_zeros n).
Proof. intros []. apply Forall_replicate. by eexists. Qed.
Lemma dense_map {A B} (c : codec B) (f : A -> B) g : dense c -> dense (c_map c f g).
Proof. intros Hc a. apply Hc. Qed.
Lemma dense_nil off : dense_from off f_nil.
Proof. intros []. constructor. Qed.
Lemma dense_cons {A B} off (c : codec A) (fs : fields B) :
  dense c -> align_up off (l_align (c_layout c)) = off -> dense_from (off + l_size (c_layout c)) fs -> dense_from off (f_cons c fs).
Proof. intros Hc E Hf [a b]. cbn. rewrite E, Nat.sub_diag. cbn. apply Forall_app. split; [apply Hc|apply Hf]. Qed.
Lemma dense_struct {A} (fs : fields A) :
  dense_from 0 fs -> (l_size (struct_layout (f_layouts fs)) - fields_end 0 (f_layouts fs))%nat = 0%nat -> dense (c_struct fs).
Proof. intros Hf E a. cbn [c_struct enc]. rewrite E. cbn. rewrite app_nil_r. apply Hf. Qed.

Create HintDb dense.
#[export] Hint Resolve dense_int dense_zeros dense_map dense_nil : dense.

Lemma payload_dense b : Forall is_Some (payload_bytes b).
Proof.
  destruct b as [p|p|p|p|p|p|p|p]; revert p;
    (apply dense_map, dense_struct; [|reflexivity]); repeat (apply dense_cons; [eauto with dense|reflexivity|]); apply dense_nil.
Qed.

(** * Bytes in memory *)

Section copies.
Context `{BuildProfile}.

Lemma read_write m p bs : (p + length bs <= length m)%nat -> read_bytes (write_bytes m p bs) p (length bs) = bs.
Proof.
  intros Hl. apply list_eq. intros i. unfold read_bytes, write_bytes. destruct (decide (i < length bs)%nat).
  - rewrite lookup_take_lt, lookup_drop, list_lookup_inserts by lia. f_equal. lia.
  - rewrite lookup_take_ge by lia. by rewrite lookup_ge_None_2 by lia.
Qed.

(** The event at [p]. *)
Definition event_at (m : bytes) (p : nat) (e : HotEvent) : Prop := holds (enc c_hot_event e) (Some <$> read_bytes m p 64).

(** Memory that holds an event gives it, its header and its kind. *)
Lemma event_read m p e : c_ok c_hot_event e -> event_at m p e ->
  dec c_hot_event (Some <$> read_bytes m p 64) = Some e /\
  dec c_header (Some <$> read_bytes m p 24) = Some (ev_header e) /\
  dec c_kind (Some <$> read_bytes m (p + 24) 2) = Some (event_kind e).
Proof.
  intros Hok Hat. split; [by apply dec_holds|]. destruct e as [h b]. destruct Hok as (Hh & Hb & _). unfold event_at in Hat.
  change (enc c_hot_event {| ev_header := h; ev_body := b |}) with ((enc c_header h ++ enc c_body b ++ []) ++ []) in Hat.
  rewrite !app_nil_r in Hat. pose proof (enc_length (c := c_header) h : length (enc c_header h) = 24%nat) as Lh.
  pose proof (enc_length (c := c_body) b : length (enc c_body b) = 40%nat) as Lb.
  pose proof (enc_length (c := c_kind) (body_kind b) : length (enc c_kind (body_kind b)) = 2%nat) as Lk.
  assert (Hm : in_bounds m p 64).
  { apply holds_length in Hat. unfold read_bytes in Hat. rewrite length_app, length_fmap, length_take, length_drop, Lh, Lb in Hat.
    unfold in_bounds. lia. }
  change 64%nat with (24 + (2 + 38))%nat in Hat. rewrite !read_split, !fmap_app in Hat.
  apply Forall2_app_inv in Hat as [H1 H2]; [|rewrite length_fmap, length_read by (unfold in_bounds in *; lia); done].
  split; [by apply dec_holds|]. change (enc c_body b) with (enc c_kind (body_kind b) ++ drop 2 (enc c_body b)) in H2.
  apply Forall2_app_inv in H2 as [H2 _]; [|rewrite length_fmap, length_read by (unfold in_bounds in *; lia); done].
  exact (dec_holds _ _ (kind_ok _) H2).
Qed.

Lemma copied_event m dst src e eff :
  event_at m src e -> in_bounds m src 64 -> in_bounds m dst 64 -> copies_value 64 dst src m eff ->
  exists m', eff = EOk m' /\ event_at m' dst e.
Proof.
  intros Hat Hs Hd ->. eexists. split; [done|]. unfold event_at in *.
  rewrite <- (length_read m src 64 Hs) at 2. rewrite read_write; [done|]. by rewrite length_read.
Qed.
End copies.

(** * Correctness *)

(** C34. The layout of the events is the one the code counts on: an event is
    one 64-byte line with the header in front and the tag at offset 24, header
    and body take 24 and 40 bytes, and no payload has implicit padding.  Memory
    that holds an event, whatever the padding of the union, gives back that
    event, its header and its kind, and so does the memory to which either copy
    policy copies the 64 bytes. *)
Theorem hot_event_bytes `{BuildProfile} (e : HotEvent) (simd : bool) (m : bytes) (dst src : nat) :
  c_ok c_hot_event e -> event_at m src e ->
  in_bounds m src 64 -> in_bounds m dst 64 -> disjoint_ranges dst src 64 ->
  c_layout c_hot_event = Layout 64 8 /\ offsets 0 [c_layout c_header; c_layout c_body] = [0; 24]%nat /\
  (l_size <$> payload_layouts) = [24; 24; 32; 24; 32; 24; 8; 4]%nat /\ Forall is_Some (payload_bytes (ev_body e)) /\
  forall policy, policy ∈ [DefaultCopyPolicy; SimdCopyPolicy simd] ->
  exists m', copy_in (CopyPolicy := policy) 64 dst src m = EOk m' /\ event_at m' dst e /\
    dec c_hot_event (Some <$> read_bytes m' dst 64) = Some e /\
    dec c_header (Some <$> read_bytes m' dst 24) = Some (ev_header e) /\
    dec c_kind (Some <$> read_bytes m' (dst + 24) 2) = Some (event_kind e).
Proof.
  intros Hok Hat Hs Hd Hdis. split; [done|]. split; [done|]. split; [done|]. split; [apply payload_dense|].
  intros policy Hp. assert (copies_value 64 dst src m (copy_in (CopyPolicy := policy) 64 dst src m)) as Hc.
  { apply elem_of_cons in Hp as [->|[->|[]%elem_of_nil]%elem_of_cons].
    - by apply copy_nonoverlapping_ok.
    - apply dispatch_copy_ok; [right; lia|mlia|done..]. }
  destruct (copied_event m dst src e _ Hat Hs Hd Hc) as (m' & Em & Hat'). exists m'.
  destruct (event_read m' dst e Hok Hat') as (? & ? & ?). done.
Qed.

(** C37. No false sharing: wherever the compiler places the fields of a ring
    engine, for any element storage and instrumentation and on either
    architecture, no cache line holds bytes of the producer's line and of
    another field, nor of the consumer's line and of another field; the
    sequence number of a [SeqLock] shares no 128-byte block with the data. *)
Theorem ring_lines_apart `{TargetArch} (storage instr data : layout) (offs : list nat) (total : layout) (base : nat) :
  layout_ok storage -> layout_ok instr -> layout_ok data ->
  placement (engine_fields storage instr) offs total -> Nat.divide (l_align total) base ->
  (forall i j a b, i <> j -> (i < 2)%nat ->
     field_byte base (engine_fields storage instr) offs i a -> field_byte base (engine_fields storage instr) offs j b ->
     (a / line_size <> b / line_size)%nat) /\
  (forall base' a b, Nat.divide (l_align (struct_layout (seqlock_fields data))) base' ->
     field_byte base' (seqlock_fields data) (offsets 0 (seqlock_fields data)) 0 a ->
     field_byte base' (seqlock_fields data) (offsets 0 (seqlock_fields data)) 1 b -> (a / 128 <> b / 128)%nat).
Proof.
  intros Hst Hin Hda Hpl Hbase. split.
  - intros i j a b Hij Hi Ha Hb.
    assert (exists f, engine_fields storage instr !! i = Some f /\ Nat.divide line_size (l_align f) /\ Nat.divide line_size (l_size f))
      as (f & Ef & Hl & Hs).
    { destruct i as [|[|]]; [..|lia]; (eexists; split; [done|]); unfold line_size, producer_line, consumer_line, aarch64; destruct H;
        split; by exists 1%nat. }
    eapply (whole_lines_apart line_size); eauto. unfold line_size. destruct aarch64; lia.
  - intros base' a b Hb' Ha Hb. eapply (whole_lines_apart 128 (seqlock_fields data) _ _ base' 0 1);
      [apply struct_placement|done|lia|done|by exists 1%nat|by exists 1%nat|done|done|done].
    constructor; [|constructor; [done|constructor; [|constructor]]]; computed_layout.
Qed.

Lemma hot_event_bytes_witness :
  let e := ev_timer (from_nanos 7) (seqnum_from_raw 1) (inst_from_raw 2) (source_from_raw 3) (flags_from_raw 1)
             {| timer_id := 5; timer_kind := Deadline |} in
  let m := (default 170%Z <$> enc c_hot_event e) ++ replicate 80 9%Z in
  exists m', copy_in (CopyPolicy := @SimdCopyPolicy debug_profile true) 64 64 0 m = EOk m' /\
    dec c_hot_event (Some <$> read_bytes m' 64 64) = Some e.
Proof.
  intros e m. assert (length m = 144%nat) as Hm by (vm_compute; reflexivity).
  destruct (@hot_event_bytes debug_profile e true m 64 0) as (_ & _ & _ & _ & Hc).
  - repeat split; vm_compute; discriminate.
  - unfold event_at, m. vm_compute. repeat (constructor; [by auto|]). constructor.
  - unfold in_bounds. rewrite Hm. lia.
  - unfold in_bounds. rewrite Hm. lia.
  - unfold disjoint_ranges. lia.
  - destruct (Hc (@SimdCopyPolicy debug_profile true)) as (m' & E & _ & Ed & _); [right; left|].
    exists m'. split; [exact E|exact Ed].
Defined.

(** A ring of 16 events laid out in declaration order. *)
Lemma ring_lines_apart_witness :
  let H : TargetArch := false in
  let storage := Layout (16 * 64) 8 in
  (forall a b, field_byte 128 (engine_fields storage (Layout 0 1)) (offsets 0 (engine_fields storage (Layout 0 1))) 0 a ->
     field_byte 128 (engine_fields storage (Layout 0 1)) (offsets 0 (engine_fields storage (Layout 0 1))) 2 b ->
     (a / 64 <> b / 64)%nat) /\
  field_byte 128 (engine_fields storage (Layout 0 1)) (offsets 0 (engine_fields storage (Layout 0 1))) 2 256.
Proof.
  intros H storage. split.
  - intros a b Ha Hb. refine (proj1 (@ring_lines_apart false storage (Layout 0 1) (Layout 8 8)
      (offsets 0 (engine_fields storage (Layout 0 1))) (struct_layout (engine_fields storage (Layout 0 1))) 128 _ _ _ _ _) 0%nat 2%nat a b _ _ Ha Hb);
      [computed_layout..| |by exists 2%nat|done|lia].
    apply struct_placement. repeat (constructor; [computed_layout|]). constructor.
  - exists storage, 128%nat. split; [done|]. split; [done|cbn; lia].
Defined.
