(* ===== verification/CopyRing.v ===== *)
(** * Copy ring ([crates/queue]: copy_ring/)

    The ring for [T: Copy], with its batch operations.  It has the fields of
    [RingEngine]; slots are overwritten in place and values are copied out, so
    a popped slot stays initialised.  Copying from a slot that was never
    written, or outside the backing array, is [Panic].  The SIMD copy policies
    copy the value bit for bit and are modelled as the plain copy. *)

From stdpp Require Import base decidable list numbers option tactics.
From Stdlib Require Import ZArith Lia.
From S2P Require Import Prelude Platform Ring.

#[local] Open Scope Z_scope.

(** ** copy_ring/raw/mod.rs *)

Section slots.
Context {T : Type}.
Implicit Types slots : list (option T).

Definition write_slot_copy slots (i : Z) (v : T) : outcome (list (option T)) :=
  if decide (0 <= i < capacity_of slots) then Ret (<[Z.to_nat i := Some v]> slots) else Panic.

Definition read_slot_copy slots (i : Z) : outcome T :=
  match slots !! Z.to_nat i with
  | Some (Some v) => if decide (0 <= i) then Ret v else Panic
  | _ => Panic
  end.

(** [ptr::copy_nonoverlapping] of [src] into the slots from [start] on. *)
Definition write_batch_copy slots (start : Z) (src : list T) : outcome (list (option T)) :=
  if decide (length src = 0%nat) then Ret slots
  else if decide (0 <= start /\ start + Z.of_nat (length src) <= capacity_of slots)
  then Ret (list_inserts (Z.to_nat start) (Some <$> src) slots) else Panic.

(** [ptr::copy_nonoverlapping] of [count] slots from [start] on: the values
    copied to the front of the destination. *)
Definition read_batch_copy slots (start : Z) (count : nat) : outcome (list T) :=
  if decide (count = 0%nat) then Ret []
  else if decide (0 <= start /\ start + Z.of_nat count <= capacity_of slots)
  then match mapM id (take count (drop (Z.to_nat start) slots)) with Some vs => Ret vs | None => Panic end
  else Panic.

(** [&src[a..b]], and writing [vs] through [&mut dst[a..]]. *)
Definition slice (l : list T) (a b : Z) : outcome (list T) :=
  if decide (0 <= a <= b /\ b <= Z.of_nat (length l))
  then Ret (take (Z.to_nat (b - a)) (drop (Z.to_nat a) l)) else Panic.
Definition fill (dst : list T) (a : Z) (vs : list T) : list T := list_inserts (Z.to_nat a) vs dst.
End slots.

(** ** copy_ring/engine.rs *)

Definition CopyRingEngine (T In : Type) : Type := RingEngine T In.

Section engine.
Context `{BuildProfile} `{TargetArch} `{IndexStrategy} {T In : Type} `{Instrumentation In}.
Implicit Types r : CopyRingEngine T In.

Definition copy_push r (value : T) : outcome (CopyRingEngine T In * bool) :=
  let hd := own_head r in
  h1 ← arith USIZE (hd + 1);
  next_head ← wrap_index h1 (capacity_of (slots r));
  let write r :=
    s ← write_slot_copy (slots r) hd value;
    let r := publish_head r next_head s in
    Ret (set_instr r (on_push (ring_instr r)), true) in
  if next_head =? tail_cached r then
    let tl := tail r in
    let r := set_tail_cached r tl in
    if next_head =? tl then Ret (set_instr r (on_push_full (ring_instr r)), false)
    else write r
  else write r.

Definition copy_pop r (out : T) : outcome (CopyRingEngine T In * bool * T) :=
  let tl := own_tail r in
  let read r :=
    value ← read_slot_copy (slots r) tl;
    t1 ← arith USIZE (tl + 1);
    next_tail ← wrap_index t1 (capacity_of (slots r));
    let r := publish_tail r next_tail (slots r) in
    Ret (set_instr r (on_pop (ring_instr r)), true, value) in
  if tl =? head_cached r then
    let hd := head r in
    let r := set_head_cached r hd in
    if tl =? hd then Ret (set_instr r (on_pop_empty (ring_instr r)), false, out)
    else read r
  else read r.

(** [if head >= tail { head - tail } else { cap - tail + head }]. *)
Definition ring_distance (hd tl cap : Z) : outcome Z :=
  if tl <=? hd then arith USIZE (hd - tl)
  else a ← arith USIZE (cap - tl); arith USIZE (a + hd).

(** The copy and publication that [push_batch] ends with. *)
Definition push_chunks r (src : list T) (free : Z) : outcome (CopyRingEngine T In * Z) :=
  let hd := own_head r in
  let cap := capacity_of (slots r) in
  let n := Z.min (Z.of_nat (length src)) free in
  room ← arith USIZE (cap - hd);
  let first_chunk := Z.min n room in
  second_chunk ← arith USIZE (n - first_chunk);
  src1 ← slice src 0 first_chunk;
  s ← write_batch_copy (slots r) hd src1;
  s ← (if 0 <? second_chunk then src2 ← slice src first_chunk n; write_batch_copy s 0 src2 else Ret s);
  x ← arith USIZE (hd + n);
  new_head ← wrap_index x cap;
  Ret (publish_head r new_head s, n).

Definition push_batch r (src : list T) : outcome (CopyRingEngine T In * Z) :=
  if decide (length src = 0%nat) then Ret (r, 0)
  else
    let hd := own_head r in
    let cap := capacity_of (slots r) in
    usable ← arith USIZE (cap - 1);
    len ← ring_distance hd (tail_cached r) cap;
    free ← arith USIZE (usable - len);
    if free <? Z.of_nat (length src) then
      let tl := tail r in
      let r := set_tail_cached r tl in
      len ← ring_distance hd tl cap;
      free ← arith USIZE (usable - len);
      if free =? 0 then Ret (r, 0) else push_chunks r src free
    else push_chunks r src free.

(** The copy and publication that [pop_batch] ends with; the destination
    afterwards comes with the count. *)
Definition pop_chunks r (dst : list T) (avail : Z) : outcome (CopyRingEngine T In * Z * list T) :=
  let tl := own_tail r in
  let cap := capacity_of (slots r) in
  let n := Z.min (Z.of_nat (length dst)) avail in
  room ← arith USIZE (cap - tl);
  let first_chunk := Z.min n room in
  second_chunk ← arith USIZE (n - first_chunk);
  d1 ← slice dst 0 first_chunk;
  vs1 ← read_batch_copy (slots r) tl (length d1);
  let dst := fill dst 0 vs1 in
  dst ← (if 0 <? second_chunk then
           d2 ← slice dst first_chunk n;
           vs2 ← read_batch_copy (slots r) 0 (length d2);
           Ret (fill dst first_chunk vs2)
         else Ret dst);
  x ← arith USIZE (tl + n);
  new_tail ← wrap_index x cap;
  Ret (publish_tail r new_tail (slots r), n, dst).

Definition pop_batch r (dst : list T) : outcome (CopyRingEngine T In * Z * list T) :=
  if decide (length dst = 0%nat) then Ret (r, 0, dst)
  else
    let tl := own_tail r in
    let cap := capacity_of (slots r) in
    avail ← ring_distance (head_cached r) tl cap;
    if avail <? Z.of_nat (length dst) then
      let hd := head r in
      let r := set_head_cached r hd in
      avail ← ring_distance hd tl cap;
      if avail =? 0 then Ret (r, 0, dst) else pop_chunks r dst avail
    else pop_chunks r dst avail.

Definition copy_capacity r : outcome Z := arith USIZE (capacity_of (slots r) - 1).

Definition copy_len r : outcome Z := ring_distance (head r) (tail r) (capacity_of (slots r)).

Definition copy_is_empty r : outcome bool := (fun n => n =? 0) <$> copy_len r.
End engine.

(** * The copied window *)

Section window.
Context {T : Type} (cap : Z) (Hcap : 1 <= cap <= 2 ^ 62).
Implicit Types (s : list (option T)) (q : list T).

(** The slots from position [t] on hold [q]. *)
Definition slots_have s (t : Z) q : Prop :=
  capacity_of s = cap /\
  forall i v, q !! i = Some v -> s !! Z.to_nat ((t + Z.of_nat i) mod cap) = Some (Some v).

(** An index moved by less than a lap. *)
Lemma mod_move x y :
  - cap <= y <= cap ->
  (x + y) mod cap = x mod cap + y /\ 0 <= x mod cap + y < cap
  \/ (x + y) mod cap = x mod cap + y + cap /\ x mod cap + y < 0
  \/ (x + y) mod cap = x mod cap + y - cap /\ cap <= x mod cap + y.
Proof.
  intros Hy. pose proof (Z.mod_pos_bound x cap ltac:(lia)). rewrite <- Zplus_mod_idemp_l.
  set (a := x mod cap) in *.
  destruct (decide (a + y < 0)); [|destruct (decide (a + y < cap))].
  - right; left. split; [|done]. rewrite <- (Z_mod_plus_full (a + y) 1 cap), Z.mul_1_l.
    rewrite Z.mod_small; lia.
  - left. rewrite Z.mod_small; lia.
  - right; right. split; [|lia]. rewrite <- (Z_mod_plus_full (a + y) (-1) cap).
    rewrite Z.mod_small; lia.
Qed.

Lemma lookup_write_batch s a src s' j :
  write_batch_copy s a src = Ret s' -> 0 <= a -> 0 <= j ->
  s' !! Z.to_nat j =
  if decide (a <= j < a + Z.of_nat (length src)) then Some (src !! Z.to_nat (j - a)) else s !! Z.to_nat j.
Proof.
  unfold write_batch_copy, capacity_of. intros E Ha Hj. destruct (decide (length src = 0%nat)) as [E0|].
  - injection E as <-. by destruct (decide _); [lia|].
  - destruct (decide _) as [Hb|]; [|done]. injection E as <-. destruct (decide _).
    + rewrite list_lookup_inserts by (rewrite ?length_fmap; lia). rewrite list_lookup_fmap.
      replace (Z.to_nat j - Z.to_nat a)%nat with (Z.to_nat (j - a)) by lia.
      destruct (lookup_lt_is_Some_2 src (Z.to_nat (j - a))) as [v ->]; [lia|done].
    + destruct (decide (j < a)).
      * by rewrite list_lookup_inserts_lt by lia.
      * by rewrite list_lookup_inserts_ge by (rewrite length_fmap; lia).
Qed.

Lemma write_batch_ok s a src :
  0 <= a -> a + Z.of_nat (length src) <= capacity_of s ->
  exists s', write_batch_copy s a src = Ret s' /\ capacity_of s' = capacity_of s.
Proof.
  intros Ha Hb. unfold write_batch_copy. destruct (decide _); [by exists s|].
  rewrite decide_True by lia. eexists. split; [done|]. unfold capacity_of. by rewrite length_inserts.
Qed.

(** The two chunks of a batch write extend the window at its head. *)
Lemma write_chunks s t q src first :
  slots_have s t q -> Z.of_nat (length q) + Z.of_nat (length src) <= cap ->
  let h := t + Z.of_nat (length q) in
  first = Z.min (Z.of_nat (length src)) (cap - h mod cap) ->
  exists s1 s2, write_batch_copy s (h mod cap) (take (Z.to_nat first) src) = Ret s1
    /\ (if 0 <? Z.of_nat (length src) - first then write_batch_copy s1 0 (drop (Z.to_nat first) src) else Ret s1) = Ret s2
    /\ slots_have s2 t (q ++ src).
Proof.
  intros [Ec Hs] Hn h Hf. pose proof (Z.mod_pos_bound h cap ltac:(lia)) as Hh.
  destruct (write_batch_ok s (h mod cap) (take (Z.to_nat first) src)) as (s1 & E1 & Ec1);
    [lia|rewrite length_take; lia|].
  destruct (write_batch_ok s1 0 (drop (Z.to_nat first) src)) as (s2 & E2 & Ec2); [lia|rewrite length_drop; lia|].
  assert ((if 0 <? Z.of_nat (length src) - first then write_batch_copy s1 0 (drop (Z.to_nat first) src) else Ret s1)
    = Ret s2) as E2'.
  { destruct (Z.ltb_spec 0 (Z.of_nat (length src) - first)); [done|]. rewrite <- E2. unfold write_batch_copy.
    by rewrite length_drop, decide_True by lia. }
  exists s1, s2. split; [done|]. split; [done|]. split; [congruence|]. intros i v Hi.
  pose proof (lookup_lt_Some _ _ _ Hi) as Hlt. rewrite length_app in Hlt.
  pose proof (Z.mod_pos_bound (t + Z.of_nat i) cap ltac:(lia)).
  rewrite (lookup_write_batch s1 0 _ s2) by (done || lia).
  rewrite (lookup_write_batch s (h mod cap) _ s1) by (done || lia). rewrite length_drop, length_take.
  pose proof (mod_move h (Z.of_nat i - Z.of_nat (length q)) ltac:(lia)) as Hm.
  replace (h + (Z.of_nat i - Z.of_nat (length q))) with (t + Z.of_nat i) in Hm by lia.
  destruct (decide (i < length q)%nat).
  - rewrite lookup_app_l in Hi by lia. rewrite !decide_False by lia. by apply Hs.
  - rewrite lookup_app_r in Hi by lia. destruct (decide (Z.of_nat (i - length q) < first)).
    + rewrite decide_False, decide_True by lia. rewrite lookup_take_lt by lia. rewrite <- Hi. do 2 f_equal. lia.
    + rewrite decide_True by lia. rewrite lookup_drop, <- Hi. do 2 f_equal. lia.
Qed.

Lemma mapM_id_Some (vs : list T) : mapM id (Some <$> vs) = Some vs.
Proof. induction vs as [|v vs IH]; cbn; [done|]. by rewrite IH. Qed.

Lemma read_batch_ok s a vs :
  0 <= a -> a + Z.of_nat (length vs) <= capacity_of s ->
  (forall j v, vs !! j = Some v -> s !! (Z.to_nat a + j)%nat = Some (Some v)) ->
  read_batch_copy s a (length vs) = Ret vs.
Proof.
  intros Ha Hb Hv. unfold read_batch_copy. destruct (decide _) as [E|].
  { by apply length_zero_iff_nil in E as ->. }
  rewrite decide_True by lia.
  assert (take (length vs) (drop (Z.to_nat a) s) = Some <$> vs) as ->; [|by rewrite mapM_id_Some].
  unfold capacity_of in Hb. apply list_eq_same_length with (length vs);
    [by rewrite length_fmap|rewrite length_take, length_drop; lia|].
  intros j x y Hj Hx Hy. rewrite lookup_take_lt, lookup_drop in Hx by done.
  rewrite list_lookup_fmap in Hy. destruct (vs !! j) as [v|] eqn:E; [|done].
  rewrite (Hv _ _ E) in Hx. cbn in Hy. congruence.
Qed.

(** The two chunks of a batch read copy the front of the window. *)
Lemma read_chunks s t q n first :
  slots_have s t q -> (n <= length q)%nat -> Z.of_nat (length q) <= cap -> 
  first = Z.min (Z.of_nat n) (cap - t mod cap) ->
  read_batch_copy s (t mod cap) (Z.to_nat first) = Ret (take (Z.to_nat first) q)
  /\ read_batch_copy s 0 (n - Z.to_nat first) = Ret (drop (Z.to_nat first) (take n q)).
Proof.
  intros [Ec Hs] Hn Hq Hf. pose proof (Z.mod_pos_bound t cap ltac:(lia)) as Ht.
  assert (Hf1 : (Z.to_nat first <= n)%nat) by lia. split.
  - pose proof (read_batch_ok s (t mod cap) (take (Z.to_nat first) q)) as R.
    rewrite length_take, Nat.min_l in R by lia. apply R; [lia|lia|].
    intros j v Hj. pose proof (lookup_lt_Some _ _ _ Hj) as Hlt. rewrite length_take in Hlt.
    rewrite lookup_take_lt in Hj by lia. rewrite <- (Hs _ _ Hj). f_equal.
    pose proof (mod_move t (Z.of_nat j) ltac:(lia)). lia.
  - pose proof (read_batch_ok s 0 (drop (Z.to_nat first) (take n q))) as R.
    rewrite length_drop, length_take, Nat.min_l in R by lia. apply R; [lia|lia|].
    intros j v Hj. pose proof (lookup_lt_Some _ _ _ Hj) as Hlt. rewrite length_drop, length_take in Hlt.
    rewrite lookup_drop, lookup_take_lt in Hj by lia. rewrite <- (Hs _ _ Hj). f_equal.
    pose proof (mod_move t (Z.of_nat (Z.to_nat first + j)) ltac:(lia)). lia.
Qed.

Lemma slots_have_drop s t q n : slots_have s t q -> (n <= length q)%nat -> slots_have s (t + Z.of_nat n) (drop n q).
Proof.
  intros [Ec Hs] Hn. split; [done|]. intros i v Hi. rewrite lookup_drop in Hi.
  rewrite <- (Hs _ _ Hi). do 3 f_equal. lia.
Qed.

Lemma slots_have_push s t q v :
  slots_have s t q -> Z.of_nat (length q) < cap ->
  let h := t + Z.of_nat (length q) in
  write_slot_copy s (h mod cap) v = Ret (<[Z.to_nat (h mod cap) := Some v]> s)
  /\ slots_have (<[Z.to_nat (h mod cap) := Some v]> s) t (q ++ [v]).
Proof.
  intros [Ec Hs] Hq h. pose proof (Z.mod_pos_bound h cap ltac:(lia)). unfold write_slot_copy.
  rewrite decide_True by lia. split; [done|]. split; [unfold capacity_of in *; by rewrite length_insert|].
  intros i w Hi. apply lookup_app_Some in Hi as [Hi|[Hge Hi]].
  - pose proof (lookup_lt_Some _ _ _ Hi). rewrite list_lookup_insert_ne; [by apply Hs|].
    intros E%Z2Nat.inj; [|apply Z.mod_pos_bound; lia..]. apply (mod_window t) in E; lia.
  - apply list_lookup_singleton_Some in Hi as [Hi ->].
    replace (t + Z.of_nat i) with h by lia. apply list_lookup_insert_eq. unfold capacity_of in Ec. lia.
Qed.
End window.

(** * The copy ring refines a bounded FIFO with batches *)

Inductive copy_op (T : Type) :=
| CPush (v : T) | CPop (out : T) | CPushBatch (src : list T) | CPopBatch (dst : list T).
Arguments CPush {T} _.
Arguments CPop {T} _.
Arguments CPushBatch {T} _.
Arguments CPopBatch {T} _.

Inductive copy_out (T : Type) :=
| CPushed (ok : bool) | CPopped (ok : bool) (out : T) | CBatchPushed (n : Z) | CBatchPopped (n : Z) (dst : list T).
Arguments CPushed {T} _.
Arguments CPopped {T} _ _.
Arguments CBatchPushed {T} _.
Arguments CBatchPopped {T} _ _.

(** The specification: a batch moves as many elements as fit, respectively as
    there are, in order. *)
Definition copy_fifo_step {T} (cap : Z) (q : list T) (op : copy_op T) : list T * copy_out T :=
  match op with
  | CPush v => if Z.of_nat (length q) <? cap - 1 then (q ++ [v], CPushed true) else (q, CPushed false)
  | CPop out => match q with [] => ([], CPopped false out) | v :: q => (q, CPopped true v) end
  | CPushBatch src =>
      let n := Z.min (Z.of_nat (length src)) (cap - 1 - Z.of_nat (length q)) in
      (q ++ take (Z.to_nat n) src, CBatchPushed n)
  | CPopBatch dst =>
      let n := (length dst `min` length q)%nat in
      (drop n q, CBatchPopped (Z.of_nat n) (take n q ++ drop n dst))
  end.

Fixpoint copy_fifo_run {T} (cap : Z) (q : list T) (ops : list (copy_op T)) : list T * list (copy_out T) :=
  match ops with
  | [] => (q, [])
  | op :: ops =>
      let '(q1, o) := copy_fifo_step cap q op in
      let '(q2, os) := copy_fifo_run cap q1 ops in (q2, o :: os)
  end.

Section refinement.
Context `{BuildProfile} `{TargetArch} `{IndexStrategy} {T In : Type} `{Instrumentation In}.
Context (cap : Z) (Hcap : 1 <= cap <= 2 ^ 62) `{!BatchWrap cap}.
Implicit Types (r : CopyRingEngine T In) (q : list T).

(** The hook each outcome calls: the batches call none. *)
Definition copy_instr_step (i : In) (o : copy_out T) : In :=
  match o with
  | CPushed true => on_push i
  | CPushed false => on_push_full i
  | CPopped true _ => on_pop i
  | CPopped false _ => on_pop_empty i
  | CBatchPushed _ | CBatchPopped _ _ => i
  end.

Definition copy_step r (op : copy_op T) : outcome (CopyRingEngine T In * copy_out T) :=
  match op with
  | CPush v => '(r', ok) ← copy_push r v; Ret (r', CPushed ok)
  | CPop out => '(r', ok, out) ← copy_pop r out; Ret (r', CPopped ok out)
  | CPushBatch src => '(r', n) ← push_batch r src; Ret (r', CBatchPushed n)
  | CPopBatch dst => '(r', n, dst) ← pop_batch r dst; Ret (r', CBatchPopped n dst)
  end.

Fixpoint copy_run r (ops : list (copy_op T)) : outcome (CopyRingEngine T In * list (copy_out T)) :=
  match ops with
  | [] => Ret (r, [])
  | op :: ops => '(r1, o) ← copy_step r op; '(r2, os) ← copy_run r1 ops; Ret (r2, o :: os)
  end.

Definition copy_positions r q (tc t hc h : Z) : Prop :=
  ring_indices cap r tc t hc h /\ h = t + Z.of_nat (length q) /\ slots_have cap (slots r) t q.

Definition copy_inv r q : Prop := exists tc t hc h, copy_positions r q tc t hc h.

(** One operation simulates its specification. *)
Definition simulates r q (op : copy_op T) : Prop :=
  exists r', copy_step r op = Ret (r', (copy_fifo_step cap q op).2)
    /\ copy_inv r' (copy_fifo_step cap q op).1
    /\ ring_instr r' = copy_instr_step (ring_instr r) (copy_fifo_step cap q op).2.

Lemma ring_distance_ok h t : t <= h < t + cap -> ring_distance (h mod cap) (t mod cap) cap = Ret (h - t).
Proof.
  intros Hd. pose proof (Z.mod_pos_bound h cap ltac:(lia)). pose proof (Z.mod_pos_bound t cap ltac:(lia)).
  pose proof (mod_move cap Hcap t (h - t) ltac:(lia)) as Hm. replace (t + (h - t)) with h in Hm by lia.
  unfold ring_distance. destruct (Z.leb_spec (t mod cap) (h mod cap)).
  - rewrite arith_ok by mlia. f_equal. lia.
  - rewrite arith_ok by mlia. cbn [mbind outcome_bind]. rewrite arith_ok by mlia. f_equal. lia.
Qed.

Lemma wrap_advance i n :
  0 <= i -> 0 <= n <= cap -> (x ← arith USIZE (i mod cap + n); wrap_index x cap) = Ret ((i + n) mod cap).
Proof.
  intros Hi Hn. pose proof (Z.mod_pos_bound i cap ltac:(lia)).
  rewrite arith_ok by mlia. cbn [mbind outcome_bind]. rewrite wrap_batch by lia.
  by rewrite Zplus_mod_idemp_l.
Qed.

Lemma slice_ok (l : list T) a b :
  0 <= a <= b -> b <= Z.of_nat (length l) -> slice l a b = Ret (take (Z.to_nat (b - a)) (drop (Z.to_nat a) l)).
Proof. intros. unfold slice. by rewrite decide_True by lia. Qed.

Lemma push_chunks_ok r q tc t hc h src free :
  copy_positions r q tc t hc h -> 0 <= free -> h + free <= tc + cap - 1 ->
  let n := Z.min (Z.of_nat (length src)) free in
  exists r', push_chunks r src free = Ret (r', n) /\ copy_inv r' (q ++ take (Z.to_nat n) src)
    /\ ring_instr r' = ring_instr r.
Proof.
  intros (I & El & Hs) Hf0 Hf n. pose proof (own_indices cap _ _ _ _ _ I) as [Eoh _].
  pose proof (pos_order _ _ _ _ _ _ I). pose proof (Z.mod_pos_bound h cap ltac:(lia)).
  unfold push_chunks. fold n. rewrite (proj1 Hs), Eoh.
  rewrite (arith_ok _ (cap - _)) by mlia. cbn [mbind outcome_bind].
  rewrite (arith_ok _ (n - _)) by mlia. cbn [mbind outcome_bind].
  set (first := Z.min n (cap - h mod cap)).
  destruct (write_chunks cap Hcap (slots r) t q (take (Z.to_nat n) src) first) as (s1 & s2 & E1 & E2 & Hs2);
    [done|rewrite length_take; lia|rewrite length_take, <- El; lia|].
  rewrite <- El, take_take, Nat.min_l in E1 by lia. rewrite length_take in E2.
  replace (Z.of_nat (Z.to_nat n `min` length src)) with n in E2 by lia.
  rewrite (slice_ok src 0 first) by lia. cbn [mbind outcome_bind]. rewrite Z.sub_0_r. change (drop (Z.to_nat 0) src) with src.
  rewrite E1. cbn [mbind outcome_bind].
  assert ((if 0 <? n - first then src2 ← slice src first n; write_batch_copy s1 0 src2 else Ret s1) = Ret s2) as ->.
  { rewrite slice_ok by lia. cbn [mbind outcome_bind]. rewrite take_drop_commute.
    by replace (Z.to_nat first + Z.to_nat (n - first))%nat with (Z.to_nat n) by lia. }
  cbn [mbind outcome_bind]. rewrite (bind_assoc_ret _ _ _ _ (wrap_advance h n ltac:(lia) ltac:(lia))).
  eexists. split; [done|]. split; [|done]. exists tc, t, hc, (h + n). split; [|split; [|done]].
  - apply publish_head_indices; [done|lia..].
  - rewrite length_app, length_take. lia.
Qed.

Lemma push_batch_fifo r q src : copy_inv r q -> simulates r q (CPushBatch src).
Proof.
  intros (tc & t & hc & h & P). pose proof P as (I & El & Hs). pose proof I as [Ho Eh Et Etc Ehc _].
  pose proof (own_indices cap _ _ _ _ _ I) as [Eoh _].
  unfold simulates. cbn [copy_step copy_fifo_step fst snd copy_instr_step].
  unfold push_batch. rewrite (proj1 Hs), Eoh, Etc, Et.
  destruct (decide (length src = 0%nat)) as [E0|E0].
  { apply length_zero_iff_nil in E0 as ->. exists r. cbn [length]. rewrite Z.min_l, take_nil, app_nil_r by lia.
    split; [done|]. split; [by exists tc, t, hc, h|done]. }
  rewrite (arith_ok _ (cap - 1)) by mlia. cbn [mbind outcome_bind]. rewrite (ring_distance_ok h tc) by lia.
  cbn [mbind outcome_bind]. rewrite (arith_ok _ (cap - 1 - _)) by mlia. cbn [mbind outcome_bind].
  destruct (Z.ltb_spec (cap - 1 - (h - tc)) (Z.of_nat (length src))).
  - rewrite (ring_distance_ok h t) by lia. cbn [mbind outcome_bind]. rewrite (arith_ok _ (cap - 1 - _)) by mlia. cbn [mbind outcome_bind].
    replace (cap - 1 - Z.of_nat (length q)) with (cap - 1 - (h - t)) by lia.
    destruct (Z.eqb_spec (cap - 1 - (h - t)) 0) as [Ef|Ef].
    + rewrite Ef, Z.min_r by lia. cbn [Z.to_nat take]. rewrite app_nil_r. eexists. split; [done|].
      split; [|done]. exists t, t, hc, h. split; [eapply refresh_tail, I|done].
    + destruct (push_chunks_ok (set_tail_cached r (t mod cap)) q t t hc h src (cap - 1 - (h - t)))
        as (r' & -> & Hr & Ei); [split; [eapply refresh_tail, I|done]|lia|lia|]. by exists r'.
  - destruct (push_chunks_ok r q tc t hc h src (cap - 1 - (h - tc))) as (r' & E & Hr & Ei); [done|lia|lia|].
    exists r'. rewrite E. cbn [mbind outcome_bind]. rewrite !Z.min_l in * by lia. done.
Qed.

(** Two fills of a destination, one behind the other. *)
Lemma fill_front (dst vs : list T) :
  (length vs <= length dst)%nat -> fill dst 0 vs = vs ++ drop (length vs) dst.
Proof.
  intros Hl. unfold fill. rewrite <- (take_drop (length vs) dst) at 1.
  apply list_inserts_0_r. rewrite length_take. lia.
Qed.

Lemma fill_behind (dst vs1 vs2 : list T) :
  (length vs1 + length vs2 <= length dst)%nat ->
  fill (fill dst 0 vs1) (Z.of_nat (length vs1)) vs2 = (vs1 ++ vs2) ++ drop (length (vs1 ++ vs2)) dst.
Proof.
  intros Hl. rewrite fill_front by lia. unfold fill. rewrite Nat2Z.id, <- (Nat.add_0_r (length vs1)) at 1.
  rewrite list_inserts_app_r, <- app_assoc. f_equal.
  change (fill (drop (length vs1) dst) 0 vs2 = vs2 ++ drop (length (vs1 ++ vs2)) dst).
  rewrite fill_front by (rewrite length_drop; lia). by rewrite drop_drop, length_app.
Qed.

Lemma pop_chunks_ok r q tc t hc h dst :
  copy_positions r q tc t hc h ->
  let n := Nat.min (length dst) (Z.to_nat (hc - t)) in
  exists r', pop_chunks r dst (hc - t) = Ret (r', Z.of_nat n, take n q ++ drop n dst) /\ copy_inv r' (drop n q)
    /\ ring_instr r' = ring_instr r.
Proof.
  intros (I & El & Hs) n. pose proof (own_indices cap _ _ _ _ _ I) as [_ Eot].
  pose proof (pos_order _ _ _ _ _ _ I). pose proof (Z.mod_pos_bound t cap ltac:(lia)).
  unfold pop_chunks. replace (Z.min (Z.of_nat (length dst)) (hc - t)) with (Z.of_nat n) by lia.
  rewrite (proj1 Hs), Eot. rewrite (arith_ok _ (cap - _)) by mlia. cbn [mbind outcome_bind].
  rewrite (arith_ok _ (Z.of_nat n - _)) by mlia. cbn [mbind outcome_bind].
  set (first := Z.min (Z.of_nat n) (cap - t mod cap)).
  destruct (read_chunks cap Hcap (slots r) t q n first) as [R1 R2]; [done|lia|lia|done|].
  rewrite (slice_ok dst 0 first) by lia. cbn [mbind outcome_bind].
  rewrite length_take, length_drop, Nat.min_l, Z.sub_0_r by lia. rewrite R1. cbn [mbind outcome_bind].
  assert (Hfill : (length (take (Z.to_nat first) q) + length (drop (Z.to_nat first) (take n q)) <= length dst)%nat)
    by (rewrite length_take, length_drop, length_take; lia).
  pose proof (fill_behind dst _ _ Hfill) as Ef.
  replace (take (Z.to_nat first) q) with (take (Z.to_nat first) (take n q)) in Ef at 3 4
    by (rewrite take_take; f_equal; lia).
  rewrite take_drop, !length_take, !Nat.min_l, Z2Nat.id in Ef by lia.
  assert ((if 0 <? Z.of_nat n - first then
             d2 ← slice (fill dst 0 (take (Z.to_nat first) q)) first (Z.of_nat n);
             vs2 ← read_batch_copy (slots r) 0 (length d2);
             Ret (fill (fill dst 0 (take (Z.to_nat first) q)) first vs2)
           else Ret (fill dst 0 (take (Z.to_nat first) q))) = Ret (take n q ++ drop n dst)) as ->.
  { assert (length (fill dst 0 (take (Z.to_nat first) q)) = length dst) as Ed by apply length_inserts.
    rewrite slice_ok by (rewrite ?Ed; lia). cbn [mbind outcome_bind].
    rewrite length_take, length_drop, Ed, Nat.min_l by lia.
    replace (Z.to_nat (Z.of_nat n - first)) with (n - Z.to_nat first)%nat by lia. rewrite R2. cbn [mbind outcome_bind].
    rewrite Ef. destruct (Z.ltb_spec 0 (Z.of_nat n - first)); [done|].
    rewrite <- Ef, drop_ge by (rewrite length_take; lia). done. }
  cbn [mbind outcome_bind]. rewrite (bind_assoc_ret _ _ _ _ (wrap_advance t (Z.of_nat n) ltac:(lia) ltac:(lia))).
  eexists. split; [done|]. split; [|done]. exists tc, (t + Z.of_nat n), hc, h. split; [|split].
  - apply publish_tail_indices; [done|lia..].
  - rewrite length_drop. lia.
  - apply slots_have_drop; [done|lia].
Qed.

Lemma pop_batch_fifo r q dst : copy_inv r q -> simulates r q (CPopBatch dst).
Proof.
  intros (tc & t & hc & h & P). pose proof P as (I & El & Hs). pose proof I as [Ho Eh Et Etc Ehc _].
  pose proof (own_indices cap _ _ _ _ _ I) as [_ Eot].
  unfold simulates. cbn [copy_step copy_fifo_step fst snd copy_instr_step].
  unfold pop_batch. rewrite (proj1 Hs), Eot, Ehc, Eh.
  destruct (decide (length dst = 0%nat)) as [E0|E0].
  { apply length_zero_iff_nil in E0 as ->. exists r. split; [done|]. split; [by exists tc, t, hc, h|done]. }
  rewrite (ring_distance_ok hc t) by lia. cbn [mbind outcome_bind].
  destruct (Z.ltb_spec (hc - t) (Z.of_nat (length dst))).
  - rewrite (ring_distance_ok h t) by lia. cbn [mbind outcome_bind].
    assert (copy_positions (set_head_cached r (h mod cap)) q tc t h h) as P' by (split; [eapply refresh_head, I|done]).
    destruct (Z.eqb_spec (h - t) 0) as [Ef|Ef].
    + destruct q; [|cbn [length] in El; lia]. cbn [length]. rewrite Nat.min_0_r. eexists. split; [done|].
      split; [|done]. by exists tc, t, h, h.
    + destruct (pop_chunks_ok _ q tc t h h dst P') as (r' & E & Hr & Ei).
      replace (Z.to_nat (h - t)) with (length q) in * by lia. exists r'. by rewrite E.
  - destruct (pop_chunks_ok r q tc t hc h dst P) as (r' & E & Hr & Ei).
    replace (length dst `min` Z.to_nat (hc - t))%nat with (length dst `min` length q)%nat in * by lia.
    exists r'. by rewrite E.
Qed.

Lemma copy_write_ok r q tc t hc h v :
  copy_positions r q tc t hc h -> h + 1 < tc + cap ->
  exists r', (s ← write_slot_copy (slots r) (own_head r) v;
      let r := publish_head r ((h + 1) mod cap) s in Ret (set_instr r (on_push (ring_instr r)), true)) = Ret (r', true)
    /\ copy_inv r' (q ++ [v]) /\ ring_instr r' = on_push (ring_instr r) /\ Z.of_nat (length q) < cap - 1.
Proof.
  intros (I & El & Hs) Hr. pose proof (own_indices cap _ _ _ _ _ I) as [Eoh _]. pose proof (pos_order _ _ _ _ _ _ I).
  destruct (slots_have_push cap Hcap (slots r) t q v Hs ltac:(lia)) as [Ew Hs']. rewrite <- El in Ew, Hs'.
  rewrite Eoh, Ew. cbn [mbind outcome_bind]. eexists. split; [done|]. split; [|split; [done|lia]].
  exists tc, t, hc, (h + 1). split; [|split; [|done]].
  - apply instr_indices, publish_head_indices; [done|lia..].
  - rewrite length_app. cbn [length]. lia.
Qed.

Lemma copy_push_fifo r q v : copy_inv r q -> simulates r q (CPush v).
Proof.
  intros (tc & t & hc & h & P). pose proof P as (I & El & Hs). pose proof I as [Ho Eh Et Etc Ehc _].
  pose proof (own_indices cap _ _ _ _ _ I) as [Eoh _].
  unfold simulates. cbn [copy_step copy_fifo_step]. unfold copy_push. cbv zeta. rewrite (proj1 Hs), Etc, Et.
  rewrite Eoh, (bind_assoc_ret _ _ _ _ (wrap_next cap Hcap h ltac:(lia))), <- Eoh.
  rewrite !(next_is_tail cap Hcap) by lia.
  destruct (Z.eqb_spec (h + 1) (tc + cap)); [destruct (Z.eqb_spec (h + 1) (t + cap))|].
  - destruct (Z.ltb_spec (Z.of_nat (length q)) (cap - 1)); [lia|].
    eexists. split; [done|]. split; [|done]. exists t, t, hc, h. split; [|done].
    apply instr_indices, (refresh_tail cap _ tc), I.
  - destruct (copy_write_ok (set_tail_cached r (t mod cap)) q t t hc h v) as (r' & E & Hr & Ei & Hl);
      [split; [eapply refresh_tail, I|done]|lia|].
    destruct (Z.ltb_spec (Z.of_nat (length q)) (cap - 1)); [|lia].
    exists r'. cbv zeta in E. unfold own_head in *. cbn [set_tail_cached head head_local] in E. by rewrite E.
  - destruct (copy_write_ok r q tc t hc h v P ltac:(lia)) as (r' & E & Hr & Ei & Hl).
    destruct (Z.ltb_spec (Z.of_nat (length q)) (cap - 1)); [|lia]. exists r'. cbv zeta in E. by rewrite E.
Qed.

Lemma copy_read_ok r q tc t hc h :
  copy_positions r q tc t hc h -> t < hc ->
  exists v q' r', q = v :: q' /\ copy_inv r' q' /\ ring_instr r' = on_pop (ring_instr r) /\
    (value ← read_slot_copy (slots r) (own_tail r);
     t1 ← arith USIZE (own_tail r + 1);
     next_tail ← wrap_index t1 (capacity_of (slots r));
     let r := publish_tail r next_tail (slots r) in
     Ret (set_instr r (on_pop (ring_instr r)), true, value)) = Ret (r', true, v).
Proof.
  intros (I & El & Hs) Hn. pose proof (own_indices cap _ _ _ _ _ I) as [_ Eot]. pose proof (pos_order _ _ _ _ _ _ I).
  destruct q as [|v q]; [cbn in El; lia|]. cbn [length] in El.
  pose proof (proj2 Hs 0%nat v eq_refl) as E0. rewrite Z.add_0_r in E0.
  pose proof (Z.mod_pos_bound t cap ltac:(lia)).
  rewrite Eot. unfold read_slot_copy. rewrite E0, decide_True by lia. cbn [mbind outcome_bind].
  rewrite (proj1 Hs), (bind_assoc_ret _ _ _ _ (wrap_next cap Hcap t ltac:(lia))).
  exists v, q. eexists. split; [done|]. split; [|split; [|done]; done].
  exists tc, (t + 1), hc, h. split; [|split; [lia|]].
  - apply instr_indices, publish_tail_indices; [done|lia..].
  - apply (slots_have_drop cap _ _ _ 1 Hs). cbn [length]. lia.
Qed.

Lemma copy_pop_fifo r q out : copy_inv r q -> simulates r q (CPop out).
Proof.
  intros (tc & t & hc & h & P). pose proof P as (I & El & _). pose proof I as [Ho Eh Et Etc Ehc _].
  pose proof (own_indices cap _ _ _ _ _ I) as [_ Eot].
  unfold simulates. cbn [copy_step]. unfold copy_pop. cbv zeta. rewrite Eh, Ehc.
  rewrite (eq_trans (f_equal (fun i => i =? hc mod cap) Eot) (tail_is_head cap Hcap t hc ltac:(lia))).
  rewrite (eq_trans (f_equal (fun i => i =? h mod cap) Eot) (tail_is_head cap Hcap t h ltac:(lia))).
  destruct (Z.eqb_spec t hc); [destruct (Z.eqb_spec t h)|].
  - destruct q; [|cbn [length] in El; lia]. eexists. split; [done|]. split; [|done].
    exists tc, t, h, h. split; [eapply instr_indices, refresh_head, I|apply P].
  - destruct (copy_read_ok (set_head_cached r (h mod cap)) q tc t h h) as (v & q' & r' & -> & Hr & Ei & E);
      [split; [by eapply refresh_head|apply P]|lia|].
    exists r'. cbv zeta in E. unfold own_tail in *. cbn [set_head_cached tail tail_local] in E. by rewrite E.
  - destruct (copy_read_ok r q tc t hc h P ltac:(lia)) as (v & q' & r' & -> & Hr & Ei & E).
    exists r'. cbv zeta in E. by rewrite E.
Qed.

Lemma copy_run_fifo ops r q :
  copy_inv r q ->
  exists r', copy_run r ops = Ret (r', (copy_fifo_run cap q ops).2) /\ copy_inv r' (copy_fifo_run cap q ops).1
    /\ ring_instr r' = foldl copy_instr_step (ring_instr r) (copy_fifo_run cap q ops).2.
Proof.
  revert r q. induction ops as [|op ops IH]; intros r q Hr; [by exists r|].
  assert (simulates r q op) as (r1 & E1 & Hr1 & Ei1)
    by (destruct op; auto using copy_push_fifo, copy_pop_fifo, push_batch_fifo, pop_batch_fifo).
  destruct (IH _ _ Hr1) as (r2 & E2 & Hr2 & Ei2). cbn [copy_run copy_fifo_run]. rewrite E1. cbn [mbind outcome_bind].
  rewrite E2. destruct (copy_fifo_step cap q op) as [q1 o], (copy_fifo_run cap q1 ops) as [q2 os] eqn:E.
  cbn [mbind outcome_bind fst snd] in *. rewrite E in *. exists r2. split; [done|]. split; [done|].
  by rewrite Ei2, Ei1.
Qed.

Lemma copy_len_fifo r q : copy_inv r q -> copy_len r = Ret (Z.of_nat (length q)).
Proof.
  intros (tc & t & hc & h & [Ho Eh Et _ _ _] & El & [Ec _]). unfold copy_len. rewrite Ec, Eh, Et.
  rewrite ring_distance_ok by lia. f_equal. lia.
Qed.
End refinement.

(** C22. The copy ring implements a bounded FIFO with batches: from
    [CopyRingEngine::new] over inline or heap storage, every sequence of
    [push], [pop], [push_batch] and [pop_batch] returns (no panic, no copy from
    an uninitialised slot or outside the array), a batch push appends the
    longest prefix that fits and a batch pop removes as many elements as the
    destination takes, in order and leaving the rest of the destination alone,
    whatever the cached remote positions and wherever the copy wraps around;
    [len] is the number of elements queued.  Only [push] and [pop] call the
    instrumentation hooks. *)
Theorem copy_ring_implements_fifo `{BuildProfile} `{TargetArch} {T In} `{Instrumentation In}
    (storage : list (option T)) (instr : In) (ops : list (copy_op T)) :
  (exists N, inline_storage N = Ret storage) \/ (exists m, heap_storage m = Ret storage) ->
  0 < capacity_of storage <= 2 ^ 62 ->
  let '(q, outs) := copy_fifo_run (capacity_of storage) [] ops in
  exists r, copy_run (H1 := Pow2Masked) (ring_new storage instr) ops = Ret (r, outs)
    /\ ring_instr r = foldl copy_instr_step instr outs
    /\ copy_len r = Ret (Z.of_nat (length q)) /\ copy_is_empty r = Ret (bool_decide (q = [])).
Proof.
  intros Hst Hc. destruct (storage_pow2 _ Hst ltac:(lia)) as (k & Hk & Ec & ->). rewrite Ec in *.
  assert (k <= 62) by (apply (Z.pow_le_mono_r_iff 2); lia).
  pose proof (pow2_masked_wraps k ltac:(lia)) as HW.
  assert (copy_inv (2 ^ k) (ring_new (replicate (Z.to_nat (2 ^ k)) None) instr) (@nil T)) as Hi.
  { exists 0, 0, 0, 0. split; [apply ring_new_indices; lia|]. split; [done|]. by split. }
  destruct (@copy_run_fifo _ _ Pow2Masked _ _ _ (2 ^ k) ltac:(lia) HW ops _ _ Hi) as (r & E & Hr & Ei).
  destruct (copy_fifo_run (2 ^ k) [] ops) as [q outs]. exists r. split; [done|]. split; [done|].
  pose proof (copy_len_fifo (2 ^ k) ltac:(lia) _ _ Hr) as El. split; [done|].
  unfold copy_is_empty. rewrite El. cbn. f_equal. by destruct q.
Qed.

(** The witness: a batch push over the end of the array, a batch pop back over
    it, and counters that saw the two single operations only. *)
Lemma copy_ring_implements_fifo_witness :
  exists r : CopyRingEngine Z CountingInstr,
    @copy_run debug_profile false (@Pow2Masked debug_profile) _ _ _ (ring_new (replicate 4 None) counting_new)
      [CPushBatch [1; 2; 3; 4]; CPopBatch [0; 0]; CPush 5; CPushBatch [6; 7]; CPop 0; CPopBatch [0; 0; 0; 0]]
    = Ret (r, [CBatchPushed 3; CBatchPopped 2 [1; 2]; CPushed true; CBatchPushed 1; CPopped true 3;
               CBatchPopped 2 [5; 6; 0; 0]])
    /\ ring_instr r = {| c_pushes := 1; c_pops := 1; c_push_full := 0; c_pop_empty := 0 |}.
Proof.
  destruct (@copy_ring_implements_fifo debug_profile false Z CountingInstr _ (replicate 4 None) counting_new
    [CPushBatch [1; 2; 3; 4]; CPopBatch [0; 0]; CPush 5; CPushBatch [6; 7]; CPop 0; CPopBatch [0; 0; 0; 0]])
    as (r & E & Ei & _); [left; by exists 4%nat|done|].
  exists r. split; [exact E|exact Ei].
Defined.
