(* ===== verification/Handles.v ===== *)
(** * Ring handles and presets ([crates/queue]: handle.rs, presets.rs, copy_ring/)

    [RawRing] and [RawRingCopy] own an engine; the split handles share one
    through an [Arc], so that the engine, with the values still queued, is
    dropped with the second handle, whichever that is.  The type parameters that
    choose the index strategy are a field here.  Values are moved: a handle that
    was dropped cannot be used (the borrow checker's part), which is [Panic]
    here and excluded in the statements by [owned]. *)

From stdpp Require Import base decidable numbers option tactics list.
From Stdlib Require Import ZArith Lia.
From S2P Require Import Prelude Platform Ring CopyRing.

#[local] Open Scope Z_scope.

(** * Direct access: [RawRing] and [RawRingCopy] *)

(** [RawRing<T, S, I, P, Instr>]. *)
Record RawRing (T In : Type) := MkRaw { raw_strategy : IndexStrategy; raw_engine : RingEngine T In }.
Arguments MkRaw {T In} _ _.
Arguments raw_strategy {T In} _.
Arguments raw_engine {T In} _.

(** An operation of the engine on the ring that holds it. *)
Definition on_engine {T In R} (ring : RawRing T In)
    (f : IndexStrategy -> RingEngine T In -> outcome (RingEngine T In * R)) : outcome (RawRing T In * R) :=
  '(e, res) ← f (raw_strategy ring) (raw_engine ring);
  Ret (MkRaw (raw_strategy ring) e, res).

Section raw.
Context `{BuildProfile} `{TargetArch} {T In : Type} `{Instrumentation In}.
Implicit Types ring : RawRing T In.

Definition with_strategies (St : IndexStrategy) (storage : list (option T)) (instr : In) : RawRing T In :=
  MkRaw St (ring_new storage instr).

Definition raw_try_push ring (value : T) : outcome (RawRing T In * result unit (PushError T)) :=
  on_engine ring (fun St e => try_push e value).
Definition raw_try_pop ring : outcome (RawRing T In * result T QueueError) :=
  on_engine ring (fun St e => try_pop e).
Definition raw_push ring (value : T) : outcome (RawRing T In * bool) :=
  on_engine ring (fun St e => ring_push e value).
Definition raw_pop_into ring (out : T) : outcome (RawRing T In * (bool * T)) :=
  on_engine ring (fun St e => '(e', ok, out') ← ring_pop e out; Ret (e', (ok, out'))).
Definition raw_push_shared ring (value : T) : outcome (RawRing T In * bool) := raw_push ring value.
Definition raw_pop_shared ring (out : T) : outcome (RawRing T In * (bool * T)) := raw_pop_into ring out.
Definition raw_len ring : outcome Z := ring_len (raw_engine ring).
Definition raw_is_empty ring : outcome bool := ring_is_empty (raw_engine ring).
Definition raw_capacity ring : outcome Z := ring_capacity (raw_engine ring).
Definition raw_instrumentation ring : In := ring_instr (raw_engine ring).

(** [RawRingCopy]: the copying operations on the same record. *)
Definition rawc_push ring (value : T) : outcome (RawRing T In * bool) :=
  on_engine ring (fun St e => copy_push e value).
Definition rawc_pop ring (out : T) : outcome (RawRing T In * (bool * T)) :=
  on_engine ring (fun St e => '(e', ok, out') ← copy_pop e out; Ret (e', (ok, out'))).
Definition rawc_push_shared ring (value : T) : outcome (RawRing T In * bool) := rawc_push ring value.
Definition rawc_pop_shared ring (out : T) : outcome (RawRing T In * (bool * T)) := rawc_pop ring out.
Definition rawc_push_batch ring (src : list T) : outcome (RawRing T In * Z) :=
  on_engine ring (fun St e => push_batch e src).
Definition rawc_pop_batch ring (dst : list T) : outcome (RawRing T In * (Z * list T)) :=
  on_engine ring (fun St e => '(e', n, dst') ← pop_batch e dst; Ret (e', (n, dst'))).
Definition rawc_len ring : outcome Z := copy_len (raw_engine ring).
Definition rawc_is_empty ring : outcome bool := copy_is_empty (raw_engine ring).
Definition rawc_capacity ring : outcome Z := copy_capacity (raw_engine ring).
End raw.

(** * Presets (presets.rs) *)

Section presets.
Context `{BuildProfile} {T : Type}.

Definition SpscRing (N : nat) : outcome (RawRing T NoInstr) :=
  st ← inline_storage N; Ret (with_strategies Pow2Masked st no_instr).
Definition SpscRingFast (N : nat) : outcome (RawRing T NoInstr) :=
  st ← inline_storage N; Ret (with_strategies BranchWrap st no_instr).
Definition SpscRingHeap (capacity : Z) : outcome (RawRing T NoInstr) :=
  st ← heap_storage capacity; Ret (with_strategies Pow2Masked st no_instr).
Definition SpscRingInstrumented (N : nat) : outcome (RawRing T CountingInstr) :=
  st ← inline_storage N; Ret (with_strategies Pow2Masked st counting_new).
Definition SpscRingCopy (N : nat) : outcome (RawRing T NoInstr) :=
  st ← inline_storage N; Ret (with_strategies Pow2Masked st no_instr).
Definition SpscRingCopyHeap (capacity : Z) : outcome (RawRing T NoInstr) :=
  st ← heap_storage capacity; Ret (with_strategies Pow2Masked st no_instr).
Definition SpscRingCopyInstrumented (N : nat) : outcome (RawRing T CountingInstr) :=
  st ← inline_storage N; Ret (with_strategies Pow2Masked st counting_new).
End presets.

(** * Split handles (handle.rs, copy_ring/handle.rs) *)

(** [Arc<A>]: the strong count and the value, until it is dropped. *)
Record Arc (A : Type) := MkArc { strong : Z; arc_value : option A }.
Arguments MkArc {A} _ _.
Arguments strong {A} _.
Arguments arc_value {A} _.

Definition arc_new {A} (a : A) : Arc A := MkArc 1 (Some a).
Definition arc_clone {A} (a : Arc A) : Arc A := MkArc (strong a + 1) (arc_value a).

(** Dropping a reference; the last one drops the value. *)
Definition arc_drop {A B} (drop_value : A -> outcome (list B)) (a : Arc A) : outcome (Arc A * list B) :=
  if strong a =? 1 then
    match arc_value a with
    | Some x => vs ← drop_value x; Ret (MkArc 0 None, vs)
    | None => Panic
    end
  else Ret (MkArc (strong a - 1) (arc_value a), []).

(** A producer and a consumer of one ring, and which of them is still there. *)
Record split (T In : Type) := Split { sp_ring : Arc (RawRing T In); tx_live : bool; rx_live : bool }.
Arguments Split {T In} _ _ _.
Arguments sp_ring {T In} _.
Arguments tx_live {T In} _.
Arguments rx_live {T In} _.

Section handles.
Context `{BuildProfile} `{TargetArch} {T In : Type} `{Instrumentation In}.
Implicit Types s : split T In.

(** [Arc::new(engine)], a clone for the producer, the original for the consumer. *)
Definition split_ring (ring : RawRing T In) : split T In := Split (arc_clone (arc_new ring)) true true.

(** An operation through a handle. *)
Definition through {R} (live : bool) s (f : RawRing T In -> outcome (RawRing T In * R))
    : outcome (split T In * R) :=
  match arc_value (sp_ring s) with
  | Some ring =>
      if live then
        '(ring', res) ← f ring;
        Ret (Split (MkArc (strong (sp_ring s)) (Some ring')) (tx_live s) (rx_live s), res)
      else Panic
  | None => Panic
  end.

Definition tx_try_push s (value : T) : outcome (split T In * result unit (PushError T)) :=
  through (tx_live s) s (fun ring => raw_try_push ring value).
Definition tx_push s (value : T) : outcome (split T In * bool) :=
  through (tx_live s) s (fun ring => raw_push ring value).
Definition rx_try_pop s : outcome (split T In * result T QueueError) :=
  through (rx_live s) s (fun ring => raw_try_pop ring).
Definition rx_pop_into s (out : T) : outcome (split T In * (bool * T)) :=
  through (rx_live s) s (fun ring => raw_pop_into ring out).

(** [Drop for RingEngine], run by the last [Arc]. *)
Definition drop_raw (ring : RawRing T In) : outcome (list T) :=
  d ← @ring_drop _ (raw_strategy ring) _ _ (raw_engine ring);
  match d with Some vs => Ret vs | None => Panic end.

Definition drop_tx s : outcome (split T In * list T) :=
  if tx_live s then
    '(a, vs) ← arc_drop drop_raw (sp_ring s); Ret (Split a false (rx_live s), vs)
  else Panic.
Definition drop_rx s : outcome (split T In * list T) :=
  if rx_live s then
    '(a, vs) ← arc_drop drop_raw (sp_ring s); Ret (Split a (tx_live s) false, vs)
  else Panic.

(** The copying handles. *)
Definition txc_push s (value : T) : outcome (split T In * bool) :=
  through (tx_live s) s (fun ring => rawc_push ring value).
Definition txc_push_batch s (src : list T) : outcome (split T In * Z) :=
  through (tx_live s) s (fun ring => rawc_push_batch ring src).
Definition rxc_pop s (out : T) : outcome (split T In * (bool * T)) :=
  through (rx_live s) s (fun ring => rawc_pop ring out).
Definition rxc_pop_batch s (dst : list T) : outcome (split T In * (Z * list T)) :=
  through (rx_live s) s (fun ring => rawc_pop_batch ring dst).
End handles.

Section constructors.
Context `{BuildProfile} {T : Type}.

Definition spsc_ring (N : nat) : outcome (split T NoInstr) :=
  st ← inline_storage N; Ret (split_ring (with_strategies Pow2Masked st no_instr)).
Definition spsc_ring_heap (capacity : Z) : outcome (split T NoInstr) :=
  st ← heap_storage capacity; Ret (split_ring (with_strategies Pow2Masked st no_instr)).
Definition spsc_ring_copy (N : nat) : outcome (split T NoInstr) :=
  st ← inline_storage N; Ret (split_ring (with_strategies Pow2Masked st no_instr)).
Definition spsc_ring_copy_heap (capacity : Z) : outcome (split T NoInstr) :=
  st ← heap_storage capacity; Ret (split_ring (with_strategies Pow2Masked st no_instr)).
End constructors.

(** * Runs of the handles *)

Inductive handle_op (T : Type) :=
  | HTryPush (v : T) | HPush (v : T) | HTryPop | HPopInto (out : T) | HDropTx | HDropRx.
Arguments HTryPush {T} _.
Arguments HPush {T} _.
Arguments HTryPop {T}.
Arguments HPopInto {T} _.
Arguments HDropTx {T}.
Arguments HDropRx {T}.

(** What happened to the values of one operation: accepted by the ring, handed
    back with the error, dropped by a failed [push], received by the consumer,
    dropped with the engine. *)
Record fate (T : Type) := Fate {
  accepted : list T; refused : list T; discarded : list T; received : list T; released : list T;
}.
Arguments Fate {T} _ _ _ _ _.
Arguments accepted {T} _.
Arguments refused {T} _.
Arguments discarded {T} _.
Arguments received {T} _.
Arguments released {T} _.

Definition no_fate {T} : fate T := Fate [] [] [] [] [].
Definition fate_app {T} (a b : fate T) : fate T :=
  Fate (accepted a ++ accepted b) (refused a ++ refused b) (discarded a ++ discarded b)
    (received a ++ received b) (released a ++ released b).

(** The values an operation gives away. *)
Definition given {T} (op : handle_op T) : list T :=
  match op with HTryPush v | HPush v => [v] | _ => [] end.

Section runs.
Context `{BuildProfile} `{TargetArch} {T In : Type} `{Instrumentation In}.
Implicit Types s : split T In.

Definition handle_step s (op : handle_op T) : outcome (split T In * fate T) :=
  match op with
  | HTryPush v =>
      '(s', res) ← tx_try_push s v;
      Ret (s', match res with Ok _ => Fate [v] [] [] [] [] | Err (Full v') => Fate [] [v'] [] [] [] end)
  | HPush v => '(s', ok) ← tx_push s v; Ret (s', if (ok : bool) then Fate [v] [] [] [] [] else Fate [] [] [v] [] [])
  | HTryPop =>
      '(s', res) ← rx_try_pop s;
      Ret (s', match res with Ok v => Fate [] [] [] [v] [] | Err _ => no_fate end)
  | HPopInto out =>
      '(s', (ok, out')) ← rx_pop_into s out; Ret (s', if (ok : bool) then Fate [] [] [] [out'] [] else no_fate)
  | HDropTx => '(s', vs) ← drop_tx s; Ret (s', Fate [] [] [] [] vs)
  | HDropRx => '(s', vs) ← drop_rx s; Ret (s', Fate [] [] [] [] vs)
  end.

Fixpoint handle_run s (ops : list (handle_op T)) : outcome (split T In * fate T) :=
  match ops with
  | [] => Ret (s, no_fate)
  | op :: ops' =>
      '(s1, f1) ← handle_step s op; '(s2, f2) ← handle_run s1 ops'; Ret (s2, fate_app f1 f2)
  end.
End runs.

(** Ownership: a dropped handle is not used again. *)
Fixpoint owned {T} (ops : list (handle_op T)) (tx rx : bool) : bool :=
  match ops with
  | [] => true
  | (HTryPush _ | HPush _) :: ops' => tx && owned ops' tx rx
  | (HTryPop | HPopInto _) :: ops' => rx && owned ops' tx rx
  | HDropTx :: ops' => tx && owned ops' false rx
  | HDropRx :: ops' => rx && owned ops' tx false
  end.

(** * What the handles do to the values *)

Section accounting.
Context `{BuildProfile} `{TargetArch} {T In : Type} `{Instrumentation In}.
Context (St : IndexStrategy) (cap : Z) (Hcap : 1 <= cap <= 2 ^ 62) `{!@StepWrap St cap}.
Implicit Types (s : split T In) (q : list T).

(** The state of the handles over the queue [q]: the engine is there as long as
    a handle is, and the count is the number of handles. *)
Definition handles_inv s q : Prop :=
  strong (sp_ring s) = Z.b2z (tx_live s) + Z.b2z (rx_live s) /\
  if tx_live s || rx_live s then
    exists e, arc_value (sp_ring s) = Some (MkRaw St e) /\ ring_inv cap e q
  else arc_value (sp_ring s) = None /\ q = [].

(** One operation: what it accepts goes behind the queue, what it delivers or
    releases comes off its front, and only the last drop releases. *)
Definition accounts s q (op : handle_op T) s' (f : fate T) q' : Prop :=
  handles_inv s' q' /\ q ++ accepted f = received f ++ released f ++ q' /\
  given op = accepted f ++ refused f ++ discarded f /\
  (tx_live s' || rx_live s' = true -> released f = []).

Lemma through_live {R} s q (f : RawRing T In -> outcome (RawRing T In * R)) e e' live res :
  live = true -> arc_value (sp_ring s) = Some (MkRaw St e) -> f (MkRaw St e) = Ret (MkRaw St e', res) ->
  handles_inv s q -> tx_live s || rx_live s = true -> forall q', ring_inv cap e' q' ->
  exists s', through live s f = Ret (s', res) /\ handles_inv s' q' /\
    tx_live s' = tx_live s /\ rx_live s' = rx_live s.
Proof.
  intros -> Ea Ef [Hn _] Hl q' He'. unfold through. rewrite Ea, Ef. cbn [mbind outcome_bind].
  eexists. split; [done|]. split; [|done]. split; [done|]. cbn [tx_live rx_live]. rewrite Hl. by exists e'.
Qed.

Lemma push_accounts s q v (flag : bool) :
  handles_inv s q -> tx_live s = true ->
  let op := if flag then HPush v else HTryPush v in
  exists s' f q', handle_step s op = Ret (s', f) /\ accounts s q op s' f q' /\
    tx_live s' = tx_live s /\ rx_live s' = rx_live s.
Proof.
  intros Hi Htx op. pose proof Hi as [_ Ha]. rewrite Htx in Ha. destruct Ha as (e & Ea & He).
  destruct (@try_push_fifo _ _ St _ _ _ cap Hcap _ e q v He) as (e' & res & Ep & He' & Eo & _).
  assert (Hl : tx_live s || rx_live s = true) by (by rewrite Htx).
  set (q' := (fifo_step cap q (RingPush v)).1) in *.
  assert (Hq : q' = match res with Ok _ => q ++ [v] | Err _ => q end /\
               match res with Ok _ => True | Err (Full v') => v' = v end).
  { subst q'. cbn [fifo_step] in *. destruct (_ <? _); destruct res as [u|[v']]; try done. by injection Eo. }
  destruct Hq as [Eq Hv]. subst op. destruct flag; cbn [handle_step].
  - destruct (through_live s q (fun ring => raw_push ring v) e e' (tx_live s)
      match res with Ok _ => true | Err _ => false end Htx Ea) with (q' := q')
      as (s' & E & Hi' & Et & Er); try done.
    { unfold raw_push, on_engine. cbn [raw_strategy raw_engine].
      rewrite (proj1 (flag_variants_agree e v v)), Ep. done. }
    unfold tx_push. rewrite E. cbn [mbind outcome_bind]. eexists s', _, q'. split; [done|]. split; [|done].
    split; [done|]. rewrite Eq. destruct res as [u|[v']]; cbn; by rewrite ?app_nil_r.
  - destruct (through_live s q (fun ring => raw_try_push ring v) e e' (tx_live s) res Htx Ea) with (q' := q')
      as (s' & E & Hi' & Et & Er); try done.
    { unfold raw_try_push, on_engine. cbn [raw_strategy raw_engine]. by rewrite Ep. }
    unfold tx_try_push. rewrite E. cbn [mbind outcome_bind]. eexists s', _, q'. split; [done|]. split; [|done].
    split; [done|]. rewrite Eq. destruct res as [u|[v']]; [|subst v']; cbn; by rewrite ?app_nil_r.
Qed.

Lemma pop_accounts s q (out : option T) :
  handles_inv s q -> rx_live s = true ->
  let op := match out with Some o => HPopInto o | None => HTryPop end in
  exists s' f q', handle_step s op = Ret (s', f) /\ accounts s q op s' f q' /\
    tx_live s' = tx_live s /\ rx_live s' = rx_live s.
Proof.
  intros Hi Hrx op. pose proof Hi as [_ Ha]. rewrite Hrx, orb_true_r in Ha. destruct Ha as (e & Ea & He).
  destruct (@try_pop_fifo _ _ St _ _ _ cap Hcap _ e q He) as (e' & res & Ep & He' & Eo & _).
  assert (Hl : tx_live s || rx_live s = true) by (by rewrite Hrx, orb_true_r).
  set (q' := (fifo_step cap q RingPop).1) in *.
  assert (Eq : q = match res with Ok v => v :: q' | Err _ => q' end).
  { subst q'. cbn [fifo_step] in *. destruct q, res; try done. by injection Eo as ->. }
  subst op. destruct out as [o|]; cbn [handle_step].
  - destruct (through_live s q (fun ring => raw_pop_into ring o) e e' (rx_live s)
      (match res with Ok _ => true | Err _ => false end, match res with Ok v => v | Err _ => o end) Hrx Ea)
      with (q' := q') as (s' & E & Hi' & Et & Er); try done.
    { unfold raw_pop_into, on_engine. cbn [raw_strategy raw_engine].
      rewrite (proj2 (flag_variants_agree e o o)), Ep. done. }
    unfold rx_pop_into. rewrite E. cbn [mbind outcome_bind]. eexists s', _, q'. split; [done|]. split; [|done].
    split; [done|]. rewrite Eq. destruct res; cbn; by rewrite ?app_nil_r.
  - destruct (through_live s q (fun ring => raw_try_pop ring) e e' (rx_live s) res Hrx Ea) with (q' := q')
      as (s' & E & Hi' & Et & Er); try done.
    { unfold raw_try_pop, on_engine. cbn [raw_strategy raw_engine]. by rewrite Ep. }
    unfold rx_try_pop. rewrite E. cbn [mbind outcome_bind]. eexists s', _, q'. split; [done|]. split; [|done].
    split; [done|]. rewrite Eq. destruct res; cbn; by rewrite ?app_nil_r.
Qed.

(** Dropping a handle while the other one is [other]. *)
Lemma arc_drop_accounts s q (other : bool) :
  handles_inv s q -> strong (sp_ring s) = 1 + Z.b2z other -> tx_live s || rx_live s = true ->
  exists a vs, arc_drop drop_raw (sp_ring s) = Ret (a, vs) /\ strong a = Z.b2z other /\
    if other then vs = [] /\ arc_value a = arc_value (sp_ring s)
    else vs = q /\ arc_value a = None.
Proof.
  intros [_ Ha] Hn Hl. rewrite Hl in Ha. destruct Ha as (e & Ea & He). unfold arc_drop. rewrite Hn.
  destruct other; cbn [Z.b2z Z.eqb Z.add Pos.eqb Pos.add].
  - do 2 eexists. split; [done|]. cbn. split; [lia|done].
  - rewrite Ea. unfold drop_raw. cbn [raw_strategy raw_engine].
    rewrite (@ring_drop_fifo _ _ St _ _ cap Hcap _ e q He). cbn [mbind outcome_bind]. by do 2 eexists.
Qed.

Lemma drop_accounts s q (tx : bool) :
  handles_inv s q -> (if tx then tx_live s else rx_live s) = true ->
  let op := if tx then HDropTx else HDropRx in
  exists s' f q', handle_step s op = Ret (s', f) /\ accounts s q op s' f q' /\
    tx_live s' = (if tx then false else tx_live s) /\ rx_live s' = (if tx then rx_live s else false).
Proof.
  intros Hi Hlive op. pose proof Hi as [Hn Ha].
  assert (Hl : tx_live s || rx_live s = true) by (destruct tx; rewrite Hlive; by rewrite ?orb_true_r).
  rewrite Hl in Ha. destruct Ha as (e & Ea & He).
  destruct (arc_drop_accounts s q (if tx then rx_live s else tx_live s) Hi) as (a & vs & E & Hs & Hv);
    [destruct tx; rewrite Hn, Hlive; cbn; lia|done|].
  assert (exists s', handle_step s op = Ret (s', Fate [] [] [] [] vs) /\ sp_ring s' = a /\
            tx_live s' = (if tx then false else tx_live s) /\ rx_live s' = (if tx then rx_live s else false))
    as (s' & Es & Er & Et & Ex).
  { subst op. destruct tx; cbn [handle_step]; unfold drop_tx, drop_rx; rewrite Hlive, E; by eexists. }
  set (other := if tx then rx_live s else tx_live s) in *.
  assert (Ho : tx_live s' || rx_live s' = other) by (subst other; rewrite Et, Ex; by destruct tx; rewrite ?orb_false_r).
  exists s', (Fate [] [] [] [] vs), (if other then q else []). split; [done|]. split; [|done].
  split; [split|].
  - rewrite Er, Hs, Et, Ex. subst other. destruct tx; cbn; lia.
  - rewrite Ho, Er. destruct other; destruct Hv as [_ ->]; [by exists e|done].
  - rewrite Ho. cbn. split; [|split; [by subst op; destruct tx|]].
    + rewrite app_nil_r. destruct other; destruct Hv as [-> _]; [done|by rewrite app_nil_r].
    + intros ->. by destruct Hv.
Qed.

Ltac by_accounts H :=
  let Et := fresh in let Er := fresh in
  destruct H as (s' & f & q' & ? & ? & Et & Er); exists s', f, q'; by rewrite Et, Er.

(** Every operation an owner can make. *)
Lemma handle_step_accounts s q op ops :
  handles_inv s q -> owned (op :: ops) (tx_live s) (rx_live s) = true ->
  exists s' f q', handle_step s op = Ret (s', f) /\ accounts s q op s' f q' /\
    owned ops (tx_live s') (rx_live s') = true.
Proof.
  intros Hi Ho. destruct op; cbn [owned] in Ho; apply andb_true_iff in Ho as [Hlive Ho].
  - by_accounts (push_accounts s q v false Hi Hlive).
  - by_accounts (push_accounts s q v true Hi Hlive).
  - by_accounts (pop_accounts s q None Hi Hlive).
  - by_accounts (pop_accounts s q (Some out) Hi Hlive).
  - by_accounts (drop_accounts s q true Hi Hlive).
  - by_accounts (drop_accounts s q false Hi Hlive).
Qed.

Lemma owned_dead (ops : list (handle_op T)) : owned ops false false = true -> ops = [].
Proof. by destruct ops as [|[]]. Qed.

Lemma handle_run_accounts ops : forall s q,
  handles_inv s q -> owned ops (tx_live s) (rx_live s) = true ->
  exists s' f q', handle_run s ops = Ret (s', f) /\ handles_inv s' q' /\
    q ++ accepted f = received f ++ released f ++ q' /\
    (ops ≫= given) ≡ₚ accepted f ++ refused f ++ discarded f /\
    (tx_live s' || rx_live s' = true -> released f = []).
Proof.
  induction ops as [|op ops IH]; intros s q Hi Ho.
  { exists s, no_fate, q. cbn. rewrite app_nil_r. done. }
  destruct (handle_step_accounts s q op ops Hi Ho) as (s1 & f1 & q1 & E1 & (Hi1 & Hq1 & Hg1 & Hr1) & Ho1).
  destruct (IH s1 q1 Hi1 Ho1) as (s2 & f2 & q2 & E2 & Hi2 & Hq2 & Hg2 & Hr2).
  exists s2, (fate_app f1 f2), q2. cbn [handle_run]. rewrite E1. cbn [mbind outcome_bind]. rewrite E2.
  cbn [mbind outcome_bind fate_app accepted refused discarded received released].
  split; [done|]. split; [done|]. split_and!.
  - rewrite app_assoc, Hq1, <- !app_assoc, Hq2. destruct (tx_live s1 || rx_live s1) eqn:Hl1.
    + by rewrite (Hr1 eq_refl).
    + apply orb_false_iff in Hl1 as [Ht Hr]. rewrite Ht, Hr in Ho1. apply owned_dead in Ho1 as ->.
      cbn [handle_run] in E2. injection E2 as <- <-. done.
  - cbn [mbind list_bind]. rewrite Hg1, Hg2. clear. solve_Permutation.
  - intros Hl. rewrite (Hr2 Hl), app_nil_r. apply Hr1. destruct (tx_live s1 || rx_live s1) eqn:Hl1; [done|].
    apply orb_false_iff in Hl1 as [Ht Hr]. rewrite Ht, Hr in Ho1. apply owned_dead in Ho1 as ->.
    cbn [handle_run] in E2. injection E2 as <- <-. by rewrite Ht, Hr in Hl.
Qed.

Lemma split_ring_inv (instr : In) :
  handles_inv (split_ring (with_strategies St (replicate (Z.to_nat cap) None) instr)) [].
Proof. split; [done|]. eexists. split; [done|]. by apply ring_new_inv. Qed.
End accounting.

(** * Constructors and presets *)

(** The storage of every constructor is one the engine supports. *)
Lemma inline_supported `{BuildProfile} {T} (St : IndexStrategy) N (st : list (option T)) :
  St = Pow2Masked \/ St = BranchWrap -> inline_storage N = Ret st -> Z.of_nat N <= 2 ^ 62 -> supported St st.
Proof.
  intros HSt E HN. split; [done|]. split; [by left; exists N|]. unfold inline_storage in E.
  destruct is_power_of_two eqn:Hp; [|done]. injection E as <-. unfold capacity_of. rewrite length_replicate.
  unfold is_power_of_two in Hp. apply andb_true_iff in Hp as [Hp%Z.ltb_lt _]. lia.
Qed.

Lemma heap_supported `{BuildProfile} {T} (St : IndexStrategy) c (st : list (option T)) :
  St = Pow2Masked \/ St = BranchWrap -> heap_storage c = Ret st -> c <= 2 ^ 62 -> supported St st.
Proof.
  intros HSt E Hc. split; [done|]. split; [by right; exists c|]. unfold heap_storage, next_power_of_two in E.
  destruct (decide (0 < c)); [|done]. rewrite decide_True in E by lia. injection E as <-.
  unfold capacity_of. rewrite length_replicate, Z2Nat.id by (apply Z.pow_nonneg; lia).
  assert (Z.log2_up c <= 62) by (apply Z.log2_up_le_pow2; lia). pose proof (Z.log2_up_nonneg c).
  split; [apply Z.pow_pos_nonneg; lia|]. by apply Z.pow_le_mono_r.
Qed.

(** Every preset is a fresh engine in a supported configuration. *)
Lemma presets_supported `{BuildProfile} {T} (ring : RawRing T NoInstr) (counted : RawRing T CountingInstr) N c :
  Z.of_nat N <= 2 ^ 62 -> c <= 2 ^ 62 ->
  (SpscRing N = Ret ring \/ SpscRingFast N = Ret ring \/ SpscRingHeap c = Ret ring \/
   SpscRingCopy N = Ret ring \/ SpscRingCopyHeap c = Ret ring ->
   supported (raw_strategy ring) (slots (raw_engine ring)) /\
   ring = with_strategies (raw_strategy ring) (slots (raw_engine ring)) no_instr) /\
  (SpscRingInstrumented N = Ret counted \/ SpscRingCopyInstrumented N = Ret counted ->
   supported (raw_strategy counted) (slots (raw_engine counted)) /\
   counted = with_strategies (raw_strategy counted) (slots (raw_engine counted)) counting_new).
Proof.
  intros HN Hc.
  unfold SpscRing, SpscRingFast, SpscRingHeap, SpscRingCopy, SpscRingCopyHeap, SpscRingInstrumented,
    SpscRingCopyInstrumented.
  destruct (inline_storage N) as [st|] eqn:Ei, (heap_storage c) as [sh|] eqn:Eh; cbn [mbind outcome_bind];
    (split; intros HR; repeat destruct HR as [HR|HR]; injection HR as <- || done; (split; [|done])).
  all: (by eapply inline_supported; [auto|exact Ei|done]) || (by eapply heap_supported; [auto|exact Eh|done]).
Qed.

(** * Properties *)

(** C27.  Ownership through the split handles: for the inline and the heap ring,
    every sequence of [try_push], [push], [try_pop], [pop_into] and drops that
    does not use a dropped handle returns, and every value given to the producer
    has exactly one fate: handed back by [try_push], dropped by a failed
    [push], or accepted; the accepted values, in order, are those received by
    the consumer, then those dropped with the engine, then those still queued.
    The engine lives while a handle does (and [len] counts the queued values);
    the second drop, from either side, releases exactly the queued values. *)
Theorem split_handles_conserve `{BuildProfile} `{TargetArch} {T}
    (s0 : split T NoInstr) (ops : list (handle_op T)) :
  (exists N, spsc_ring N = Ret s0 /\ Z.of_nat N <= 2 ^ 62) \/
  (exists c, spsc_ring_heap c = Ret s0 /\ c <= 2 ^ 62) ->
  owned ops true true = true ->
  exists s f q, handle_run s0 ops = Ret (s, f) /\
    (ops ≫= given) ≡ₚ accepted f ++ refused f ++ discarded f /\
    accepted f = received f ++ released f ++ q /\
    if tx_live s || rx_live s then
      released f = [] /\
      exists ring, arc_value (sp_ring s) = Some ring /\ raw_len ring = Ret (Z.of_nat (length q))
    else q = [] /\ arc_value (sp_ring s) = None.
Proof.
  intros Hs0 Ho.
  assert (exists st, s0 = split_ring (with_strategies Pow2Masked st no_instr) /\ supported (T := T) Pow2Masked st)
    as (st & -> & HS).
  { destruct Hs0 as [(N & E & HN)|(c & E & Hc)].
    - unfold spsc_ring in E. destruct (inline_storage N) as [st|] eqn:Est; [|done]. injection E as <-.
      exists st. split; [done|]. eapply inline_supported; [by left|done|done].
    - unfold spsc_ring_heap in E. destruct (heap_storage c) as [st|] eqn:Est; [|done]. injection E as <-.
      exists st. split; [done|]. eapply heap_supported; [by left|done|done]. }
  clear Hs0. destruct (supported_ring _ _ HS) as (Hc & Est & HW). set (cap := capacity_of st) in *.
  rewrite Est. destruct (handle_run_accounts Pow2Masked cap Hc ops _ _ (split_ring_inv Pow2Masked cap Hc no_instr) Ho)
    as (s & f & q & E & [_ Hi] & Hq & Hg & Hr).
  exists s, f, q. split; [done|]. split; [done|]. split; [done|].
  destruct (tx_live s || rx_live s); [|by destruct Hi].
  split; [by apply Hr|]. destruct Hi as (e & Ea & He). exists (MkRaw Pow2Masked e). split; [done|].
  by apply (ring_len_fifo _ Hc).
Qed.

(** The witness: a two-slot ring holds one value; a second one is handed back, a
    third dropped; the producer goes first, the consumer reads on and the last
    drop finds the queue empty, or releases what was left in it. *)
Lemma split_handles_conserve_witness :
  let ops := [HTryPush 1; HTryPush 2; HPush 3; HTryPop; HPush 4; HDropTx; HDropRx] in
  exists s0 s : split Z NoInstr, @spsc_ring debug_profile Z 2 = Ret s0 /\
    @handle_run debug_profile true Z NoInstr _ s0 ops
    = Ret (s, Fate [1; 4] [2] [3] [1] [4]) /\
    (ops ≫= given) ≡ₚ [1; 4] ++ [2] ++ [3] /\ [1; 4] = [1] ++ [4] ++ [].
Proof.
  intros ops. eexists _. 
  destruct (@split_handles_conserve debug_profile true Z
    (split_ring (with_strategies (@Pow2Masked debug_profile) (replicate 2 None) no_instr)) ops)
    as (s & f & q & E & Hg & Hq & Hl); [left; by exists 2%nat|done|].
  exists s. split; [done|]. vm_compute in E. injection E as <- <-. split; [done|]. split; [exact Hg|].
  destruct Hl as [-> _]. exact Hq.
Defined.
