(* ===== verification/RingHarness.v ===== *)
(** * The test harnesses of the rings ([crates/verify]: spsc_props.rs, spsc_proofs.rs, spsc_diff.rs)

    The property tests, model-checking proofs and differential tests that the
    repository runs on generated or bounded inputs, translated statement by
    statement: a harness is a function of its input, an assertion that fails is
    [Panic], as are a panicking ring operation, an index out of bounds and an
    overflow.  They are shown to return for every input.  Loops that drain a
    ring get the capacity as fuel; running out of it would be [Panic] too. *)

From stdpp Require Import base decidable numbers option tactics list.
From Stdlib Require Import ZArith Lia.
From S2P Require Import Prelude Platform Ring CopyRing Handles Testing.

#[local] Open Scope Z_scope.

#[global] Instance queue_error_eq_dec : EqDecision QueueError.
Proof. solve_decision. Defined.

Section harnesses.
Context `{BuildProfile} `{TargetArch}.

(** ** Property tests (spsc_props.rs) *)

(** [fifo_ordering]: the locals are the ring, what was pushed, what was popped
    and the next value. *)
Definition fifo_ordering_op (s : RawRing Z NoInstr * list Z * list Z * Z) (is_push : bool)
    : outcome (RawRing Z NoInstr * list Z * list Z * Z) :=
  let '(ring, pushed, popped, push_val) := s in
  if is_push then
    '(ring, res) ← raw_try_push ring push_val;
    if is_ok res then v ← arith U64 (push_val + 1); Ret (ring, pushed ++ [push_val], popped, v)
    else Ret (ring, pushed, popped, push_val)
  else
    '(ring, res) ← raw_try_pop ring;
    Ret (ring, pushed, match res with Ok v => popped ++ [v] | Err _ => popped end, push_val).

(** [while let Ok(val) = ring.try_pop() { popped.push(val) }]. *)
Fixpoint drain (fuel : nat) (ring : RawRing Z NoInstr) (popped : list Z) : outcome (list Z) :=
  match fuel with
  | O => Panic
  | S fuel =>
      '(ring, res) ← raw_try_pop ring;
      match res with Ok v => drain fuel ring (popped ++ [v]) | Err _ => Ret popped end
  end.

Definition fifo_ordering (ops : list bool) : outcome unit :=
  ring ← SpscRing 16;
  '(ring, pushed, popped, _) ← for_each fifo_ordering_op (ring, [], [], 0) ops;
  popped ← drain 16 ring popped;
  expected ← slice pushed 0 (Z.of_nat (length popped));
  assert_ (bool_decide (popped = expected)).

Definition len_invariant_op (s : RawRing Z NoInstr * Z * Z * Z) (is_push : bool) : outcome (RawRing Z NoInstr * Z * Z * Z) :=
  let '(ring, count_pushed, count_popped, push_val) := s in
  s ← (if is_push then
         '(ring, res) ← raw_try_push ring push_val;
         if is_ok res then
           n ← arith USIZE (count_pushed + 1); v ← arith U64 (push_val + 1); Ret (ring, n, count_popped, v)
         else Ret (ring, count_pushed, count_popped, push_val)
       else
         '(ring, res) ← raw_try_pop ring;
         if is_ok res then n ← arith USIZE (count_popped + 1); Ret (ring, count_pushed, n, push_val)
         else Ret (ring, count_pushed, count_popped, push_val));
  let '(ring, count_pushed, count_popped, push_val) := s in
  len ← raw_len ring;
  n ← arith USIZE (count_pushed - count_popped);
  _ ← assert_ (len =? n);
  Ret (ring, count_pushed, count_popped, push_val).

Definition len_invariant (ops : list bool) : outcome unit :=
  ring ← SpscRing 16;
  _ ← for_each len_invariant_op (ring, 0, 0, 0) ops;
  Ret tt.

Definition not_full_op (cap : Z) (s : RawRing Z NoInstr * Z) (is_push : bool) : outcome (RawRing Z NoInstr * Z) :=
  let '(ring, push_val) := s in
  if is_push then
    len ← raw_len ring;
    if len <? cap then
      '(ring, res) ← raw_try_push ring push_val;
      _ ← assert_ (is_ok res);
      v ← arith U64 (push_val + 1);
      Ret (ring, v)
    else Ret (ring, push_val)
  else '(ring, _) ← raw_try_pop ring; Ret (ring, push_val).

Definition not_full_when_under_capacity (ops : list bool) : outcome unit :=
  ring ← SpscRing 8;
  cap ← raw_capacity ring;
  _ ← for_each (not_full_op cap) (ring, 0) ops;
  Ret tt.

Definition not_empty_op (s : RawRing Z NoInstr * Z) (is_push : bool) : outcome (RawRing Z NoInstr * Z) :=
  let '(ring, push_val) := s in
  if is_push then
    '(ring, _) ← raw_try_push ring push_val;
    v ← arith U64 (push_val + 1);
    Ret (ring, v)
  else
    empty ← raw_is_empty ring;
    if negb empty then '(ring, res) ← raw_try_pop ring; _ ← assert_ (is_ok res); Ret (ring, push_val)
    else Ret (ring, push_val).

Definition not_empty_when_has_items (ops : list bool) : outcome unit :=
  ring ← SpscRing 8;
  _ ← for_each not_empty_op (ring, 0) ops;
  Ret tt.

Definition copy_batch_fifo_ordering (data : list Z) : outcome unit :=
  if decide (length data = 0%nat) then Ret tt
  else
    ring ← SpscRingCopy 256;
    '(ring, pushed) ← rawc_push_batch ring data;
    let out := replicate (Z.to_nat pushed) 0 in
    '(ring, (popped, out)) ← rawc_pop_batch ring out;
    _ ← assert_ (pushed =? popped);
    a ← slice data 0 pushed;
    b ← slice out 0 popped;
    assert_ (bool_decide (a = b)).

Definition copy_batch_respects_capacity (data : list Z) : outcome unit :=
  ring ← SpscRingCopy 16;
  '(ring, pushed) ← rawc_push_batch ring data;
  cap ← rawc_capacity ring;
  _ ← assert_ (pushed <=? cap);
  assert_ (pushed <=? Z.of_nat (length data)).

(** ** Model-checking proofs (spsc_proofs.rs): [choices] are the values of
    [kani::any()] *)

Definition fifo_proof_op (s : RawRing Z NoInstr * list Z * list Z * nat * nat * Z) (do_push : bool)
    : outcome (RawRing Z NoInstr * list Z * list Z * nat * nat * Z) :=
  let '(ring, pushed, popped, push_count, pop_count, next_val) := s in
  if do_push then
    '(ring, res) ← raw_try_push ring next_val;
    if is_ok res then
      pushed ← set_index pushed push_count next_val;
      Ret (ring, pushed, popped, S push_count, pop_count, wrap U8 (next_val + 1))
    else Ret (ring, pushed, popped, push_count, pop_count, next_val)
  else
    '(ring, res) ← raw_try_pop ring;
    match res with
    | Ok v => popped ← set_index popped pop_count v; Ret (ring, pushed, popped, push_count, S pop_count, next_val)
    | Err _ => Ret (ring, pushed, popped, push_count, pop_count, next_val)
    end.

Definition fifo_ordering_proof (choices : list bool) : outcome unit :=
  ring ← SpscRing 4;
  '(ring, pushed, popped, _, pop_count, _) ←
    for_each fifo_proof_op (ring, replicate 8 0, replicate 8 0, 0%nat, 0%nat, 0) choices;
  for_each (fun _ i => a ← index popped i; b ← index pushed i; assert_ (a =? b)) tt (seq 0 pop_count).

Definition capacity_op (cap : Z) (s : RawRing Z NoInstr * Z) (do_push : bool) : outcome (RawRing Z NoInstr * Z) :=
  let '(ring, count) := s in
  s ← (if do_push then
         '(ring, res) ← raw_try_push ring 0;
         if is_ok res then n ← arith USIZE (count + 1); Ret (ring, n) else Ret (ring, count)
       else
         '(ring, res) ← raw_try_pop ring;
         if is_ok res then n ← arith USIZE (count - 1); Ret (ring, n) else Ret (ring, count));
  let '(ring, count) := s in
  _ ← assert_ (count <=? cap);
  Ret (ring, count).

Definition capacity_invariant_proof (choices : list bool) : outcome unit :=
  ring ← SpscRing 4;
  cap ← raw_capacity ring;
  _ ← for_each (capacity_op cap) (ring, 0) choices;
  Ret tt.

Definition no_data_loss_proof : outcome unit :=
  ring ← SpscRing 4;
  '(ring, push_count) ← for_each (fun '(ring, n) (_ : unit) =>
     '(ring, res) ← raw_try_push ring 42; Ret (ring, if is_ok res then S n else n)) (ring, 0%nat) (replicate 3 tt);
  popped ← drain 4 ring [];
  assert_ (bool_decide (push_count = length popped)).

Definition index_safety_proof (choices : list bool) : outcome unit :=
  ring ← SpscRing 4;
  _ ← for_each (fun (ring : RawRing Z NoInstr) (do_push : bool) =>
     if do_push then '(ring, _) ← raw_try_push ring 0; Ret ring else '(ring, _) ← raw_try_pop ring; Ret ring) ring choices;
  Ret tt.

(** ** Differential tests (spsc_diff.rs) *)

(** The two rings and the next value. *)
Definition compare_op {I1 I2} `{Instrumentation I1} `{Instrumentation I2} (s : RawRing Z I1 * RawRing Z I2 * Z) (is_push : bool)
    : outcome (RawRing Z I1 * RawRing Z I2 * Z) :=
  let '(ring_a, ring_b, push_val) := s in
  if is_push then
    '(ring_a, res_a) ← raw_try_push ring_a push_val;
    '(ring_b, res_b) ← raw_try_push ring_b push_val;
    _ ← assert_ (Bool.eqb (is_ok res_a) (is_ok res_b));
    if is_ok res_a then v ← arith U64 (push_val + 1); Ret (ring_a, ring_b, v) else Ret (ring_a, ring_b, push_val)
  else
    '(ring_a, res_a) ← raw_try_pop ring_a;
    '(ring_b, res_b) ← raw_try_pop ring_b;
    _ ← assert_ (bool_decide (res_a = res_b));
    Ret (ring_a, ring_b, push_val).

(** The final loop: drain both and compare. *)
Fixpoint drain_both {I1 I2} `{Instrumentation I1} `{Instrumentation I2} (fuel : nat) (ring_a : RawRing Z I1) (ring_b : RawRing Z I2)
    : outcome unit :=
  match fuel with
  | O => Panic
  | S fuel =>
      '(ring_a, a) ← raw_try_pop ring_a;
      '(ring_b, b) ← raw_try_pop ring_b;
      _ ← assert_ (bool_decide (a = b));
      if is_ok a then drain_both fuel ring_a ring_b else Ret tt
  end.

Definition compare_inline_vs_instrumented (ops : list bool) : outcome unit :=
  ring_a ← SpscRing 16;
  ring_b ← SpscRingInstrumented 16;
  '(ring_a, ring_b, _) ← for_each compare_op (ring_a, ring_b, 0) ops;
  drain_both 16 ring_a ring_b.

Definition portable_vs_instrumented_fixed : outcome unit :=
  compare_inline_vs_instrumented (replicate 5 true ++ replicate 3 false ++ replicate 5 true ++ replicate 10 false).

(** [portable_vs_heap], on any operations; the test runs those of [heap_ops]. *)
Definition compare_inline_vs_heap (ops : list bool) : outcome unit :=
  ring_inline ← SpscRing 16;
  ring_heap ← SpscRingHeap 16;
  _ ← for_each compare_op (ring_inline, ring_heap, 0) ops;
  Ret tt.
Definition heap_ops : list bool := (fun i => negb (i mod 3 =? 0)%nat) <$> seq 0 200.
Definition portable_vs_heap : outcome unit := compare_inline_vs_heap heap_ops.

Definition copy_vs_general_op (s : RawRing Z NoInstr * RawRing Z NoInstr * list Z * list Z * Z) (is_push : bool)
    : outcome (RawRing Z NoInstr * RawRing Z NoInstr * list Z * list Z * Z) :=
  let '(general, copy, gen_out, copy_out, val) := s in
  if is_push then
    '(general, res) ← raw_try_push general val;
    '(copy, copy_ok) ← rawc_push copy val;
    _ ← assert_ (Bool.eqb (is_ok res) copy_ok);
    v ← arith U64 (val + 1);
    Ret (general, copy, gen_out, copy_out, v)
  else
    '(general, res) ← raw_try_pop general;
    let gen_out := match res with Ok v => gen_out ++ [v] | Err _ => gen_out end in
    '(copy, (popped, out)) ← rawc_pop copy 0;
    Ret (general, copy, gen_out, if (popped : bool) then copy_out ++ [out] else copy_out, val).

(** [copy_vs_general_fixed], on any operations, and the test's own. *)
Definition compare_copy_vs_general (ops : list bool) : outcome unit :=
  general ← SpscRing 16;
  copy ← SpscRingCopy 16;
  '(_, _, gen_out, copy_out, _) ← for_each copy_vs_general_op (general, copy, [], [], 0) ops;
  assert_ (bool_decide (gen_out = copy_out)).
Definition copy_vs_general_fixed : outcome unit :=
  compare_copy_vs_general [true; true; true; false; false; true; true; true; true; false; false; false; true; false].
End harnesses.

(** * Rings that hold a queue *)

Lemma for_each_inv {S X : Type} (body : S -> X -> outcome S) (P : nat -> S -> Prop) xs : forall n s,
  P n s -> (forall k s x, (n <= k < n + length xs)%nat -> P k s -> exists s', body s x = Ret s' /\ P (Datatypes.S k) s') ->
  exists s', for_each body s xs = Ret s' /\ P (n + length xs)%nat s'.
Proof.
  induction xs as [|x xs IH]; intros n s Hs Hb; cbn [for_each length].
  - exists s. by rewrite Nat.add_0_r.
  - destruct (Hb n s x) as (s1 & E & H1); [cbn; lia|done|]. rewrite E. cbn [mbind outcome_bind].
    destruct (IH (Datatypes.S n) s1 H1) as (s' & E' & H').
    { intros k s2 y Hk. apply Hb. cbn. lia. }
    exists s'. split; [done|]. by rewrite Nat.add_succ_r.
Qed.

Lemma for_each_checks {X : Type} (body : unit -> X -> outcome unit) xs :
  (forall x, x ∈ xs -> body tt x = Ret tt) -> for_each body tt xs = Ret tt.
Proof.
  induction xs as [|x xs IH]; [done|]. intros Hb. cbn [for_each]. rewrite Hb by left. cbn [mbind outcome_bind].
  apply IH. intros y Hy. apply Hb. by right.
Qed.

Section held.
Context `{BuildProfile} `{TargetArch} {T : Type}.

(** The ring has capacity [cap], holds [q] and wraps its indices properly. *)
Definition held {In} (cap : Z) (ring : RawRing T In) (q : list T) : Prop :=
  1 <= cap <= 2 ^ 62 /\ @BatchWrap (raw_strategy ring) cap /\ ring_inv cap (raw_engine ring) q.
Definition held_copy {In} (cap : Z) (ring : RawRing T In) (q : list T) : Prop :=
  1 <= cap <= 2 ^ 62 /\ @BatchWrap (raw_strategy ring) cap /\ copy_inv cap (raw_engine ring) q.

Context {In : Type} `{Instrumentation In}.
Implicit Types (ring : RawRing T In) (q : list T).

Lemma held_length cap ring q : held cap ring q -> Z.of_nat (length q) <= cap - 1.
Proof. intros (Hc & _ & tc & t & hc & h & [Ho _ _ _ _ _] & El & _). lia. Qed.

Lemma held_push cap ring q v :
  held cap ring q ->
  let ok := Z.of_nat (length q) <? cap - 1 in
  exists ring', raw_try_push ring v = Ret (ring', if ok then Ok tt else Err (Full v)) /\
    held cap ring' (if ok then q ++ [v] else q).
Proof.
  intros (Hc & Hw & Hi) ok. destruct (@try_push_fifo _ _ (raw_strategy ring) _ _ _ cap Hc _ _ q v Hi) as (r' & res & E & Hi' & Eo & _).
  unfold raw_try_push, on_engine. rewrite E. cbn [mbind outcome_bind fifo_step] in *. eexists. unfold ok in *.
  destruct (Z.of_nat (length q) <? cap - 1), res as [[]|[w]]; try done; cbn in Eo; simplify_eq; (split; [done|]); done.
Qed.

Lemma pop_error_empty ring ring' e : raw_try_pop ring = Ret (ring', Err e) -> e = QueueEmpty.
Proof.
  unfold raw_try_pop, on_engine, try_pop. cbv zeta.
  repeat (case_match; cbn [mbind outcome_bind]; try (by intros [= _ <-])).
  all: destruct (read_slot _ _) as [[? ?]|]; cbn [mbind outcome_bind]; [|done];
    destruct (arith _ _); cbn [mbind outcome_bind]; [|done]; destruct (wrap_index _ _); cbn [mbind outcome_bind]; done.
Qed.

Lemma held_pop cap ring q :
  held cap ring q ->
  exists ring', raw_try_pop ring = Ret (ring', match q with [] => Err QueueEmpty | v :: _ => Ok v end) /\
    held cap ring' (drop 1 q).
Proof.
  intros (Hc & Hw & Hi). destruct (@try_pop_fifo _ _ (raw_strategy ring) _ _ _ cap Hc _ _ q Hi) as (r' & res & E & Hi' & Eo & _).
  assert (Ep : raw_try_pop ring = Ret (MkRaw (raw_strategy ring) r', res)) by (unfold raw_try_pop, on_engine; by rewrite E).
  exists (MkRaw (raw_strategy ring) r'). rewrite Ep. destruct q as [|v q], res as [w|e]; cbn in Eo, Hi'; try done.
  - apply pop_error_empty in Ep as ->. done.
  - injection Eo as ->. done.
Qed.

Lemma held_len cap ring q : held cap ring q -> raw_len ring = Ret (Z.of_nat (length q)).
Proof. intros (Hc & _ & Hi). by apply (ring_len_fifo cap). Qed.

Lemma held_capacity cap ring q : held cap ring q -> raw_capacity ring = Ret (cap - 1).
Proof.
  intros (Hc & _ & tc & t & hc & h & _ & _ & [Ec _]). unfold raw_capacity, ring_capacity. rewrite Ec. by rewrite arith_ok by mlia.
Qed.
End held.

Section start.
Context `{BuildProfile} `{TargetArch} {T In : Type} `{Instrumentation In}.

(** A new ring of [2^k] slots holds nothing. *)
Lemma held_new k (N : nat) (i : In) : N = Z.to_nat (2 ^ k) -> 0 <= k <= 62 ->
  let ring := with_strategies (T := T) Pow2Masked (replicate N None) i in
  held (2 ^ k) ring [] /\ held_copy (2 ^ k) ring [].
Proof.
  intros -> Hk ring. assert (1 <= 2 ^ k <= 2 ^ 62) by (split; [apply (Z.pow_le_mono_r 2 0)|apply Z.pow_le_mono_r]; lia).
  pose proof (pow2_masked_wraps k Hk). split; (split; [done|]); (split; [done|]).
  - by apply ring_new_inv.
  - exists 0, 0, 0, 0. split; [apply ring_new_indices; lia|]. split; [done|]. split; [|done].
    cbn. unfold capacity_of. rewrite length_replicate. lia.
Qed.

Lemma held_copy_push cap (ring : RawRing T In) q v :
  held_copy cap ring q ->
  let ok := Z.of_nat (length q) <? cap - 1 in
  exists ring', rawc_push ring v = Ret (ring', ok) /\ held_copy cap ring' (if ok then q ++ [v] else q).
Proof.
  intros (Hc & Hw & Hi) ok. destruct (@copy_push_fifo _ _ (raw_strategy ring) _ _ _ cap Hc Hw _ q v Hi) as (r' & E & Hi' & _).
  unfold rawc_push, on_engine. cbn [copy_step copy_fifo_step] in E, Hi'. unfold ok.
  destruct (Z.of_nat (length q) <? cap - 1), (copy_push _ _) as [[e b]|]; try done;
    cbn [mbind outcome_bind fst snd] in *; simplify_eq; eexists; (split; [done|]); done.
Qed.

Lemma held_copy_pop cap (ring : RawRing T In) q out :
  held_copy cap ring q ->
  exists ring', rawc_pop ring out = Ret (ring', match q with [] => (false, out) | v :: _ => (true, v) end) /\
    held_copy cap ring' (drop 1 q).
Proof.
  intros (Hc & Hw & Hi). destruct (@copy_pop_fifo _ _ (raw_strategy ring) _ _ _ cap Hc Hw _ q out Hi) as (r' & E & Hi' & _).
  unfold rawc_pop, on_engine. cbn [copy_step copy_fifo_step] in E, Hi'.
  destruct q, (copy_pop _ _) as [[[e b] o]|]; try done;
    cbn [mbind outcome_bind fst snd] in *; simplify_eq; eexists; (split; [done|]); done.
Qed.

Lemma held_copy_push_batch cap (ring : RawRing T In) q src :
  held_copy cap ring q ->
  let n := Z.min (Z.of_nat (length src)) (cap - 1 - Z.of_nat (length q)) in
  exists ring', rawc_push_batch ring src = Ret (ring', n) /\ held_copy cap ring' (q ++ take (Z.to_nat n) src).
Proof.
  intros (Hc & Hw & Hi) n. destruct (@push_batch_fifo _ _ (raw_strategy ring) _ _ _ cap Hc Hw _ q src Hi) as (r' & E & Hi' & _).
  unfold rawc_push_batch, on_engine. cbn [copy_step copy_fifo_step fst snd] in E, Hi'.
  destruct (push_batch _ _) as [[e b]|]; [|done]. cbn [mbind outcome_bind] in *. injection E as -> ->. by eexists.
Qed.

Lemma held_copy_pop_batch cap (ring : RawRing T In) q dst :
  held_copy cap ring q ->
  let n := (length dst `min` length q)%nat in
  exists ring', rawc_pop_batch ring dst = Ret (ring', (Z.of_nat n, take n q ++ drop n dst)) /\ held_copy cap ring' (drop n q).
Proof.
  intros (Hc & Hw & Hi) n. destruct (@pop_batch_fifo _ _ (raw_strategy ring) _ _ _ cap Hc Hw _ q dst Hi) as (r' & E & Hi' & _).
  unfold rawc_pop_batch, on_engine. cbn [copy_step copy_fifo_step fst snd] in E, Hi'.
  destruct (pop_batch _ _) as [[[e b] o]|]; [|done]. cbn [mbind outcome_bind] in *. injection E as -> -> ->. by eexists.
Qed.
End start.

(** * Every harness returns *)

(** What the loops do in their proofs: a ring operation by what it holds, a
    counter by its bound. *)
Create HintDb rings.
#[export] Hint Resolve held_length : rings.

Ltac ring_step :=
  match goal with
  | Hh : held _ ?r ?q |- context [raw_try_push ?r ?v] =>
      let r' := fresh "ring" in let H' := fresh "Hheld" in let E := fresh "E" in
      destruct (held_push _ r q v Hh) as (r' & E & H'); rewrite E; clear E; cbn [mbind outcome_bind]
  | Hh : held _ ?r ?q |- context [raw_try_pop ?r] =>
      let r' := fresh "ring" in let H' := fresh "Hheld" in let E := fresh "E" in
      destruct (held_pop _ r q Hh) as (r' & E & H'); rewrite E; clear E; cbn [mbind outcome_bind]
  | Hh : held _ ?r ?q |- context [raw_len ?r] => rewrite (held_len _ r q Hh); cbn [mbind outcome_bind]
  | |- context [if Z.of_nat (length ?q) <? ?n then _ else _] => destruct (Z.ltb_spec (Z.of_nat (length q)) n)
  | |- context [match ?q with [] => Err QueueEmpty | _ => _ end] => is_var q; destruct q
  | |- context [arith ?t ?z] => rewrite (arith_ok t z) by (cbn [tmin tmax length] in *; mlia); cbn [mbind outcome_bind]
  end; cbn [is_ok drop mbind outcome_bind] in *; try match goal with Hh : held _ _ (drop 0 _) |- _ => rewrite drop_0 in Hh end.

Section passing.
Context `{BuildProfile} `{TargetArch}.

Lemma inline_pow2 (T : Type) k N : N = Z.to_nat (2 ^ k) -> 0 <= k -> inline_storage (T := T) N = Ret (replicate N None).
Proof.
  intros -> Hk. pose proof (Z.pow_pos_nonneg 2 k ltac:(lia) Hk). unfold inline_storage. rewrite Z2Nat.id by lia.
  by rewrite (proj2 (is_power_of_two_spec (2 ^ k) ltac:(lia))) by (by rewrite Z.log2_pow2).
Qed.

Lemma SpscRing_held k N : N = Z.to_nat (2 ^ k) -> 0 <= k <= 62 ->
  exists ring, SpscRing (T := Z) N = Ret ring /\ SpscRingCopy (T := Z) N = Ret ring /\
    held (2 ^ k) ring [] /\ held_copy (2 ^ k) ring [].
Proof.
  intros EN Hk. exists (with_strategies Pow2Masked (replicate N None) no_instr). unfold SpscRing, SpscRingCopy.
  rewrite (inline_pow2 _ k) by (done || lia). split; [done|]. split; [done|]. by apply held_new.
Qed.

(** ** Property tests *)

Lemma drain_held cap q : forall fuel (ring : RawRing Z NoInstr) popped,
  held cap ring q -> (length q < fuel)%nat -> drain fuel ring popped = Ret (popped ++ q).
Proof.
  induction q as [|v q IH]; intros [|fuel] ring popped Hh Hf; cbn [length] in Hf; try lia; cbn [drain]; ring_step.
  - by rewrite app_nil_r.
  - rewrite IH by (done || lia). by rewrite <- app_assoc.
Qed.

Lemma fifo_ordering_passes ops : Z.of_nat (length ops) <= tmax I64 -> fifo_ordering ops = Ret tt.
Proof.
  intros Hl. unfold fifo_ordering. destruct (SpscRing_held 4 16) as (ring & -> & _ & Hh & _); [done|lia|]. cbn [mbind outcome_bind].
  pose (P n (s : RawRing Z NoInstr * list Z * list Z * Z) := let '(ring, pushed, popped, v) := s in
    exists q, held (2 ^ 4) ring q /\ pushed = popped ++ q /\ 0 <= v <= Z.of_nat n).
  destruct (for_each_inv fifo_ordering_op P ops 0%nat (ring, [], [], 0)) as ([[[r1 pu] po] v] & -> & q & Hq & -> & _).
  - by exists [].
  - intros k [[[r pu] po] v] [] Hk (q & Hq & -> & Hv); unfold fifo_ordering_op; repeat ring_step;
      (eexists; split; [done|]); eexists; (split; [done|]);
      rewrite ?app_assoc, <- ?app_assoc; (split; [done|lia]).
  - cbn [mbind outcome_bind]. rewrite (drain_held (2 ^ 4) q) by (done || (pose proof (held_length _ _ _ Hq); lia)).
    cbn [mbind outcome_bind]. unfold slice. rewrite decide_True by lia. cbn [mbind outcome_bind].
    rewrite take_ge by (rewrite length_drop; lia). unfold assert_. by rewrite bool_decide_true by done.
Qed.

Lemma len_invariant_passes ops : Z.of_nat (length ops) <= tmax I64 -> len_invariant ops = Ret tt.
Proof.
  intros Hl. unfold len_invariant. destruct (SpscRing_held 4 16) as (ring & -> & _ & Hh & _); [done|lia|]. cbn [mbind outcome_bind].
  pose (P n (s : RawRing Z NoInstr * Z * Z * Z) := let '(ring, pu, po, v) := s in
    exists q, held (2 ^ 4) ring q /\ pu - po = Z.of_nat (length q) /\ 0 <= po /\ 0 <= pu <= Z.of_nat n /\ 0 <= v <= Z.of_nat n).
  destruct (for_each_inv len_invariant_op P ops 0%nat (ring, 0, 0, 0)) as (s & -> & _); [by exists []| |done].
  intros k [[[r pu] po] v] [] Hk (q & Hq & El & ? & ? & Hv); unfold len_invariant_op; repeat ring_step;
    unfold assert_; rewrite (proj2 (Z.eqb_eq _ _)) by (rewrite ?length_app; cbn [length] in *; lia);
    cbn [mbind outcome_bind]; (eexists; split; [done|]); eexists; (split; [done|]);
    rewrite ?length_app; cbn [length] in *; lia.
Qed.

Lemma not_full_passes ops : Z.of_nat (length ops) <= tmax I64 -> not_full_when_under_capacity ops = Ret tt.
Proof.
  intros Hl. unfold not_full_when_under_capacity.
  destruct (SpscRing_held 3 8) as (ring & -> & _ & Hh & _); [done|lia|]. cbn [mbind outcome_bind].
  rewrite (held_capacity _ _ _ Hh). cbn [mbind outcome_bind].
  pose (P n (s : RawRing Z NoInstr * Z) := (exists q, held (2 ^ 3) s.1 q) /\ 0 <= s.2 <= Z.of_nat n).
  destruct (for_each_inv (not_full_op (2 ^ 3 - 1)) P ops 0%nat (ring, 0)) as (s & -> & _); [by split; [exists []|]| |done].
  intros k [r v] [] Hk [[q Hq] Hv]; cbn [fst snd] in *; unfold not_full_op; repeat ring_step; try lia;
    cbn [assert_ mbind outcome_bind]; repeat ring_step; (eexists; split; [done|]); (split; [by eexists|cbn; lia]).
Qed.

Lemma not_empty_passes ops : Z.of_nat (length ops) <= tmax I64 -> not_empty_when_has_items ops = Ret tt.
Proof.
  intros Hl. unfold not_empty_when_has_items.
  destruct (SpscRing_held 3 8) as (ring & -> & _ & Hh & _); [done|lia|]. cbn [mbind outcome_bind].
  pose (P n (s : RawRing Z NoInstr * Z) := (exists q, held (2 ^ 3) s.1 q) /\ 0 <= s.2 <= Z.of_nat n).
  destruct (for_each_inv not_empty_op P ops 0%nat (ring, 0)) as (s & -> & _); [by split; [exists []|]| |done].
  intros k [r v] [] Hk [[q Hq] Hv]; cbn [fst snd] in *; unfold not_empty_op, raw_is_empty, ring_is_empty.
  - repeat ring_step; (eexists; split; [done|]); (split; [by eexists|cbn; lia]).
  - change (ring_len (raw_engine r)) with (raw_len r). rewrite (held_len _ r q Hq).
    cbn [fmap outcome_fmap mbind outcome_bind].
    destruct (Z.eqb_spec (Z.of_nat (length q)) 0); cbn [negb].
    + eexists. split; [done|]. split; [by eexists|cbn; lia].
    + repeat ring_step; cbn [assert_ mbind outcome_bind length] in *; try lia.
      eexists. split; [done|]. split; [by eexists|cbn; lia].
Qed.

Lemma copy_batch_fifo_passes data : copy_batch_fifo_ordering data = Ret tt.
Proof.
  unfold copy_batch_fifo_ordering. case_decide; [done|].
  destruct (SpscRing_held 8 256) as (ring & _ & -> & _ & Hh); [done|lia|]. cbn [mbind outcome_bind].
  destruct (held_copy_push_batch _ _ _ data Hh) as (r1 & -> & Hc1). cbn [mbind outcome_bind length].
  set (n := Z.min _ _) in *. rewrite app_nil_l in Hc1. assert (0 <= n <= Z.of_nat (length data)) by (cbn in n; lia).
  destruct (held_copy_pop_batch _ _ _ (replicate (Z.to_nat n) 0) Hc1) as (r2 & -> & _). cbn [mbind outcome_bind].
  rewrite length_replicate, length_take, (Nat.min_l (Z.to_nat n)) by lia. rewrite Z2Nat.id, Z.eqb_refl by lia.
  cbn [assert_ mbind outcome_bind]. rewrite drop_replicate, Nat.sub_diag, app_nil_r, take_idemp.
  unfold slice. rewrite !decide_True by (rewrite ?length_take; lia). cbn [mbind outcome_bind].
  rewrite !drop_0, Z.sub_0_r, take_idemp. unfold assert_. by rewrite bool_decide_true.
Qed.

Lemma copy_batch_capacity_passes data : copy_batch_respects_capacity data = Ret tt.
Proof.
  unfold copy_batch_respects_capacity. destruct (SpscRing_held 4 16) as (ring & _ & -> & _ & Hh); [done|lia|]. cbn [mbind outcome_bind].
  destruct (held_copy_push_batch _ _ _ data Hh) as (r1 & -> & Hc & _ & tc & t & hc & h & _ & _ & [Ec _]). cbn [mbind outcome_bind length].
  unfold rawc_capacity, copy_capacity. rewrite Ec, arith_ok by mlia. cbn [mbind outcome_bind].
  rewrite !(proj2 (Z.leb_le _ _)) by lia. done.
Qed.

(** ** Model-checking proofs *)

Lemma take_set {A} (l : list A) i v : (i < length l)%nat -> take (S i) (<[i:=v]> l) = take i l ++ [v].
Proof.
  intros Hi. rewrite (take_S_r _ i v) by (by apply list_lookup_insert_eq). by rewrite take_insert_ge.
Qed.

Lemma fifo_proof_passes choices : (length choices <= 8)%nat -> fifo_ordering_proof choices = Ret tt.
Proof.
  intros Hl. unfold fifo_ordering_proof. destruct (SpscRing_held 2 4) as (ring & -> & _ & Hh & _); [done|lia|]. cbn [mbind outcome_bind].
  pose (P n (s : RawRing Z NoInstr * list Z * list Z * nat * nat * Z) := let '(ring, pu, po, npu, npo, v) := s in
    exists q, held (2 ^ 2) ring q /\ length pu = 8%nat /\ length po = 8%nat /\ (npu <= n)%nat /\
      take npu pu = take npo po ++ q /\ (npo + length q = npu)%nat).
  destruct (for_each_inv fifo_proof_op P choices 0%nat (ring, replicate 8 0, replicate 8 0, 0%nat, 0%nat, 0))
    as ([[[[[r1 pu] po] npu] npo] v] & -> & q & Hq & Lu & Lo & Hn & Et & El).
  - by exists [].
  - intros k [[[[[r pu] po] npu] npo] v] [] Hk (q & Hq & Lu & Lo & Hn & Et & El); unfold fifo_proof_op; repeat ring_step;
      cbn [length] in *; unfold set_index; rewrite ?decide_True by lia; cbn [mbind outcome_bind];
      (eexists; split; [done|]); eexists; (split; [done|]); rewrite ?length_insert, ?take_set, ?Et, ?length_app, <- ?app_assoc by lia;
      cbn [length]; split_and!; (done || lia).
  - cbn [mbind outcome_bind].
    apply for_each_checks. intros i Hi%elem_of_seq. unfold index.
    assert (Ei : pu !! i = po !! i).
    { rewrite <- (lookup_take_lt pu npu), <- (lookup_take_lt po npo), Et by lia. apply lookup_app_l.
      rewrite length_take. lia. }
    destruct (lookup_lt_is_Some_2 po i ltac:(lia)) as [v' Ev]. rewrite Ei, Ev. cbn [mbind outcome_bind assert_].
    by rewrite Z.eqb_refl.
Qed.

Lemma capacity_proof_passes choices : Z.of_nat (length choices) <= tmax I64 -> capacity_invariant_proof choices = Ret tt.
Proof.
  intros Hl. unfold capacity_invariant_proof. destruct (SpscRing_held 2 4) as (ring & -> & _ & Hh & _); [done|lia|].
  cbn [mbind outcome_bind]. rewrite (held_capacity _ _ _ Hh). cbn [mbind outcome_bind].
  pose (P (n : nat) (s : RawRing Z NoInstr * Z) := exists q, held (2 ^ 2) s.1 q /\ s.2 = Z.of_nat (length q)).
  destruct (for_each_inv (capacity_op (2 ^ 2 - 1)) P choices 0%nat (ring, 0)) as (s & -> & _); [by exists []| |done].
  intros k [r n] [] Hk (q & Hq & En); cbn [fst snd] in *; pose proof (held_length _ _ _ Hq); unfold capacity_op; repeat ring_step;
    cbn [length] in *; unfold assert_; rewrite (proj2 (Z.leb_le _ _)) by lia; cbn [mbind outcome_bind];
    (eexists; split; [done|]); eexists; (split; [done|]); rewrite ?length_app; cbn [length snd]; lia.
Qed.

Lemma no_data_loss_passes : no_data_loss_proof = Ret tt.
Proof.
  unfold no_data_loss_proof. destruct (SpscRing_held 2 4) as (ring & -> & _ & Hh & _); [done|lia|].
  cbn [mbind outcome_bind for_each replicate]. do 3 (ring_step; cbn [mbind outcome_bind]). cbn [mbind outcome_bind].
  match goal with Hh : held _ ?r ?q |- context [drain 4 ?r []] => rewrite (drain_held _ q 4%nat r [] Hh) by (by apply Nat.ltb_lt) end. done.
Qed.

Lemma index_safety_passes choices : index_safety_proof choices = Ret tt.
Proof.
  unfold index_safety_proof. destruct (SpscRing_held 2 4) as (ring & -> & _ & Hh & _); [done|lia|]. cbn [mbind outcome_bind].
  match goal with |- context [for_each ?b _ _] =>
    destruct (for_each_inv b (fun _ r => exists q, held (2 ^ 2) r q) choices 0%nat ring) as (s & -> & _); [by exists []| |done] end.
  intros k r [] Hk [q Hq]; ring_step; eexists; (split; [done|]); by eexists.
Qed.

(** ** Differential tests *)

Section compared.
Context {I1 I2 : Type} `{Instrumentation I1} `{Instrumentation I2}.

(** Both rings hold the same. *)
Definition both_hold (n : nat) (s : RawRing Z I1 * RawRing Z I2 * Z) : Prop :=
  exists q, held (2 ^ 4) s.1.1 q /\ held (2 ^ 4) s.1.2 q /\ 0 <= s.2 <= Z.of_nat n.

Lemma compare_op_ok k s b : Z.of_nat k < tmax I64 -> both_hold k s ->
  exists s', compare_op s b = Ret s' /\ both_hold (S k) s'.
Proof.
  destruct s as [[ra rb] v], b; intros Hk (q & Ha & Hb & Hv); cbn [fst snd] in *; unfold compare_op; repeat ring_step;
    unfold assert_; rewrite ?bool_decide_true by done; cbn [Bool.eqb mbind outcome_bind]; repeat ring_step;
    (eexists; split; [done|]); eexists; cbn [fst snd]; (split; [done|split; [done|lia]]).
Qed.

Lemma drain_both_held q : forall fuel (ra : RawRing Z I1) (rb : RawRing Z I2),
  held (2 ^ 4) ra q -> held (2 ^ 4) rb q -> (length q < fuel)%nat -> drain_both fuel ra rb = Ret tt.
Proof.
  induction q as [|v q IH]; intros [|fuel] ra rb Ha Hb Hf; cbn [length] in Hf; try lia; cbn [drain_both]; repeat ring_step;
    unfold assert_; rewrite bool_decide_true by done; cbn [mbind outcome_bind]; [done|].
  apply IH; (done || lia).
Qed.
End compared.

Lemma inline_vs_instrumented_passes ops : Z.of_nat (length ops) <= tmax I64 -> compare_inline_vs_instrumented ops = Ret tt.
Proof.
  intros Hl. unfold compare_inline_vs_instrumented, SpscRing, SpscRingInstrumented.
  rewrite !(inline_pow2 _ 4) by (done || lia). cbn [mbind outcome_bind].
  match goal with |- context [for_each compare_op ?s] => destruct (for_each_inv compare_op both_hold ops 0%nat s)
    as ([[ra rb] v] & -> & q & Ha & Hb & _) end.
  - exists []. cbn [fst snd]. split; [by apply (held_new 4)|]. split; [by apply (held_new 4)|lia].
  - intros k s b Hk. apply compare_op_ok. lia.
  - cbn [mbind outcome_bind]. apply (drain_both_held q); try done. pose proof (held_length _ _ _ Ha). cbn [fst] in *. lia.
Qed.

Lemma inline_vs_heap_passes ops : Z.of_nat (length ops) <= tmax I64 -> compare_inline_vs_heap ops = Ret tt.
Proof.
  intros Hl. unfold compare_inline_vs_heap, SpscRing, SpscRingHeap.
  rewrite !(inline_pow2 _ 4) by (done || lia). cbn [mbind outcome_bind].
  change (heap_storage 16) with (Ret (replicate (Z.to_nat 16) (@None Z))). cbn [mbind outcome_bind].
  match goal with |- context [for_each compare_op ?s] => destruct (for_each_inv compare_op both_hold ops 0%nat s)
    as (s' & -> & _) end; [| |done].
  - exists []. cbn [fst snd]. split; [by apply (held_new 4)|]. split; [by apply (held_new 4)|lia].
  - intros k s b Hk. apply compare_op_ok. lia.
Qed.

Lemma copy_vs_general_passes ops : Z.of_nat (length ops) <= tmax I64 -> compare_copy_vs_general ops = Ret tt.
Proof.
  intros Hl. unfold compare_copy_vs_general. destruct (SpscRing_held 4 16) as (rg & -> & -> & Hg & Hc); [done|lia|].
  cbn [mbind outcome_bind].
  pose (P n (s : RawRing Z NoInstr * RawRing Z NoInstr * list Z * list Z * Z) := let '(rg, rc, go, co, v) := s in
    exists q, held (2 ^ 4) rg q /\ held_copy (2 ^ 4) rc q /\ go = co /\ 0 <= v <= Z.of_nat n).
  destruct (for_each_inv copy_vs_general_op P ops 0%nat (rg, rg, [], [], 0)) as ([[[[r1 r2] go] co] v] & -> & q & _ & _ & -> & _).
  - by exists [].
  - intros k [[[[r1 r2] go] co] v] [] Hk (q & H1 & H2 & -> & Hv); unfold copy_vs_general_op.
    + destruct (held_copy_push _ r2 q v H2) as (r2' & E & H2'). repeat ring_step; rewrite E; cbn [mbind outcome_bind];
        rewrite ?(proj2 (Z.ltb_lt _ _)), ?(proj2 (Z.ltb_ge _ _)) in * by lia; cbn [Bool.eqb assert_ mbind outcome_bind]; repeat ring_step;
        (eexists; split; [done|]); eexists; split_and!; (done || lia).
    + destruct (held_copy_pop _ r2 q 0 H2) as (r2' & E & H2'). repeat ring_step; rewrite E; cbn [mbind outcome_bind];
        (eexists; split; [done|]); eexists; split_and!; (done || lia).
  - cbn [mbind outcome_bind assert_]. by rewrite bool_decide_true.
Qed.
End passing.
