(* ===== verification/SuiteMarket.v ===== *)
(** * The unit tests of the market state ([crates/market-state]: book/array_book.rs, engine.rs)

    The tests beside the code, run on the definitions of [Book] and
    [MarketEngine].  A test is a list of steps on the object under test, in the
    order of its statements; a failed assertion is [Panic].  That they all pass
    is evidence that the definitions are those of the code. *)

From Stdlib Require Import ZArith Lia.
From stdpp Require Import base decidable numbers option tactics list.
From S2P Require Import Prelude Float64 Types Events Book MarketEngine Testing.

#[local] Open Scope Z_scope.

Section book_steps.
Context `{BuildProfile} {N : nat}.
Implicit Types b : ArrayBook N.

Definition level (l : Z * Z) : Ticks * Lots := (ticks_from_raw l.1, lots_from_raw l.2).
Definition delta (a : UpdateAction) (p q : Z) (s : Side) b : outcome (ArrayBook N) :=
  apply_delta b (ticks_from_raw p) (lots_from_raw q) s a.
Definition clear_ b : outcome (ArrayBook N) := Ret (ob_clear b).
Definition clear_side_ (s : Side) b : outcome (ArrayBook N) := Ret (clear_side b s).
Definition bid_is (r : option (Z * Z)) b : outcome (ArrayBook N) :=
  '(b, r') ← best_bid b; _ ← assert_eq r' (level <$> r); Ret b.
Definition ask_is (r : option (Z * Z)) b : outcome (ArrayBook N) :=
  '(b, r') ← best_ask b; _ ← assert_eq r' (level <$> r); Ret b.
Definition count_is (s : Side) (n : nat) b : outcome (ArrayBook N) := _ ← assert_eq (level_count b s) n; Ret b.
Definition total_is (s : Side) (n : nat) (v : Z) b : outcome (ArrayBook N) :=
  t ← total_depth b s n; _ ← assert_eq t (lots_from_raw v); Ret b.
(** [depth] into a buffer of [size] zeros; the count, and the first levels. *)
Definition depth_is (s : Side) (size : nat) (ls : list (Z * Z)) b : outcome (ArrayBook N) :=
  '(n, buf) ← ob_depth b s (replicate size (level (0, 0)));
  _ ← assert_eq n (length ls); _ ← assert_eq (take (length ls) buf) (level <$> ls); Ret b.
Definition bid_dirty_is (d : bool) b : outcome (ArrayBook N) := _ ← assert_eq (bid_dirty b) d; Ret b.
Definition ask_dirty_is (d : bool) b : outcome (ArrayBook N) := _ ← assert_eq (ask_dirty b) d; Ret b.
End book_steps.

Section book_tests.
Context `{BuildProfile}.
#[local] Abbreviation book_test N := (run_test (Ret (ob_default : ArrayBook N))).

Definition default_book_is_empty := book_test 100 [bid_is None; ask_is None; count_is Bid 0; count_is Ask 0].
Definition apply_delta_new_level := book_test 100 [delta ActNew 45 100 Bid; bid_is (Some (45, 100))].
Definition apply_delta_delete_level := book_test 100 [delta ActNew 45 100 Bid; delta ActDelete 45 0 Bid; bid_is None].
Definition best_bid_is_highest_price := book_test 100
  [delta ActNew 40 100 Bid; delta ActNew 45 200 Bid; delta ActNew 42 50 Bid; bid_is (Some (45, 200))].
Definition best_ask_is_lowest_price := book_test 100
  [delta ActNew 50 100 Ask; delta ActNew 47 200 Ask; delta ActNew 55 50 Ask; ask_is (Some (47, 200))].
Definition clear_resets_all := book_test 100 [delta ActNew 45 100 Bid; delta ActNew 55 100 Ask; clear_; bid_is None; ask_is None].
Definition level_count_correct := book_test 100 [delta ActNew 40 100 Bid; delta ActNew 45 200 Bid; count_is Bid 2; count_is Ask 0].
Definition total_depth_sums_top_n := book_test 100
  [delta ActNew 45 100 Bid; delta ActNew 44 200 Bid; delta ActNew 43 300 Bid; total_is Bid 2 300; total_is Bid 5 600].
Definition depth_fills_buffer := book_test 100
  [delta ActNew 45 100 Bid; delta ActNew 44 200 Bid; depth_is Bid 5 [(45, 100); (44, 200)]].
Definition bbo_cache_returns_cached_on_second_call := book_test 100
  [delta ActNew 45 100 Bid; delta ActNew 55 200 Ask; bid_is (Some (45, 100)); ask_is (Some (55, 200));
   bid_dirty_is false; ask_dirty_is false; bid_is (Some (45, 100)); ask_is (Some (55, 200))].
Definition bbo_cache_invalidated_on_delta := book_test 100
  [delta ActNew 45 100 Bid; delta ActNew 55 200 Ask; bid_is (Some (45, 100)); ask_is (Some (55, 200));
   bid_dirty_is false; ask_dirty_is false; delta ActNew 46 300 Bid; bid_dirty_is true; ask_dirty_is false;
   bid_is (Some (46, 300)); bid_dirty_is false].
Definition bbo_cache_invalidated_on_clear := book_test 100
  [delta ActNew 45 100 Bid; delta ActNew 55 200 Ask; bid_is (Some (45, 100)); bid_dirty_is false; clear_;
   bid_dirty_is true; ask_dirty_is true; bid_is None; ask_is None].
Definition bbo_cache_tracks_best_after_deletion := book_test 100
  [delta ActNew 45 100 Bid; delta ActNew 40 200 Bid; bid_is (Some (45, 100)); delta ActDelete 45 0 Bid;
   bid_dirty_is true; bid_is (Some (40, 200))].
Definition apply_delta_zero_qty_removes_level := book_test 100
  [delta ActNew 50 500 Ask; count_is Ask 1; delta ActDelete 50 0 Ask; count_is Ask 0; ask_is None].
Definition apply_delta_out_of_bounds_price_ignored := book_test 10
  [delta ActNew 10 999 Bid; count_is Bid 0; delta ActNew 100 999 Ask; count_is Ask 0].
Definition apply_delta_change_action_updates_qty := book_test 100
  [delta ActNew 30 100 Bid; delta ActChange 30 250 Bid; bid_is (Some (30, 250))].
Definition clear_side_bid_only := book_test 100
  [delta ActNew 45 100 Bid; delta ActNew 55 200 Ask; clear_side_ Bid; bid_is None; count_is Bid 0;
   ask_is (Some (55, 200)); count_is Ask 1].
Definition clear_side_ask_only := book_test 100
  [delta ActNew 45 100 Bid; delta ActNew 55 200 Ask; clear_side_ Ask; ask_is None; count_is Ask 0;
   bid_is (Some (45, 100)); count_is Bid 1].
Definition best_bid_none_on_empty_book := book_test 5 [bid_is None; bid_is None].
Definition best_ask_none_on_empty_book := book_test 5 [ask_is None; ask_is None].
Definition depth_buffer_smaller_than_levels := book_test 100
  (((fun tick => delta ActNew tick tick Bid) <$> [40; 41; 42; 43; 44]) ++ [depth_is Bid 3 [(44, 44); (43, 43); (42, 42)]]).
Definition depth_ask_order_ascending := book_test 100
  (((fun tick => delta ActNew tick (tick * 10) Ask) <$> [53; 51; 55]) ++ [depth_is Ask 5 [(51, 510); (53, 530); (55, 550)]]).
Definition level_count_decrements_on_removal := book_test 100
  [delta ActNew 10 100 Ask; delta ActNew 20 200 Ask; count_is Ask 2; delta ActDelete 10 0 Ask; count_is Ask 1; count_is Bid 0].
Definition total_depth_ask_sums_top_n_ascending := book_test 100
  [delta ActNew 10 100 Ask; delta ActNew 11 200 Ask; delta ActNew 12 300 Ask; total_is Ask 1 100; total_is Ask 2 300; total_is Ask 5 600].
Definition total_depth_zero_levels_returns_zero := book_test 100 [delta ActNew 45 500 Bid; total_is Bid 0 0; total_is Ask 0 0].
Definition clear_resets_level_counts := book_test 100
  [delta ActNew 45 100 Bid; delta ActNew 55 100 Ask; clear_; count_is Bid 0; count_is Ask 0].
Definition depth_empty_buffer_returns_zero := book_test 100 [delta ActNew 45 100 Bid; depth_is Bid 0 []].
End book_tests.

(** ** engine.rs *)

Definition t_delta_ts (inst : Z) (price qty : Z) (side : Side) (flags : EventFlags) (ts_ns : Z) : HotEvent :=
  ev_book_delta (from_nanos ts_ns) (seqnum_from_raw 1) (inst_from_raw inst) (source_from_raw 1) flags
    {| bd_price := ticks_from_raw price; bd_qty := lots_from_raw qty; bd_side := side; bd_action := ActNew; bd_depth := 0 |}.
Definition t_delta (inst : Z) (price qty : Z) (side : Side) (flags : EventFlags) : HotEvent :=
  t_delta_ts inst price qty side flags 1000.
Definition make_trade (inst price qty : Z) (aggressor : Side) (ts_ns : Z) : HotEvent :=
  ev_trade (from_nanos ts_ns) (seqnum_from_raw 1) (inst_from_raw inst) (source_from_raw 1) flags_EMPTY
    {| tr_price := ticks_from_raw price; tr_qty := lots_from_raw qty; tr_aggressor := aggressor |}.
Definition make_top_of_book (inst bid_price bid_qty ask_price ask_qty ts_ns : Z) : HotEvent :=
  ev_top_of_book (from_nanos ts_ns) (seqnum_from_raw 1) (inst_from_raw inst) (source_from_raw 1) flags_EMPTY
    {| tp_bid_price := ticks_from_raw bid_price; tp_bid_qty := lots_from_raw bid_qty;
       tp_ask_price := ticks_from_raw ask_price; tp_ask_qty := lots_from_raw ask_qty |}.

Section engine_tests.
Context `{BuildProfile}.
#[local] Abbreviation engine := (MarketStateEngine (ArrayBook 100)).
#[local] Abbreviation engine_test n stale := (run_test (engine_new n n stale : outcome engine)).

Definition feed_ev (e : HotEvent) (eng : engine) : outcome engine := process eng e.
Definition setup_book (bid bid_qty ask ask_qty : Z) (eng : engine) : outcome engine :=
  eng ← process eng (t_delta 1 bid bid_qty Bid IS_SNAPSHOT); process eng (t_delta 1 ask ask_qty Ask LAST_IN_BATCH).
(** [take_tob], and what is asserted of it. *)
Definition tob_that (p : option TopOfBook -> bool) (eng : engine) : outcome engine :=
  let '(eng, t) := take_tob eng in _ ← assert_ (p t); Ret eng.
Definition no_tob (t : option TopOfBook) : bool := match t with None => true | Some _ => false end.
Definition tob_some (p : TopOfBook -> bool) (t : option TopOfBook) : bool := match t with Some t => p t | None => false end.
Definition tob_any (t : option TopOfBook) : bool := true.
Definition spread_is (inst : Z) (r : option Z) (eng : engine) : outcome engine :=
  '(eng, s) ← engine_spread eng (inst_from_raw inst); _ ← assert_eq s (ticks_from_raw <$> r); Ret eng.
Definition micro_that (inst : Z) (p : option Z -> bool) (eng : engine) : outcome engine :=
  '(eng, m) ← micro_price eng (inst_from_raw inst); _ ← assert_ (p (ticks_to_raw <$> m)); Ret eng.
Definition stale_is (inst now : Z) (r : bool) : engine -> outcome engine :=
  holds_that (fun eng => s ← is_stale eng (inst_from_raw inst) (from_nanos now); Ret (Bool.eqb s r)).
Definition ready_is (inst : Z) (r : bool) : engine -> outcome engine :=
  holds_that (fun eng => s ← is_ready eng (inst_from_raw inst); Ret (Bool.eqb s r)).
Definition trade_that (inst : Z) (p : option TradeInfo -> bool) : engine -> outcome engine :=
  holds_that (fun eng => t ← engine_last_trade eng (inst_from_raw inst); Ret (p t)).
Definition no_trade (t : option TradeInfo) : bool := match t with None => true | Some _ => false end.
Definition trade_fields (price qty : Z) (side : Side) (t : option TradeInfo) : bool :=
  match t with
  | Some t => bool_decide (ti_price t = ticks_from_raw price) && bool_decide (ti_qty t = lots_from_raw qty) && bool_decide (ti_side t = side)
  | None => false
  end.
Definition both : EventFlags := flags_with IS_SNAPSHOT LAST_IN_BATCH.
Definition price_is (t : Ticks) (p : Z) : bool := bool_decide (t = ticks_from_raw p).

Definition new_engine_has_no_tob := engine_test 2 1000000000 [tob_that no_tob].
Definition process_delta_no_tob_before_snapshot := engine_test 2 1000000000
  [feed_ev (t_delta 1 45 100 Bid LAST_IN_BATCH); tob_that no_tob].
Definition process_snapshot_then_delta_emits_tob := engine_test 2 1000000000
  [feed_ev (t_delta 1 45 100 Bid IS_SNAPSHOT); feed_ev (t_delta 1 55 200 Ask LAST_IN_BATCH);
   tob_that (tob_some (fun t => price_is (tob_bid_price t) 45 && price_is (tob_ask_price t) 55))].
Definition micro_price_between_bid_ask := engine_test 2 1000000000
  [feed_ev (t_delta 1 45 100 Bid IS_SNAPSHOT); feed_ev (t_delta 1 55 200 Ask LAST_IN_BATCH);
   micro_that 1 (fun m => match m with Some mp => (45 <=? mp) && (mp <=? 55) | None => false end)].
Definition book_imbalance_range := engine_test 2 1000000000
  [feed_ev (t_delta 1 45 1000 Bid IS_SNAPSHOT); feed_ev (t_delta 1 55 100 Ask LAST_IN_BATCH);
   holds_that (fun eng => i ← book_imbalance eng (inst_from_raw 1) 5;
     Ret match i with Some imb => f64_lt (f64_of_Z 0) imb && f64_le imb (f64_of_Z 1) | None => false end)].
Definition is_stale_after_timeout := engine_test 2 100
  [feed_ev (t_delta 1 45 100 Bid both); stale_is 1 1050 false; stale_is 1 1200 true].
Definition spread_returns_ask_minus_bid := engine_test 4 1000000000 [setup_book 40 10 45 10; spread_is 1 (Some 5)].
Definition spread_returns_none_for_invalid_instrument := engine_test 4 1000000000 [spread_is 0 None; spread_is 5 None].
Definition spread_returns_none_with_no_bbo := engine_test 4 1000000000 [spread_is 1 None].
Definition spread_returns_none_with_only_bid := engine_test 4 1000000000 [feed_ev (t_delta 1 40 10 Bid both); spread_is 1 None].
Definition spread_minimum_one_tick := engine_test 4 1000000000 [setup_book 50 50 51 50; spread_is 1 (Some 1)].
Definition last_trade_returns_none_before_any_trade := engine_test 4 1000000000 [trade_that 1 no_trade].
Definition last_trade_returns_none_for_invalid_instrument := engine_test 4 1000000000 [trade_that 0 no_trade; trade_that 5 no_trade].
Definition last_trade_returns_correct_fields := engine_test 4 1000000000
  [feed_ev (make_trade 1 999 42 Ask 5000); trade_that 1 (trade_fields 999 42 Ask);
   trade_that 1 (fun t => bool_decide (ti_ts <$> t = Some (from_nanos 5000)))].
Definition last_trade_is_none_for_different_instrument := engine_test 4 1000000000
  [feed_ev (make_trade 1 100 10 Bid 1000); trade_that 2 no_trade].
Definition last_trade_updated_by_most_recent_event := engine_test 4 1000000000
  [feed_ev (make_trade 1 100 10 Bid 1000); feed_ev (make_trade 1 200 20 Ask 2000); trade_that 1 (trade_fields 200 20 Ask)].
Definition is_stale_true_for_invalid_instrument := engine_test 4 100 [stale_is 0 0 true; stale_is 5 0 true].
Definition is_stale_true_when_no_events_received := engine_test 4 1000000 [stale_is 1 0 true; stale_is 1 999 true].
Definition is_stale_false_within_timeout := engine_test 4 100
  [feed_ev (t_delta_ts 1 50 10 Bid both 1000); stale_is 1 1100 false; stale_is 1 1099 false].
Definition is_stale_true_just_beyond_timeout := engine_test 4 100 [feed_ev (t_delta_ts 1 50 10 Bid both 1000); stale_is 1 1101 true].
Definition is_stale_fresh_and_stale_instruments_are_independent := engine_test 4 100
  [feed_ev (t_delta_ts 1 50 10 Bid both 1000); stale_is 1 1050 false; stale_is 2 1050 true].
Definition is_ready_false_before_snapshot := engine_test 4 1000000000 [ready_is 1 false].
Definition is_ready_false_for_invalid_instrument := engine_test 4 1000000000 [ready_is 0 false; ready_is 5 false].
Definition is_ready_true_after_snapshot_completed := engine_test 4 1000000000 [setup_book 40 10 50 10; ready_is 1 true].
Definition is_ready_false_mid_snapshot := engine_test 4 1000000000 [feed_ev (t_delta 1 100 10 Bid IS_SNAPSHOT); ready_is 1 false].
Definition is_ready_true_after_top_of_book_event := engine_test 4 1000000000
  [feed_ev (make_top_of_book 1 100 10 110 10 1000); ready_is 1 true].
Definition micro_price_exact_value_equal_sizes := engine_test 4 1000000000
  [setup_book 40 100 60 100; micro_that 1 (fun m => bool_decide (m = Some 50))].
Definition micro_price_weighted_toward_larger_qty_side := engine_test 4 1000000000
  [setup_book 40 300 60 100; micro_that 1 (fun m => bool_decide (m = Some 55))].
Definition micro_price_none_for_invalid_instrument := engine_test 4 1000000000
  [micro_that 0 (fun m => bool_decide (m = None)); micro_that 5 (fun m => bool_decide (m = None))].
Definition micro_price_none_with_empty_book := engine_test 4 1000000000 [micro_that 1 (fun m => bool_decide (m = None))].
Definition check_bbo_no_tob_on_size_only_change := engine_test 4 1000000000
  [setup_book 40 10 60 10; tob_that tob_any; setup_book 40 999 60 888; tob_that no_tob].
Definition check_bbo_emits_tob_on_bid_price_change := engine_test 4 1000000000
  [setup_book 40 10 60 10; tob_that tob_any; setup_book 41 10 60 10; tob_that (tob_some (fun t => price_is (tob_bid_price t) 41))].
Definition check_bbo_emits_tob_on_ask_price_change := engine_test 4 1000000000
  [setup_book 40 10 60 10; tob_that tob_any; setup_book 40 10 61 10; tob_that (tob_some (fun t => price_is (tob_ask_price t) 61))].
Definition check_bbo_tob_spread_field_is_correct := engine_test 4 1000000000
  [setup_book 40 10 50 10; tob_that (tob_some (fun t => price_is (tob_spread t) 10))].
Definition process_trade_event_updates_last_trade := engine_test 4 1000000000
  [trade_that 1 no_trade; feed_ev (make_trade 1 500 25 Bid 9000); trade_that 1 (trade_fields 500 25 Bid)].
Definition process_trade_out_of_range_instrument_ignored := engine_test 4 1000000000
  (feed_ev (make_trade 5 500 25 Bid 9000) :: ((fun raw => trade_that raw no_trade) <$> [1; 2; 3; 4])).
Definition process_top_of_book_event_marks_ready := engine_test 4 1000000000
  [ready_is 1 false; feed_ev (make_top_of_book 1 40 30 50 20 2000); ready_is 1 true].
Definition process_top_of_book_event_emits_tob := engine_test 4 1000000000
  [feed_ev (make_top_of_book 1 40 30 50 20 2000);
   tob_that (tob_some (fun t => price_is (tob_bid_price t) 40 && price_is (tob_ask_price t) 50))].
Definition process_top_of_book_event_correct_spread_and_micro := engine_test 4 1000000000
  [feed_ev (make_top_of_book 1 40 100 60 100 3000);
   tob_that (tob_some (fun t => price_is (tob_spread t) 20 && price_is (tob_micro_price t) 50))].
Definition process_top_of_book_out_of_range_instrument_ignored := engine_test 4 1000000000
  [feed_ev (make_top_of_book 5 40 30 50 20 1000); tob_that no_tob].
End engine_tests.

(** Every test of array_book.rs passes, in either build profile. *)
Lemma book_tests_pass (profile : BuildProfile) : Forall (fun result => result = Ret tt)
  [default_book_is_empty; apply_delta_new_level; apply_delta_delete_level; best_bid_is_highest_price;
   best_ask_is_lowest_price; clear_resets_all; level_count_correct; total_depth_sums_top_n; depth_fills_buffer;
   bbo_cache_returns_cached_on_second_call; bbo_cache_invalidated_on_delta; bbo_cache_invalidated_on_clear;
   bbo_cache_tracks_best_after_deletion; apply_delta_zero_qty_removes_level; apply_delta_out_of_bounds_price_ignored;
   apply_delta_change_action_updates_qty; clear_side_bid_only; clear_side_ask_only; best_bid_none_on_empty_book;
   best_ask_none_on_empty_book; depth_buffer_smaller_than_levels; depth_ask_order_ascending;
   level_count_decrements_on_removal; total_depth_ask_sums_top_n_ascending; total_depth_zero_levels_returns_zero;
   clear_resets_level_counts; depth_empty_buffer_returns_zero].
Proof. destruct profile; repeat constructor; vm_compute; reflexivity. Qed.

(** Every test of engine.rs passes, in either build profile. *)
Lemma engine_tests_pass (profile : BuildProfile) : Forall (fun result => result = Ret tt)
  [new_engine_has_no_tob; process_delta_no_tob_before_snapshot; process_snapshot_then_delta_emits_tob;
   micro_price_between_bid_ask; book_imbalance_range; is_stale_after_timeout; spread_returns_ask_minus_bid;
   spread_returns_none_for_invalid_instrument; spread_returns_none_with_no_bbo; spread_returns_none_with_only_bid;
   spread_minimum_one_tick; last_trade_returns_none_before_any_trade; last_trade_returns_none_for_invalid_instrument;
   last_trade_returns_correct_fields; last_trade_is_none_for_different_instrument;
   last_trade_updated_by_most_recent_event; is_stale_true_for_invalid_instrument; is_stale_true_when_no_events_received;
   is_stale_false_within_timeout; is_stale_true_just_beyond_timeout;
   is_stale_fresh_and_stale_instruments_are_independent; is_ready_false_before_snapshot;
   is_ready_false_for_invalid_instrument; is_ready_true_after_snapshot_completed; is_ready_false_mid_snapshot;
   is_ready_true_after_top_of_book_event; micro_price_exact_value_equal_sizes;
   micro_price_weighted_toward_larger_qty_side; micro_price_none_for_invalid_instrument;
   micro_price_none_with_empty_book; check_bbo_no_tob_on_size_only_change; check_bbo_emits_tob_on_bid_price_change;
   check_bbo_emits_tob_on_ask_price_change; check_bbo_tob_spread_field_is_correct;
   process_trade_event_updates_last_trade; process_trade_out_of_range_instrument_ignored;
   process_top_of_book_event_marks_ready; process_top_of_book_event_emits_tob;
   process_top_of_book_event_correct_spread_and_micro; process_top_of_book_out_of_range_instrument_ignored].
Proof. destruct profile; repeat constructor; vm_compute; reflexivity. Qed.
