(* ===== verification/Spsc.v ===== *)
(** * The SPSC protocol under concurrency ([crates/queue]: engine.rs, handle.rs)

    [try_push] and [try_pop] of the split handles as interleaved memory
    accesses of a producer and a consumer thread.  The two atomics are the
    sequences of their stores; an [Acquire] load may return any store that is
    not older than the last one the thread saw, and joins the vector clock the
    matching [Release] store published.  Slots are not atomic: an access that
    is not ordered after the other thread's last access to the slot by
    happens-before is a data race and, like reading an empty slot or
    overwriting an occupied one, is [Panic].  The branches are those of the
    source; [pushed] and [popped] record the values whose [head], respectively
    [tail], store was made. *)

From stdpp Require Import base decidable list numbers option tactics.
From Stdlib Require Import ZArith Lia.
From S2P Require Import Prelude Platform Ring.

#[local] Open Scope Z_scope.

(** ** The memory model *)

(** How many of its slot accesses each thread has made. *)
Record vclock := { vp : Z; vc : Z }.

Definition join (a b : vclock) : vclock := {| vp := Z.max (vp a) (vp b); vc := Z.max (vc a) (vc b) |}.

(** A store to an atomic: its value and the clock it released. *)
Record message := { msg_val : Z; msg_clock : vclock }.

(** An [Acquire] load that returns store [k], if coherence allows it. *)
Definition load_acquire (msgs : list message) (seen k : nat) : option message :=
  if decide (seen <= k)%nat then msgs !! k else None.

Definition last_val (msgs : list message) : Z :=
  match msgs !! pred (length msgs) with Some m => msg_val m | None => 0 end.

(** The slots, with the time of the last write and of the last read of each. *)
Record cells (T : Type) := { vals : list (option T); w_epoch : Z -> Z; r_epoch : Z -> Z }.
Arguments vals {T} _.
Arguments w_epoch {T} _ _.
Arguments r_epoch {T} _ _.

Definition update (f : Z -> Z) (i x : Z) : Z -> Z := fun j => if j =? i then x else f j.

Section cells.
Context {T : Type}.

(** The producer's write and the consumer's read of a slot. *)
Definition na_write (m : cells T) (clk : vclock) (i : Z) (v : T) : outcome (cells T * vclock) :=
  if (r_epoch m i <=? vc clk) && (w_epoch m i <=? vp clk) then
    s ← write_slot (vals m) i v;
    let clk := {| vp := vp clk + 1; vc := vc clk |} in
    Ret ({| vals := s; w_epoch := update (w_epoch m) i (vp clk); r_epoch := r_epoch m |}, clk)
  else Panic.

Definition na_read (m : cells T) (clk : vclock) (i : Z) : outcome (T * cells T * vclock) :=
  if w_epoch m i <=? vp clk then
    '(v, s) ← read_slot (vals m) i;
    let clk := {| vp := vp clk; vc := vc clk + 1 |} in
    Ret (v, {| vals := s; w_epoch := w_epoch m; r_epoch := update (r_epoch m) i (vc clk) |}, clk)
  else Panic.
End cells.

(** ** The two threads *)

(** Where a call is, with its local variables. *)
Inductive p_pc (T : Type) :=
| PIdle
| PCheck (v : T) (hd next_head : Z)      (** at [tail.load(Acquire)] *)
| PWrite (v : T) (hd next_head : Z)      (** at [write_slot] *)
| PPublish (v : T) (hd next_head : Z).   (** at [head.store(Release)] *)
Arguments PIdle {T}.
Arguments PCheck {T} _ _ _.
Arguments PWrite {T} _ _ _.
Arguments PPublish {T} _ _ _.

Inductive c_pc (T : Type) :=
| CIdle
| CCheck (tl : Z)              (** at [head.load(Acquire)] *)
| CRead (tl : Z)               (** at [read_slot] *)
| CPublish (tl : Z) (v : T).   (** at [tail.store(Release)] *)
Arguments CIdle {T}.
Arguments CCheck {T} _.
Arguments CRead {T} _.
Arguments CPublish {T} _ _.

(** The producer's and the consumer's own cells, the store of the other side
    each saw last, and their clocks. *)
Record producer (T : Type) := {
  pp : p_pc T; p_local : Z; p_cached : Z; p_seen : nat; p_clock : vclock;
}.
Arguments pp {T} _.
Arguments p_local {T} _.
Arguments p_cached {T} _.
Arguments p_seen {T} _.
Arguments p_clock {T} _.
Record consumer (T : Type) := {
  cp : c_pc T; c_local : Z; c_cached : Z; c_seen : nat; c_clock : vclock;
}.
Arguments cp {T} _.
Arguments c_local {T} _.
Arguments c_cached {T} _.
Arguments c_seen {T} _.
Arguments c_clock {T} _.

Record spsc (T : Type) := {
  heads : list message;
  tails : list message;
  mem : cells T;
  prod : producer T;
  cons : consumer T;
  pushed : list T;
  popped : list T;
}.
Arguments heads {T} _.
Arguments tails {T} _.
Arguments mem {T} _.
Arguments prod {T} _.
Arguments cons {T} _.
Arguments pushed {T} _.
Arguments popped {T} _.

(** One memory access of one thread; a load names the store it returns. *)
Inductive label (T : Type) :=
| LPush (v : T) | LPLoad (k : nat) | LPWrite | LPStore
| LPop | LCLoad (k : nat) | LCRead | LCStore.
Arguments LPush {T} _.
Arguments LPLoad {T} _.
Arguments LPWrite {T}.
Arguments LPStore {T}.
Arguments LPop {T}.
Arguments LCLoad {T} _.
Arguments LCRead {T}.
Arguments LCStore {T}.

Section steps.
Context `{BuildProfile} `{TargetArch} `{IndexStrategy} {T : Type}.
Implicit Types s : spsc T.

Definition clock0 : vclock := {| vp := 0; vc := 0 |}.

Definition spsc_new (storage : list (option T)) : spsc T :=
  {| heads := [{| msg_val := 0; msg_clock := clock0 |}];
     tails := [{| msg_val := 0; msg_clock := clock0 |}];
     mem := {| vals := storage; w_epoch := fun _ => 0; r_epoch := fun _ => 0 |};
     prod := {| pp := PIdle; p_local := 0; p_cached := 0; p_seen := 0; p_clock := clock0 |};
     cons := {| cp := CIdle; c_local := 0; c_cached := 0; c_seen := 0; c_clock := clock0 |};
     pushed := []; popped := [] |}.

Definition set_prod s (p : producer T) : spsc T :=
  {| heads := heads s; tails := tails s; mem := mem s; prod := p; cons := cons s;
     pushed := pushed s; popped := popped s |}.
Definition set_cons s (c : consumer T) : spsc T :=
  {| heads := heads s; tails := tails s; mem := mem s; prod := prod s; cons := c;
     pushed := pushed s; popped := popped s |}.
Definition set_mem s (m : cells T) : spsc T :=
  {| heads := heads s; tails := tails s; mem := m; prod := prod s; cons := cons s;
     pushed := pushed s; popped := popped s |}.

Definition at_pp (p : producer T) (pc : p_pc T) : producer T :=
  {| pp := pc; p_local := p_local p; p_cached := p_cached p; p_seen := p_seen p; p_clock := p_clock p |}.
Definition at_cp (c : consumer T) (pc : c_pc T) : consumer T :=
  {| cp := pc; c_local := c_local c; c_cached := c_cached c; c_seen := c_seen c; c_clock := c_clock c |}.

(** [try_push(v)], access by access; [None] where the access is not the
    thread's next one. *)
Definition producer_step s (l : label T) : option (outcome (spsc T)) :=
  let p := prod s in
  match l, pp p with
  | LPush v, PIdle => Some (
      let hd := if aarch64 then p_local p else last_val (heads s) in
      h1 ← arith USIZE (hd + 1);
      next_head ← wrap_index h1 (capacity_of (vals (mem s)));
      Ret (set_prod s (at_pp p (if next_head =? p_cached p then PCheck v hd next_head else PWrite v hd next_head))))
  | LPLoad k, PCheck v hd next_head =>
      m ← load_acquire (tails s) (p_seen p) k;
      Some (Ret (set_prod s
        {| pp := if next_head =? msg_val m then PIdle else PWrite v hd next_head;
           p_local := p_local p; p_cached := msg_val m; p_seen := k;
           p_clock := join (p_clock p) (msg_clock m) |}))
  | LPWrite, PWrite v hd next_head => Some (
      '(m, clk) ← na_write (mem s) (p_clock p) hd v;
      Ret (set_prod (set_mem s m)
        {| pp := PPublish v hd next_head; p_local := p_local p; p_cached := p_cached p; p_seen := p_seen p;
           p_clock := clk |}))
  | LPStore, PPublish v hd next_head => Some (Ret
      {| heads := heads s ++ [{| msg_val := next_head; msg_clock := p_clock p |}];
         tails := tails s; mem := mem s;
         prod := {| pp := PIdle; p_local := if aarch64 then next_head else p_local p; p_cached := p_cached p;
                    p_seen := p_seen p; p_clock := p_clock p |};
         cons := cons s; pushed := pushed s ++ [v]; popped := popped s |})
  | _, _ => None
  end.

(** [try_pop()], access by access. *)
Definition consumer_step s (l : label T) : option (outcome (spsc T)) :=
  let c := cons s in
  match l, cp c with
  | LPop, CIdle => Some (
      let tl := if aarch64 then c_local c else last_val (tails s) in
      Ret (set_cons s (at_cp c (if tl =? c_cached c then CCheck tl else CRead tl))))
  | LCLoad k, CCheck tl =>
      m ← load_acquire (heads s) (c_seen c) k;
      Some (Ret (set_cons s
        {| cp := if tl =? msg_val m then CIdle else CRead tl;
           c_local := c_local c; c_cached := msg_val m; c_seen := k;
           c_clock := join (c_clock c) (msg_clock m) |}))
  | LCRead, CRead tl => Some (
      '(v, m, clk) ← na_read (mem s) (c_clock c) tl;
      Ret (set_cons (set_mem s m)
        {| cp := CPublish tl v; c_local := c_local c; c_cached := c_cached c; c_seen := c_seen c; c_clock := clk |}))
  | LCStore, CPublish tl v => Some (
      t1 ← arith USIZE (tl + 1);
      next_tail ← wrap_index t1 (capacity_of (vals (mem s)));
      Ret
      {| heads := heads s; tails := tails s ++ [{| msg_val := next_tail; msg_clock := c_clock c |}];
         mem := mem s; prod := prod s;
         cons := {| cp := CIdle; c_local := if aarch64 then next_tail else c_local c; c_cached := c_cached c;
                    c_seen := c_seen c; c_clock := c_clock c |};
         pushed := pushed s; popped := popped s ++ [v] |})
  | _, _ => None
  end.

Definition spsc_step s (l : label T) : option (outcome (spsc T)) :=
  match l with
  | LPush _ | LPLoad _ | LPWrite | LPStore => producer_step s l
  | LPop | LCLoad _ | LCRead | LCStore => consumer_step s l
  end.

(** A schedule. *)
Fixpoint spsc_run s (ls : list (label T)) : option (outcome (spsc T)) :=
  match ls with
  | [] => Some (Ret s)
  | l :: ls =>
      match spsc_step s l with
      | Some (Ret s') => spsc_run s' ls
      | o => o
      end
  end.

Definition is_producer (l : label T) : bool :=
  match l with LPush _ | LPLoad _ | LPWrite | LPStore => true | _ => false end.

(** The engine in memory while no call is running. *)
Definition spsc_engine s : RingEngine T NoInstr :=
  {| head := last_val (heads s); head_local := p_local (prod s); tail_cached := p_cached (prod s);
     tail := last_val (tails s); tail_local := c_local (cons s); head_cached := c_cached (cons s);
     slots := vals (mem s); ring_instr := no_instr |}.

(** The accesses left of a running call. *)
Definition p_rank s : nat :=
  match pp (prod s) with PIdle => 0 | PPublish _ _ _ => 1 | PWrite _ _ _ => 2 | PCheck _ _ _ => 3 end.
Definition c_rank s : nat :=
  match cp (cons s) with CIdle => 0 | CPublish _ _ => 1 | CRead _ => 2 | CCheck _ => 3 end.

(** The states an interleaving can reach; a race or a contract violation is
    reached as [Panic]. *)
Inductive reachable (storage : list (option T)) : outcome (spsc T) -> Prop :=
| reach_new : reachable storage (Ret (spsc_new storage))
| reach_step s l o : reachable storage (Ret s) -> spsc_step s l = Some o -> reachable storage o.
End steps.

(** * The invariant of the protocol *)

Section invariant.
Context `{BuildProfile} `{TargetArch} `{IndexStrategy} {T : Type}.
Context (cap : Z) (Hcap : 1 <= cap <= 2 ^ 62) `{!StepWrap cap}.
Implicit Types s : spsc T.

(** How many values were pushed and popped; [H'] and [T'] count the slot
    accesses, which run ahead of the stores. *)
Definition n_pushed s : Z := Z.of_nat (length (pushed s)).
Definition n_popped s : Z := Z.of_nat (length (popped s)).

(** The value written but not yet published. *)
Definition pending s : list T := match pp (prod s) with PPublish v _ _ => [v] | _ => [] end.
Definition taken s : nat := match cp (cons s) with CPublish _ _ => 1 | _ => 0 end.
Definition written s : list T := pushed s ++ pending s.
Definition n_written s : Z := Z.of_nat (length (written s)).
Definition n_read s : nat := length (popped s) + taken s.

(** Store [k] of an atomic holds index [k] and released [k] slot accesses. *)
Definition stores_ok (clk : vclock -> Z) (msgs : list message) (n : nat) : Prop :=
  length msgs = S n /\
  forall k m, msgs !! k = Some m -> msg_val m = Z.of_nat k mod cap /\ clk (msg_clock m) = Z.of_nat k.

(** The epochs of the last lap of slot accesses. *)
Definition epochs_ok (f : Z -> Z) (n : Z) : Prop :=
  forall k, n - cap <= k < n -> f (k mod cap) <= Z.max 0 (k + 1).

Definition pp_ok s : Prop :=
  match pp (prod s) with
  | PIdle => True
  | PCheck _ hd nx => hd = n_pushed s mod cap /\ nx = (n_pushed s + 1) mod cap
  | PWrite _ hd nx | PPublish _ hd nx =>
      (hd = n_pushed s mod cap /\ nx = (n_pushed s + 1) mod cap) /\
      n_pushed s + 1 < Z.of_nat (p_seen (prod s)) + cap
  end.

Definition cp_ok s : Prop :=
  match cp (cons s) with
  | CIdle => True
  | CCheck tl => tl = n_popped s mod cap
  | CRead tl => tl = n_popped s mod cap /\ n_popped s < Z.of_nat (c_seen (cons s))
  | CPublish tl v =>
      (tl = n_popped s mod cap /\ n_popped s < Z.of_nat (c_seen (cons s))) /\
      pushed s !! length (popped s) = Some v
  end.

Record producer_ok s : Prop := {
  p_at : pp_ok s;
  p_own : aarch64 = true -> p_local (prod s) = n_pushed s mod cap;
  p_cache : p_cached (prod s) = Z.of_nat (p_seen (prod s)) mod cap;
  p_view : Z.of_nat (p_seen (prod s)) <= n_popped s;
  p_room : n_pushed s < Z.of_nat (p_seen (prod s)) + cap;
  p_knows : Z.of_nat (p_seen (prod s)) <= vc (p_clock (prod s));
  p_wrote : vp (p_clock (prod s)) = n_written s;
}.

Record consumer_ok s : Prop := {
  c_at : cp_ok s;
  c_own : aarch64 = true -> c_local (cons s) = n_popped s mod cap;
  c_cache : c_cached (cons s) = Z.of_nat (c_seen (cons s)) mod cap;
  c_view : Z.of_nat (c_seen (cons s)) <= n_pushed s;
  c_room : n_popped s <= Z.of_nat (c_seen (cons s));
  c_knows : Z.of_nat (c_seen (cons s)) <= vp (c_clock (cons s));
  c_read : vc (c_clock (cons s)) = Z.of_nat (n_read s);
}.

Record memory_ok s : Prop := {
  m_heads : stores_ok vp (heads s) (length (pushed s));
  m_tails : stores_ok vc (tails s) (length (popped s));
  m_popped : popped s = take (length (popped s)) (pushed s);
  m_vals : slots_hold cap (vals (mem s)) (Z.of_nat (n_read s)) (drop (n_read s) (written s));
  m_writes : epochs_ok (w_epoch (mem s)) (n_written s);
  m_reads : epochs_ok (r_epoch (mem s)) (Z.of_nat (n_read s));
}.

(** No clock is ahead of the accesses made. *)
Record clocks_ok s : Prop := {
  k_producer : vc (p_clock (prod s)) <= Z.of_nat (n_read s);
  k_consumer : vp (c_clock (cons s)) <= n_written s;
  k_heads : Forall (fun m => vc (msg_clock m) <= Z.of_nat (n_read s)) (heads s);
  k_tails : Forall (fun m => vp (msg_clock m) <= n_written s) (tails s);
}.

Record spsc_inv s : Prop := {
  inv_producer : producer_ok s;
  inv_consumer : consumer_ok s;
  inv_memory : memory_ok s;
  inv_clocks : clocks_ok s;
}.

(** Evaluate the projections of an updated state. *)
Ltac unfold_spsc :=
  unfold pp_ok, cp_ok, n_pushed, n_popped, n_written, n_read, written, pending, taken in *;
  cbn [spsc_new set_prod set_cons set_mem at_pp at_cp heads tails mem prod cons pushed popped
       pp p_local p_cached p_seen p_clock cp c_local c_cached c_seen c_clock vals w_epoch r_epoch
       msg_val msg_clock vp vc join clock0 length app drop take Nat.add] in *.

Lemma last_val_ok clk msgs n : stores_ok clk msgs n -> last_val msgs = Z.of_nat n mod cap.
Proof.
  intros [Hl Hm]. unfold last_val. rewrite Hl. cbn [Nat.pred].
  destruct (lookup_lt_is_Some_2 msgs n) as [m E]; [lia|]. rewrite E. by apply Hm.
Qed.

Lemma stores_ok_app clk msgs n m :
  stores_ok clk msgs n -> msg_val m = Z.of_nat (S n) mod cap -> clk (msg_clock m) = Z.of_nat (S n) ->
  stores_ok clk (msgs ++ [m]) (S n).
Proof.
  intros [Hl Hm] Ev Ec. split; [rewrite length_app; cbn; lia|]. intros k m' Hk.
  apply lookup_app_Some in Hk as [Hk|[Hge Hk]]; [by apply Hm|].
  apply list_lookup_singleton_Some in Hk as [E <-]. by replace k with (S n) by lia.
Qed.

Lemma load_acquire_ok clk msgs n seen k m :
  stores_ok clk msgs n -> load_acquire msgs seen k = Some m ->
  (seen <= k <= n)%nat /\ msg_val m = Z.of_nat k mod cap /\ clk (msg_clock m) = Z.of_nat k.
Proof.
  intros [Hl Hm]. unfold load_acquire. destruct (decide _); [|done]. intros E.
  apply lookup_lt_Some in E as Hlt. split; [lia|]. by apply Hm.
Qed.

Lemma load_acquire_Forall (Q : message -> Prop) msgs seen k m :
  Forall Q msgs -> load_acquire msgs seen k = Some m -> Q m.
Proof.
  unfold load_acquire. destruct (decide _); [|done]. intros HF E. exact (Forall_lookup_1 _ _ _ _ HF E).
Qed.

(** A slot access at position [n] stamps its slot with [n + 1]. *)
Lemma epochs_ok_step f n :
  0 <= n -> epochs_ok f n -> epochs_ok (update f (n mod cap) (n + 1)) (n + 1).
Proof.
  intros Hn Hf k Hk. unfold update. destruct (Z.eqb_spec (k mod cap) (n mod cap)) as [E|E].
  - apply (mod_window (n + 1 - cap)) in E; lia.
  - apply Hf. split; [lia|]. destruct (decide (k = n)) as [->|]; [done|lia].
Qed.

Lemma spsc_new_inv : spsc_inv (spsc_new (replicate (Z.to_nat cap) None)).
Proof.
  assert (forall clk : vclock -> Z, clk clock0 = 0 -> stores_ok clk [{| msg_val := 0; msg_clock := clock0 |}] 0) as Hst.
  { intros clk E. split; [done|]. intros k m Hk. apply list_lookup_singleton_Some in Hk as [-> <-].
    cbn. by rewrite Z.mod_0_l by lia. }
  assert (epochs_ok (fun _ => 0) 0) by (intros k Hk; lia).
  split; split; unfold_spsc; rewrite ?Z.mod_0_l by lia; try done; try lia; try by apply Hst.
  2, 3: by constructor.
  by apply slots_hold_empty; lia.
Qed.

(** What a thread's own step leaves untouched of the other side. *)
Lemma consumer_ok_frame s s' :
  cons s' = cons s -> popped s' = popped s -> (exists k, pushed s' = pushed s ++ k) ->
  consumer_ok s -> consumer_ok s'.
Proof.
  intros Ec Ep [k Eu] [A B C D E F G].
  assert (n_pushed s <= n_pushed s') by (unfold n_pushed; rewrite Eu, length_app; lia).
  split; unfold cp_ok, n_popped, n_read, taken in *; rewrite ?Ec, ?Ep in *; try done; try lia.
  destruct (cp (cons s)) as [| | |tl v]; try done. destruct A as [A Av]. split; [done|].
  rewrite Eu. by apply lookup_app_l_Some.
Qed.

Lemma producer_ok_frame s s' :
  prod s' = prod s -> pushed s' = pushed s -> n_popped s <= n_popped s' -> producer_ok s -> producer_ok s'.
Proof.
  intros Ep Eu Hn [A B C D E F G].
  split; unfold pp_ok, n_pushed, n_written, written, pending in *; rewrite ?Ep, ?Eu in *; try done; lia.
Qed.

Lemma clocks_ok_frame s s' :
  clocks_ok s -> p_clock (prod s') = p_clock (prod s) -> c_clock (cons s') = c_clock (cons s) ->
  heads s' = heads s -> tails s' = tails s -> n_written s <= n_written s' -> (n_read s <= n_read s')%nat ->
  clocks_ok s'.
Proof.
  intros [A B D E] Ep Ec Eh Et Hw Hr. split; rewrite ?Ep, ?Ec, ?Eh, ?Et; try lia.
  - eapply Forall_impl; [|exact D]. cbn. lia.
  - eapply Forall_impl; [|exact E]. cbn. lia.
Qed.

Lemma push_call_inv s v o :
  spsc_inv s -> producer_step s (LPush v) = Some o -> exists s', o = Ret s' /\ spsc_inv s'.
Proof.
  intros [P C M K] E. unfold producer_step in E. destruct (pp (prod s)) eqn:Epc; try done. injection E as <-.
  pose proof P as [Pa Po Pc Pv Pr Pk Pw]. pose proof M as [Mh Mt Mp Mv Mw Mr].
  pose proof (c_view _ C). pose proof (c_room _ C).
  assert ((if aarch64 then p_local (prod s) else last_val (heads s)) = n_pushed s mod cap) as ->.
  { destruct aarch64; [by apply Po|]. by apply (last_val_ok vp). }
  rewrite (proj1 Mv), (bind_assoc_ret _ _ _ _ (wrap_next cap Hcap (n_pushed s) ltac:(unfold n_pushed; lia))).
  eexists. split; [done|]. rewrite Pc, (next_is_tail cap Hcap) by lia.
  set (pc := if n_pushed s + 1 =? Z.of_nat (p_seen (prod s)) + cap then _ else _).
  assert (match pc with PPublish v _ _ => [v] | _ => [] end = pending s) as Epend.
  { unfold pending, pc. rewrite Epc. by destruct (_ =? _). }
  split.
  - split; unfold_spsc; rewrite ?Epend, ?Epc in *; try done.
    subst pc. destruct (Z.eqb_spec (Z.of_nat (length (pushed s)) + 1) (Z.of_nat (p_seen (prod s)) + cap)); [done|lia].
  - eapply consumer_ok_frame; [..|exact C]; try done. exists []. by rewrite app_nil_r.
  - split; unfold_spsc; rewrite ?Epend; done.
  - eapply clocks_ok_frame; [exact K|done..| |done]. unfold_spsc. by rewrite Epend.
Qed.

Lemma push_load_inv s k o :
  spsc_inv s -> producer_step s (LPLoad k) = Some o -> exists s', o = Ret s' /\ spsc_inv s'.
Proof.
  intros [P C M K] E. unfold producer_step in E. destruct (pp (prod s)) eqn:Epc; try done.
  destruct (load_acquire (tails s) (p_seen (prod s)) k) as [m|] eqn:El; [|done]. injection E as <-.
  pose proof P as [Pa Po Pc Pv Pr Pk Pw]. pose proof M as [Mh Mt Mp Mv Mw Mr]. pose proof K as [Kp Kc Kh Kt].
  pose proof (c_view _ C). pose proof (c_room _ C).
  destruct (load_acquire_ok vc _ _ _ _ _ Mt El) as (Hk & Ev & Ec).
  eexists. split; [done|]. unfold pp_ok in Pa. rewrite Epc in Pa. destruct Pa as [-> ->].
  rewrite Ev, (next_is_tail cap Hcap) by (unfold n_popped in *; lia).
  set (pc := if n_pushed s + 1 =? Z.of_nat k + cap then _ else _).
  assert (match pc with PPublish v _ _ => [v] | _ => [] end = pending s) as Epend.
  { unfold pending, pc. rewrite Epc. by destruct (_ =? _). }
  assert (vp (msg_clock m) <= n_written s) as Hvp by (apply (load_acquire_Forall _ _ _ _ _ Kt El)).
  split.
  - split; unfold_spsc; rewrite ?Epend, ?Epc in *; try done; try lia.
    subst pc. destruct (Z.eqb_spec (Z.of_nat (length (pushed s)) + 1) (Z.of_nat k + cap)); [done|lia].
  - eapply consumer_ok_frame; [..|exact C]; try done. exists []. by rewrite app_nil_r.
  - split; unfold_spsc; rewrite ?Epend; done.
  - split; unfold_spsc; rewrite ?Epend, ?Epc in *; try done. lia.
Qed.

(** The consumer reads published values only. *)
Lemma n_read_bounds s : consumer_ok s -> (length (popped s) <= n_read s <= length (pushed s))%nat.
Proof.
  intros [A _ _ B D _ _]. unfold n_read, taken, cp_ok, n_popped, n_pushed in *.
  destruct (cp (cons s)); [lia..|]. destruct A as [[_ A] _]. lia.
Qed.

Lemma mod_lap x : (x - cap) mod cap = x mod cap.
Proof. rewrite <- (Z_mod_plus_full (x - cap) 1 cap). f_equal. lia. Qed.

(** The producer's slot is free, and both its last write and its last read
    happened before: the write is not a race. *)
Lemma na_write_ok s v :
  spsc_inv s -> pending s = [] -> n_pushed s + 1 < Z.of_nat (p_seen (prod s)) + cap ->
  exists m, na_write (mem s) (p_clock (prod s)) (n_pushed s mod cap) v
    = Ret (m, {| vp := n_pushed s + 1; vc := vc (p_clock (prod s)) |})
  /\ slots_hold cap (vals m) (Z.of_nat (n_read s)) (drop (n_read s) (pushed s ++ [v]))
  /\ epochs_ok (w_epoch m) (n_pushed s + 1) /\ r_epoch m = r_epoch (mem s).
Proof.
  intros [P C M _] Hp Hroom. destruct P as [_ _ _ Pv _ Pk Pw]. destruct M as [_ _ _ Mv Mw Mr].
  pose proof (n_read_bounds s C) as Hr. unfold n_written, written in *. rewrite Hp, app_nil_r in *.
  fold (n_pushed s) in *. assert (0 <= n_pushed s) by (unfold n_pushed; lia).
  assert (r_epoch (mem s) (n_pushed s mod cap) <= vc (p_clock (prod s))) as H1r.
  { rewrite <- mod_lap. etrans; [apply Mr|]; unfold n_pushed, n_popped in *; lia. }
  assert (w_epoch (mem s) (n_pushed s mod cap) <= vp (p_clock (prod s))) as H1w.
  { rewrite <- mod_lap. etrans; [apply Mw|]; lia. }
  unfold na_write. apply Z.leb_le in H1r, H1w. rewrite H1r, H1w. cbn [andb].
  destruct (slots_hold_push cap _ _ _ v ltac:(lia) Mv) as [Ew Hs].
  { rewrite length_drop. unfold n_pushed, n_popped in *. lia. }
  assert (Z.of_nat (n_read s) + Z.of_nat (length (drop (n_read s) (pushed s))) = n_pushed s) as El
    by (rewrite length_drop; unfold n_pushed; lia).
  rewrite El in Ew, Hs. rewrite Ew. cbn [mbind outcome_bind]. rewrite Pw.
  eexists. split; [done|]. cbn [vals w_epoch r_epoch vp]. rewrite drop_app_le by lia.
  split; [done|]. split; [by apply epochs_ok_step|done].
Qed.

Lemma cell_write_inv s o :
  spsc_inv s -> producer_step s LPWrite = Some o -> exists s', o = Ret s' /\ spsc_inv s'.
Proof.
  intros I E. unfold producer_step in E. destruct (pp (prod s)) as [| |v hd nx|] eqn:Epc; try done.
  injection E as <-. pose proof I as [P C M K].
  pose proof P as [Pa Po Pc Pv Pr Pk Pw]. pose proof M as [Mh Mt Mp Mv Mw Mr].
  assert (pending s = []) as Ep by (unfold pending; by rewrite Epc).
  unfold pp_ok in Pa. rewrite Epc in Pa. destruct Pa as [[-> ->] Hroom].
  destruct (na_write_ok s v I Ep Hroom) as (m & -> & Hs & Hw & Er). cbn [mbind outcome_bind].
  eexists. split; [done|].
  assert (n_written s = n_pushed s) as Enw by (unfold n_written, written, n_pushed; by rewrite Ep, app_nil_r).
  assert (Z.of_nat (length (pushed s ++ [v])) = n_pushed s + 1) as El
    by (rewrite length_app; unfold n_pushed; cbn [length]; lia).
  split.
  - split; unfold_spsc; rewrite ?El; try done.
  - eapply consumer_ok_frame; [..|exact C]; try done. exists []. by rewrite app_nil_r.
  - split; unfold_spsc; rewrite ?El, ?Er; done.
  - destruct K as [Kp Kc Kh Kt]. split; unfold n_written, written, pending, n_read, taken in *;
      cbn [set_prod set_mem heads tails prod cons pushed popped pp p_clock vc c_clock] in *; rewrite ?El; try done; try lia.
    eapply Forall_impl; [|exact Kt]. cbn. lia.
Qed.

Lemma push_store_inv s o :
  spsc_inv s -> producer_step s LPStore = Some o -> exists s', o = Ret s' /\ spsc_inv s'.
Proof.
  intros [P C M K] E. unfold producer_step in E. destruct (pp (prod s)) as [| | |v hd nx] eqn:Epc; try done.
  injection E as <-.
  pose proof P as [Pa Po Pc Pv Pr Pk Pw]. pose proof M as [Mh Mt Mp Mv Mw Mr].
  unfold pp_ok in Pa. rewrite Epc in Pa. destruct Pa as [[-> ->] Hroom].
  assert (written s = pushed s ++ [v]) as Ew by (unfold written, pending; by rewrite Epc).
  assert (n_pushed s + 1 = Z.of_nat (length (pushed s ++ [v]))) as El
    by (rewrite length_app; unfold n_pushed; cbn [length]; lia).
  eexists. split; [done|]. unfold n_written in *. rewrite Ew in *. split.
  - split; unfold_spsc; rewrite ?app_nil_r, ?El in *; try done; try lia. intros Ha. by rewrite Ha.
  - eapply consumer_ok_frame; [..|exact C]; try done. by exists [v].
  - split; unfold_spsc; rewrite ?app_nil_r; try done.
    + rewrite length_app. cbn [length]. rewrite Nat.add_1_r. apply stores_ok_app; [done|cbn; lia..].
    + rewrite Mp at 1. rewrite take_app_le; [done|]. pose proof (c_view _ C). pose proof (c_room _ C).
      unfold n_pushed, n_popped in *. lia.
  - destruct K as [Kp Kc Kh Kt]. split; unfold n_written in *; unfold_spsc; rewrite ?app_nil_r, ?Ew in *; try done.
    by apply Forall_app_2; [|constructor].
Qed.

Lemma pop_call_inv s o :
  spsc_inv s -> consumer_step s LPop = Some o -> exists s', o = Ret s' /\ spsc_inv s'.
Proof.
  intros [P C M K] E. unfold consumer_step in E. destruct (cp (cons s)) eqn:Epc; try done. injection E as <-.
  pose proof C as [Ca Co Cc Cv Cr Ck Cw]. pose proof M as [Mh Mt Mp Mv Mw Mr].
  pose proof (p_room _ P). pose proof (p_view _ P).
  assert ((if aarch64 then c_local (cons s) else last_val (tails s)) = n_popped s mod cap) as ->.
  { destruct aarch64; [by apply Co|]. by apply (last_val_ok vc). }
  eexists. split; [done|]. rewrite Cc, (tail_is_head cap Hcap) by lia.
  set (pc := if n_popped s =? Z.of_nat (c_seen (cons s)) then _ else _).
  assert (match pc with CPublish _ _ => 1%nat | _ => 0%nat end = taken s) as Etk.
  { unfold taken, pc. rewrite Epc. by destruct (_ =? _). }
  split.
  - eapply producer_ok_frame; [..|exact P]; unfold_spsc; rewrite ?length_app; (done || lia).
  - split; unfold_spsc; rewrite ?Etk, ?Epc in *; try done.
    subst pc. destruct (Z.eqb_spec (Z.of_nat (length (popped s))) (Z.of_nat (c_seen (cons s)))); [done|lia].
  - split; unfold_spsc; rewrite ?Etk; done.
  - eapply clocks_ok_frame; [exact K|done..|]. unfold_spsc. by rewrite Etk.
Qed.

Lemma pop_load_inv s k o :
  spsc_inv s -> consumer_step s (LCLoad k) = Some o -> exists s', o = Ret s' /\ spsc_inv s'.
Proof.
  intros [P C M K] E. unfold consumer_step in E. destruct (cp (cons s)) as [|tl| |] eqn:Epc; try done.
  destruct (load_acquire (heads s) (c_seen (cons s)) k) as [m|] eqn:El; [|done]. injection E as <-.
  pose proof C as [Ca Co Cc Cv Cr Ck Cw]. pose proof M as [Mh Mt Mp Mv Mw Mr]. pose proof K as [Kp Kc Kh Kt].
  pose proof (p_room _ P). pose proof (p_view _ P).
  destruct (load_acquire_ok vp _ _ _ _ _ Mh El) as (Hk & Ev & Ec).
  eexists. split; [done|]. unfold cp_ok in Ca. rewrite Epc in Ca. subst tl.
  rewrite Ev, (tail_is_head cap Hcap) by (unfold n_pushed in *; lia).
  set (pc := if n_popped s =? Z.of_nat k then _ else _).
  assert (match pc with CPublish _ _ => 1%nat | _ => 0%nat end = taken s) as Etk.
  { unfold taken, pc. rewrite Epc. by destruct (_ =? _). }
  assert (vc (msg_clock m) <= Z.of_nat (n_read s)) as Hvc by apply (load_acquire_Forall _ _ _ _ _ Kh El).
  assert (n_pushed s <= n_written s) by (unfold n_written, written, n_pushed; rewrite length_app; lia).
  split.
  - eapply producer_ok_frame; [..|exact P]; unfold_spsc; rewrite ?length_app; (done || lia).
  - split; unfold_spsc; rewrite ?Etk, ?Epc in *; try done; try lia.
    subst pc. destruct (Z.eqb_spec (Z.of_nat (length (popped s))) (Z.of_nat k)); [done|lia].
  - split; unfold_spsc; rewrite ?Etk; done.
  - split; unfold_spsc; rewrite ?Etk, ?Epc in *; try done. lia.
Qed.

(** The consumer's slot holds the oldest value, and its write happened before:
    the read is not a race. *)
Lemma na_read_ok s :
  spsc_inv s -> taken s = 0%nat -> n_popped s < Z.of_nat (c_seen (cons s)) ->
  exists v m, na_read (mem s) (c_clock (cons s)) (n_popped s mod cap)
    = Ret (v, m, {| vp := vp (c_clock (cons s)); vc := n_popped s + 1 |})
  /\ pushed s !! length (popped s) = Some v
  /\ slots_hold cap (vals m) (n_popped s + 1) (drop (S (length (popped s))) (written s))
  /\ epochs_ok (r_epoch m) (n_popped s + 1) /\ w_epoch m = w_epoch (mem s).
Proof.
  intros [P C M _] Ht Hn. destruct C as [_ _ _ Cv _ Ck Cw]. destruct M as [_ _ _ Mv Mw Mr].
  pose proof (p_room _ P). pose proof (p_view _ P) as Pv. pose proof (p_at _ P) as Pa.
  unfold n_read in *. rewrite Ht, Nat.add_0_r in *. fold (n_popped s) in *.
  assert (n_pushed s <= n_written s /\ n_written s <= n_popped s + cap) as Hw.
  { unfold n_written, written. rewrite length_app. unfold pp_ok, pending, n_pushed in *.
    destruct (pp (prod s)); cbn [length]; lia. }
  assert (w_epoch (mem s) (n_popped s mod cap) <= vp (c_clock (cons s))) as H1w.
  { etrans; [apply Mw|]; unfold n_popped in *; lia. }
  destruct (lookup_lt_is_Some_2 (pushed s) (length (popped s))) as [v Ev]; [unfold n_pushed, n_popped in *; lia|].
  assert (written s !! length (popped s) = Some v) as Ewv by (by apply lookup_app_l_Some).
  rewrite (drop_S _ _ _ Ewv) in Mv.
  destruct (slots_hold_pop cap _ _ _ v ltac:(lia) Mv) as [Er Hs].
  { rewrite length_drop. unfold n_written, n_popped in *. lia. }
  unfold na_read. apply Z.leb_le in H1w. rewrite H1w, Er. cbn [mbind outcome_bind]. rewrite Cw.
  exists v. eexists. split; [done|]. cbn [vals w_epoch r_epoch vc]. split; [done|]. split; [done|].
  split; [|done]. apply epochs_ok_step; [unfold n_popped; lia|done].
Qed.

Lemma cell_read_inv s o :
  spsc_inv s -> consumer_step s LCRead = Some o -> exists s', o = Ret s' /\ spsc_inv s'.
Proof.
  intros I E. unfold consumer_step in E. destruct (cp (cons s)) as [| |tl|] eqn:Epc; try done.
  injection E as <-. pose proof I as [P C M K].
  pose proof C as [Ca Co Cc Cv Cr Ck Cw]. pose proof M as [Mh Mt Mp Mv Mw Mr].
  assert (taken s = 0%nat) as Et by (unfold taken; by rewrite Epc).
  unfold cp_ok in Ca. rewrite Epc in Ca. destruct Ca as [-> Hn].
  destruct (na_read_ok s I Et Hn) as (v & m & -> & Ev & Hs & Hr & Ew). cbn [mbind outcome_bind].
  eexists. split; [done|].
  assert (Z.of_nat (length (popped s) + 1) = n_popped s + 1) as El by (unfold n_popped; lia).
  assert (n_read s = length (popped s)) as Enr by (unfold n_read; lia).
  split.
  - eapply producer_ok_frame; [..|exact P]; unfold_spsc; rewrite ?length_app; (done || lia).
  - split; unfold_spsc; rewrite ?El; try done.
  - split; unfold_spsc; rewrite ?Ew, ?El; try done. by rewrite Nat.add_1_r.
  - destruct K as [Kp Kc Kh Kt]. split; unfold n_written, written, pending, n_read, taken in *;
      cbn [set_cons set_mem heads tails prod cons pushed popped cp c_clock vp p_clock] in *; try done; try lia.
    eapply Forall_impl; [|exact Kh]. cbn. lia.
Qed.

Lemma pop_store_inv s o :
  spsc_inv s -> consumer_step s LCStore = Some o -> exists s', o = Ret s' /\ spsc_inv s'.
Proof.
  intros [P C M K] E. unfold consumer_step in E. destruct (cp (cons s)) as [| | |tl v] eqn:Epc; try done.
  injection E as <-.
  pose proof C as [Ca Co Cc Cv Cr Ck Cw]. pose proof M as [Mh Mt Mp Mv Mw Mr].
  unfold cp_ok in Ca. rewrite Epc in Ca. destruct Ca as [[-> Hn] Hv].
  rewrite (proj1 Mv), (bind_assoc_ret _ _ _ _ (wrap_next cap Hcap (n_popped s) ltac:(unfold n_popped; lia))).
  assert (n_read s = length (popped s ++ [v])) as Er by (unfold n_read, taken; rewrite Epc, length_app; done).
  assert (n_popped s + 1 = Z.of_nat (length (popped s ++ [v]))) as El
    by (rewrite length_app; unfold n_popped; cbn [length]; lia).
  eexists. split; [done|]. rewrite Er in *. split.
  - eapply producer_ok_frame; [..|exact P]; unfold_spsc; rewrite ?length_app; (done || lia).
  - split; unfold_spsc; rewrite ?Nat.add_0_r, ?El in *; try done; try lia. intros Ha. by rewrite Ha.
  - split; unfold_spsc; rewrite ?Nat.add_0_r; try done.
    + rewrite length_app. cbn [length]. rewrite Nat.add_1_r. apply stores_ok_app; [done|cbn; lia..].
    + rewrite length_app, Nat.add_1_r. rewrite (take_S_r _ _ _ Hv). by rewrite <- Mp.
  - destruct K as [Kp Kc Kh Kt]. split; unfold n_written in *; unfold_spsc; rewrite ?Nat.add_0_r, <- ?Er in *; try done.
    by apply Forall_app_2; [|constructor].
Qed.

(** An idle state is one the sequential engine can be in. *)
Lemma idle_engine s :
  spsc_inv s -> pp (prod s) = PIdle -> cp (cons s) = CIdle ->
  ring_inv cap (spsc_engine s) (drop (length (popped s)) (pushed s)).
Proof.
  intros [P C M _] Ep Ec. destruct P as [_ Po Pc Pv Pr _ _], C as [_ Co Cc Cv Cr _ _], M as [Mh Mt Mp Mv _ _].
  exists (Z.of_nat (p_seen (prod s))), (n_popped s), (Z.of_nat (c_seen (cons s))), (n_pushed s).
  unfold n_read, taken, written, pending in Mv. rewrite Ep, Ec, app_nil_r, Nat.add_0_r in Mv.
  pose proof (last_val_ok vp _ _ Mh). pose proof (last_val_ok vc _ _ Mt).
  split; [|split; [rewrite length_drop; unfold n_pushed, n_popped in *; lia|done]].
  split; cbn [spsc_engine head tail tail_cached head_cached head_local tail_local]; try done; [lia|].
  intros Ha. split; [rewrite Po by done|rewrite Co by done]; done.
Qed.

Lemma step_inv s l o : spsc_inv s -> spsc_step s l = Some o -> exists s', o = Ret s' /\ spsc_inv s'.
Proof.
  destruct l; eauto using push_call_inv, push_load_inv, cell_write_inv, push_store_inv,
    pop_call_inv, pop_load_inv, cell_read_inv, pop_store_inv.
Qed.

Lemma reachable_inv o : reachable (replicate (Z.to_nat cap) None) o -> exists s, o = Ret s /\ spsc_inv s.
Proof.
  induction 1 as [|s l o _ (s0 & [= <-] & I) E]; [eexists; split; [done|apply spsc_new_inv]|].
  by eapply step_inv.
Qed.

(** A thread's access changes nothing of the other thread's call, and takes a
    running call of its own one access further. *)
Lemma step_progress s l s' :
  spsc_step s l = Some (Ret s') ->
  if is_producer l then cons s' = cons s /\ (p_rank s <> 0 -> p_rank s' < p_rank s)%nat
  else prod s' = prod s /\ (c_rank s <> 0 -> c_rank s' < c_rank s)%nat.
Proof.
  intros E. destruct l; cbn [is_producer]; unfold spsc_step, producer_step, consumer_step in E;
    unfold p_rank, c_rank;
    match type of E with
    | context [pp ?p] => destruct (pp p) eqn:Epc
    | context [cp ?c] => destruct (cp c) eqn:Epc
    end; try done; apply (inj Some) in E || (destruct load_acquire; [|done]; apply (inj Some) in E);
    repeat inv_bind E; repeat match goal with x : (_ * _)%type |- _ => destruct x end; injection E as <-; (split; [done|]);
    cbn [prod cons set_prod set_cons set_mem pp cp at_pp at_cp]; try lia; destruct (_ =? _); lia.
Qed.

Lemma newest_allowed clk msgs n seen :
  stores_ok clk msgs n -> (seen <= n)%nat -> exists m, load_acquire msgs seen n = Some m.
Proof.
  intros [Hl _] Hs. unfold load_acquire. rewrite decide_True by done.
  apply lookup_lt_is_Some_2. lia.
Qed.

Lemma call_enabled s :
  spsc_inv s ->
  (p_rank s <> 0%nat -> exists l s', is_producer l = true /\ spsc_step s l = Some (Ret s')) /\
  (c_rank s <> 0%nat -> exists l s', is_producer l = false /\ spsc_step s l = Some (Ret s')).
Proof.
  intros I. assert (Hgo : forall l b, is_producer l = b -> (exists o, spsc_step s l = Some o) ->
    exists l s', is_producer l = b /\ spsc_step s l = Some (Ret s')).
  { intros l b Hl [o E]. destruct (step_inv s l o I E) as (s' & -> & _). by exists l, s'. }
  destruct I as [P C M _]. split; intros Hr.
  - unfold p_rank in Hr. destruct (pp (prod s)) eqn:Epc; [done| | |].
    + destruct (newest_allowed vc _ _ (p_seen (prod s)) (m_tails _ M)) as [m E];
        [pose proof (p_view _ P); unfold n_popped in *; lia|].
      apply (Hgo (LPLoad (length (popped s)))); [done|]. cbn. rewrite Epc, E. by eexists.
    + apply (Hgo LPWrite); [done|]. cbn. rewrite Epc. by eexists.
    + apply (Hgo LPStore); [done|]. cbn. rewrite Epc. by eexists.
  - unfold c_rank in Hr. destruct (cp (cons s)) eqn:Epc; [done| | |].
    + destruct (newest_allowed vp _ _ (c_seen (cons s)) (m_heads _ M)) as [m E];
        [pose proof (c_view _ C); unfold n_pushed in *; lia|].
      apply (Hgo (LCLoad (length (pushed s)))); [done|]. cbn. rewrite Epc, E. by eexists.
    + apply (Hgo LCRead); [done|]. cbn. rewrite Epc. by eexists.
    + apply (Hgo LCStore); [done|]. cbn. rewrite Epc. by eexists.
Qed.

Lemma last_val_load clk msgs n seen m :
  stores_ok clk msgs n -> load_acquire msgs seen n = Some m -> msg_val m = last_val msgs.
Proof.
  intros Hm E. rewrite (last_val_ok clk msgs n Hm). by apply (load_acquire_ok clk msgs n seen n m Hm E).
Qed.

Lemma last_val_app msgs m : last_val (msgs ++ [m]) = msg_val m.
Proof.
  unfold last_val. rewrite length_app. cbn [length]. replace (pred (length msgs + 1)) with (length msgs) by lia.
  by rewrite list_lookup_middle.
Qed.

(** Writing and publishing are what [try_push] does once it knows there is room. *)
Lemma solo_write s v hd nx :
  spsc_inv s -> pp (prod s) = PWrite v hd nx ->
  exists s' slots', spsc_run s [LPWrite; LPStore] = Some (Ret s') /\ write_slot (vals (mem s)) hd v = Ret slots'
    /\ spsc_engine s' = set_instr (publish_head (spsc_engine s) nx slots') no_instr
    /\ pushed s' = pushed s ++ [v] /\ pp (prod s') = PIdle.
Proof.
  intros I Epc. cbn [spsc_run spsc_step producer_step]. rewrite Epc.
  destruct (na_write (mem s) (p_clock (prod s)) hd v) as [[m clk]|] eqn:Ew.
  2: { destruct (step_inv s LPWrite Panic I) as (? & ? & _); [|done].
       cbn [spsc_step producer_step]. by rewrite Epc, Ew. }
  cbn [mbind outcome_bind pp prod set_prod]. unfold na_write in Ew. destruct (_ && _); [|done].
  inv_bind Ew. injection Ew as <- <-. do 2 eexists. split; [done|]. split; [exact E|].
  split; [|done]. unfold spsc_engine, publish_head, set_instr.
  cbn [heads tails mem prod cons set_prod set_mem p_local p_cached c_local c_cached vals head head_local tail tail_local
       tail_cached head_cached slots]. by rewrite last_val_app.
Qed.

Lemma run_step s l s1 ls : spsc_step s l = Some (Ret s1) -> spsc_run s (l :: ls) = spsc_run s1 ls.
Proof. intros E. cbn [spsc_run]. by rewrite E. Qed.

Lemma solo_push s v :
  spsc_inv s -> pp (prod s) = PIdle ->
  exists ls s' res, Forall is_producer ls /\ spsc_run s ls = Some (Ret s') /\ pp (prod s') = PIdle
    /\ try_push (spsc_engine s) v = Ret (spsc_engine s', res)
    /\ pushed s' = match res with Ok _ => pushed s ++ [v] | Err _ => pushed s end.
Proof.
  intros I Epc.
  destruct (spsc_step s (LPush v)) as [o|] eqn:E1; [|cbn in E1; by rewrite Epc in E1].
  destruct (step_inv _ _ _ I E1) as (s1 & -> & I1). pose proof E1 as E1'. cbn [spsc_step producer_step] in E1'.
  rewrite Epc in E1'. apply (inj Some) in E1'. inv_bind E1'. rename x into h1, E into Eh.
  inv_bind E1'. rename x into nh, E into Ew. injection E1' as <-.
  unfold try_push. change (own_head (spsc_engine s)) with (if aarch64 then p_local (prod s) else last_val (heads s)).
  set (hd := if aarch64 then p_local (prod s) else last_val (heads s)) in *.
  rewrite Eh. cbn [mbind outcome_bind spsc_engine slots tail_cached tail]. rewrite Ew. cbn [mbind outcome_bind].
  destruct (nh =? p_cached (prod s)) eqn:Eb.
  - set (s1 := set_prod s (at_pp (prod s) (PCheck v hd nh))) in *.
    destruct (newest_allowed vc _ _ (p_seen (prod s)) (m_tails _ (inv_memory _ I))) as [m El];
      [pose proof (p_view _ (inv_producer _ I)); unfold n_popped in *; lia|].
    pose proof (last_val_load _ _ _ _ _ (m_tails _ (inv_memory _ I)) El) as Em.
    destruct (spsc_step s1 (LPLoad (length (popped s)))) as [o|] eqn:E2; [|cbn in E2; by rewrite El in E2].
    destruct (step_inv _ _ _ I1 E2) as (s2 & -> & I2). pose proof E2 as E2'. cbn in E2'. rewrite El in E2'. cbn in E2'.
    injection E2' as <-. rewrite Em in E2, I2. destruct (nh =? last_val (tails s)) eqn:Eb2.
    + exists [LPush v; LPLoad (length (popped s))]. do 2 eexists. split; [by repeat constructor|].
      rewrite (run_step _ _ _ _ E1), (run_step _ _ _ _ E2). by split_and!.
    + destruct (solo_write _ v hd nh I2 eq_refl) as (s' & sl & Er & Esl & Ee & Ep & Ei).
      exists [LPush v; LPLoad (length (popped s)); LPWrite; LPStore], s', (Ok tt). split; [by repeat constructor|].
      rewrite (run_step _ _ _ _ E1), (run_step _ _ _ _ E2), Er, Ee. cbn [mem set_prod] in Esl.
      split_and!; try done. unfold set_tail_cached. cbn [slots spsc_engine]. change (mem s1) with (mem s) in Esl.
      by rewrite Esl.
  - destruct (solo_write _ v hd nh I1 eq_refl) as (s' & sl & Er & Esl & Ee & Ep & Ei).
    exists [LPush v; LPWrite; LPStore], s', (Ok tt). split; [by repeat constructor|].
    rewrite (run_step _ _ _ _ E1), Er, Ee. cbn [mem set_prod] in Esl. rewrite Esl. by split_and!.
Qed.

(** Reading and publishing are what [try_pop] does once it knows there is a
    value. *)
Lemma solo_read s tl :
  spsc_inv s -> cp (cons s) = CRead tl ->
  exists s' v slots' t1 next_tail, spsc_run s [LCRead; LCStore] = Some (Ret s')
    /\ read_slot (vals (mem s)) tl = Ret (v, slots')
    /\ arith USIZE (tl + 1) = Ret t1 /\ wrap_index t1 (capacity_of (vals (mem s))) = Ret next_tail
    /\ spsc_engine s' = set_instr (publish_tail (spsc_engine s) next_tail slots') no_instr
    /\ popped s' = popped s ++ [v] /\ cp (cons s') = CIdle.
Proof.
  intros I Epc. destruct (spsc_step s LCRead) as [o|] eqn:E1; [|cbn in E1; by rewrite Epc in E1].
  destruct (step_inv _ _ _ I E1) as (s1 & -> & I1). pose proof E1 as E1'. cbn [spsc_step consumer_step] in E1'.
  rewrite Epc in E1'. apply (inj Some) in E1'. inv_bind E1'. destruct x as [[v m] clk]. injection E1' as <-.
  unfold na_read in E. destruct (_ <=? _); [|done]. inv_bind E. destruct x as [v' sl]. injection E as <- <- <-.
  pose proof (proj1 (m_vals _ (inv_memory _ I))) as Ec. pose proof (proj1 (m_vals _ (inv_memory _ I1))) as Ec1.
  pose proof (c_at _ (inv_consumer _ I)) as Ht. unfold cp_ok in Ht. rewrite Epc in Ht. destruct Ht as [-> _].
  pose proof (wrap_next cap Hcap (n_popped s) ltac:(unfold n_popped; lia)) as W. pose proof W as W'.
  inv_bind W'. rename x into t1, E into Et1.
  do 2 eexists. exists sl, t1, ((n_popped s + 1) mod cap). rewrite (run_step _ _ _ _ E1).
  cbn [spsc_run spsc_step consumer_step cons set_cons cp]. cbn [vals mem set_cons set_mem] in Ec1 |- *.
  rewrite Ec1, (bind_assoc_ret _ _ _ _ W), Ec. split; [done|]. split; [done|]. split; [done|]. split; [done|].
  split; [|done]. unfold spsc_engine, publish_tail, set_instr.
  cbn [heads tails mem prod cons set_cons set_mem p_local p_cached c_local c_cached vals head head_local tail tail_local
       tail_cached head_cached slots]. by rewrite last_val_app.
Qed.

Lemma solo_pop s :
  spsc_inv s -> cp (cons s) = CIdle ->
  exists ls s' res, Forall (fun l => is_producer l = false) ls /\ spsc_run s ls = Some (Ret s') /\ cp (cons s') = CIdle
    /\ try_pop (spsc_engine s) = Ret (spsc_engine s', res)
    /\ popped s' = match res with Ok v => popped s ++ [v] | Err _ => popped s end.
Proof.
  intros I Epc.
  destruct (spsc_step s LPop) as [o|] eqn:E1; [|cbn in E1; by rewrite Epc in E1].
  destruct (step_inv _ _ _ I E1) as (s1 & -> & I1). pose proof E1 as E1'. cbn [spsc_step consumer_step] in E1'.
  rewrite Epc in E1'. injection E1' as <-.
  unfold try_pop. change (own_tail (spsc_engine s)) with (if aarch64 then c_local (cons s) else last_val (tails s)).
  set (tl := if aarch64 then c_local (cons s) else last_val (tails s)) in *.
  cbn [spsc_engine slots head_cached head]. destruct (tl =? c_cached (cons s)) eqn:Eb.
  - set (s1 := set_cons s (at_cp (cons s) (CCheck tl))) in *.
    destruct (newest_allowed vp _ _ (c_seen (cons s)) (m_heads _ (inv_memory _ I))) as [m El];
      [pose proof (c_view _ (inv_consumer _ I)); unfold n_pushed in *; lia|].
    pose proof (last_val_load _ _ _ _ _ (m_heads _ (inv_memory _ I)) El) as Em.
    destruct (spsc_step s1 (LCLoad (length (pushed s)))) as [o|] eqn:E2; [|cbn in E2; by rewrite El in E2].
    destruct (step_inv _ _ _ I1 E2) as (s2 & -> & I2). pose proof E2 as E2'. cbn in E2'. rewrite El in E2'. cbn in E2'.
    injection E2' as <-. rewrite Em in E2, I2. destruct (tl =? last_val (heads s)) eqn:Eb2.
    + exists [LPop; LCLoad (length (pushed s))]. do 2 eexists. split; [by repeat constructor|].
      rewrite (run_step _ _ _ _ E1), (run_step _ _ _ _ E2). by split_and!.
    + destruct (solo_read _ tl I2 eq_refl) as (s' & v & sl & t1 & nt & Er & Esl & Et & Ew & Ee & Ep & Ei).
      exists [LPop; LCLoad (length (pushed s)); LCRead; LCStore], s', (Ok v). split; [by repeat constructor|].
      rewrite (run_step _ _ _ _ E1), (run_step _ _ _ _ E2), Er, Ee. split_and!; try done.
      unfold set_head_cached. cbn [slots spsc_engine]. cbn [mem set_cons] in Esl, Ew. change (mem s1) with (mem s) in *.
      rewrite Esl. cbn [mbind outcome_bind]. rewrite Et. cbn [mbind outcome_bind]. by rewrite Ew.
  - destruct (solo_read _ tl I1 eq_refl) as (s' & v & sl & t1 & nt & Er & Esl & Et & Ew & Ee & Ep & Ei).
    exists [LPop; LCRead; LCStore], s', (Ok v). split; [by repeat constructor|].
    rewrite (run_step _ _ _ _ E1), Er, Ee. cbn [mem set_cons] in Esl, Ew. rewrite Esl. cbn [mbind outcome_bind].
    rewrite Et. cbn [mbind outcome_bind]. rewrite Ew. by split_and!.
Qed.
End invariant.

Lemma run_reachable `{BuildProfile} `{TargetArch} `{IndexStrategy} {T} (storage : list (option T)) s ls o :
  reachable storage (Ret s) -> spsc_run s ls = Some o -> reachable storage o.
Proof.
  revert s. induction ls as [|l ls IH]; cbn; intros s Hr E; [by simplify_eq|].
  destruct (spsc_step s l) as [[s'|]|] eqn:El; [|by simplify_eq; econstructor|done].
  by eapply IH; [econstructor|].
Qed.

(** C23. The ring is safe and FIFO under concurrency: in every interleaving of
    the producer's and the consumer's memory accesses, with every stale value
    the acquire loads may return, no slot access races with one of the other
    thread, reads an empty slot or overwrites an occupied one, and nothing
    panics; the values popped are the values pushed, in order, and never more
    than [capacity - 1] are in flight.  While no call runs, dropping the engine
    drops exactly the values in flight. *)
Theorem spsc_race_free_fifo `{BuildProfile} `{TargetArch} (St : IndexStrategy) {T}
    (storage : list (option T)) (o : outcome (spsc T)) :
  supported St storage -> reachable storage o ->
  exists s, o = Ret s /\
    let in_flight := drop (length (popped s)) (pushed s) in
    pushed s = popped s ++ in_flight /\ Z.of_nat (length in_flight) <= capacity_of storage - 1 /\
    (pp (prod s) = PIdle -> cp (cons s) = CIdle -> ring_drop (spsc_engine s) = Ret (Some in_flight)).
Proof.
  intros HS HR. destruct (supported_ring _ _ HS) as (Hc & Es & HW). rewrite Es in HR.
  destruct (reachable_inv _ Hc _ HR) as (s & -> & I). exists s. split; [done|]. cbv zeta. split_and!.
  - rewrite (m_popped _ _ (inv_memory _ _ I)) at 1. symmetry. apply take_drop.
  - rewrite length_drop. pose proof (p_room _ _ (inv_producer _ _ I)). pose proof (p_view _ _ (inv_producer _ _ I)).
    unfold n_pushed, n_popped in *. lia.
  - intros Ep Ec. apply (ring_drop_fifo _ Hc). by apply idle_engine.
Qed.

(** The witness: a one-element ring whose producer first sees a stale tail and
    reports full, then the new one and pushes. *)
Lemma spsc_race_free_fifo_witness :
  exists s : spsc Z,
    @spsc_run debug_profile false BranchWrap Z (spsc_new (replicate 2 None))
      [LPush 10; LPWrite; LPStore; LPush 20; LPop; LCLoad 1; LCRead; LCStore; LPLoad 0;
       LPush 20; LPLoad 1; LPWrite; LPStore] = Some (Ret s)
    /\ pushed s = [10; 20] /\ popped s = [10] /\ @ring_drop debug_profile BranchWrap _ _ (spsc_engine s) = Ret (Some [20]).
Proof.
  eexists. split; [vm_compute; reflexivity|]. split; [reflexivity|]. split; [reflexivity|].
  match goal with |- context [spsc_engine ?s] =>
    destruct (@spsc_race_free_fifo debug_profile false BranchWrap Z (replicate 2 None) (Ret s)) as (s' & E & _ & _ & Hd)
  end.
  - split; [by right|]. split; [left; by exists 2%nat|done].
  - eapply (@run_reachable debug_profile false BranchWrap); [constructor|].
    instantiate (1 := [LPush 10; LPWrite; LPStore; LPush 20; LPop; LCLoad 1; LCRead; LCStore; LPLoad 0;
       LPush 20; LPLoad 1; LPWrite; LPStore]). vm_compute. reflexivity.
  - injection E as <-. exact (Hd eq_refl eq_refl).
Defined.

(** C24. [try_push] and [try_pop] are wait-free: a running call always has an
    access of its own it can make next, each takes it at least one further of
    at most four, and no access of the other thread sets it back. *)
Theorem spsc_wait_free `{BuildProfile} `{TargetArch} (St : IndexStrategy) {T}
    (storage : list (option T)) (s : spsc T) :
  supported St storage -> reachable storage (Ret s) ->
  (p_rank s <> 0%nat -> exists l s', is_producer l = true /\ spsc_step s l = Some (Ret s')) /\
  (c_rank s <> 0%nat -> exists l s', is_producer l = false /\ spsc_step s l = Some (Ret s')) /\
  (forall l s', spsc_step s l = Some (Ret s') ->
    if is_producer l then c_rank s' = c_rank s /\ (p_rank s <> 0 -> p_rank s' < p_rank s)%nat
    else p_rank s' = p_rank s /\ (c_rank s <> 0 -> c_rank s' < c_rank s)%nat).
Proof.
  intros HS HR. destruct (supported_ring _ _ HS) as (Hc & Es & HW). rewrite Es in HR.
  destruct (reachable_inv _ Hc _ HR) as (? & [= <-] & I).
  destruct (call_enabled _ Hc _ I) as [Hp Hq]. split; [done|]. split; [done|].
  intros l s' E. pose proof (step_progress _ _ _ E) as Hs. destruct (is_producer l); destruct Hs as [Es' Hs];
    split; try done; unfold p_rank, c_rank; by rewrite Es'.
Qed.

(** The witness: a producer that finds the ring full by its cached tail still
    has its acquire load to make. *)
Lemma spsc_wait_free_witness :
  exists s : spsc Z,
    @spsc_run debug_profile true BranchWrap Z (spsc_new (replicate 2 None)) [LPush 10; LPWrite; LPStore; LPush 20]
    = Some (Ret s) /\ p_rank s = 3%nat
    /\ exists l s', is_producer l = true /\ @spsc_step debug_profile true BranchWrap Z s l = Some (Ret s').
Proof.
  eexists. split; [vm_compute; reflexivity|]. split; [reflexivity|].
  match goal with |- context [spsc_step ?s] =>
    destruct (@spsc_wait_free debug_profile true BranchWrap Z (replicate 2 None) s) as (Hp & _)
  end.
  - split; [by right|]. split; [left; by exists 2%nat|done].
  - eapply (@run_reachable debug_profile true BranchWrap); [constructor|].
    instantiate (1 := [LPush 10; LPWrite; LPStore; LPush 20]). vm_compute. reflexivity.
  - apply Hp. discriminate.
Defined.

(** The concurrent protocol contains the sequential engine: in every
    reachable state in which a side is idle, that side running alone to the end
    of its call, its loads returning the newest stores, does to the engine in
    memory exactly what [try_push], respectively [try_pop], of the sequential
    model does, with the same result. *)
Theorem spsc_solo_is_sequential `{BuildProfile} `{TargetArch} (St : IndexStrategy) {T}
    (storage : list (option T)) (s : spsc T) (v : T) :
  supported St storage -> reachable storage (Ret s) ->
  (pp (prod s) = PIdle -> exists ls s' res, Forall is_producer ls /\ spsc_run s ls = Some (Ret s')
    /\ try_push (spsc_engine s) v = Ret (spsc_engine s', res)
    /\ pushed s' = match res with Ok _ => pushed s ++ [v] | Err _ => pushed s end) /\
  (cp (cons s) = CIdle -> exists ls s' res, Forall (fun l => is_producer l = false) ls
    /\ spsc_run s ls = Some (Ret s') /\ try_pop (spsc_engine s) = Ret (spsc_engine s', res)
    /\ popped s' = match res with Ok w => popped s ++ [w] | Err _ => popped s end).
Proof.
  intros HS HR. destruct (supported_ring _ _ HS) as (Hc & Es & HW). rewrite Es in HR.
  destruct (reachable_inv _ Hc _ HR) as (? & [= <-] & I). split; intros Hi.
  - destruct (solo_push _ Hc s v I Hi) as (ls & s' & res & Hl & Hr & _ & Ht & Ep). by exists ls, s', res.
  - destruct (solo_pop _ Hc s I Hi) as (ls & s' & res & Hl & Hr & _ & Ht & Ep). by exists ls, s', res.
Qed.

(** The witness: a push into the empty ring. *)
Lemma spsc_solo_is_sequential_witness :
  exists ls (s' : spsc Z) res, Forall is_producer ls
    /\ @spsc_run debug_profile true BranchWrap Z (spsc_new (replicate 2 None)) ls = Some (Ret s')
    /\ @try_push debug_profile true BranchWrap Z _ _ (spsc_engine (spsc_new (replicate 2 None))) 7
       = Ret (spsc_engine s', res).
Proof.
  destruct (@spsc_solo_is_sequential debug_profile true BranchWrap Z (replicate 2 None) (spsc_new (replicate 2 None)) 7)
    as [Hp _].
  - split; [by right|]. split; [left; by exists 2%nat|done].
  - constructor.
  - destruct (Hp eq_refl) as (ls & s' & res & Hl & Hr & Ht & _). by exists ls, s', res.
Defined.
