(* ===== verification/CopySpsc.v ===== *)
(** * The copy ring under concurrency ([crates/queue]: copy_ring/engine.rs, copy_ring/handle.rs)

    [push], [push_batch], [pop] and [pop_batch] of the split copy-ring handles
    as interleaved memory accesses, in the memory model of [Spsc]: the two
    index atomics keep their release stores, an acquire load may return any
    store not older than the last one seen, and a slot access that happens
    before order does not separate from the other thread's last access is a
    data race, [Panic].  A batch copies its two chunks slot by slot, so that
    the other thread may run between any two of its accesses, and publishes
    them with one store.  [push_log] and [pop_log] record what each finished
    call was given and what it returned. *)

From stdpp Require Import base decidable numbers option tactics list.
From Stdlib Require Import ZArith Lia.
From S2P Require Import Prelude Platform Ring CopyRing Spsc.

#[local] Open Scope Z_scope.

(** ** Slot accesses *)

Section accesses.
Context {T : Type}.
Implicit Types m : cells T.

(** The producer overwrites a slot, the consumer copies one out. *)
Definition cell_write m (c : vclock) (i : Z) (v : T) : outcome (cells T * vclock) :=
  if (r_epoch m i <=? vc c) && (w_epoch m i <=? vp c) then
    s ← write_slot_copy (vals m) i v;
    let c := {| vp := vp c + 1; vc := vc c |} in
    Ret ({| vals := s; w_epoch := update (w_epoch m) i (vp c); r_epoch := r_epoch m |}, c)
  else Panic.

Definition cell_read m (c : vclock) (i : Z) : outcome (T * cells T * vclock) :=
  if w_epoch m i <=? vp c then
    v ← read_slot_copy (vals m) i;
    let c := {| vp := vp c; vc := vc c + 1 |} in
    Ret (v, {| vals := vals m; w_epoch := w_epoch m; r_epoch := update (r_epoch m) i (vc c) |}, c)
  else Panic.
End accesses.

(** ** The calls in progress *)

(** The copy a push is making: the argument it was given, the slot it starts
    at, the length of the chunk before the wrap-around, the values it copies
    and how many it has; [push] knows the index it will publish, [push_batch]
    computes it afterwards. *)
Record push_job (T : Type) := {
  j_offered : list T; j_at : Z; j_first : Z; j_vals : list T; j_done : nat; j_next : option Z;
}.
Arguments j_offered {T} _.
Arguments j_at {T} _.
Arguments j_first {T} _.
Arguments j_vals {T} _.
Arguments j_done {T} _.
Arguments j_next {T} _.

(** The copy a pop is making into the front of a destination of length
    [r_want]. *)
Record pop_job (T : Type) := {
  r_want : nat; r_at : Z; r_first : Z; r_count : nat; r_got : list T;
}.
Arguments r_want {T} _.
Arguments r_at {T} _.
Arguments r_first {T} _.
Arguments r_count {T} _.
Arguments r_got {T} _.

(** Element [i] of a two-chunk copy. *)
Definition chunk_slot (start first : Z) (i : nat) : Z :=
  if Z.of_nat i <? first then start + Z.of_nat i else Z.of_nat i - first.

Inductive push_pc (T : Type) :=
| KIdle
| KCheck (v : T) (hd next_head : Z)     (** at the [tail.load(Acquire)] of [push] *)
| KCheckBatch (src : list T) (hd : Z)   (** at the [tail.load(Acquire)] of [push_batch] *)
| KCopy (j : push_job T).               (** copying, then at [head.store(Release)] *)
Arguments KIdle {T}.
Arguments KCheck {T} _ _ _.
Arguments KCheckBatch {T} _ _.
Arguments KCopy {T} _.

Inductive pop_pc (T : Type) :=
| RIdle
| RCheck (tl : Z)
| RCheckBatch (want : nat) (tl : Z)
| RCopy (j : pop_job T).
Arguments RIdle {T}.
Arguments RCheck {T} _.
Arguments RCheckBatch {T} _ _.
Arguments RCopy {T} _.

(** A thread: its call, its own cells, the store of the other index it saw
    last and its clock. *)
Record side (PC : Type) := { at_pc : PC; own_local : Z; remote_cached : Z; seen_store : nat; own_clock : vclock }.
Arguments at_pc {PC} _.
Arguments own_local {PC} _.
Arguments remote_cached {PC} _.
Arguments seen_store {PC} _.
Arguments own_clock {PC} _.

Definition goto {PC} (x : side PC) (p : PC) : side PC :=
  {| at_pc := p; own_local := own_local x; remote_cached := remote_cached x; seen_store := seen_store x;
     own_clock := own_clock x |}.
(** After the acquire load that returned store [k]. *)
Definition acquired {PC} (x : side PC) (p : PC) (k : nat) (m : message) : side PC :=
  {| at_pc := p; own_local := own_local x; remote_cached := msg_val m; seen_store := k;
     own_clock := join (own_clock x) (msg_clock m) |}.
(** After a slot access, which moved the clock. *)
Definition ticked {PC} (x : side PC) (p : PC) (c : vclock) : side PC :=
  {| at_pc := p; own_local := own_local x; remote_cached := remote_cached x; seen_store := seen_store x;
     own_clock := c |}.
(** After the release store of [i]. *)
Definition released `{TargetArch} {PC} (x : side PC) (p : PC) (i : Z) : side PC :=
  {| at_pc := p; own_local := if aarch64 then i else own_local x; remote_cached := remote_cached x;
     seen_store := seen_store x; own_clock := own_clock x |}.

Record copy_spsc (T : Type) := {
  head_stores : list message;
  tail_stores : list message;
  copy_mem : cells T;
  pusher : side (push_pc T);
  popper : side (pop_pc T);
  sent : list T;
  received : list T;
  push_log : list (list T * nat);
  pop_log : list (nat * list T);
}.
Arguments head_stores {T} _.
Arguments tail_stores {T} _.
Arguments copy_mem {T} _.
Arguments pusher {T} _.
Arguments popper {T} _.
Arguments sent {T} _.
Arguments received {T} _.
Arguments push_log {T} _.
Arguments pop_log {T} _.

Inductive copy_label (T : Type) :=
| KPush (v : T) | KPushBatch (src : list T) | KTailLoad (k : nat) | KSlotWrite | KHeadStore
| KPop | KPopBatch (want : nat) | KHeadLoad (k : nat) | KSlotRead | KTailStore.
Arguments KPush {T} _.
Arguments KPushBatch {T} _.
Arguments KTailLoad {T} _.
Arguments KSlotWrite {T}.
Arguments KHeadStore {T}.
Arguments KPop {T}.
Arguments KPopBatch {T} _.
Arguments KHeadLoad {T} _.
Arguments KSlotRead {T}.
Arguments KTailStore {T}.

Section steps.
Context `{BuildProfile} `{TargetArch} `{IndexStrategy} {T : Type}.
Implicit Types s : copy_spsc T.

Definition copy_spsc_new (storage : list (option T)) : copy_spsc T :=
  let idle {PC} (p : PC) :=
    {| at_pc := p; own_local := 0; remote_cached := 0; seen_store := 0; own_clock := clock0 |} in
  {| head_stores := [{| msg_val := 0; msg_clock := clock0 |}];
     tail_stores := [{| msg_val := 0; msg_clock := clock0 |}];
     copy_mem := {| vals := storage; w_epoch := fun _ => 0; r_epoch := fun _ => 0 |};
     pusher := idle KIdle; popper := idle RIdle;
     sent := []; received := []; push_log := []; pop_log := [] |}.

Definition set_pusher s (p : side (push_pc T)) : copy_spsc T :=
  {| head_stores := head_stores s; tail_stores := tail_stores s; copy_mem := copy_mem s; pusher := p;
     popper := popper s; sent := sent s; received := received s; push_log := push_log s; pop_log := pop_log s |}.
Definition set_popper s (c : side (pop_pc T)) : copy_spsc T :=
  {| head_stores := head_stores s; tail_stores := tail_stores s; copy_mem := copy_mem s; pusher := pusher s;
     popper := c; sent := sent s; received := received s; push_log := push_log s; pop_log := pop_log s |}.
Definition set_copy_mem s (m : cells T) : copy_spsc T :=
  {| head_stores := head_stores s; tail_stores := tail_stores s; copy_mem := m; pusher := pusher s;
     popper := popper s; sent := sent s; received := received s; push_log := push_log s; pop_log := pop_log s |}.

(** A call that returns without moving anything. *)
Definition push_returns s (offered : list T) (n : nat) : copy_spsc T :=
  {| head_stores := head_stores s; tail_stores := tail_stores s; copy_mem := copy_mem s; pusher := pusher s;
     popper := popper s; sent := sent s; received := received s;
     push_log := push_log s ++ [(offered, n)]; pop_log := pop_log s |}.
Definition pop_returns s (want : nat) (got : list T) : copy_spsc T :=
  {| head_stores := head_stores s; tail_stores := tail_stores s; copy_mem := copy_mem s; pusher := pusher s;
     popper := popper s; sent := sent s; received := received s;
     push_log := push_log s; pop_log := pop_log s ++ [(want, got)] |}.

(** [push]'s single copy. *)
Definition single_push (v : T) (hd next_head : Z) : push_job T :=
  {| j_offered := [v]; j_at := hd; j_first := 1; j_vals := [v]; j_done := 0; j_next := Some next_head |}.

(** The two chunks [push_batch] will copy. *)
Definition batch_push (src : list T) (hd free cap : Z) : outcome (push_job T) :=
  let n := Z.min (Z.of_nat (length src)) free in
  room ← arith USIZE (cap - hd);
  let first_chunk := Z.min n room in
  second_chunk ← arith USIZE (n - first_chunk);
  src1 ← slice src 0 first_chunk;
  src2 ← (if 0 <? second_chunk then slice src first_chunk n else Ret []);
  Ret {| j_offered := src; j_at := hd; j_first := first_chunk; j_vals := src1 ++ src2; j_done := 0; j_next := None |}.

Definition single_pop (tl : Z) : pop_job T :=
  {| r_want := 1; r_at := tl; r_first := 1; r_count := 1; r_got := [] |}.

(** The range check of [&mut dst[a..b]]. *)
Definition slice_bounds (len : nat) (a b : Z) : outcome unit :=
  if decide (0 <= a <= b /\ b <= Z.of_nat len) then Ret tt else Panic.

Definition batch_pop (want : nat) (tl avail cap : Z) : outcome (pop_job T) :=
  let n := Z.min (Z.of_nat want) avail in
  room ← arith USIZE (cap - tl);
  let first_chunk := Z.min n room in
  second_chunk ← arith USIZE (n - first_chunk);
  _ ← slice_bounds want 0 first_chunk;
  _ ← (if 0 <? second_chunk then slice_bounds want first_chunk n else Ret tt);
  Ret {| r_want := want; r_at := tl; r_first := first_chunk; r_count := Z.to_nat n; r_got := [] |}.

(** [usable - len]. *)
Definition free_slots (hd tl cap : Z) : outcome Z :=
  usable ← arith USIZE (cap - 1);
  len ← ring_distance hd tl cap;
  arith USIZE (usable - len).

(** [push] and [push_batch], access by access; [None] where the access is not
    the thread's next one. *)
Definition push_step s (l : copy_label T) : option (outcome (copy_spsc T)) :=
  let p := pusher s in
  let cap := capacity_of (vals (copy_mem s)) in
  let hd := if aarch64 then own_local p else last_val (head_stores s) in
  match l, at_pc p with
  | KPush v, KIdle => Some (
      h1 ← arith USIZE (hd + 1);
      next_head ← wrap_index h1 cap;
      Ret (set_pusher s (goto p (if next_head =? remote_cached p then KCheck v hd next_head
                                 else KCopy (single_push v hd next_head)))))
  | KTailLoad k, KCheck v hd next_head =>
      m ← load_acquire (tail_stores s) (seen_store p) k;
      Some (Ret (
        if next_head =? msg_val m then push_returns (set_pusher s (acquired p KIdle k m)) [v] 0
        else set_pusher s (acquired p (KCopy (single_push v hd next_head)) k m)))
  | KPushBatch src, KIdle => Some (
      if decide (length src = 0%nat) then Ret (push_returns s src 0)
      else
        free ← free_slots hd (remote_cached p) cap;
        if free <? Z.of_nat (length src) then Ret (set_pusher s (goto p (KCheckBatch src hd)))
        else j ← batch_push src hd free cap; Ret (set_pusher s (goto p (KCopy j))))
  | KTailLoad k, KCheckBatch src hd =>
      m ← load_acquire (tail_stores s) (seen_store p) k;
      Some (
        free ← free_slots hd (msg_val m) cap;
        if free =? 0 then Ret (push_returns (set_pusher s (acquired p KIdle k m)) src 0)
        else j ← batch_push src hd free cap; Ret (set_pusher s (acquired p (KCopy j) k m)))
  | KSlotWrite, KCopy j =>
      v ← j_vals j !! j_done j;
      Some (
        '(m, c) ← cell_write (copy_mem s) (own_clock p) (chunk_slot (j_at j) (j_first j) (j_done j)) v;
        Ret (set_pusher (set_copy_mem s m)
          (ticked p (KCopy {| j_offered := j_offered j; j_at := j_at j; j_first := j_first j; j_vals := j_vals j;
                              j_done := S (j_done j); j_next := j_next j |}) c)))
  | KHeadStore, KCopy j =>
      if decide (j_done j = length (j_vals j)) then Some (
        new_head ← (match j_next j with
                    | Some i => Ret i
                    | None => x ← arith USIZE (j_at j + Z.of_nat (length (j_vals j))); wrap_index x cap
                    end);
        Ret {| head_stores := head_stores s ++ [{| msg_val := new_head; msg_clock := own_clock p |}];
               tail_stores := tail_stores s; copy_mem := copy_mem s; pusher := released p KIdle new_head;
               popper := popper s; sent := sent s ++ j_vals j; received := received s;
               push_log := push_log s ++ [(j_offered j, length (j_vals j))]; pop_log := pop_log s |})
      else None
  | _, _ => None
  end.

(** [pop] and [pop_batch], access by access. *)
Definition pop_step s (l : copy_label T) : option (outcome (copy_spsc T)) :=
  let c := popper s in
  let cap := capacity_of (vals (copy_mem s)) in
  let tl := if aarch64 then own_local c else last_val (tail_stores s) in
  match l, at_pc c with
  | KPop, RIdle => Some (Ret (
      set_popper s (goto c (if tl =? remote_cached c then RCheck tl else RCopy (single_pop tl)))))
  | KHeadLoad k, RCheck tl =>
      m ← load_acquire (head_stores s) (seen_store c) k;
      Some (Ret (
        if tl =? msg_val m then pop_returns (set_popper s (acquired c RIdle k m)) 1 []
        else set_popper s (acquired c (RCopy (single_pop tl)) k m)))
  | KPopBatch want, RIdle => Some (
      if decide (want = 0%nat) then Ret (pop_returns s want [])
      else
        avail ← ring_distance (remote_cached c) tl cap;
        if avail <? Z.of_nat want then Ret (set_popper s (goto c (RCheckBatch want tl)))
        else j ← batch_pop want tl avail cap; Ret (set_popper s (goto c (RCopy j))))
  | KHeadLoad k, RCheckBatch want tl =>
      m ← load_acquire (head_stores s) (seen_store c) k;
      Some (
        avail ← ring_distance (msg_val m) tl cap;
        if avail =? 0 then Ret (pop_returns (set_popper s (acquired c RIdle k m)) want [])
        else j ← batch_pop want tl avail cap; Ret (set_popper s (acquired c (RCopy j) k m)))
  | KSlotRead, RCopy j =>
      if decide (length (r_got j) < r_count j)%nat then Some (
        '(v, m, clk) ← cell_read (copy_mem s) (own_clock c) (chunk_slot (r_at j) (r_first j) (length (r_got j)));
        Ret (set_popper (set_copy_mem s m)
          (ticked c (RCopy {| r_want := r_want j; r_at := r_at j; r_first := r_first j; r_count := r_count j;
                              r_got := r_got j ++ [v] |}) clk)))
      else None
  | KTailStore, RCopy j =>
      if decide (length (r_got j) = r_count j) then Some (
        x ← arith USIZE (r_at j + Z.of_nat (r_count j));
        new_tail ← wrap_index x cap;
        Ret {| head_stores := head_stores s;
               tail_stores := tail_stores s ++ [{| msg_val := new_tail; msg_clock := own_clock c |}];
               copy_mem := copy_mem s; pusher := pusher s; popper := released c RIdle new_tail;
               sent := sent s; received := received s ++ r_got j;
               push_log := push_log s; pop_log := pop_log s ++ [(r_want j, r_got j)] |})
      else None
  | _, _ => None
  end.

Definition copy_pushes (l : copy_label T) : bool :=
  match l with KPush _ | KPushBatch _ | KTailLoad _ | KSlotWrite | KHeadStore => true | _ => false end.

Definition copy_spsc_step s (l : copy_label T) : option (outcome (copy_spsc T)) :=
  if copy_pushes l then push_step s l else pop_step s l.

(** A schedule. *)
Fixpoint copy_spsc_run s (ls : list (copy_label T)) : option (outcome (copy_spsc T)) :=
  match ls with
  | [] => Some (Ret s)
  | l :: ls =>
      match copy_spsc_step s l with
      | Some (Ret s') => copy_spsc_run s' ls
      | o => o
      end
  end.

(** The engine in memory while no call is running. *)
Definition copy_spsc_engine s : CopyRingEngine T NoInstr :=
  {| head := last_val (head_stores s); head_local := own_local (pusher s); tail_cached := remote_cached (pusher s);
     tail := last_val (tail_stores s); tail_local := own_local (popper s); head_cached := remote_cached (popper s);
     slots := vals (copy_mem s); ring_instr := no_instr |}.

(** The states an interleaving can reach. *)
Inductive copy_reachable (storage : list (option T)) : outcome (copy_spsc T) -> Prop :=
| copy_reach_new : copy_reachable storage (Ret (copy_spsc_new storage))
| copy_reach_step s l o :
    copy_reachable storage (Ret s) -> copy_spsc_step s l = Some o -> copy_reachable storage o.
End steps.

(** * The invariant of the protocol *)

Section invariant.
Context `{BuildProfile} `{TargetArch} `{IndexStrategy} {T : Type}.
Context (cap : Z) (Hcap : 1 <= cap <= 2 ^ 62) `{!BatchWrap cap}.
Implicit Types s : copy_spsc T.

(** How many slot accesses store [k] of an index released: the position it
    stands for. *)
Definition store_pos (clk : vclock -> Z) (msgs : list message) (k : nat) : Z :=
  match msgs !! k with Some m => clk (msg_clock m) | None => 0 end.

Record stores_at (clk : vclock -> Z) (msgs : list message) (n : Z) : Prop := {
  st_last : (0 < length msgs)%nat /\ store_pos clk msgs (pred (length msgs)) = n;
  st_vals : forall k m, msgs !! k = Some m -> msg_val m = store_pos clk msgs k mod cap /\ 0 <= store_pos clk msgs k;
  st_mono : forall j k, (j <= k < length msgs)%nat -> store_pos clk msgs j <= store_pos clk msgs k;
}.

Definition n_sent s : Z := Z.of_nat (length (sent s)).
Definition n_received s : Z := Z.of_nat (length (received s)).

(** The positions of the remote stores the two sides saw last. *)
Definition front s : Z := store_pos vc (tail_stores s) (seen_store (pusher s)).
Definition back s : Z := store_pos vp (head_stores s) (seen_store (popper s)).

(** The values copied by the calls in progress. *)
Definition pc_copied (pc : push_pc T) : list T := match pc with KCopy j => take (j_done j) (j_vals j) | _ => [] end.
Definition pc_got (pc : pop_pc T) : list T := match pc with RCopy j => r_got j | _ => [] end.
Definition copied s : list T := pc_copied (at_pc (pusher s)).
Definition got s : list T := pc_got (at_pc (popper s)).
Definition all_written s : list T := sent s ++ copied s.
Definition reads s : nat := length (received s) + length (got s).

Definition push_pc_ok (n frnt : Z) (pc : push_pc T) : Prop :=
  match pc with
  | KIdle => True
  | KCheck _ hd nx => hd = n mod cap /\ nx = (n + 1) mod cap
  | KCheckBatch src hd => hd = n mod cap
  | KCopy j =>
      j_at j = n mod cap /\ (j_done j <= length (j_vals j))%nat /\ n + Z.of_nat (length (j_vals j)) < frnt + cap /\
      j_first j = Z.min (Z.of_nat (length (j_vals j))) (cap - j_at j) /\
      (forall i, j_next j = Some i -> i = (n + Z.of_nat (length (j_vals j))) mod cap) /\
      j_vals j = take (length (j_vals j)) (j_offered j)
  end.

Definition pop_pc_ok (n bck : Z) (pc : pop_pc T) : Prop :=
  match pc with
  | RIdle => True
  | RCheck tl | RCheckBatch _ tl => tl = n mod cap
  | RCopy j =>
      r_at j = n mod cap /\ (length (r_got j) <= r_count j <= r_want j)%nat /\ n + Z.of_nat (r_count j) <= bck /\
      r_first j = Z.min (Z.of_nat (r_count j)) (cap - r_at j)
  end.

Record pusher_ok s : Prop := {
  pu_at : push_pc_ok (n_sent s) (front s) (at_pc (pusher s));
  pu_own : aarch64 = true -> own_local (pusher s) = n_sent s mod cap;
  pu_cache : remote_cached (pusher s) = front s mod cap;
  pu_seen : (seen_store (pusher s) < length (tail_stores s))%nat;
  pu_room : n_sent s < front s + cap;
  pu_knows : front s <= vc (own_clock (pusher s));
  pu_wrote : vp (own_clock (pusher s)) = Z.of_nat (length (all_written s));
}.

Record popper_ok s : Prop := {
  po_at : pop_pc_ok (n_received s) (back s) (at_pc (popper s));
  po_own : aarch64 = true -> own_local (popper s) = n_received s mod cap;
  po_cache : remote_cached (popper s) = back s mod cap;
  po_seen : (seen_store (popper s) < length (head_stores s))%nat;
  po_room : n_received s <= back s;
  po_knows : back s <= vp (own_clock (popper s));
  po_read : vc (own_clock (popper s)) = Z.of_nat (reads s);
  po_prefix : received s ++ got s = take (reads s) (sent s);
}.

Record copy_memory_ok s : Prop := {
  cm_heads : stores_at vp (head_stores s) (n_sent s);
  cm_tails : stores_at vc (tail_stores s) (n_received s);
  cm_vals : slots_have cap (vals (copy_mem s)) (Z.of_nat (reads s)) (drop (reads s) (all_written s));
  cm_writes : epochs_ok cap (w_epoch (copy_mem s)) (Z.of_nat (length (all_written s)));
  cm_reads : epochs_ok cap (r_epoch (copy_mem s)) (Z.of_nat (reads s));
}.

Record copy_clocks_ok s : Prop := {
  ck_pusher : vc (own_clock (pusher s)) <= Z.of_nat (reads s);
  ck_popper : vp (own_clock (popper s)) <= Z.of_nat (length (all_written s));
  ck_heads : Forall (fun m => vc (msg_clock m) <= Z.of_nat (reads s)) (head_stores s);
  ck_tails : Forall (fun m => vp (msg_clock m) <= Z.of_nat (length (all_written s))) (tail_stores s);
}.

(** The values moved are the accepted prefixes of the arguments, and the
    contents of the destinations. *)
Record logs_ok s : Prop := {
  lg_sent : sent s = concat ((fun e => take e.2 e.1) <$> push_log s);
  lg_accepted : Forall (fun e => e.2 <= length e.1)%nat (push_log s);
  lg_received : received s = concat (snd <$> pop_log s);
  lg_delivered : Forall (fun e => length e.2 <= e.1)%nat (pop_log s);
}.

Record copy_spsc_inv s : Prop := {
  ci_pusher : pusher_ok s;
  ci_popper : popper_ok s;
  ci_memory : copy_memory_ok s;
  ci_clocks : copy_clocks_ok s;
  ci_logs : logs_ok s;
}.

(** ** Stores *)

Lemma store_pos_app clk msgs ms k : (k < length msgs)%nat -> store_pos clk (msgs ++ ms) k = store_pos clk msgs k.
Proof. intros Hk. unfold store_pos. by rewrite lookup_app_l. Qed.

Lemma store_pos_new clk msgs m : store_pos clk (msgs ++ [m]) (length msgs) = clk (msg_clock m).
Proof. unfold store_pos. by rewrite list_lookup_middle. Qed.

Lemma stores_last clk msgs n : stores_at clk msgs n -> last_val msgs = n mod cap.
Proof.
  intros [[Hl <-] Hv _]. unfold last_val. destruct (lookup_lt_is_Some_2 msgs (pred (length msgs))) as [m E]; [lia|].
  destruct (Hv _ _ E) as [Em _]. by rewrite E.
Qed.

Lemma stores_le clk msgs n k : stores_at clk msgs n -> (k < length msgs)%nat -> 0 <= store_pos clk msgs k <= n.
Proof.
  intros [[Hl <-] Hv Hm] Hk. destruct (lookup_lt_is_Some_2 msgs k Hk) as [m E]. destruct (Hv _ _ E).
  split; [done|]. apply Hm. lia.
Qed.

Lemma stores_app clk msgs n m :
  stores_at clk msgs n -> n <= clk (msg_clock m) -> msg_val m = clk (msg_clock m) mod cap ->
  stores_at clk (msgs ++ [m]) (clk (msg_clock m)).
Proof.
  intros S Hn Em. pose proof S as [[Hl El] Hv Hm]. pose proof (stores_le _ _ _ (pred (length msgs)) S ltac:(lia)).
  split.
  - rewrite length_app. cbn [length]. replace (pred (length msgs + 1)) with (length msgs) by lia.
    split; [lia|]. by rewrite store_pos_new.
  - intros k m' Hk. apply lookup_app_Some in Hk as [Hk|[Hge Hk]].
    + rewrite store_pos_app by (by eapply lookup_lt_Some). by apply Hv.
    + apply list_lookup_singleton_Some in Hk as [E <-]. replace k with (length msgs) by lia.
      rewrite store_pos_new. split; [done|lia].
  - intros j k Hj. rewrite length_app in Hj. cbn [length] in Hj.
    destruct (decide (k < length msgs)%nat); [rewrite !store_pos_app by lia; apply Hm; lia|].
    replace k with (length msgs) by lia. rewrite store_pos_new.
    destruct (decide (j < length msgs)%nat).
    + rewrite store_pos_app by lia. pose proof (stores_le _ _ _ j S ltac:(lia)). lia.
    + replace j with (length msgs) by lia. by rewrite store_pos_new.
Qed.

Lemma stores_load clk msgs n seen k m :
  stores_at clk msgs n -> load_acquire msgs seen k = Some m ->
  (k < length msgs)%nat /\ store_pos clk msgs seen <= store_pos clk msgs k <= n
  /\ msg_val m = store_pos clk msgs k mod cap /\ clk (msg_clock m) = store_pos clk msgs k.
Proof.
  unfold load_acquire. intros S E. destruct (decide (seen <= k)%nat); [|done].
  pose proof (lookup_lt_Some _ _ _ E) as Hk. pose proof (stores_le _ _ _ k S Hk).
  split; [done|]. split; [split; [apply (st_mono _ _ _ S); lia|lia]|].
  split; [by apply (st_vals _ _ _ S)|]. unfold store_pos. by rewrite E.
Qed.

(** ** The order of the positions *)

Lemma inv_order s :
  copy_spsc_inv s ->
  0 <= front s <= n_received s /\ n_received s <= Z.of_nat (reads s) <= back s /\ back s <= n_sent s
  /\ Z.of_nat (length (all_written s)) = n_sent s + Z.of_nat (length (copied s))
  /\ n_sent s + Z.of_nat (length (copied s)) < front s + cap.
Proof.
  intros [P C M _ _]. pose proof (stores_le _ _ _ _ (cm_tails _ M) (pu_seen _ P)).
  pose proof (stores_le _ _ _ _ (cm_heads _ M) (po_seen _ C)).
  pose proof (pu_at _ P) as Pa. pose proof (pu_room _ P). pose proof (po_at _ C) as Ca. pose proof (po_room _ C).
  fold (front s) (back s) in *. split; [done|]. split; [|split; [lia|]].
  - unfold reads, got in *. unfold n_received in *. destruct (at_pc (popper s)); cbn [pc_got length pop_pc_ok] in *; lia.
  - unfold all_written. rewrite length_app, Nat2Z.inj_add. split; [done|]. unfold copied.
    destruct (at_pc (pusher s)); cbn [pc_copied length push_pc_ok] in *; [lia..|].
    rewrite length_take. lia.
Qed.

Lemma chunk_slot_ok x n i :
  0 <= x -> Z.of_nat n <= cap -> (i < n)%nat ->
  chunk_slot (x mod cap) (Z.min (Z.of_nat n) (cap - x mod cap)) i = (x + Z.of_nat i) mod cap.
Proof.
  intros Hx Hn Hi. pose proof (mod_move cap Hcap x (Z.of_nat i) ltac:(lia)).
  pose proof (Z.mod_pos_bound x cap ltac:(lia)). unfold chunk_slot. destruct (Z.ltb_spec (Z.of_nat i) (Z.min (Z.of_nat n) (cap - x mod cap))); lia.
Qed.

(** ** Steps that move one side only *)

(** Evaluate the projections of an updated state. *)
Ltac unfold_copy :=
  unfold n_sent, n_received, front, back, all_written, reads, copied, got in *;
  cbn [copy_spsc_new set_pusher set_popper set_copy_mem push_returns pop_returns goto acquired ticked released
       head_stores tail_stores copy_mem pusher popper sent received push_log pop_log
       at_pc own_local remote_cached seen_store own_clock vals w_epoch r_epoch
       j_offered j_at j_first j_vals j_done j_next r_want r_at r_first r_count r_got
       msg_val msg_clock vp vc join clock0 pc_copied pc_got length app drop take Nat.add] in *.

(** A part of the invariant the step does not touch. *)
Ltac untouched :=
  match goal with
  | H : ?R ?s |- ?R ?s' => destruct H; split; unfold_copy; assumption
  end.

Lemma copy_new_inv : copy_spsc_inv (copy_spsc_new (replicate (Z.to_nat cap) None)).
Proof.
  assert (forall clk : vclock -> Z, clk clock0 = 0 -> stores_at clk [{| msg_val := 0; msg_clock := clock0 |}] 0) as Hst.
  { intros clk E. split; [unfold store_pos; cbn; lia| |].
    - intros k m Hk. apply list_lookup_singleton_Some in Hk as [-> <-]. unfold store_pos. cbn.
      rewrite E. by rewrite Z.mod_0_l by lia.
    - intros j k Hk. cbn in Hk. by replace k with j by lia. }
  assert (epochs_ok cap (fun _ => 0) 0) by (intros k Hk; lia).
  split; split; unfold_copy; unfold store_pos; cbn; rewrite ?Z.mod_0_l by lia;
    try done; try lia; try by apply Hst.
  1: by split; [unfold capacity_of; rewrite length_replicate; lia|].
  all: by constructor.
Qed.

Lemma push_returns_inv s src : copy_spsc_inv s -> copy_spsc_inv (push_returns s src 0).
Proof.
  intros [P C M K [A B D E]]. split; [untouched..|]. split; unfold_copy; try done.
  - by rewrite fmap_app, concat_app, <- A, app_nil_r.
  - apply Forall_app. split; [done|]. constructor; [cbn; lia|done].
Qed.

Lemma pop_returns_inv s want : copy_spsc_inv s -> copy_spsc_inv (pop_returns s want []).
Proof.
  intros [P C M K [A B D E]]. split; [untouched..|]. split; unfold_copy; try done.
  - by rewrite fmap_app, concat_app, <- D, app_nil_r.
  - apply Forall_app. split; [done|]. constructor; [cbn; lia|done].
Qed.

Lemma push_acquire_inv s pc k m :
  copy_spsc_inv s -> load_acquire (tail_stores s) (seen_store (pusher s)) k = Some m ->
  copied s = [] -> pc_copied pc = [] -> push_pc_ok (n_sent s) (store_pos vc (tail_stores s) k) pc ->
  copy_spsc_inv (set_pusher s (acquired (pusher s) pc k m)).
Proof.
  intros [P C M K L] El Ec Ec' Hpc.
  destruct (stores_load vc _ _ _ _ _ (cm_tails _ M) El) as (Hk & Hs & Ev & Em).
  pose proof K as [Kp Kc Kh Kt]. pose proof (load_acquire_Forall _ _ _ _ _ Kt El) as Hvp. cbn in Hvp.
  assert (n_received s <= Z.of_nat (reads s)) by (unfold n_received, reads; lia).
  destruct P as [Pa Po Pc Ps Pr Pk Pw]. split; [|untouched| | |untouched].
  - split; unfold_copy; rewrite ?Ec', ?Ec in *; try done; lia.
  - destruct M; split; unfold_copy; rewrite ?Ec', ?Ec in *; done.
  - split; unfold_copy; rewrite ?Ec', ?Ec in *; try done; lia.
Qed.

Lemma push_goto_inv s pc :
  copy_spsc_inv s -> copied s = [] -> pc_copied pc = [] -> push_pc_ok (n_sent s) (front s) pc ->
  copy_spsc_inv (set_pusher s (goto (pusher s) pc)).
Proof.
  intros [P C M K L] Ec Ec' Hpc. destruct P as [Pa Po Pc Ps Pr Pk Pw]. split; [|untouched| | |untouched].
  - split; unfold_copy; rewrite ?Ec', ?Ec in *; done.
  - destruct M; split; unfold_copy; rewrite ?Ec', ?Ec in *; done.
  - destruct K; split; unfold_copy; rewrite ?Ec', ?Ec in *; done.
Qed.

Lemma pop_acquire_inv s pc k m :
  copy_spsc_inv s -> load_acquire (head_stores s) (seen_store (popper s)) k = Some m ->
  got s = [] -> pc_got pc = [] -> pop_pc_ok (n_received s) (store_pos vp (head_stores s) k) pc ->
  copy_spsc_inv (set_popper s (acquired (popper s) pc k m)).
Proof.
  intros [P C M K L] El Ec Ec' Hpc.
  destruct (stores_load vp _ _ _ _ _ (cm_heads _ M) El) as (Hk & Hs & Ev & Em).
  pose proof K as [Kp Kc Kh Kt]. pose proof (load_acquire_Forall _ _ _ _ _ Kh El) as Hvp. cbn in Hvp.
  assert (n_sent s <= Z.of_nat (length (all_written s))) by (unfold n_sent, all_written; rewrite length_app; lia).
  destruct C as [Pa Po Pc Ps Pr Pk Pw Px]. split; [untouched| | | |untouched].
  - split; unfold_copy; rewrite ?Ec', ?Ec in *; try done; lia.
  - destruct M; split; unfold_copy; rewrite ?Ec', ?Ec in *; done.
  - split; unfold_copy; rewrite ?Ec', ?Ec in *; try done; lia.
Qed.

Lemma pop_goto_inv s pc :
  copy_spsc_inv s -> got s = [] -> pc_got pc = [] -> pop_pc_ok (n_received s) (back s) pc ->
  copy_spsc_inv (set_popper s (goto (popper s) pc)).
Proof.
  intros [P C M K L] Ec Ec' Hpc. destruct C as [Pa Po Pc Ps Pr Pk Pw Px]. split; [untouched| | | |untouched].
  - split; unfold_copy; rewrite ?Ec', ?Ec in *; done.
  - destruct M; split; unfold_copy; rewrite ?Ec', ?Ec in *; done.
  - destruct K; split; unfold_copy; rewrite ?Ec', ?Ec in *; done.
Qed.

(** ** The copies the calls plan *)

Lemma free_slots_ok h t : t <= h < t + cap -> free_slots (h mod cap) (t mod cap) cap = Ret (cap - 1 - (h - t)).
Proof.
  intros Hd. unfold free_slots. rewrite (arith_ok _ (cap - 1)) by mlia. cbn [mbind outcome_bind].
  rewrite (ring_distance_ok cap Hcap) by done. cbn [mbind outcome_bind]. by rewrite arith_ok by mlia.
Qed.

Lemma single_push_ok (v : T) n frnt :
  0 <= n -> n + 1 < frnt + cap -> push_pc_ok n frnt (KCopy (single_push v (n mod cap) ((n + 1) mod cap))).
Proof.
  intros Hn Hf. pose proof (Z.mod_pos_bound n cap ltac:(lia)).
  cbn [push_pc_ok single_push j_at j_done j_vals j_first j_next j_offered length].
  split_and!; try done; try lia. by intros i [= <-].
Qed.

Lemma batch_push_ok (src : list T) n frnt free :
  0 <= n -> frnt <= n -> 0 <= free -> n + free < frnt + cap ->
  exists j, batch_push src (n mod cap) free cap = Ret j /\ push_pc_ok n frnt (KCopy j) /\ pc_copied (KCopy j) = []
    /\ (length (j_vals j) = length src `min` Z.to_nat free)%nat /\ j_offered j = src
    /\ j_done j = 0%nat.
Proof.
  intros Hn Hfn Hf0 Hf. pose proof (Z.mod_pos_bound n cap ltac:(lia)). unfold batch_push.
  set (k := Z.min (Z.of_nat (length src)) free). set (first := Z.min k (cap - n mod cap)).
  rewrite (arith_ok _ (cap - n mod cap)) by mlia. cbn [mbind outcome_bind].
  rewrite (arith_ok _ (k - _)) by mlia. cbn [mbind outcome_bind]. fold first.
  rewrite (slice_ok src 0 first) by lia. cbn [mbind outcome_bind]. rewrite Z.sub_0_r. change (drop (Z.to_nat 0) src) with src.
  assert ((if 0 <? k - first then slice src first k else Ret []) = Ret (drop (Z.to_nat first) (take (Z.to_nat k) src))) as ->.
  { destruct (Z.ltb_spec 0 (k - first)).
    - rewrite slice_ok by lia. rewrite take_drop_commute. do 3 f_equal. lia.
    - rewrite drop_ge; [done|]. rewrite length_take. lia. }
  cbn [mbind outcome_bind].
  assert (take (Z.to_nat first) src ++ drop (Z.to_nat first) (take (Z.to_nat k) src) = take (Z.to_nat k) src) as ->.
  { replace (take (Z.to_nat first) src) with (take (Z.to_nat first) (take (Z.to_nat k) src)) by (rewrite take_take; f_equal; lia).
    apply take_drop. }
  eexists. split; [done|]. cbn [push_pc_ok pc_copied j_at j_done j_vals j_first j_next j_offered].
  rewrite length_take. split; [|split_and!; [done|lia|done..]].
  split_and!; try done; try lia. f_equal. lia.
Qed.

Lemma single_pop_ok n bck : 0 <= n -> n < bck -> pop_pc_ok n bck (RCopy (single_pop (n mod cap))).
Proof.
  intros Hn Hb. pose proof (Z.mod_pos_bound n cap ltac:(lia)).
  cbn [pop_pc_ok single_pop r_at r_count r_want r_first r_got length]. split_and!; try done; lia.
Qed.

Lemma batch_pop_ok want n bck avail :
  0 <= n -> bck < n + cap -> 0 <= avail -> n + avail <= bck ->
  exists j, batch_pop want (n mod cap) avail cap = Ret j /\ pop_pc_ok n bck (RCopy j) /\ pc_got (RCopy j) = []
    /\ r_count j = (want `min` Z.to_nat avail)%nat /\ r_want j = want.
Proof.
  intros Hn Hbn Ha Hb. pose proof (Z.mod_pos_bound n cap ltac:(lia)). unfold batch_pop.
  set (k := Z.min (Z.of_nat want) avail). set (first := Z.min k (cap - n mod cap)).
  rewrite (arith_ok _ (cap - n mod cap)) by mlia. cbn [mbind outcome_bind].
  rewrite (arith_ok _ (k - _)) by mlia. cbn [mbind outcome_bind]. fold first.
  unfold slice_bounds. rewrite decide_True by lia. cbn [mbind outcome_bind].
  rewrite decide_True by lia.
  assert ((if 0 <? k - first then Ret () else Ret ()) = Ret ()) as -> by (by destruct (_ <? _)). cbn [mbind outcome_bind].
  eexists. split; [done|]. cbn [pop_pc_ok pc_got r_at r_count r_want r_first r_got length].
  split; [|split_and!; [done|lia|done]]. split_and!; try done; lia.
Qed.

(** ** The producer's steps *)

Lemma copy_cap s : copy_spsc_inv s -> capacity_of (vals (copy_mem s)) = cap.
Proof. intros I. apply (proj1 (cm_vals _ (ci_memory _ I))). Qed.

Lemma pusher_index s :
  copy_spsc_inv s -> (if aarch64 then own_local (pusher s) else last_val (head_stores s)) = n_sent s mod cap.
Proof.
  intros [P _ M _ _]. destruct aarch64 eqn:E; [by apply (pu_own _ P)|]. by eapply stores_last, cm_heads.
Qed.

Lemma popper_index s :
  copy_spsc_inv s -> (if aarch64 then own_local (popper s) else last_val (tail_stores s)) = n_received s mod cap.
Proof.
  intros [_ C M _ _]. destruct aarch64 eqn:E; [by apply (po_own _ C)|]. by eapply stores_last, cm_tails.
Qed.

Lemma copy_push_call s v o :
  copy_spsc_inv s -> push_step s (KPush v) = Some o -> exists s', o = Ret s' /\ copy_spsc_inv s'.
Proof.
  intros I E. pose proof (inv_order s I) as O. unfold push_step in E. rewrite (pusher_index s I), (copy_cap s I) in E.
  destruct (at_pc (pusher s)) eqn:Epc; try done. injection E as <-.
  rewrite (bind_assoc_ret _ _ _ _ (wrap_next cap Hcap (n_sent s) ltac:(lia))). eexists. split; [done|].
  rewrite (pu_cache _ (ci_pusher _ I)), (next_is_tail cap Hcap) by lia.
  apply push_goto_inv; [done|unfold copied; by rewrite Epc|by destruct (_ =? _)|].
  destruct (Z.eqb_spec (n_sent s + 1) (front s + cap)); [done|].
  apply single_push_ok; lia.
Qed.

Lemma push_batch_call s src o :
  copy_spsc_inv s -> push_step s (KPushBatch src) = Some o -> exists s', o = Ret s' /\ copy_spsc_inv s'.
Proof.
  intros I E. pose proof (inv_order s I) as O. unfold push_step in E. rewrite (pusher_index s I), (copy_cap s I) in E.
  destruct (at_pc (pusher s)) eqn:Epc; try done. injection E as <-.
  assert (copied s = []) as Ec by (unfold copied; by rewrite Epc).
  destruct (decide _); [eexists; split; [done|by apply push_returns_inv]|].
  rewrite (pu_cache _ (ci_pusher _ I)), free_slots_ok by lia. cbn [mbind outcome_bind].
  destruct (_ <? _); [eexists; split; [done|by apply push_goto_inv]|].
  destruct (batch_push_ok src (n_sent s) (front s) (cap - 1 - (n_sent s - front s))) as (j & -> & Hj & Ej & _); [lia..|].
  cbn [mbind outcome_bind]. eexists. split; [done|]. by apply push_goto_inv.
Qed.

Lemma tail_load_step s k o :
  copy_spsc_inv s -> push_step s (KTailLoad k) = Some o -> exists s', o = Ret s' /\ copy_spsc_inv s'.
Proof.
  intros I E. pose proof (inv_order s I) as O. pose proof (pu_at _ (ci_pusher _ I)) as Pa.
  unfold push_step in E. rewrite (copy_cap s I) in E.
  destruct (at_pc (pusher s)) as [|v hd nx|src hd|] eqn:Epc; try done; cbn [push_pc_ok] in Pa;
    destruct (load_acquire (tail_stores s) (seen_store (pusher s)) k) as [m|] eqn:El; try done; injection E as <-;
    assert (copied s = []) as Ec by (unfold copied; by rewrite Epc);
    destruct (stores_load vc _ _ _ _ _ (cm_tails _ (ci_memory _ I)) El) as (Hk & Hs & Ev & _); fold (front s) in Hs.
  - destruct Pa as [-> ->]. eexists. split; [done|]. rewrite Ev, (next_is_tail cap Hcap) by lia.
    destruct (Z.eqb_spec (n_sent s + 1) (store_pos vc (tail_stores s) k + cap)).
    + by apply push_returns_inv, push_acquire_inv.
    + apply push_acquire_inv; try done. apply single_push_ok; lia.
  - subst hd. rewrite Ev, free_slots_ok by lia. cbn [mbind outcome_bind].
    destruct (_ =? 0); [eexists; split; [done|by apply push_returns_inv, push_acquire_inv]|].
    destruct (batch_push_ok src (n_sent s) (store_pos vc (tail_stores s) k)
      (cap - 1 - (n_sent s - store_pos vc (tail_stores s) k))) as (j & -> & Hj & Ej & _); [lia..|].
    cbn [mbind outcome_bind]. eexists. split; [done|]. by apply push_acquire_inv.
Qed.

(** The producer's next slot is free, and the last write and the last read of
    it happened before: the write is not a race. *)
Lemma cell_write_ok s v :
  copy_spsc_inv s -> let n := Z.of_nat (length (all_written s)) in n + 1 < front s + cap ->
  exists m, cell_write (copy_mem s) (own_clock (pusher s)) (n mod cap) v
    = Ret (m, {| vp := n + 1; vc := vc (own_clock (pusher s)) |})
  /\ slots_have cap (vals m) (Z.of_nat (reads s)) (drop (reads s) (all_written s ++ [v]))
  /\ epochs_ok cap (w_epoch m) (n + 1) /\ r_epoch m = r_epoch (copy_mem s).
Proof.
  intros I n Hroom. pose proof (inv_order s I) as (O1 & O2 & O3 & O4 & O5). fold n in O4. destruct I as [P C M _ _].
  pose proof (pu_knows _ P). pose proof (pu_wrote _ P) as Pw. fold n in Pw. destruct M as [_ _ Mv Mw Mr]. fold n in Mw.
  assert (r_epoch (copy_mem s) (n mod cap) <= vc (own_clock (pusher s))) as H1r.
  { rewrite <- mod_lap. etrans; [apply Mr|]; lia. }
  assert (w_epoch (copy_mem s) (n mod cap) <= vp (own_clock (pusher s))) as H1w.
  { rewrite <- mod_lap. etrans; [apply Mw|]; lia. }
  unfold cell_write. apply Z.leb_le in H1r, H1w. rewrite H1r, H1w. cbn [andb].
  destruct (slots_have_push cap Hcap _ _ _ v Mv) as [Ew Hs]; [rewrite length_drop; lia|].
  replace (Z.of_nat (reads s) + Z.of_nat (length (drop (reads s) (all_written s)))) with n in Ew, Hs
    by (rewrite length_drop; lia).
  rewrite Ew. cbn [mbind outcome_bind]. rewrite Pw. eexists. split; [done|]. cbn [vals w_epoch r_epoch vp].
  rewrite drop_app_le by lia. split; [done|]. split; [apply (epochs_ok_step cap Hcap); [lia|done]|done].
Qed.

Lemma slot_write_step s o :
  copy_spsc_inv s -> push_step s KSlotWrite = Some o -> exists s', o = Ret s' /\ copy_spsc_inv s'.
Proof.
  intros I E. pose proof (inv_order s I) as (O1 & O2 & O3 & O4 & O5). unfold push_step in E.
  destruct (at_pc (pusher s)) as [| | |j] eqn:Epc; try done.
  destruct (j_vals j !! j_done j) as [v|] eqn:Ev; [|done]. injection E as <-.
  pose proof (pu_at _ (ci_pusher _ I)) as Pa. rewrite Epc in Pa. cbn [push_pc_ok] in Pa.
  destruct Pa as (Eat & Hd & Hroom & Ef & Enx & Evals). pose proof (lookup_lt_Some _ _ _ Ev) as Hlt.
  assert (length (copied s) = j_done j) as Ecl by (unfold copied; rewrite Epc; cbn; rewrite length_take; lia).
  rewrite Ef, Eat, chunk_slot_ok by lia. rewrite <- Ecl, <- O4.
  destruct (cell_write_ok s v I) as (m & -> & Hs & Hw & Er); [lia|]. cbn [mbind outcome_bind].
  assert (copied s ++ [v] = take (S (j_done j)) (j_vals j)) as Ecv
    by (unfold copied; rewrite Epc; cbn; by rewrite (take_S_r _ _ _ Ev)).
  assert (all_written s ++ [v] = sent s ++ take (S (j_done j)) (j_vals j)) as Ew
    by (rewrite <- Ecv; unfold all_written; by rewrite app_assoc).
  assert (Z.of_nat (length (all_written s)) + 1 = Z.of_nat (length (sent s ++ take (S (j_done j)) (j_vals j)))) as El
    by (rewrite <- Ew, length_app; cbn; lia).
  rewrite El, ?Ew, ?Ecl in *. eexists. split; [done|]. destruct I as [P C M K L]. destruct P as [_ Po Pc Ps Pr Pk Pw].
  split; [|untouched| | |untouched].
  - split; unfold_copy; done.
  - destruct M. split; unfold_copy; rewrite ?Er; done.
  - destruct K as [Kp Kc Kh Kt]. split; unfold_copy; rewrite ?El; try done; try lia.
    eapply Forall_impl; [exact Kt|]. cbn. lia.
Qed.

Lemma head_store_step s o :
  copy_spsc_inv s -> push_step s KHeadStore = Some o -> exists s', o = Ret s' /\ copy_spsc_inv s'.
Proof.
  intros I E. pose proof (inv_order s I) as (O1 & O2 & O3 & O4 & O5). unfold push_step in E. rewrite (copy_cap s I) in E.
  destruct (at_pc (pusher s)) as [| | |j] eqn:Epc; try done. destruct (decide _) as [Ed|]; [|done]. injection E as <-.
  pose proof (pu_at _ (ci_pusher _ I)) as Pa. rewrite Epc in Pa. cbn [push_pc_ok] in Pa.
  destruct Pa as (Eat & Hd & Hroom & Ef & Enx & Evals).
  assert (copied s = j_vals j) as Ec by (unfold copied; rewrite Epc; cbn; rewrite take_ge by lia; done).
  assert (all_written s = sent s ++ j_vals j) as Ew by (unfold all_written; by rewrite Ec).
  assert (match j_next j with Some i => Ret i
          | None => x ← arith USIZE (j_at j + Z.of_nat (length (j_vals j))); wrap_index x cap end
          = Ret ((n_sent s + Z.of_nat (length (j_vals j))) mod cap)) as ->.
  { destruct (j_next j) as [i|]; [by rewrite (Enx i)|]. rewrite Eat. apply wrap_advance; [done|done|lia..]. }
  cbn [mbind outcome_bind]. eexists. split; [done|].
  assert (n_sent s + Z.of_nat (length (j_vals j)) = Z.of_nat (length (sent s ++ j_vals j))) as El
    by (rewrite length_app; unfold n_sent; lia).
  rewrite El in *. destruct I as [P C M K L]. pose proof (po_seen _ C) as Hseen.
  destruct P as [_ Po Pc Ps Pr Pk Pw]. rewrite Ew in *. split.
  - split; unfold_copy; rewrite ?app_nil_r; try done. intros Ha. by rewrite Ha.
  - destruct C as [Ca Co Cc Cs Cr Ck Cw Cx]. split; unfold_copy; rewrite ?store_pos_app by done; try done.
    + rewrite length_app. cbn. lia.
    + rewrite Cx, take_app_le by lia. done.
  - destruct M as [Mh Mt Mv Mw Mr]. split; unfold_copy; rewrite ?app_nil_r, ?Ew in *; try done.
    rewrite <- Pw at 2. apply stores_app with (n := Z.of_nat (length (sent s))); cbn; [done|lia|by rewrite Pw].
  - destruct K as [Kp Kc Kh Kt]. split; unfold_copy; rewrite ?app_nil_r, ?Ew in *; try done.
    by apply Forall_app_2; [|constructor].
  - destruct L as [A B D F]. split; unfold_copy; try done.
    + rewrite fmap_app, concat_app, <- A. cbn. by rewrite app_nil_r, <- Evals.
    + apply Forall_app_2; [done|]. constructor; [|done]. cbn. rewrite Evals, length_take. lia.
Qed.

(** ** The consumer's steps *)

Lemma copy_pop_call s o :
  copy_spsc_inv s -> pop_step s KPop = Some o -> exists s', o = Ret s' /\ copy_spsc_inv s'.
Proof.
  intros I E. pose proof (inv_order s I) as O. unfold pop_step in E. rewrite (popper_index s I) in E.
  destruct (at_pc (popper s)) eqn:Epc; try done. injection E as <-. eexists. split; [done|].
  rewrite (po_cache _ (ci_popper _ I)), (tail_is_head cap Hcap) by lia.
  apply pop_goto_inv; [done|unfold got; by rewrite Epc|by destruct (_ =? _)|].
  destruct (Z.eqb_spec (n_received s) (back s)); [done|]. apply single_pop_ok; lia.
Qed.

Lemma pop_batch_call s want o :
  copy_spsc_inv s -> pop_step s (KPopBatch want) = Some o -> exists s', o = Ret s' /\ copy_spsc_inv s'.
Proof.
  intros I E. pose proof (inv_order s I) as O. unfold pop_step in E. rewrite (popper_index s I), (copy_cap s I) in E.
  destruct (at_pc (popper s)) eqn:Epc; try done. injection E as <-.
  assert (got s = []) as Ec by (unfold got; by rewrite Epc).
  destruct (decide _); [eexists; split; [done|by apply pop_returns_inv]|].
  rewrite (po_cache _ (ci_popper _ I)), (ring_distance_ok cap Hcap) by lia. cbn [mbind outcome_bind].
  destruct (_ <? _); [eexists; split; [done|by apply pop_goto_inv]|].
  destruct (batch_pop_ok want (n_received s) (back s) (back s - n_received s)) as (j & -> & Hj & Ej & _); [lia..|].
  cbn [mbind outcome_bind]. eexists. split; [done|]. by apply pop_goto_inv.
Qed.

Lemma head_load_step s k o :
  copy_spsc_inv s -> pop_step s (KHeadLoad k) = Some o -> exists s', o = Ret s' /\ copy_spsc_inv s'.
Proof.
  intros I E. pose proof (inv_order s I) as O. pose proof (po_at _ (ci_popper _ I)) as Pa.
  unfold pop_step in E. rewrite (copy_cap s I) in E.
  destruct (at_pc (popper s)) as [|tl|want tl|] eqn:Epc; try done; cbn [pop_pc_ok] in Pa; subst tl;
    destruct (load_acquire (head_stores s) (seen_store (popper s)) k) as [m|] eqn:El; try done; injection E as <-;
    assert (got s = []) as Ec by (unfold got; by rewrite Epc);
    destruct (stores_load vp _ _ _ _ _ (cm_heads _ (ci_memory _ I)) El) as (Hk & Hs & Ev & _); fold (back s) in Hs.
  - eexists. split; [done|]. rewrite Ev, (tail_is_head cap Hcap) by lia.
    destruct (Z.eqb_spec (n_received s) (store_pos vp (head_stores s) k)).
    + by apply pop_returns_inv, pop_acquire_inv.
    + apply pop_acquire_inv; try done. apply single_pop_ok; lia.
  - rewrite Ev, (ring_distance_ok cap Hcap) by lia. cbn [mbind outcome_bind].
    destruct (_ =? 0); [eexists; split; [done|by apply pop_returns_inv, pop_acquire_inv]|].
    destruct (batch_pop_ok want (n_received s) (store_pos vp (head_stores s) k)
      (store_pos vp (head_stores s) k - n_received s)) as (j & -> & Hj & Ej & _); [lia..|].
    cbn [mbind outcome_bind]. eexists. split; [done|]. by apply pop_acquire_inv.
Qed.

(** The consumer's next slot holds the oldest value not read yet, and its write
    happened before: the read is not a race. *)
Lemma cell_read_ok s :
  copy_spsc_inv s -> let n := Z.of_nat (reads s) in n < back s ->
  exists v m, cell_read (copy_mem s) (own_clock (popper s)) (n mod cap)
    = Ret (v, m, {| vp := vp (own_clock (popper s)); vc := n + 1 |})
  /\ sent s !! reads s = Some v
  /\ slots_have cap (vals m) (n + 1) (drop (S (reads s)) (all_written s))
  /\ epochs_ok cap (r_epoch m) (n + 1) /\ w_epoch m = w_epoch (copy_mem s).
Proof.
  intros I n Hn. pose proof (inv_order s I) as (O1 & O2 & O3 & O4 & O5). fold n in O2. destruct I as [P C M _ _].
  pose proof (po_knows _ C). pose proof (po_read _ C) as Cw. fold n in Cw. destruct M as [_ _ Mv Mw Mr]. fold n in Mv, Mr.
  assert (w_epoch (copy_mem s) (n mod cap) <= vp (own_clock (popper s))) as H1w.
  { etrans; [apply Mw|]; lia. }
  destruct (lookup_lt_is_Some_2 (sent s) (reads s)) as [v Ev]; [unfold n_sent in *; lia|].
  assert (all_written s !! reads s = Some v) as Ewv by (by apply lookup_app_l_Some).
  assert (drop (reads s) (all_written s) !! 0%nat = Some v) as E0 by (rewrite lookup_drop, Nat.add_0_r; done).
  pose proof (proj2 Mv _ _ E0) as Es. rewrite Z.add_0_r in Es.
  pose proof (Z.mod_pos_bound n cap ltac:(lia)).
  unfold cell_read, read_slot_copy. apply Z.leb_le in H1w. rewrite H1w, Es, decide_True by lia.
  cbn [mbind outcome_bind]. rewrite Cw.
  exists v. eexists. split; [done|]. cbn [vals w_epoch r_epoch vc]. split; [done|]. split; [|split; [|done]].
  - rewrite <- Nat.add_1_r, <- drop_drop. apply (slots_have_drop cap _ _ _ 1 Mv). rewrite length_drop. lia.
  - apply (epochs_ok_step cap Hcap); [lia|done].
Qed.

Lemma slot_read_step s o :
  copy_spsc_inv s -> pop_step s KSlotRead = Some o -> exists s', o = Ret s' /\ copy_spsc_inv s'.
Proof.
  intros I E. pose proof (inv_order s I) as (O1 & O2 & O3 & O4 & O5). unfold pop_step in E.
  destruct (at_pc (popper s)) as [| | |j] eqn:Epc; try done. destruct (decide _) as [Hlt|]; [|done]. injection E as <-.
  pose proof (po_at _ (ci_popper _ I)) as Pa. rewrite Epc in Pa. cbn [pop_pc_ok] in Pa.
  destruct Pa as (Eat & Hd & Hroom & Ef).
  assert (got s = r_got j) as Eg by (unfold got; by rewrite Epc).
  assert (n_received s + Z.of_nat (length (r_got j)) = Z.of_nat (reads s)) as Er
    by (unfold reads, n_received; rewrite Eg; lia).
  rewrite Ef, Eat, chunk_slot_ok by lia. rewrite Er.
  destruct (cell_read_ok s I) as (v & m & -> & Ev & Hs & Hr & Ew); [lia|]. cbn [mbind outcome_bind].
  assert (length (received s) + length (r_got j ++ [v]) = S (reads s))%nat as El
    by (unfold reads; rewrite Eg, length_app; cbn; lia).
  eexists. split; [done|]. replace (Z.of_nat (reads s) + 1) with (Z.of_nat (S (reads s))) in * by lia.
  destruct I as [P C M K L]. destruct C as [_ Co Cc Cs Cr Ck Cw Cx]. split; [untouched| | | |untouched].
  - split; unfold n_received, back, reads, got in *; cbn [set_popper set_copy_mem popper received head_stores sent
      at_pc own_local remote_cached seen_store own_clock ticked pc_got r_got vc vp] in *; rewrite ?El; try done.
    + cbn [pop_pc_ok r_at r_got r_count r_want r_first]. rewrite length_app. cbn. split_and!; try done; lia.
    + rewrite (take_S_r _ _ _ Ev), <- Cx, Epc. cbn [pc_got]. by rewrite app_assoc.
  - destruct M. split; unfold reads, got in *; cbn [set_popper set_copy_mem popper received copy_mem vals w_epoch r_epoch
      ticked at_pc pc_got r_got] in *; rewrite ?El, ?Ew; done.
  - destruct K as [Kp Kc Kh Kt]. split; unfold reads, got in *; cbn [set_popper set_copy_mem popper received pusher
      head_stores tail_stores ticked own_clock at_pc pc_got r_got vp] in *; rewrite ?El; try done; try lia.
    eapply Forall_impl; [exact Kh|]. cbn. lia.
Qed.

Lemma tail_store_step s o :
  copy_spsc_inv s -> pop_step s KTailStore = Some o -> exists s', o = Ret s' /\ copy_spsc_inv s'.
Proof.
  intros I E. pose proof (inv_order s I) as (O1 & O2 & O3 & O4 & O5). unfold pop_step in E. rewrite (copy_cap s I) in E.
  destruct (at_pc (popper s)) as [| | |j] eqn:Epc; try done. destruct (decide _) as [Ed|]; [|done]. injection E as <-.
  pose proof (po_at _ (ci_popper _ I)) as Pa. rewrite Epc in Pa. cbn [pop_pc_ok] in Pa.
  destruct Pa as (Eat & Hd & Hroom & Ef).
  assert (got s = r_got j) as Eg by (unfold got; by rewrite Epc).
  rewrite Eat, (bind_assoc_ret _ _ _ _ (wrap_advance cap Hcap (n_received s) (Z.of_nat (r_count j)) ltac:(lia) ltac:(lia))).
  eexists. split; [done|].
  assert (reads s = length (received s ++ r_got j)) as Er by (unfold reads; by rewrite Eg, length_app).
  assert (n_received s + Z.of_nat (r_count j) = Z.of_nat (length (received s ++ r_got j))) as El
    by (rewrite length_app; unfold n_received; lia).
  rewrite El, Er in *. destruct I as [P C M K L]. pose proof (pu_seen _ P) as Hseen.
  destruct C as [_ Co Cc Cs Cr Ck Cw Cx]. rewrite Eg in Cx. rewrite Er in *. split.
  - destruct P. split; unfold_copy; rewrite ?store_pos_app by done; try done. rewrite length_app. cbn. lia.
  - split; unfold_copy; rewrite ?Nat.add_0_r, ?app_nil_r; try done; try lia.
    intros Ha. by rewrite Ha.
  - destruct M as [Mh Mt Mv Mw Mr]. rewrite Er in *. split; unfold_copy; rewrite ?Nat.add_0_r; try done.
    rewrite <- Cw at 2. apply stores_app with (n := Z.of_nat (length (received s))); cbn; [done|lia|by rewrite Cw].
  - destruct K as [Kp Kc Kh Kt]. rewrite Er in *. split; unfold_copy; rewrite ?Nat.add_0_r; try done.
    by apply Forall_app_2; [|constructor].
  - destruct L as [A B D F]. split; unfold_copy; try done.
    + rewrite fmap_app, concat_app, <- D. cbn. by rewrite app_nil_r.
    + apply Forall_app_2; [done|]. constructor; [|done]. cbn. lia.
Qed.

Lemma copy_step_inv s l o : copy_spsc_inv s -> copy_spsc_step s l = Some o -> exists s', o = Ret s' /\ copy_spsc_inv s'.
Proof.
  destruct l; unfold copy_spsc_step; cbn [copy_pushes]; eauto using copy_push_call, push_batch_call, tail_load_step,
    slot_write_step, head_store_step, copy_pop_call, pop_batch_call, head_load_step, slot_read_step, tail_store_step.
Qed.

Lemma copy_reachable_inv o :
  copy_reachable (replicate (Z.to_nat cap) None) o -> exists s, o = Ret s /\ copy_spsc_inv s.
Proof.
  induction 1 as [|s l o _ (s0 & [= <-] & I) E]; [eexists; split; [done|apply copy_new_inv]|].
  by eapply copy_step_inv.
Qed.

(** The values sent and not received. *)
Definition in_flight s : list T := drop (length (received s)) (sent s).

Lemma flight_split s : copy_spsc_inv s -> sent s = received s ++ in_flight s.
Proof.
  intros I. pose proof (po_prefix _ (ci_popper _ I)) as Hp. unfold in_flight.
  assert (received s = take (length (received s)) (sent s)) as Er.
  { rewrite <- (take_app_length (received s) (got s)) at 1. rewrite Hp, take_take. f_equal. unfold reads. lia. }
  rewrite Er at 1. symmetry. apply take_drop.
Qed.

Lemma flight_length s :
  copy_spsc_inv s -> Z.of_nat (length (in_flight s)) = n_sent s - n_received s /\ Z.of_nat (length (in_flight s)) <= cap - 1.
Proof.
  intros I. pose proof (inv_order s I). unfold in_flight, n_sent, n_received in *. rewrite length_drop. lia.
Qed.

(** An idle state is one the sequential engine can be in. *)
Lemma copy_idle_engine s :
  copy_spsc_inv s -> at_pc (pusher s) = KIdle -> at_pc (popper s) = RIdle ->
  copy_inv cap (copy_spsc_engine s) (in_flight s).
Proof.
  intros I Ep Ec. pose proof (inv_order s I). pose proof (flight_length s I).
  pose proof (pusher_index s I) as Eh. pose proof (popper_index s I) as Et.
  destruct I as [P C M _ _]. exists (front s), (n_received s), (back s), (n_sent s).
  pose proof (stores_last vp _ _ (cm_heads _ M)). pose proof (stores_last vc _ _ (cm_tails _ M)).
  split; [|split; [lia|]].
  - split; cbn [copy_spsc_engine head tail tail_cached head_cached head_local tail_local]; try done.
    + lia.
    + apply P.
    + apply C.
    + intros Ha. rewrite Ha in Eh, Et. by rewrite Eh, Et.
  - pose proof (cm_vals _ M) as Mv. unfold reads, got, all_written, copied in Mv. rewrite Ep, Ec in Mv.
    cbn [pc_got pc_copied length] in Mv. by rewrite Nat.add_0_r, app_nil_r in Mv.
Qed.

(** ** A call running alone *)

Lemma copy_run_step s l s1 ls :
  copy_spsc_step s l = Some (Ret s1) -> copy_spsc_run s (l :: ls) = copy_spsc_run s1 ls.
Proof. intros E. cbn [copy_spsc_run]. by rewrite E. Qed.

Lemma newest_store msgs seen :
  (seen < length msgs)%nat -> exists m, load_acquire msgs seen (pred (length msgs)) = Some m.
Proof.
  intros Hs. unfold load_acquire. rewrite decide_True by lia. apply lookup_lt_is_Some_2. lia.
Qed.

(** What a finished push, respectively pop, leaves. *)
Definition pushed_prefix s s' (src : list T) (n : nat) : Prop :=
  at_pc (pusher s') = KIdle /\ popper s' = popper s /\ received s' = received s /\ pop_log s' = pop_log s
  /\ sent s' = sent s ++ take n src /\ push_log s' = push_log s ++ [(src, n)].

Definition popped_prefix s s' (want n : nat) : Prop :=
  at_pc (popper s') = RIdle /\ pusher s' = pusher s /\ sent s' = sent s /\ push_log s' = push_log s
  /\ received s' = received s ++ take n (in_flight s) /\ pop_log s' = pop_log s ++ [(want, take n (in_flight s))].

Lemma solo_copy_out s j :
  copy_spsc_inv s -> at_pc (pusher s) = KCopy j ->
  exists s', copy_spsc_run s (replicate (length (j_vals j) - j_done j) KSlotWrite ++ [KHeadStore]) = Some (Ret s')
    /\ pushed_prefix s s' (j_offered j) (length (j_vals j)).
Proof.
  intros I Epc. remember (length (j_vals j) - j_done j)%nat as k eqn:Ek. revert s j I Epc Ek.
  induction k as [|k IH]; intros s j I Epc Ek; pose proof (pu_at _ (ci_pusher _ I)) as Pa; rewrite Epc in Pa;
    destruct Pa as (Eat & Hd & Hroom & Ef & Enx & Evals).
  - cbn [replicate app]. destruct (copy_spsc_step s KHeadStore) as [o|] eqn:E.
    2: { cbn in E. rewrite Epc, decide_True in E by lia. done. }
    destruct (copy_step_inv _ _ _ I E) as (s1 & -> & I1). rewrite (copy_run_step _ _ _ _ E). eexists. split; [done|].
    cbn in E. rewrite Epc, decide_True in E by lia. apply (inj Some) in E. inv_bind E. injection E as <-.
    unfold pushed_prefix. cbn [pusher popper received pop_log sent push_log released at_pc]. by rewrite <- Evals.
  - cbn [replicate app]. destruct (copy_spsc_step s KSlotWrite) as [o|] eqn:E.
    2: { cbn in E. rewrite Epc in E. destruct (lookup_lt_is_Some_2 (j_vals j) (j_done j)) as [v Ev]; [lia|].
         by rewrite Ev in E. }
    destruct (copy_step_inv _ _ _ I E) as (s1 & -> & I1). rewrite (copy_run_step _ _ _ _ E).
    cbn in E. rewrite Epc in E. destruct (j_vals j !! j_done j) as [v|]; [|done]. apply (inj Some) in E.
    inv_bind E. destruct x as [m c]. injection E as <-.
    destruct (IH _ _ I1 eq_refl) as (s' & Er & Hs'); [cbn; lia|]. exists s'. split; [exact Er|exact Hs'].
Qed.

Lemma solo_copy_in s j :
  copy_spsc_inv s -> at_pc (popper s) = RCopy j ->
  exists s', copy_spsc_run s (replicate (r_count j - length (r_got j)) KSlotRead ++ [KTailStore]) = Some (Ret s')
    /\ popped_prefix s s' (r_want j) (r_count j).
Proof.
  intros I Epc. remember (r_count j - length (r_got j))%nat as k eqn:Ek. revert s j I Epc Ek.
  induction k as [|k IH]; intros s j I Epc Ek; pose proof (po_at _ (ci_popper _ I)) as Pa; rewrite Epc in Pa;
    destruct Pa as (Eat & Hd & Hroom & Ef).
  - cbn [replicate app]. destruct (copy_spsc_step s KTailStore) as [o|] eqn:E.
    2: { cbn in E. rewrite Epc, decide_True in E by lia. done. }
    destruct (copy_step_inv _ _ _ I E) as (s1 & -> & I1). rewrite (copy_run_step _ _ _ _ E). eexists. split; [done|].
    cbn in E. rewrite Epc, decide_True in E by lia. apply (inj Some) in E. repeat inv_bind E. injection E as <-.
    assert (take (r_count j) (in_flight s) = r_got j) as Eg.
    { pose proof (po_prefix _ (ci_popper _ I)) as Hp. unfold in_flight, got, reads in *. rewrite Epc in Hp. cbn [pc_got] in Hp.
      rewrite take_drop_commute. replace (r_count j) with (length (pc_got (at_pc (popper s)))) by (rewrite Epc; cbn; lia).
      unfold got in Hp. rewrite Epc in Hp |- *. cbn [pc_got] in *. rewrite <- Hp. by rewrite drop_app_length. }
    unfold popped_prefix. rewrite Eg. cbn [pusher popper received pop_log sent push_log released at_pc]. done.
  - cbn [replicate app]. destruct (copy_spsc_step s KSlotRead) as [o|] eqn:E.
    2: { cbn in E. rewrite Epc, decide_True in E by lia. done. }
    destruct (copy_step_inv _ _ _ I E) as (s1 & -> & I1). rewrite (copy_run_step _ _ _ _ E).
    cbn in E. rewrite Epc, decide_True in E by lia. apply (inj Some) in E.
    inv_bind E. destruct x as [[v m] c]. injection E as <-.
    destruct (IH _ _ I1 eq_refl) as (s' & Er & Hs'); [cbn; rewrite length_app; cbn; lia|]. exists s'.
    split; [exact Er|exact Hs'].
Qed.

(** How many values of [src] there is room for when [f] values have been
    received, and how many of [want] there are when [b] have been sent; with
    the newest stores these are the values of the specification. *)
Definition accepts_at s (f : Z) (src : list T) : nat := length src `min` Z.to_nat (cap - 1 - (n_sent s - f)).
Definition delivers_at s (b : Z) (want : nat) : nat := want `min` Z.to_nat (b - n_received s).
Definition accepts s (src : list T) : nat := accepts_at s (n_received s) src.
Definition delivers s (want : nat) : nat := delivers_at s (n_sent s) want.

Lemma finish_push s p j src :
  copy_spsc_inv (set_pusher s p) -> at_pc p = KCopy j ->
  j_done j = 0%nat -> j_offered j = src -> length (j_vals j) = accepts s src ->
  exists ls s', Forall copy_pushes ls /\ (length ls <= length src + 1)%nat
    /\ copy_spsc_run (set_pusher s p) ls = Some (Ret s') /\ pushed_prefix s s' src (accepts s src).
Proof.
  intros I Epc Ed <- En. destruct (solo_copy_out _ j I Epc) as (s' & Er & Hs'). do 2 eexists.
  split; [|split; [|split; [exact Er|]]].
  - apply Forall_app_2; [|by constructor]. by apply Forall_replicate.
  - rewrite length_app, length_replicate, Ed, En. unfold accepts, accepts_at. cbn. lia.
  - rewrite <- En. exact Hs'.
Qed.

(** The tail loaded decides how much is accepted. *)
Lemma tail_load_accepts s src k m :
  copy_spsc_inv s ->
  (exists v hd nx, src = [v] /\ at_pc (pusher s) = KCheck v hd nx) \/ (exists hd, at_pc (pusher s) = KCheckBatch src hd) ->
  load_acquire (tail_stores s) (seen_store (pusher s)) k = Some m ->
  let f := store_pos vc (tail_stores s) k in
  exists s1, copy_spsc_step s (KTailLoad k) = Some (Ret s1) /\
    ((exists j, s1 = set_pusher s (acquired (pusher s) (KCopy j) k m) /\ j_done j = 0%nat /\ j_offered j = src
      /\ length (j_vals j) = accepts_at s f src)
     \/ s1 = push_returns (set_pusher s (acquired (pusher s) KIdle k m)) src 0 /\ accepts_at s f src = 0%nat).
Proof.
  intros I Hpc El f. pose proof (inv_order s I) as O.
  destruct (stores_load vc _ _ _ _ _ (cm_tails _ (ci_memory _ I)) El) as (_ & Hf & Em & _). fold f (front s) in Hf, Em.
  pose proof (pu_at _ (ci_pusher _ I)) as Pa.
  unfold copy_spsc_step, push_step. cbn [copy_pushes]. rewrite (copy_cap s I).
  destruct Hpc as [(v & hd & nx & -> & Epc)|[hd Epc]]; rewrite Epc in *; cbn [push_pc_ok] in Pa; rewrite El; cbn [mbind option_bind].
  - destruct Pa as [-> ->]. eexists. split; [done|]. rewrite Em, (next_is_tail cap Hcap) by lia. unfold accepts_at. cbn [length].
    destruct (Z.eqb_spec (n_sent s + 1) (f + cap)); [right; split; [done|lia]|left].
    eexists. split; [done|]. split_and!; try done. cbn [single_push j_vals length]. lia.
  - subst hd. rewrite Em, free_slots_ok by lia. cbn [mbind outcome_bind]. unfold accepts_at.
    destruct (Z.eqb_spec (cap - 1 - (n_sent s - f)) 0); [eexists; split; [done|right; split; [done|lia]]|].
    destruct (batch_push_ok src (n_sent s) f (cap - 1 - (n_sent s - f)))
      as (j & -> & Hj & Ej & En & Eo & Ed); [lia..|]. cbn [mbind outcome_bind].
    eexists. split; [done|]. left. exists j. split_and!; try done.
Qed.

Lemma solo_tail_load s src :
  copy_spsc_inv s ->
  (exists v hd nx, src = [v] /\ at_pc (pusher s) = KCheck v hd nx) \/ (exists hd, at_pc (pusher s) = KCheckBatch src hd) ->
  exists ls s', Forall copy_pushes ls /\ (length ls <= length src + 2)%nat
    /\ copy_spsc_run s ls = Some (Ret s') /\ pushed_prefix s s' src (accepts s src).
Proof.
  intros I Hpc. set (k := pred (length (tail_stores s))).
  destruct (newest_store _ _ (pu_seen _ (ci_pusher _ I))) as (m & El).
  destruct (tail_load_accepts s src _ m I Hpc El) as (s1 & E & Hs1). fold k in E, Hs1.
  assert (store_pos vc (tail_stores s) k = n_received s) as Ek by apply (st_last _ _ _ (cm_tails _ (ci_memory _ I))).
  rewrite Ek in Hs1. fold (accepts s src) in Hs1.
  destruct (copy_step_inv _ _ _ I E) as (? & [= <-] & I1). destruct Hs1 as [(j & -> & Ed & Eo & En)|[-> E0]].
  - destruct (finish_push s _ j src I1 eq_refl Ed Eo En) as (ls & s' & Hl & Hn & Er & Hs').
    exists (KTailLoad k :: ls), s'. split; [by constructor|]. cbn [length]. split; [lia|].
    by rewrite (copy_run_step _ _ _ _ E).
  - exists [KTailLoad k]. eexists. split; [by constructor|]. split; [cbn; lia|].
    rewrite (copy_run_step _ _ _ _ E). split; [done|]. rewrite E0. unfold pushed_prefix. cbn. by rewrite app_nil_r.
Qed.

(** The values a push call offers, and how many a pop call asks for. *)
Definition call_offers (l : copy_label T) : option (list T) :=
  match l with KPush v => Some [v] | KPushBatch src => Some src | _ => None end.
Definition call_wants (l : copy_label T) : option nat :=
  match l with KPop => Some 1%nat | KPopBatch want => Some want | _ => None end.

Lemma push_call_accepts s l src :
  copy_spsc_inv s -> at_pc (pusher s) = KIdle -> call_offers l = Some src ->
  exists s1, copy_spsc_step s l = Some (Ret s1) /\
    ((exists j, s1 = set_pusher s (goto (pusher s) (KCopy j)) /\ j_done j = 0%nat /\ j_offered j = src
      /\ forall f, front s <= f <= n_received s -> length (j_vals j) = accepts_at s f src)
     \/ s1 = push_returns s src 0 /\ src = []
     \/ (exists pc, s1 = set_pusher s (goto (pusher s) pc) /\
          ((exists v hd nx, src = [v] /\ pc = KCheck v hd nx) \/ exists hd, pc = KCheckBatch src hd))).
Proof.
  intros I Epc Ho. pose proof (inv_order s I) as O.
  destruct l as [v|bs| | | | | | | |]; try done; injection Ho as <-; unfold copy_spsc_step, push_step; cbn [copy_pushes];
    rewrite (copy_cap s I), (pusher_index s I), Epc, (pu_cache _ (ci_pusher _ I)).
  - rewrite (bind_assoc_ret _ _ _ _ (wrap_next cap Hcap (n_sent s) ltac:(lia))), (next_is_tail cap Hcap) by lia.
    eexists. split; [done|]. destruct (Z.eqb_spec (n_sent s + 1) (front s + cap)).
    + right. right. eexists. split; [done|]. left. eauto 6.
    + left. eexists. split; [done|]. split_and!; try done. intros f Hf. unfold accepts_at. cbn [single_push j_vals length]. lia.
  - destruct (decide _) as [E0|]; [eexists; split; [done|right; left; split; [done|by apply nil_length_inv]]|].
    rewrite free_slots_ok by lia. cbn [mbind outcome_bind].
    destruct (Z.ltb_spec (cap - 1 - (n_sent s - front s)) (Z.of_nat (length bs))).
    { eexists. split; [done|]. right. right. eexists. split; [done|]. right. eauto. }
    destruct (batch_push_ok bs (n_sent s) (front s) (cap - 1 - (n_sent s - front s)))
      as (j & -> & Hj & Ej & En & Eo & Ed); [lia..|].
    cbn [mbind outcome_bind]. eexists. split; [done|]. left. exists j. split_and!; try done. intros f Hf. unfold accepts_at. lia.
Qed.

Lemma solo_push_call s l src :
  copy_spsc_inv s -> at_pc (pusher s) = KIdle -> call_offers l = Some src ->
  exists ls s', Forall copy_pushes ls /\ (length ls <= length src + 2)%nat
    /\ copy_spsc_run s (l :: ls) = Some (Ret s') /\ pushed_prefix s s' src (accepts s src).
Proof.
  intros I Epc Ho. destruct (push_call_accepts s l src I Epc Ho) as (s1 & E & Hs1).
  destruct (copy_step_inv _ _ _ I E) as (? & [= <-] & I1). setoid_rewrite (copy_run_step _ _ _ _ E).
  destruct Hs1 as [(j & -> & Ed & Eo & En)|[[-> ->]|(pc & -> & Hpc)]].
  - pose proof (inv_order s I).
    destruct (finish_push s _ j src I1 eq_refl Ed Eo (En (n_received s) ltac:(lia))) as (ls & s' & Hl & Hn & Er & Hs').
    exists ls, s'. split_and!; try done. lia.
  - exists [], (push_returns s [] 0). split; [done|]. split; [cbn; lia|]. split; [done|].
    unfold pushed_prefix, accepts, accepts_at. cbn. by rewrite app_nil_r.
  - destruct (solo_tail_load _ src I1) as (ls & s' & Hl & Hn & Er & Hs').
    { cbn [pusher set_pusher at_pc goto]. exact Hpc. }
    exists ls, s'. split_and!; try done; apply Hs'.
Qed.

Lemma finish_pop s c j want :
  copy_spsc_inv (set_popper s c) -> at_pc c = RCopy j ->
  r_got j = [] -> r_want j = want -> r_count j = delivers s want ->
  exists ls s', Forall (fun l => copy_pushes l = false) ls /\ (length ls <= want + 1)%nat
    /\ copy_spsc_run (set_popper s c) ls = Some (Ret s') /\ popped_prefix s s' want (delivers s want).
Proof.
  intros I Epc Ed <- En. destruct (solo_copy_in _ j I Epc) as (s' & Er & Hs'). do 2 eexists.
  split; [|split; [|split; [exact Er|]]].
  - apply Forall_app_2; [|by constructor]. by apply Forall_replicate.
  - rewrite length_app, length_replicate, Ed, En. unfold delivers, delivers_at. cbn. lia.
  - rewrite <- En. exact Hs'.
Qed.

Lemma head_load_delivers s want k m :
  copy_spsc_inv s ->
  (exists tl, want = 1%nat /\ at_pc (popper s) = RCheck tl) \/ (exists tl, at_pc (popper s) = RCheckBatch want tl) ->
  load_acquire (head_stores s) (seen_store (popper s)) k = Some m ->
  let b := store_pos vp (head_stores s) k in
  exists s1, copy_spsc_step s (KHeadLoad k) = Some (Ret s1) /\
    ((exists j, s1 = set_popper s (acquired (popper s) (RCopy j) k m) /\ r_got j = [] /\ r_want j = want
      /\ r_count j = delivers_at s b want)
     \/ s1 = pop_returns (set_popper s (acquired (popper s) RIdle k m)) want [] /\ delivers_at s b want = 0%nat).
Proof.
  intros I Hpc El b. pose proof (inv_order s I) as O.
  destruct (stores_load vp _ _ _ _ _ (cm_heads _ (ci_memory _ I)) El) as (_ & Hb & Em & _). fold b (back s) in Hb, Em.
  pose proof (po_at _ (ci_popper _ I)) as Pa.
  unfold copy_spsc_step, pop_step. cbn [copy_pushes]. rewrite (copy_cap s I).
  destruct Hpc as [(tl & -> & Epc)|[tl Epc]]; rewrite Epc in *; cbn [pop_pc_ok] in Pa; subst tl;
    rewrite El; cbn [mbind option_bind].
  - eexists. split; [done|]. rewrite Em, (tail_is_head cap Hcap) by lia. unfold delivers_at.
    destruct (Z.eqb_spec (n_received s) b); [right; split; [done|lia]|left].
    eexists. split; [done|]. split_and!; try done. cbn [single_pop r_count]. lia.
  - rewrite Em, (ring_distance_ok cap Hcap) by lia. cbn [mbind outcome_bind]. unfold delivers_at.
    destruct (Z.eqb_spec (b - n_received s) 0); [eexists; split; [done|right; split; [done|lia]]|].
    destruct (batch_pop_ok want (n_received s) b (b - n_received s))
      as (j & -> & Hj & Ej & En & Eo); [lia..|]. cbn [mbind outcome_bind].
    eexists. split; [done|]. left. exists j. split_and!; try done.
Qed.

Lemma solo_head_load s want :
  copy_spsc_inv s ->
  (exists tl, want = 1%nat /\ at_pc (popper s) = RCheck tl) \/ (exists tl, at_pc (popper s) = RCheckBatch want tl) ->
  exists ls s', Forall (fun l => copy_pushes l = false) ls /\ (length ls <= want + 2)%nat
    /\ copy_spsc_run s ls = Some (Ret s') /\ popped_prefix s s' want (delivers s want).
Proof.
  intros I Hpc. set (k := pred (length (head_stores s))).
  destruct (newest_store _ _ (po_seen _ (ci_popper _ I))) as (m & El).
  destruct (head_load_delivers s want _ m I Hpc El) as (s1 & E & Hs1). fold k in E, Hs1.
  assert (store_pos vp (head_stores s) k = n_sent s) as Ek by apply (st_last _ _ _ (cm_heads _ (ci_memory _ I))).
  rewrite Ek in Hs1. fold (delivers s want) in Hs1.
  destruct (copy_step_inv _ _ _ I E) as (? & [= <-] & I1). destruct Hs1 as [(j & -> & Ed & Eo & En)|[-> E0]].
  - destruct (finish_pop s _ j want I1 eq_refl Ed Eo En) as (ls & s' & Hl & Hn & Er & Hs').
    exists (KHeadLoad k :: ls), s'. split; [by constructor|]. cbn [length]. split; [lia|].
    by rewrite (copy_run_step _ _ _ _ E).
  - exists [KHeadLoad k]. eexists. split; [by constructor|]. split; [cbn; lia|].
    rewrite (copy_run_step _ _ _ _ E). split; [done|]. rewrite E0. unfold popped_prefix. cbn. by rewrite app_nil_r.
Qed.

Lemma pop_call_delivers s l want :
  copy_spsc_inv s -> at_pc (popper s) = RIdle -> call_wants l = Some want ->
  exists s1, copy_spsc_step s l = Some (Ret s1) /\
    ((exists j, s1 = set_popper s (goto (popper s) (RCopy j)) /\ r_got j = [] /\ r_want j = want
      /\ forall b, back s <= b <= n_sent s -> r_count j = delivers_at s b want)
     \/ s1 = pop_returns s want [] /\ want = 0%nat
     \/ (exists pc, s1 = set_popper s (goto (popper s) pc) /\
          ((exists tl, want = 1%nat /\ pc = RCheck tl) \/ exists tl, pc = RCheckBatch want tl))).
Proof.
  intros I Epc Ho. pose proof (inv_order s I) as O.
  destruct l as [| | | | | |n| | |]; try done; injection Ho as <-; unfold copy_spsc_step, pop_step; cbn [copy_pushes];
    rewrite (popper_index s I), Epc, (po_cache _ (ci_popper _ I)).
  - rewrite (tail_is_head cap Hcap) by lia. eexists. split; [done|]. destruct (Z.eqb_spec (n_received s) (back s)).
    + right. right. eexists. split; [done|]. left. eauto.
    + left. eexists. split; [done|]. split_and!; try done. intros b Hb. unfold delivers_at. cbn [single_pop r_count]. lia.
  - rewrite (copy_cap s I). destruct (decide _) as [->|]; [eexists; split; [done|by right; left]|].
    rewrite (ring_distance_ok cap Hcap) by lia. cbn [mbind outcome_bind].
    destruct (Z.ltb_spec (back s - n_received s) (Z.of_nat n)).
    { eexists. split; [done|]. right. right. eexists. split; [done|]. right. eauto. }
    destruct (batch_pop_ok n (n_received s) (back s) (back s - n_received s)) as (j & -> & Hj & Ej & En & Eo); [lia..|].
    cbn [mbind outcome_bind]. eexists. split; [done|]. left. exists j. split_and!; try done. intros b Hb. unfold delivers_at. lia.
Qed.

Lemma solo_pop_call s l want :
  copy_spsc_inv s -> at_pc (popper s) = RIdle -> call_wants l = Some want ->
  exists ls s', Forall (fun l => copy_pushes l = false) ls /\ (length ls <= want + 2)%nat
    /\ copy_spsc_run s (l :: ls) = Some (Ret s') /\ popped_prefix s s' want (delivers s want).
Proof.
  intros I Epc Ho. destruct (pop_call_delivers s l want I Epc Ho) as (s1 & E & Hs1).
  destruct (copy_step_inv _ _ _ I E) as (? & [= <-] & I1). setoid_rewrite (copy_run_step _ _ _ _ E).
  destruct Hs1 as [(j & -> & Ed & Eo & En)|[[-> ->]|(pc & -> & Hpc)]].
  - pose proof (inv_order s I).
    destruct (finish_pop s _ j want I1 eq_refl Ed Eo (En (n_sent s) ltac:(lia))) as (ls & s' & Hl & Hn & Er & Hs').
    exists ls, s'. split_and!; try done. lia.
  - exists [], (pop_returns s 0 []). split; [done|]. split; [cbn; lia|]. split; [done|].
    unfold popped_prefix, delivers, delivers_at. cbn. by rewrite app_nil_r.
  - destruct (solo_head_load _ want I1) as (ls & s' & Hl & Hn & Er & Hs').
    { cbn [popper set_popper at_pc goto]. exact Hpc. }
    exists ls, s'. split_and!; try done; apply Hs'.
Qed.

(** Alone, and with the newest stores, the calls take the specification's step
    on the values in flight. *)
Lemma alone_push s l src :
  copy_spsc_inv s -> at_pc (pusher s) = KIdle -> call_offers l = Some src ->
  exists ls s' n, Forall copy_pushes ls /\ (length ls <= length src + 2)%nat
    /\ copy_spsc_run s (l :: ls) = Some (Ret s') /\ push_log s' = push_log s ++ [(src, n)]
    /\ copy_fifo_step cap (in_flight s) (CPushBatch src) = (in_flight s', CBatchPushed (Z.of_nat n)).
Proof.
  intros I Ei Ho. destruct (solo_push_call s l src I Ei Ho) as (ls & s' & Hl & Hn & Er & Hs').
  destruct Hs' as (_ & _ & Erc & _ & Esn & Elog). destruct (flight_length s I) as [Efl Hfl].
  exists ls, s', (accepts s src). split_and!; try done.
  assert (Z.min (Z.of_nat (length src)) (cap - 1 - Z.of_nat (length (in_flight s))) = Z.of_nat (accepts s src)) as Ea
    by (unfold accepts, accepts_at; lia).
  unfold copy_fifo_step. rewrite Ea, Nat2Z.id. f_equal. unfold in_flight at 2.
  by rewrite Erc, Esn, (flight_split s I), <- app_assoc, drop_app_length at 1.
Qed.

Lemma alone_pop s l dst :
  copy_spsc_inv s -> at_pc (popper s) = RIdle -> call_wants l = Some (length dst) ->
  exists ls s' vs, Forall (fun l => copy_pushes l = false) ls /\ (length ls <= length dst + 2)%nat
    /\ copy_spsc_run s (l :: ls) = Some (Ret s') /\ pop_log s' = pop_log s ++ [(length dst, vs)]
    /\ copy_fifo_step cap (in_flight s) (CPopBatch dst)
       = (in_flight s', CBatchPopped (Z.of_nat (length vs)) (vs ++ drop (length vs) dst)).
Proof.
  intros I Ei Ho. destruct (solo_pop_call s l _ I Ei Ho) as (ls & s' & Hl & Hn & Er & Hs').
  destruct Hs' as (_ & _ & Esn & _ & Erc & Elog). destruct (flight_length s I) as [Efl Hfl].
  exists ls, s', (take (delivers s (length dst)) (in_flight s)). split_and!; try done.
  assert (length dst `min` length (in_flight s) = delivers s (length dst))%nat as Ea by (unfold delivers, delivers_at; lia).
  assert (length (take (delivers s (length dst)) (in_flight s)) = delivers s (length dst)) as El by (rewrite length_take; lia).
  unfold copy_fifo_step. rewrite Ea, El. f_equal.
  unfold in_flight at 2. by rewrite Erc, Esn, length_app, <- drop_drop, El.
Qed.

(** ** A call among the other side's accesses *)

(** The accesses a call has still to make, at most. *)
Definition push_todo (pc : push_pc T) : nat :=
  match pc with
  | KIdle => 0
  | KCheck _ _ _ => 3
  | KCheckBatch src _ => length src + 2
  | KCopy j => length (j_vals j) - j_done j + 1
  end.
Definition pop_todo (pc : pop_pc T) : nat :=
  match pc with
  | RIdle => 0
  | RCheck _ => 3
  | RCheckBatch want _ => want + 2
  | RCopy j => r_count j - length (r_got j) + 1
  end.

(** A push, respectively pop, that began in [s0] and is under way or has
    returned in [s]. *)
Definition unsent s0 s : Prop := sent s = sent s0 /\ push_log s = push_log s0.
Definition unreceived s0 s : Prop := received s = received s0 /\ pop_log s = pop_log s0.

Definition pushing s0 (src : list T) s : Prop :=
  front s0 <= front s <= n_sent s0 /\
  match at_pc (pusher s) with
  | KIdle => let n := accepts_at s0 (front s) src in
             sent s = sent s0 ++ take n src /\ push_log s = push_log s0 ++ [(src, n)]
  | KCheck v _ _ => src = [v] /\ unsent s0 s
  | KCheckBatch b _ => b = src /\ unsent s0 s
  | KCopy j => j_offered j = src /\ length (j_vals j) = accepts_at s0 (front s) src /\ unsent s0 s
  end.

Definition popping s0 (want : nat) s : Prop :=
  back s0 <= back s /\
  match at_pc (popper s) with
  | RIdle => exists vs, length vs = delivers_at s0 (back s) want
             /\ received s = received s0 ++ vs /\ pop_log s = pop_log s0 ++ [(want, vs)]
  | RCheck _ => want = 1%nat /\ unreceived s0 s
  | RCheckBatch n _ => n = want /\ unreceived s0 s
  | RCopy j => r_want j = want /\ r_count j = delivers_at s0 (back s) want /\ unreceived s0 s
  end.

Lemma push_call_pushing s l src s1 :
  copy_spsc_inv s -> at_pc (pusher s) = KIdle -> call_offers l = Some src -> copy_spsc_step s l = Some (Ret s1) ->
  pushing s src s1 /\ (push_todo (at_pc (pusher s1)) <= length src + 2)%nat.
Proof.
  intros I Epc Ho E. pose proof (inv_order s I). destruct (push_call_accepts s l src I Epc Ho) as (? & E' & Hs1).
  rewrite E in E'. injection E' as <-. unfold pushing, unsent.
  destruct Hs1 as [(j & -> & Ed & Eo & En)|[[-> ->]|(pc & -> & Hpc)]].
  - specialize (En (front s) ltac:(lia)). cbn [set_pusher pusher goto at_pc push_todo sent push_log]. unfold_copy. unfold n_sent in *.
    rewrite Ed. split; [split_and!; try done; lia|]. rewrite En. unfold accepts_at. lia.
  - cbn [push_returns pusher sent push_log]. rewrite Epc. cbn. rewrite app_nil_r. split; [split_and!; try done; unfold_copy; lia|lia].
  - destruct Hpc as [(v & hd & nx & -> & ->)|[hd ->]]; cbn [set_pusher pusher goto at_pc push_todo sent push_log];
      (split; [split_and!; try done; unfold_copy; lia|cbn; lia]).
Qed.

Lemma pop_call_popping s l want s1 :
  copy_spsc_inv s -> at_pc (popper s) = RIdle -> call_wants l = Some want -> copy_spsc_step s l = Some (Ret s1) ->
  popping s want s1 /\ (pop_todo (at_pc (popper s1)) <= want + 2)%nat.
Proof.
  intros I Epc Ho E. pose proof (inv_order s I). destruct (pop_call_delivers s l want I Epc Ho) as (? & E' & Hs1).
  rewrite E in E'. injection E' as <-. unfold popping, unreceived.
  destruct Hs1 as [(j & -> & Ed & Eo & En)|[[-> ->]|(pc & -> & Hpc)]].
  - specialize (En (back s) ltac:(lia)). cbn [set_popper popper goto at_pc pop_todo received pop_log].
    rewrite Ed. split; [split_and!; try done; unfold_copy; lia|]. rewrite En. unfold delivers_at. lia.
  - cbn [pop_returns popper received pop_log]. rewrite Epc. cbn. split; [split; [unfold_copy; lia|]|lia].
    exists []. by rewrite app_nil_r.
  - destruct Hpc as [(tl & -> & ->)|[tl ->]]; cbn [set_popper popper goto at_pc pop_todo received pop_log];
      (split; [split_and!; try done; unfold_copy; lia|cbn; lia]).
Qed.

(** Evaluate a step that was taken, case by case. *)
Ltac step_cases E :=
  repeat first [apply (inj Some) in E|apply (inj Ret) in E|inv_bind E|apply bind_Some in E as (? & ? & E)|case_match];
  simplify_eq/=.

(** What a step of one side leaves of the other. *)
Lemma pop_frame s l s' :
  pop_step s l = Some (Ret s') ->
  pusher s' = pusher s /\ unsent s s' /\ exists ms, tail_stores s' = tail_stores s ++ ms.
Proof.
  intros E. assert (tail_stores s = tail_stores s ++ []) by (by rewrite app_nil_r).
  unfold pop_step in E. destruct l, (at_pc (popper s)) as [| | |j]; try done; step_cases E; split_and!; eauto; done.
Qed.

Lemma push_frame s l s' :
  push_step s l = Some (Ret s') ->
  popper s' = popper s /\ unreceived s s' /\ exists ms, head_stores s' = head_stores s ++ ms.
Proof.
  intros E. assert (head_stores s = head_stores s ++ []) by (by rewrite app_nil_r).
  unfold push_step in E. destruct l, (at_pc (pusher s)) as [| | |j]; try done; step_cases E; split_and!; eauto; done.
Qed.

Lemma pushing_other s0 src s l s' :
  copy_spsc_inv s -> pushing s0 src s -> pop_step s l = Some (Ret s') ->
  pushing s0 src s' /\ pusher s' = pusher s.
Proof.
  intros I Hp E. destruct (pop_frame _ _ _ E) as (Ep & [Es El] & ms & Et). split; [|done].
  assert (front s' = front s) as Ef.
  { unfold front. rewrite Ep, Et. apply store_pos_app, (pu_seen _ (ci_pusher _ I)). }
  unfold pushing, unsent in *. by rewrite Ep, Ef, Es, El.
Qed.

Lemma popping_other s0 want s l s' :
  copy_spsc_inv s -> popping s0 want s -> push_step s l = Some (Ret s') ->
  popping s0 want s' /\ popper s' = popper s.
Proof.
  intros I Hp E. destruct (push_frame _ _ _ E) as (Ep & [Es El] & ms & Et). split; [|done].
  assert (back s' = back s) as Ef.
  { unfold back. rewrite Ep, Et. apply store_pos_app, (po_seen _ (ci_popper _ I)). }
  unfold popping, unreceived in *. by rewrite Ep, Ef, Es, El.
Qed.

Lemma pushing_load s0 src s k s' :
  copy_spsc_inv s -> pushing s0 src s -> push_step s (KTailLoad k) = Some (Ret s') ->
  pushing s0 src s' /\ (push_todo (at_pc (pusher s')) < push_todo (at_pc (pusher s)))%nat.
Proof.
  intros I [Hf Hp] E.
  assert (((exists v hd nx, src = [v] /\ at_pc (pusher s) = KCheck v hd nx) \/ (exists hd, at_pc (pusher s) = KCheckBatch src hd))
    /\ unsent s0 s /\ push_todo (at_pc (pusher s)) = (length src + 2)%nat) as (Hpc & [Es El] & Et).
  { unfold push_step in E. destruct (at_pc (pusher s)); try done; destruct Hp as [-> Hu]; split_and!; try done; eauto 6. }
  destruct (load_acquire (tail_stores s) (seen_store (pusher s)) k) as [m|] eqn:Em.
  2: { unfold push_step in E. rewrite Em in E. by destruct (at_pc (pusher s)). }
  destruct (stores_load vc _ _ _ _ _ (cm_tails _ (ci_memory _ I)) Em) as (_ & Hk & _). fold (front s) in Hk.
  assert (n_received s <= n_sent s0) by (pose proof (inv_order s I); unfold n_sent in *; rewrite <- Es; lia).
  destruct (tail_load_accepts s src k m I Hpc Em) as (s1 & E' & Hs1). change (copy_spsc_step s (KTailLoad k)) with (push_step s (KTailLoad k)) in E'.
  rewrite E in E'. injection E' as <-. rewrite Et.
  assert (forall f, accepts_at s f src = accepts_at s0 f src) as Ha by (intros f; unfold accepts_at, n_sent; by rewrite Es).
  rewrite !Ha in Hs1. unfold pushing, unsent. destruct Hs1 as [(j & -> & Ed & Eo & En)|[-> E0]]; unfold_copy.
  - split; [split_and!; try done; unfold front in *; lia|]. cbn [push_todo]. rewrite Ed, En. unfold accepts_at. lia.
  - rewrite E0, Es, El. cbn [take]. rewrite app_nil_r. split; [split_and!; try done; unfold front in *; lia|]. cbn [push_todo]. lia.
Qed.

Lemma pushing_own s0 src s l s' :
  copy_spsc_inv s -> pushing s0 src s -> copy_pushes l -> call_offers l = None -> push_step s l = Some (Ret s') ->
  pushing s0 src s' /\ (push_todo (at_pc (pusher s')) < push_todo (at_pc (pusher s)))%nat.
Proof.
  intros I Hp Hl Ho E. destruct l as [| |k| | | | | | |]; try done; [by apply (pushing_load s0 src s k)|..];
    pose proof (pu_at _ (ci_pusher _ I)) as Pa; destruct Hp as [Hf Hp]; unfold push_step in E;
    destruct (at_pc (pusher s)) as [| | |j] eqn:Epc; try done; destruct Hp as (Eo & En & Es & El);
    cbn [push_pc_ok] in Pa; destruct Pa as (_ & Hd & _ & _ & _ & Ev).
  - destruct (j_vals j !! j_done j) eqn:Ej; [|done]. apply lookup_lt_Some in Ej. cbn [mbind option_bind] in E.
    apply (inj Some) in E. inv_bind E. destruct x as [m c]. injection E as <-. unfold pushing, unsent. unfold_copy.
    split; [split_and!; try done; lia|]. cbn [push_todo j_vals j_done]. lia.
  - destruct (decide _); [|done]. apply (inj Some) in E. inv_bind E. injection E as <-. unfold pushing. unfold_copy.
    split; [|cbn [push_todo]; lia]. split; [done|]. by rewrite <- En, Es, El, <- Eo, <- Ev.
Qed.

(** Until it has returned, a call's next access is enabled. *)
Lemma push_enabled s :
  copy_spsc_inv s -> at_pc (pusher s) <> KIdle ->
  exists l s', copy_pushes l /\ call_offers l = None /\ copy_spsc_step s l = Some (Ret s').
Proof.
  intros I Hpc. assert (exists l, copy_pushes l /\ call_offers l = None /\ is_Some (copy_spsc_step s l)) as (l & Hl & Ho & [o E]).
  { destruct (newest_store _ _ (pu_seen _ (ci_pusher _ I))) as [m Em].
    pose proof (pu_at _ (ci_pusher _ I)) as Pa. unfold copy_spsc_step.
    destruct (at_pc (pusher s)) as [|v hd nx|src hd|j] eqn:Epc; [done|..].
    1, 2: eexists (KTailLoad _); split_and!; [done..|]; cbn [copy_pushes]; unfold push_step; by rewrite Epc, Em.
    destruct Pa as (_ & Hd & _). destruct (decide (j_done j = length (j_vals j))) as [Ed|Ed].
    - exists KHeadStore. split_and!; [done..|]. cbn [copy_pushes]. unfold push_step. by rewrite Epc, decide_True by done.
    - exists KSlotWrite. split_and!; [done..|]. cbn [copy_pushes]. unfold push_step. rewrite Epc.
      destruct (lookup_lt_is_Some_2 (j_vals j) (j_done j)) as [v ->]; [lia|]. done. }
  destruct (copy_step_inv _ _ _ I E) as (s' & -> & _). eauto 6.
Qed.

(** How many of a schedule's accesses are the producer's. *)
Definition pusher_accesses (ls : list (copy_label T)) : nat := length (filter (fun l => Is_true (copy_pushes l)) ls).
Definition popper_accesses (ls : list (copy_label T)) : nat := length (filter (fun l => Is_true (negb (copy_pushes l))) ls).

Lemma pushing_run s0 src s ls o :
  copy_spsc_inv s -> pushing s0 src s -> Forall (fun l => call_offers l = None) ls -> copy_spsc_run s ls = Some o ->
  exists s', o = Ret s' /\ copy_spsc_inv s' /\ pushing s0 src s'
    /\ (pusher_accesses ls + push_todo (at_pc (pusher s')) <= push_todo (at_pc (pusher s)))%nat.
Proof.
  intros I Hp Hls. revert s I Hp. induction Hls as [|l ls Ho Hls IH]; intros s I Hp E.
  { injection E as <-. exists s. by split_and!. }
  cbn [copy_spsc_run] in E. destruct (copy_spsc_step s l) as [o1|] eqn:E1; [|done].
  destruct (copy_step_inv _ _ _ I E1) as (s1 & -> & I1). unfold copy_spsc_step in E1.
  unfold pusher_accesses. destruct (copy_pushes l) eqn:Hl.
  - destruct (pushing_own s0 src s l s1 I Hp) as [Hp1 Hlt]; [by rewrite Hl|done..|].
    destruct (IH s1 I1 Hp1 E) as (s' & -> & I' & Hp' & Hn). exists s'. split_and!; try done.
    rewrite filter_cons_True by (by rewrite Hl). cbn [length]. unfold pusher_accesses in Hn. lia.
  - destruct (pushing_other s0 src s l s1 I Hp E1) as [Hp1 Eq].
    destruct (IH s1 I1 Hp1 E) as (s' & -> & I' & Hp' & Hn). exists s'. split_and!; try done.
    rewrite filter_cons_False by (rewrite Hl; naive_solver). rewrite Eq in Hn. done.
Qed.

Lemma popping_load s0 want s k s' :
  copy_spsc_inv s -> popping s0 want s -> pop_step s (KHeadLoad k) = Some (Ret s') ->
  popping s0 want s' /\ (pop_todo (at_pc (popper s')) < pop_todo (at_pc (popper s)))%nat.
Proof.
  intros I [Hf Hp] E.
  assert (((exists tl, want = 1%nat /\ at_pc (popper s) = RCheck tl) \/ (exists tl, at_pc (popper s) = RCheckBatch want tl))
    /\ unreceived s0 s /\ pop_todo (at_pc (popper s)) = (want + 2)%nat) as (Hpc & [Es El] & Et).
  { unfold pop_step in E. destruct (at_pc (popper s)); try done; destruct Hp as [-> Hu]; split_and!; try done; eauto 6. }
  destruct (load_acquire (head_stores s) (seen_store (popper s)) k) as [m|] eqn:Em.
  2: { unfold pop_step in E. rewrite Em in E. by destruct (at_pc (popper s)). }
  destruct (stores_load vp _ _ _ _ _ (cm_heads _ (ci_memory _ I)) Em) as (_ & Hk & _). fold (back s) in Hk.
  destruct (head_load_delivers s want k m I Hpc Em) as (s1 & E' & Hs1). change (copy_spsc_step s (KHeadLoad k)) with (pop_step s (KHeadLoad k)) in E'.
  rewrite E in E'. injection E' as <-. rewrite Et.
  assert (forall b, delivers_at s b want = delivers_at s0 b want) as Ha by (intros b; unfold delivers_at, n_received; by rewrite Es).
  rewrite !Ha in Hs1. unfold popping, unreceived. destruct Hs1 as [(j & -> & Ed & Eo & En)|[-> E0]]; unfold_copy.
  - split; [split_and!; try done; unfold back in *; lia|]. cbn [pop_todo]. rewrite Ed, En. unfold delivers_at. cbn. lia.
  - rewrite E0, Es, El. split; [split; [unfold back in *; lia|exists []; by rewrite app_nil_r]|]. cbn [pop_todo]. lia.
Qed.

Lemma popping_own s0 want s l s' :
  copy_spsc_inv s -> popping s0 want s -> copy_pushes l = false -> call_wants l = None -> pop_step s l = Some (Ret s') ->
  popping s0 want s' /\ (pop_todo (at_pc (popper s')) < pop_todo (at_pc (popper s)))%nat.
Proof.
  intros I Hp Hl Ho E. destruct l as [| | | | | | |k| |]; try done; [by apply (popping_load s0 want s k)|..];
    pose proof (po_at _ (ci_popper _ I)) as Pa; destruct Hp as [Hf Hp]; unfold pop_step in E;
    destruct (at_pc (popper s)) as [| | |j] eqn:Epc; try done; destruct Hp as (Eo & En & Es & El);
    cbn [pop_pc_ok] in Pa; destruct Pa as (_ & Hd & _).
  - destruct (decide _); [|done]. apply (inj Some) in E. inv_bind E. destruct x as [[v m] c]. injection E as <-.
    unfold popping, unreceived. unfold_copy. split; [split_and!; done|]. cbn [pop_todo r_count r_got].
    rewrite length_app. cbn. lia.
  - destruct (decide _); [|done]. apply (inj Some) in E. repeat inv_bind E. injection E as <-. unfold popping. unfold_copy.
    split; [|cbn [pop_todo]; lia]. split; [done|]. exists (r_got j). rewrite Es, El, Eo. split_and!; try done. lia.
Qed.

Lemma pop_enabled s :
  copy_spsc_inv s -> at_pc (popper s) <> RIdle ->
  exists l s', copy_pushes l = false /\ call_wants l = None /\ copy_spsc_step s l = Some (Ret s').
Proof.
  intros I Hpc. assert (exists l, copy_pushes l = false /\ call_wants l = None /\ is_Some (copy_spsc_step s l)) as (l & Hl & Ho & [o E]).
  { destruct (newest_store _ _ (po_seen _ (ci_popper _ I))) as [m Em].
    pose proof (po_at _ (ci_popper _ I)) as Pa. unfold copy_spsc_step.
    destruct (at_pc (popper s)) as [|tl|want tl|j] eqn:Epc; [done|..].
    1, 2: eexists (KHeadLoad _); split_and!; [done..|]; cbn [copy_pushes]; unfold pop_step; by rewrite Epc, Em.
    destruct Pa as (_ & Hd & _). destruct (decide (length (r_got j) = r_count j)) as [Ed|Ed].
    - exists KTailStore. split_and!; [done..|]. cbn [copy_pushes]. unfold pop_step. by rewrite Epc, decide_True by done.
    - exists KSlotRead. split_and!; [done..|]. cbn [copy_pushes]. unfold pop_step. by rewrite Epc, decide_True by lia. }
  destruct (copy_step_inv _ _ _ I E) as (s' & -> & _). eauto 6.
Qed.

Lemma popping_run s0 want s ls o :
  copy_spsc_inv s -> popping s0 want s -> Forall (fun l => call_wants l = None) ls -> copy_spsc_run s ls = Some o ->
  exists s', o = Ret s' /\ copy_spsc_inv s' /\ popping s0 want s'
    /\ (popper_accesses ls + pop_todo (at_pc (popper s')) <= pop_todo (at_pc (popper s)))%nat.
Proof.
  intros I Hp Hls. revert s I Hp. induction Hls as [|l ls Ho Hls IH]; intros s I Hp E.
  { injection E as <-. exists s. by split_and!. }
  cbn [copy_spsc_run] in E. destruct (copy_spsc_step s l) as [o1|] eqn:E1; [|done].
  destruct (copy_step_inv _ _ _ I E1) as (s1 & -> & I1). unfold copy_spsc_step in E1.
  unfold popper_accesses. destruct (copy_pushes l) eqn:Hl.
  - destruct (popping_other s0 want s l s1 I Hp E1) as [Hp1 Eq].
    destruct (IH s1 I1 Hp1 E) as (s' & -> & I' & Hp' & Hn). exists s'. split_and!; try done.
    rewrite filter_cons_False by (rewrite Hl; naive_solver). rewrite Eq in Hn. done.
  - destruct (popping_own s0 want s l s1 I Hp) as [Hp1 Hlt]; [done..|].
    destruct (IH s1 I1 Hp1 E) as (s' & -> & I' & Hp' & Hn). exists s'. split_and!; try done.
    rewrite filter_cons_True by (by rewrite Hl). cbn [length]. unfold popper_accesses in Hn. lia.
Qed.

(** ** What a returned call did *)

(** The call began in [s] and has returned in [s']: it took the step of the
    bounded FIFO on the queue as some store of the other index left it, one
    not older than the last the thread had seen when it called and not newer
    than [s'].  For a push that is the queue with [f] values received, for a
    pop the queue with [b] values sent. *)
Definition push_done s (src : list T) s' : Prop :=
  exists n f : nat, front s <= Z.of_nat f <= n_received s'
    /\ (copy_fifo_step cap (drop f (sent s)) (CPushBatch src)).2 = CBatchPushed (Z.of_nat n)
    /\ sent s' = sent s ++ take n src /\ push_log s' = push_log s ++ [(src, n)].

Definition pop_done s (dst : list T) s' : Prop :=
  exists (vs : list T) (b : nat), back s <= Z.of_nat b <= n_sent s'
    /\ (copy_fifo_step cap (drop (length (received s)) (take b (sent s'))) (CPopBatch dst)).2
       = CBatchPopped (Z.of_nat (length vs)) (vs ++ drop (length vs) dst)
    /\ received s' = received s ++ vs /\ pop_log s' = pop_log s ++ [(length dst, vs)].

Lemma pushing_done s src s' :
  copy_spsc_inv s -> copy_spsc_inv s' -> pushing s src s' -> at_pc (pusher s') = KIdle -> push_done s src s'.
Proof.
  intros I I' [Hf Hp] Epc. rewrite Epc in Hp. destruct Hp as [Es El].
  pose proof (inv_order s I). pose proof (inv_order s' I').
  exists (accepts_at s (front s') src), (Z.to_nat (front s')). split; [lia|]. split; [|done].
  unfold copy_fifo_step. cbn [snd]. f_equal. unfold accepts_at, n_sent in *. rewrite length_drop. lia.
Qed.

Lemma popping_done s dst s' :
  copy_spsc_inv s -> copy_spsc_inv s' -> popping s (length dst) s' -> at_pc (popper s') = RIdle -> pop_done s dst s'.
Proof.
  intros I I' [Hb Hp] Epc. rewrite Epc in Hp. destruct Hp as (vs & Ev & Er & El).
  pose proof (inv_order s I). pose proof (inv_order s' I'). pose proof (flight_split s' I') as Ef.
  exists vs, (Z.to_nat (back s')). split; [lia|]. split; [|done].
  assert (length (drop (length (received s)) (take (Z.to_nat (back s')) (sent s'))) = Z.to_nat (back s' - n_received s)) as Eq.
  { unfold n_sent, n_received in *. rewrite length_drop, length_take. lia. }
  unfold copy_fifo_step. cbn [snd]. rewrite Eq. change (length dst `min` _)%nat with (delivers_at s (back s') (length dst)).
  rewrite <- Ev. do 2 f_equal. rewrite skipn_firstn_comm, take_take, Nat.min_l.
  - by rewrite Ef, Er, <- app_assoc, drop_app_length, take_app_length.
  - rewrite Ev. unfold delivers_at, n_received in *. lia.
Qed.

(** A push, respectively pop, in the middle of any schedule. *)
Lemma push_call_any s l src ls o :
  copy_spsc_inv s -> at_pc (pusher s) = KIdle -> call_offers l = Some src ->
  Forall (fun x => call_offers x = None) ls -> copy_spsc_run s (l :: ls) = Some o ->
  exists s', o = Ret s' /\ (pusher_accesses ls <= length src + 2)%nat
    /\ (at_pc (pusher s') = KIdle -> push_done s src s')
    /\ (at_pc (pusher s') <> KIdle -> unsent s s' /\
        exists x s'', copy_pushes x /\ call_offers x = None /\ copy_spsc_step s' x = Some (Ret s'')).
Proof.
  intros I Epc Ho Hls E. destruct (push_call_accepts s l src I Epc Ho) as (s1 & E1 & _).
  rewrite (copy_run_step _ _ _ _ E1) in E. destruct (copy_step_inv _ _ _ I E1) as (? & [= <-] & I1).
  destruct (push_call_pushing s l src s1 I Epc Ho E1) as [Hp Hn].
  destruct (pushing_run s src s1 ls o I1 Hp Hls E) as (s' & -> & I' & Hp' & Hn'). exists s'. split; [done|]. split; [lia|].
  split; [by apply pushing_done|]. intros Hpc. split; [|by apply push_enabled].
  destruct Hp' as [_ Hp']. destruct (at_pc (pusher s')); [done|apply Hp'..].
Qed.

Lemma pop_call_any s l dst ls o :
  copy_spsc_inv s -> at_pc (popper s) = RIdle -> call_wants l = Some (length dst) ->
  Forall (fun x => call_wants x = None) ls -> copy_spsc_run s (l :: ls) = Some o ->
  exists s', o = Ret s' /\ (popper_accesses ls <= length dst + 2)%nat
    /\ (at_pc (popper s') = RIdle -> pop_done s dst s')
    /\ (at_pc (popper s') <> RIdle -> unreceived s s' /\
        exists x s'', copy_pushes x = false /\ call_wants x = None /\ copy_spsc_step s' x = Some (Ret s'')).
Proof.
  intros I Epc Ho Hls E. destruct (pop_call_delivers s l _ I Epc Ho) as (s1 & E1 & _).
  rewrite (copy_run_step _ _ _ _ E1) in E. destruct (copy_step_inv _ _ _ I E1) as (? & [= <-] & I1).
  destruct (pop_call_popping s l _ s1 I Epc Ho E1) as [Hp Hn].
  destruct (popping_run s _ s1 ls o I1 Hp Hls E) as (s' & -> & I' & Hp' & Hn'). exists s'. split; [done|]. split; [lia|].
  split; [by apply popping_done|]. intros Hpc. split; [|by apply pop_enabled].
  destruct Hp' as [_ Hp']. destruct (at_pc (popper s')); [done|apply Hp'..].
Qed.
End invariant.

(** The storage a copy ring is built over wraps indices as a batch needs. *)
Lemma copy_storage `{BuildProfile} {T} (storage : list (option T)) :
  (exists N, inline_storage N = Ret storage) \/ (exists m, heap_storage m = Ret storage) ->
  0 < capacity_of storage <= 2 ^ 62 ->
  1 <= capacity_of storage <= 2 ^ 62 /\ storage = replicate (Z.to_nat (capacity_of storage)) None
  /\ BatchWrap (H := Pow2Masked) (capacity_of storage).
Proof.
  intros Hst Hc. destruct (storage_pow2 _ Hst ltac:(lia)) as (k & Hk & Ec & Es). rewrite Ec in *.
  assert (k <= 62) by (apply (Z.pow_le_mono_r_iff 2); lia). split; [lia|]. split; [done|]. by apply pow2_masked_wraps.
Qed.

Lemma copy_run_reachable `{BuildProfile} `{TargetArch} `{IndexStrategy} {T} (storage : list (option T)) s ls o :
  copy_reachable storage (Ret s) -> copy_spsc_run s ls = Some o -> copy_reachable storage o.
Proof.
  revert s. induction ls as [|l ls IH]; cbn; intros s Hr E; [by simplify_eq|].
  destruct (copy_spsc_step s l) as [[s'|]|] eqn:El; [|by simplify_eq; econstructor|done].
  by eapply IH; [econstructor|].
Qed.

(** C35. The copy ring is safe and FIFO under concurrency, batches included: in
    every interleaving of the slot accesses, loads and stores of one producer
    and one consumer, whatever stale stores their acquire loads return, no
    access races, copies from an uninitialised slot or leaves the array, and
    nothing panics.  The values received are a prefix of the values sent, of
    which at most [capacity - 1] are in flight; what was sent is the
    concatenation of the accepted prefixes of the arguments of [push] and
    [push_batch], and what was received is what the calls of [pop] and
    [pop_batch] copied out, none more than its destination holds.  Between
    calls the memory is a state of the sequential ring holding the values in
    flight. *)
Theorem copy_spsc_race_free_fifo `{BuildProfile} `{TargetArch} {T} (storage : list (option T)) (o : outcome (copy_spsc T)) :
  (exists N, inline_storage N = Ret storage) \/ (exists m, heap_storage m = Ret storage) ->
  0 < capacity_of storage <= 2 ^ 62 -> copy_reachable (H1 := Pow2Masked) storage o ->
  exists s, o = Ret s
    /\ sent s = received s ++ in_flight s /\ Z.of_nat (length (in_flight s)) <= capacity_of storage - 1
    /\ sent s = concat ((fun e => take e.2 e.1) <$> push_log s) /\ Forall (fun e => e.2 <= length e.1)%nat (push_log s)
    /\ received s = concat (snd <$> pop_log s) /\ Forall (fun e => length e.2 <= e.1)%nat (pop_log s)
    /\ (at_pc (pusher s) = KIdle -> at_pc (popper s) = RIdle ->
        copy_inv (capacity_of storage) (copy_spsc_engine s) (in_flight s)).
Proof.
  intros Hst Hc HR. destruct (copy_storage storage Hst Hc) as (Hc' & Es & HW). rewrite Es in HR.
  destruct (@copy_reachable_inv _ _ Pow2Masked _ _ Hc' HW _ HR) as (s & -> & I). exists s. split; [done|].
  pose proof (ci_logs _ _ I) as [A B D F]. split_and!; try done.
  - by apply (flight_split (capacity_of storage)).
  - by apply flight_length.
  - by apply copy_idle_engine.
Qed.

(** The witness: a batch of three wraps around the end of a four-slot array
    while the consumer pops between its slot writes. *)
Lemma copy_spsc_race_free_fifo_witness :
  exists s : copy_spsc Z,
    @copy_spsc_run debug_profile false (@Pow2Masked debug_profile) Z (copy_spsc_new (replicate 4 None))
      [KPushBatch [1; 2; 3; 4]; KTailLoad 0; KSlotWrite; KSlotWrite; KSlotWrite; KHeadStore;
       KPopBatch 2; KHeadLoad 1; KSlotRead; KSlotRead; KTailStore; KPushBatch [5; 6]; KTailLoad 1; KSlotWrite;
       KPop; KSlotRead; KSlotWrite; KHeadStore; KTailStore] = Some (Ret s)
    /\ sent s = [1; 2; 3; 5; 6] /\ push_log s = [([1; 2; 3; 4], 3%nat); ([5; 6], 2%nat)]
    /\ pop_log s = [(2%nat, [1; 2]); (1%nat, [3])]
    /\ @copy_inv false _ _ 4 (copy_spsc_engine s) [5; 6].
Proof.
  eexists. split; [vm_compute; reflexivity|]. split; [reflexivity|]. split; [reflexivity|]. split; [reflexivity|].
  match goal with |- context [copy_spsc_engine ?s] =>
    destruct (@copy_spsc_race_free_fifo debug_profile false Z (replicate 4 None) (Ret s))
      as (s' & E & _ & _ & _ & _ & _ & _ & Hd)
  end.
  - left. by exists 4%nat.
  - done.
  - eapply (@copy_run_reachable debug_profile false (@Pow2Masked debug_profile)); [constructor|].
    instantiate (1 := [KPushBatch [1; 2; 3; 4]; KTailLoad 0; KSlotWrite; KSlotWrite; KSlotWrite; KHeadStore;
       KPopBatch 2; KHeadLoad 1; KSlotRead; KSlotRead; KTailStore; KPushBatch [5; 6]; KTailLoad 1; KSlotWrite;
       KPop; KSlotRead; KSlotWrite; KHeadStore; KTailStore]). vm_compute. reflexivity.
  - injection E as <-. exact (Hd eq_refl eq_refl).
Defined.

(** C5. The calls are wait-free and do what the sequential ring does.  Begin a
    call in any reachable state in which its side is idle, whatever the other
    side is in the middle of, and let the two sides go on in any order, with
    any stale stores their loads may return, neither panicking: the call makes
    at most one access per element and two more; until it returns it has
    published nothing and its next access is enabled; and when it has returned
    it took exactly the step of the bounded FIFO on the queue as the last store
    of the other index it saw left it, a store not older than the last it had
    seen before.  A stale load can so make a push see less room, or a pop fewer
    values, than there is; the call running on alone and loading the newest
    stores moves exactly what the FIFO on the values in flight moves. *)
Theorem copy_spsc_calls_complete `{BuildProfile} `{TargetArch} {T} (storage : list (option T)) (s : copy_spsc T) l :
  (exists N, inline_storage N = Ret storage) \/ (exists m, heap_storage m = Ret storage) ->
  0 < capacity_of storage <= 2 ^ 62 -> copy_reachable (H1 := Pow2Masked) storage (Ret s) ->
  (forall src, at_pc (pusher s) = KIdle -> call_offers l = Some src ->
    (forall ls o, Forall (fun x => call_offers x = None) ls -> copy_spsc_run (H1 := Pow2Masked) s (l :: ls) = Some o ->
      exists s', o = Ret s' /\ (pusher_accesses ls <= length src + 2)%nat
        /\ (at_pc (pusher s') = KIdle -> push_done (capacity_of storage) s src s')
        /\ (at_pc (pusher s') <> KIdle -> unsent s s' /\
            exists x s'', copy_pushes x /\ call_offers x = None /\ copy_spsc_step (H1 := Pow2Masked) s' x = Some (Ret s''))) /\
    exists ls s' n, Forall copy_pushes ls /\ (length ls <= length src + 2)%nat
      /\ copy_spsc_run (H1 := Pow2Masked) s (l :: ls) = Some (Ret s') /\ push_log s' = push_log s ++ [(src, n)]
      /\ copy_fifo_step (capacity_of storage) (in_flight s) (CPushBatch src) = (in_flight s', CBatchPushed (Z.of_nat n))) /\
  (forall dst, at_pc (popper s) = RIdle -> call_wants l = Some (length dst) ->
    (forall ls o, Forall (fun x => call_wants x = None) ls -> copy_spsc_run (H1 := Pow2Masked) s (l :: ls) = Some o ->
      exists s', o = Ret s' /\ (popper_accesses ls <= length dst + 2)%nat
        /\ (at_pc (popper s') = RIdle -> pop_done (capacity_of storage) s dst s')
        /\ (at_pc (popper s') <> RIdle -> unreceived s s' /\
            exists x s'', copy_pushes x = false /\ call_wants x = None /\ copy_spsc_step (H1 := Pow2Masked) s' x = Some (Ret s''))) /\
    exists ls s' vs, Forall (fun l => copy_pushes l = false) ls /\ (length ls <= length dst + 2)%nat
      /\ copy_spsc_run (H1 := Pow2Masked) s (l :: ls) = Some (Ret s') /\ pop_log s' = pop_log s ++ [(length dst, vs)]
      /\ copy_fifo_step (capacity_of storage) (in_flight s) (CPopBatch dst)
         = (in_flight s', CBatchPopped (Z.of_nat (length vs)) (vs ++ drop (length vs) dst))).
Proof.
  intros Hst Hc HR. destruct (copy_storage storage Hst Hc) as (Hc' & Es & HW). rewrite Es in HR.
  destruct (@copy_reachable_inv _ _ Pow2Masked _ _ Hc' HW _ HR) as (? & [= <-] & I). split.
  - intros src Ei Ho. split; [intros ls o Hls E; by eapply (@push_call_any _ _ Pow2Masked)|].
    by apply (@alone_push _ _ Pow2Masked).
  - intros dst Ei Ho. split; [intros ls o Hls E; by eapply (@pop_call_any _ _ Pow2Masked)|].
    by apply (@alone_pop _ _ Pow2Masked).
Qed.

(** The witness: a batch push that loads a stale tail, with the consumer
    popping between its accesses, accepts one value though two fit; the same
    push alone, loading the newest tail, accepts both. *)
Definition stale_push_prefix : list (copy_label Z) :=
  [KPushBatch [1; 2]; KSlotWrite; KSlotWrite; KHeadStore; KPopBatch 1; KHeadLoad 1; KSlotRead; KTailStore].

Lemma copy_spsc_calls_complete_witness :
  exists s s' : copy_spsc Z,
    @copy_spsc_run debug_profile true (@Pow2Masked debug_profile) Z (copy_spsc_new (replicate 4 None)) stale_push_prefix = Some (Ret s)
    /\ @copy_spsc_run debug_profile true (@Pow2Masked debug_profile) Z s [KPushBatch [3; 4]; KTailLoad 0; KPop; KSlotWrite; KSlotRead; KHeadStore] = Some (Ret s')
    /\ in_flight s = [2] /\ push_log s' = [([1; 2], 2%nat); ([3; 4], 1%nat)] /\ push_done 4 s [3; 4] s'
    /\ exists ls s2 n, @copy_spsc_run debug_profile true (@Pow2Masked debug_profile) Z s (KPushBatch [3; 4] :: ls) = Some (Ret s2)
    /\ push_log s2 = [([1; 2], 2%nat)] ++ [([3; 4], n)] /\ copy_fifo_step 4 [2] (CPushBatch [3; 4]) = (in_flight s2, CBatchPushed (Z.of_nat n)).
Proof.
  do 2 eexists. split; [vm_compute; reflexivity|]. split; [vm_compute; reflexivity|]. split; [reflexivity|].
  split; [reflexivity|].
  match goal with |- push_done _ ?s _ ?s' /\ _ =>
    destruct (@copy_spsc_calls_complete debug_profile true Z (replicate 4 None) s (KPushBatch [3; 4])) as [Hp _];
    [| | |destruct (Hp [3; 4] eq_refl eq_refl) as [Hall (ls & s2 & n & _ & _ & Hl & Elog & Ef)]]
  end.
  - left. by exists 4%nat.
  - done.
  - eapply (@copy_run_reachable debug_profile true (@Pow2Masked debug_profile)) with (ls := stale_push_prefix);
      [constructor|vm_compute; reflexivity].
  - split.
    + edestruct (Hall [KTailLoad 0; KPop; KSlotWrite; KSlotRead; KHeadStore]) as (s' & E & _ & Hd & _);
        [by repeat constructor|vm_compute; reflexivity|].
      injection E as <-. exact (Hd eq_refl).
    + exists ls, s2, n. split; [exact Hl|]. split; [exact Elog|exact Ef].
Defined.
