(* ===== verification/SeqLock.v ===== *)
(** * The sequence lock ([crates/seqlock/src/raw/seqlock.rs])

    One writer publishes values through [store]; any number of readers take
    them through [load], which copies the data between two loads of the
    sequence number and retries when they differ or the number is odd.

    The threads are modelled access by access.  A value of type [T] is the
    list of its words, copied in and out one word at a time in any order (the
    order of [CopyPolicy]'s accesses is not specified).  The writer's stores go
    through a buffer: under [TSO] (x86_64) they reach memory in program order;
    under [ReleaseOnly] they reach it in any order that the code's [Release]
    stores and per-location coherence allow, that is, the sequence stores wait
    for everything before them, but a data word only waits for earlier stores
    to the same word.  Readers read memory in program order: the [Acquire] load
    and the read barrier keep the copy between the two loads of the number. *)

From Stdlib Require Import ZArith Lia.
From stdpp Require Import base decidable numbers option tactics list.
From S2P Require Import Prelude.

#[local] Open Scope Z_scope.

(** * Memory *)

Class MemoryModel := TSO_or_release_only : bool.
Definition TSO : MemoryModel := true.
Definition ReleaseOnly : MemoryModel := false.

(** A pending store of the writer. *)
Inductive entry := StSeq (s : Z) | StWord (i : nat) (x : Z).

#[global] Instance entry_eq_dec : EqDecision entry.
Proof. solve_decision. Defined.

(** [SeqLock<T>]: the number and the words of the data. *)
Record memory := Memory { m_seq : Z; m_data : list Z }.

Definition new (initial : list Z) : memory := Memory 0 initial.

Definition commit (e : entry) (m : memory) : memory :=
  match e with
  | StSeq s => Memory s (m_data m)
  | StWord i x => Memory (m_seq m) (<[i:=x]> (m_data m))
  end.

(** May the entry behind the entries [before] reach memory next? *)
Definition may_commit `{MemoryModel} (before : list entry) (e : entry) : bool :=
  if TSO_or_release_only then bool_decide (before = [])
  else match e with
       | StSeq _ => bool_decide (before = [])
       | StWord i _ => forallb (fun e' => match e' with StWord j _ => bool_decide (j <> i) | StSeq _ => true end) before
       end.

(** A thread sees its own latest store: the [Relaxed] load in [store]. *)
Fixpoint own_seq (s : Z) (buf : list entry) : Z :=
  match buf with
  | [] => s
  | StSeq s' :: buf' => own_seq s' buf'
  | StWord _ _ :: buf' => own_seq s buf'
  end.

(** * Threads *)

(** The writer between calls, or inside [store val] with the number it loaded
    and the words not yet copied in. *)
Inductive writer := WIdle | WCopy (s : Z) (val : list Z) (pending : list nat).

(** A reader between calls (with its last result), at the top of [load]'s
    loop, or copying out after it loaded [seq1]. *)
Inductive reader := RDone (val : option (list Z)) | RTop | RCopy (seq1 : Z) (dst : list (option Z)).

Record state := State {
  mem : memory;
  buf : list entry;      (* the writer's store buffer *)
  wr : writer;
  readers : list reader;
  stored : list (list Z);  (* ghost: the initial value and every value stored *)
}.

Inductive action :=
  | WStart (val : list Z)   (* enter [store]: load the number, store it plus one *)
  | WWord (i : nat)         (* [copy_in]: one word *)
  | WEnd                    (* store the number plus two, return *)
  | Flush (k : nat)         (* the buffer's [k]-th entry reaches memory *)
  | RCall (r : nat)         (* reader [r] calls [load] *)
  | RSeq1 (r : nat)         (* loads [seq1]; spins when it is odd *)
  | RWord (r : nat) (i : nat) (* [copy_out]: one word *)
  | RSeq2 (r : nat).        (* loads [seq2]; returns or retries *)

Definition init_state (initial : list Z) (n_readers : nat) : state :=
  State (new initial) [] WIdle (replicate n_readers (RDone None)) [initial].

(** [version]: a [Relaxed] load of the number. *)
Definition version (σ : state) : Z := m_seq (mem σ).

(** [store], access by access. *)
Definition step_store (a : action) (σ : state) : option state :=
  match a, wr σ with
  | WStart val, WIdle =>
      if decide (length val = length (m_data (mem σ))) then
        let s := own_seq (m_seq (mem σ)) (buf σ) in
        Some (State (mem σ) (buf σ ++ [StSeq (wrap USIZE (s + 1))])
                (WCopy s val (seq 0 (length val))) (readers σ) (stored σ ++ [val]))
      else None
  | WWord i, WCopy s val pending =>
      match val !! i with
      | Some x =>
          if decide (i ∈ pending) then
            Some (State (mem σ) (buf σ ++ [StWord i x])
                    (WCopy s val (filter (.≠ i) pending)) (readers σ) (stored σ))
          else None
      | None => None
      end
  | WEnd, WCopy s val [] =>
      Some (State (mem σ) (buf σ ++ [StSeq (wrap USIZE (s + 2))]) WIdle (readers σ) (stored σ))
  | _, _ => None
  end.

(** [load], access by access; [None] when the access is not the reader's next. *)
Definition step_load (m : memory) (a : action) (rd : reader) : option reader :=
  match a, rd with
  | RCall _, RDone _ => Some RTop
  | RSeq1 _, RTop =>
      let seq1 := m_seq m in
      if Z.land seq1 1 =? 0 then Some (RCopy seq1 (replicate (length (m_data m)) None))
      else Some RTop
  | RWord _ i, RCopy seq1 dst =>
      match dst !! i, m_data m !! i with
      | Some None, Some x => Some (RCopy seq1 (<[i:=Some x]> dst))
      | _, _ => None
      end
  | RSeq2 _, RCopy seq1 dst =>
      match mapM id dst with
      | Some val => if seq1 =? m_seq m then Some (RDone (Some val)) else Some RTop
      | None => None
      end
  | _, _ => None
  end.

(** The reader an action belongs to. *)
Definition reader_of (a : action) : option nat :=
  match a with RCall r | RSeq1 r | RWord r _ | RSeq2 r => Some r | _ => None end.

Section steps.
Context `{MemoryModel}.

Definition step (a : action) (σ : state) : option state :=
  match a with
  | Flush k =>
      match buf σ !! k with
      | Some e =>
          if may_commit (take k (buf σ)) e then
            Some (State (commit e (mem σ)) (take k (buf σ) ++ drop (S k) (buf σ))
                    (wr σ) (readers σ) (stored σ))
          else None
      | None => None
      end
  | _ =>
      match reader_of a with
      | None => step_store a σ
      | Some r =>
          match readers σ !! r with
          | Some rd =>
              match step_load (mem σ) a rd with
              | Some rd' =>
                  Some (State (mem σ) (buf σ) (wr σ) (<[r:=rd']> (readers σ)) (stored σ))
              | None => None
              end
          | None => None
          end
      end
  end.

Fixpoint run (acts : list action) (σ : state) : option state :=
  match acts with
  | [] => Some σ
  | a :: acts' => match step a σ with Some σ' => run acts' σ' | None => None end
  end.

(** The states the threads can reach. *)
Inductive reachable (initial : list Z) (n : nat) : state -> Prop :=
  | reach_init : reachable initial n (init_state initial n)
  | reach_step σ a σ' : reachable initial n σ -> step a σ = Some σ' -> reachable initial n σ'.
End steps.

Example seqlock_store_load :
  ∃ σ, @run TSO [WStart [7; 8]; Flush 0; WWord 1; WWord 0; Flush 0; WEnd; Flush 0; Flush 0;
                 RCall 0; RSeq1 0; RWord 0 1; RWord 0 0; RSeq2 0] (init_state [1; 2] 1) = Some σ /\
       readers σ = [RDone (Some [7; 8])].
Proof. eexists. split; vm_compute; reflexivity. Qed.

(** * The invariant under TSO *)

(** An even number [2k] means that the words are those of the [k]-th value. *)
Definition consistent (hist : list (list Z)) (m : Z) (ws : list Z) : Prop :=
  Z.even m = true -> hist !! Z.to_nat (m / 2) = Some ws.

(** Starting from number [m] and words [ws], the pending stores lead through
    consistent memories, change words only under an odd number, and end in one
    that satisfies [K]. *)
Fixpoint log_ok (hist : list (list Z)) (K : Z -> list Z -> Prop) (m : Z) (ws : list Z)
    (b : list entry) : Prop :=
  consistent hist m ws /\
  match b with
  | [] => K m ws
  | StSeq s :: b' => s = m + 1 /\ log_ok hist K (m + 1) ws b'
  | StWord i x :: b' => Z.even m = false /\ log_ok hist K m (<[i:=x]> ws) b'
  end.

(** The memory at the end of the writer's log, by its program counter. *)
Definition writer_ok (hist : list (list Z)) (w : writer) (m : Z) (ws : list Z) : Prop :=
  match w with
  | WIdle => m = 2 * (Z.of_nat (length hist) - 1)
  | WCopy s val pending =>
      s = 2 * (Z.of_nat (length hist) - 2) /\ 0 <= s /\ m = s + 1 /\ last hist = Some val /\
      length ws = length val /\ Forall (fun i => (i < length val)%nat) pending /\
      forall i, i ∉ pending -> ws !! i = val !! i
  end.

(** What a reader copied while the number stays the one it loaded is what
    memory holds. *)
Definition reader_ok (hist : list (list Z)) (m : memory) (rd : reader) : Prop :=
  match rd with
  | RDone (Some v) => v ∈ hist
  | RDone None | RTop => True
  | RCopy s1 dst =>
      Z.even s1 = true /\ s1 <= m_seq m /\ length dst = length (m_data m) /\
      (s1 = m_seq m -> forall i x, dst !! i = Some (Some x) -> m_data m !! i = Some x)
  end.

Definition inv (σ : state) : Prop :=
  0 <= m_seq (mem σ) /\
  log_ok (stored σ) (writer_ok (stored σ) (wr σ)) (m_seq (mem σ)) (m_data (mem σ)) (buf σ) /\
  Forall (reader_ok (stored σ) (mem σ)) (readers σ).

(** The number of stores after which the sequence number wraps around. *)
Definition no_wrap (hist : list (list Z)) : Prop := Z.of_nat (length hist) <= 2 ^ 63.

Lemma consistent_prefix hist hist' m ws :
  hist `prefix_of` hist' -> consistent hist m ws -> consistent hist' m ws.
Proof. intros Hp Hc Hm. eapply prefix_lookup_Some; eauto. Qed.

Lemma even_land m : (Z.land m 1 =? 0) = Z.even m.
Proof.
  change 1 with (Z.ones 1). by rewrite Z.land_ones, Z.pow_1_r, Zeven_mod by lia.
Qed.

(** Appending stores to the log, from the memory at its end. *)
Lemma log_ok_app hist hist' K K' b tail : forall m ws,
  log_ok hist K m ws b -> hist `prefix_of` hist' ->
  (forall ws', length ws' = length ws -> consistent hist (own_seq m b) ws' ->
     K (own_seq m b) ws' -> log_ok hist' K' (own_seq m b) ws' tail) ->
  log_ok hist' K' m ws (b ++ tail).
Proof.
  induction b as [|e b IH]; intros m ws Hlog Hp Htail.
  { destruct Hlog as [Hc HK]. by apply Htail. }
  destruct e as [s|i x]; destruct Hlog as (Hc & He & Hlog); cbn [app log_ok];
    (split; [by eapply consistent_prefix|split; [done|]]).
  - apply IH; [done..|]. intros ws' Hl Hc' HK. subst s. by apply Htail.
  - apply IH; [done..|]. intros ws' Hl. rewrite length_insert in Hl. by apply Htail.
Qed.

(** The end of the log. *)
Lemma log_ok_end hist K b m ws :
  log_ok hist K m ws b ->
  m <= own_seq m b /\
  exists ws', length ws' = length ws /\ consistent hist (own_seq m b) ws' /\ K (own_seq m b) ws'.
Proof.
  revert m ws. induction b as [|e b IH]; intros m ws Hlog.
  { destruct Hlog as [Hc HK]. split; [done|]. by exists ws. }
  destruct e as [s|i x]; destruct Hlog as (Hc & He & Hlog); apply IH in Hlog as (Hle & ws' & Hl & ?).
  - subst s. cbn. split; [lia|]. by exists ws'.
  - rewrite length_insert in Hl. cbn. split; [lia|]. by exists ws'.
Qed.

Lemma reader_ok_prefix hist hist' m rd :
  hist `prefix_of` hist' -> reader_ok hist m rd -> reader_ok hist' m rd.
Proof.
  intros [k ->] Hr. destruct rd as [[v|]| |]; cbn in *; try done. apply elem_of_app. by left.
Qed.

Lemma inv_init initial n : inv (init_state initial n).
Proof.
  split; [done|]. split; [by split|]. apply Forall_replicate. done.
Qed.

(** * Preservation *)

Lemma start_inv m b rds hist val :
  inv (State m b WIdle rds hist) -> length val = length (m_data m) -> no_wrap (hist ++ [val]) ->
  let s := own_seq (m_seq m) b in
  inv (State m (b ++ [StSeq (wrap USIZE (s + 1))]) (WCopy s val (seq 0 (length val))) rds (hist ++ [val])).
Proof.
  intros (Hm & Hlog & Hrd) Hlen Hw s. unfold no_wrap in Hw. rewrite length_app in Hw. cbn in Hw.
  cbn [mem buf wr readers stored] in *.
  destruct (log_ok_end _ _ _ _ _ Hlog) as (Hle & ws0 & _ & _ & Hend). cbn in Hend. fold s in Hle, Hend.
  split; [done|]. cbn [mem buf wr readers stored]. split.
  - apply (log_ok_app hist _ (writer_ok hist WIdle)); [done|by apply prefix_app_r|].
    intros ws' Hl Hc HK. fold s in Hc, HK |- *. cbn [log_ok].
    rewrite (wrap_id USIZE) by mlia. split_and!; [eapply consistent_prefix; [by apply prefix_app_r|done]|done| |].
    + intros Hev. rewrite Z.even_add, Hend, Z.even_mul in Hev. done.
    + cbn. rewrite length_app. cbn. split_and!; try lia.
      * by rewrite last_snoc.
      * apply Forall_seq. lia.
      * intros i Hi. rewrite !lookup_ge_None_2; [done| |]; rewrite elem_of_seq in Hi; lia.
  - eapply Forall_impl; [done|]. intros rd. apply reader_ok_prefix. by apply prefix_app_r.
Qed.

Lemma word_inv m b rds hist s val pending i x :
  inv (State m b (WCopy s val pending) rds hist) -> val !! i = Some x ->
  inv (State m (b ++ [StWord i x]) (WCopy s val (filter (.≠ i) pending)) rds hist).
Proof.
  intros (Hm & Hlog & Hrd) Hx. split; [done|]. cbn [mem buf wr readers stored] in *. split; [|done].
  eapply log_ok_app; [done|done|]. intros ws' Hl Hc (Es & Hs & Em & Hlast & Hlen & Hpend & Hws).
  cbn [log_ok]. rewrite Em in *.
  assert (Z.even (s + 1) = false) as Hodd by (rewrite Z.even_add, Es, Z.even_mul; done).
  split_and!; [done..| |].
  - unfold consistent. by rewrite Hodd.
  - cbn. rewrite length_insert. split_and!; [done..| |].
    { apply Forall_forall. intros j [_ Hj]%list_elem_of_filter. by eapply Forall_forall in Hpend. }
    intros j Hj.
    destruct (decide (j = i)) as [->|Hne].
    + rewrite list_lookup_insert_eq; [done|]. rewrite Hlen. by eapply lookup_lt_Some.
    + rewrite list_lookup_insert_ne by done. apply Hws. intros Hin. apply Hj.
      by apply list_elem_of_filter.
Qed.

Lemma end_inv m b rds hist s val :
  inv (State m b (WCopy s val []) rds hist) -> no_wrap hist ->
  inv (State m (b ++ [StSeq (wrap USIZE (s + 2))]) WIdle rds hist).
Proof.
  intros (Hm & Hlog & Hrd) Hw. unfold no_wrap in Hw.
  split; [done|]. cbn [mem buf wr readers stored] in *. split; [|done].
  eapply log_ok_app; [done|done|]. intros ws' Hl Hc (Es & Hs & Em & Hlast & Hlen & Hpend & Hws).
  cbn [log_ok]. rewrite wrap_id by mlia. split_and!; [done|lia| |cbn; lia].
  intros _. rewrite Em. replace ((s + 1 + 1) / 2) with (Z.of_nat (length hist) - 1)
    by (apply (Z.div_unique_pos _ _ _ 0); lia).
  assert (ws' = val) as ->. { apply list_eq. intros i. apply Hws, not_elem_of_nil. }
  rewrite last_lookup in Hlast. rewrite <- Hlast. f_equal. lia.
Qed.

Lemma step_store_inv a σ σ' :
  inv σ -> no_wrap (stored σ') -> step_store a σ = Some σ' -> inv σ'.
Proof.
  intros Hinv Hw Hstep. destruct σ as [m b w rds hist].
  destruct a as [val|i| | | | | |], w as [|s v p]; cbn in Hstep; try discriminate.
  - case_decide; [|discriminate]. injection Hstep as <-. by apply start_inv.
  - destruct (v !! i) eqn:Hx; [|discriminate]. case_decide; [|discriminate].
    injection Hstep as <-. by apply word_inv.
  - destruct p; [|discriminate]. injection Hstep as <-. by eapply end_inv.
Qed.

(** Under TSO the oldest store reaches memory. *)
Lemma flush_inv k σ σ' : inv σ -> step (H := TSO) (Flush k) σ = Some σ' -> inv σ'.
Proof.
  intros (Hm & Hlog & Hrd) Hstep. cbn in Hstep.
  destruct (buf σ !! k) as [e|] eqn:Hk; [|discriminate].
  case_bool_decide as Hb; [|discriminate]. injection Hstep as <-. rewrite Hb.
  destruct k as [|k]; [|destruct (buf σ); by cbn in *].
  destruct (buf σ) as [|e' b] eqn:Eb; [done|]. injection Hk as ->. cbn [drop app] in *.
  destruct e as [s|i x]; destruct Hlog as (Hc & He & Hlog).
  - split; [cbn; lia|]. cbn. split; [by rewrite He|]. eapply Forall_impl; [done|].
    intros [[?|]| |s1 dst]; cbn; try done. intros (? & ? & ? & ?). split_and!; try done; lia.
  - split; [done|]. cbn. split; [done|]. eapply Forall_impl; [done|].
    intros [[?|]| |s1 dst]; cbn; try done. intros (Hev & ? & ? & ?). rewrite length_insert.
    split_and!; try done. intros ->. by rewrite Hev in He.
Qed.

Lemma mapM_id_lookup {A} (dst : list (option A)) val i :
  mapM id dst = Some val -> dst !! i = Some <$> val !! i.
Proof.
  intros Hm%mapM_Some. revert i. induction Hm as [|o v dst val Hov Hm IH]; intros [|i]; cbn; try done.
  by rewrite <- Hov.
Qed.

(** A reader that returns has the value its number stands for. *)
Lemma load_returns hist m seq1 dst val :
  consistent hist (m_seq m) (m_data m) -> reader_ok hist m (RCopy seq1 dst) ->
  mapM id dst = Some val -> seq1 = m_seq m ->
  val = m_data m /\ hist !! Z.to_nat (m_seq m / 2) = Some val.
Proof.
  intros Hc (Hev & Hle & Hlen & Hcopy) Hval ->.
  assert (val = m_data m) as ->; [|auto].
  pose proof (length_mapM _ _ _ Hval) as Hl.
  apply list_eq_same_length with (length val); [lia|done|].
  intros i x y _ Hx Hy. apply mapM_id_lookup with (i := i) in Hval. rewrite Hx in Hval.
  apply Hcopy in Hval; [|done]. congruence.
Qed.

Lemma step_load_inv hist m a rd rd' :
  consistent hist (m_seq m) (m_data m) -> reader_ok hist m rd ->
  step_load m a rd = Some rd' -> reader_ok hist m rd'.
Proof.
  intros Hc Hr Hs. destruct a as [| | | |r|r|r i|r], rd as [o| |seq1 dst]; try discriminate; cbn in Hs.
  - by injection Hs as <-.
  - rewrite even_land in Hs. destruct (Z.even (m_seq m)) eqn:Hev; injection Hs as <-; [|done].
    split_and!; [done|lia|by rewrite length_replicate|]. intros _ i x Hx.
    by apply lookup_replicate in Hx as [? ?].
  - destruct (dst !! i) as [[|]|] eqn:Hd; [discriminate| |discriminate].
    destruct (m_data m !! i) as [x|] eqn:Hx; [|discriminate]. injection Hs as <-.
    destruct Hr as (Hev & Hle & Hlen & Hcopy). split_and!; [done|done|by rewrite length_insert|].
    intros E j y Hj. destruct (decide (i = j)) as [<-|Hne].
    + rewrite list_lookup_insert_eq in Hj by (by eapply lookup_lt_Some). congruence.
    + rewrite list_lookup_insert_ne in Hj by done. by apply Hcopy.
  - destruct (mapM id dst) as [val|] eqn:Hv; [|discriminate].
    destruct (Z.eqb_spec seq1 (m_seq m)); injection Hs as <-; [|done].
    edestruct load_returns as [_ Hl]; [done..|]. by eapply list_elem_of_lookup_2.
Qed.

(** The states of the other components after a step of a reader. *)
Lemma step_reader `{MemoryModel} a r σ σ' :
  reader_of a = Some r -> step a σ = Some σ' ->
  exists rd rd', readers σ !! r = Some rd /\ step_load (mem σ) a rd = Some rd' /\
    σ' = State (mem σ) (buf σ) (wr σ) (<[r:=rd']> (readers σ)) (stored σ).
Proof.
  intros Ha Hs. destruct a; cbn in Ha; try discriminate; injection Ha as ->;
    cbn [step reader_of] in Hs;
    (destruct (readers σ !! r) as [rd|] eqn:Hr; [|discriminate];
     match type of Hs with context [step_load ?m ?a ?rd] => destruct (step_load m a rd) eqn:Hl end;
     [|discriminate]; injection Hs as <-; eauto 10).
Qed.

Lemma step_load_step `{MemoryModel} a r σ rd rd' :
  reader_of a = Some r -> readers σ !! r = Some rd -> step_load (mem σ) a rd = Some rd' ->
  step a σ = Some (State (mem σ) (buf σ) (wr σ) (<[r:=rd']> (readers σ)) (stored σ)).
Proof.
  intros Ha Hr Hl. destruct a; try discriminate; injection Ha as ->;
    cbn [step reader_of]; by rewrite Hr, Hl.
Qed.

Lemma log_ok_consistent hist K m ws b : log_ok hist K m ws b -> consistent hist m ws.
Proof. destruct b as [|[|]]; by intros [? ?]. Qed.

(** Only a flush changes memory. *)
Lemma step_frame `{MemoryModel} a σ σ' :
  step a σ = Some σ' ->
  stored σ `prefix_of` stored σ' /\
  (mem σ' = mem σ \/ exists k e, a = Flush k /\ buf σ !! k = Some e /\
     may_commit (take k (buf σ)) e = true /\ mem σ' = commit e (mem σ)).
Proof.
  intros Hs. destruct (reader_of a) as [r|] eqn:Hr.
  { destruct (step_reader _ _ _ _ Hr Hs) as (? & ? & _ & _ & ->). by split; [|left]. }
  destruct a as [v|i| |k| | | |]; try discriminate; cbn in Hs.
  - destruct (wr σ); [|discriminate]. case_decide; [|discriminate]. injection Hs as <-.
    split; [by apply prefix_app_r|by left].
  - destruct (wr σ) as [|s v p]; [discriminate|]. destruct (v !! i); [|discriminate].
    case_decide; [|discriminate]. injection Hs as <-. by split; [|left].
  - destruct (wr σ) as [|s v [|]]; [discriminate| |discriminate]. injection Hs as <-. by split; [|left].
  - destruct (buf σ !! k) as [e|] eqn:Hk; [|discriminate].
    destruct (may_commit _ e) eqn:Hc; [|discriminate].
    injection Hs as <-. split; [done|]. right. by exists k, e.
Qed.

Lemma seqlock_step_inv a σ σ' :
  inv σ -> no_wrap (stored σ') -> step (H := TSO) a σ = Some σ' -> inv σ'.
Proof.
  intros Hinv Hw Hs. destruct (reader_of a) as [r|] eqn:Hr.
  - destruct (step_reader _ _ _ _ Hr Hs) as (rd & rd' & Hrd & Hl & ->).
    destruct Hinv as (Hm & Hlog & Hrds). split_and!; [done..|]. cbn.
    apply Forall_insert; [done|]. eapply step_load_inv; [by eapply log_ok_consistent| |done].
    by eapply Forall_lookup_1 in Hrds.
  - destruct a as [v|i| |k| | | |]; try discriminate; [..|by eapply flush_inv];
      cbn [step reader_of] in Hs; by eapply step_store_inv.
Qed.

Lemma no_wrap_prefix hist hist' : hist `prefix_of` hist' -> no_wrap hist' -> no_wrap hist.
Proof. unfold no_wrap. intros [k ->]. rewrite length_app. lia. Qed.

Lemma seqlock_reachable_inv initial n σ :
  reachable (H := TSO) initial n σ -> no_wrap (stored σ) -> inv σ.
Proof.
  induction 1 as [|σ a σ' Hr IH Hs]; intros Hw; [apply inv_init|].
  eapply seqlock_step_inv; [|done|done]. apply IH. eapply no_wrap_prefix; [by eapply step_frame|done].
Qed.

(** * Termination *)

(** No [store] is running and its stores have reached memory. *)
Definition quiescent (σ : state) : bool :=
  match wr σ, buf σ with WIdle, [] => true | _, _ => false end.

Fixpoint missing (dst : list (option Z)) : nat :=
  match dst with
  | [] => 0
  | None :: dst' => S (missing dst')
  | Some _ :: dst' => missing dst'
  end.

(** Accesses a reader still needs when the writer is quiescent. *)
Definition load_measure (m : memory) (rd : reader) : nat :=
  match rd with
  | RDone _ => 0
  | RTop => length (m_data m) + 2
  | RCopy s1 dst =>
      missing dst + 1 + (if decide (s1 = m_seq m) then 0 else length (m_data m) + 2)
  end.

(** Accesses left in a running [store]. *)
Definition store_measure (w : writer) : nat :=
  match w with WIdle => 0 | WCopy _ _ pending => length pending + 1 end.

Lemma missing_insert dst i x :
  dst !! i = Some None -> missing dst = S (missing (<[i:=Some x]> dst)).
Proof.
  revert i. induction dst as [|[y|] dst IH]; intros [|i] Hi; cbn in *; try done; [by apply IH|].
  f_equal. by apply IH.
Qed.

Lemma missing_mapM dst : missing dst = 0%nat -> exists val, mapM id dst = Some val.
Proof.
  induction dst as [|[x|] dst IH]; intros Hm; [by exists []| |done].
  destruct (IH Hm) as [val E]. exists (x :: val). cbn in *. by rewrite E.
Qed.

Lemma missing_lookup dst : missing dst <> 0%nat -> exists i, dst !! i = Some None.
Proof.
  induction dst as [|[x|] dst IH]; cbn; [done| |by exists 0%nat].
  intros (i & Hi)%IH. by exists (S i).
Qed.

Lemma missing_bound dst : (missing dst <= length dst)%nat.
Proof. induction dst as [|[x|] dst IH]; cbn; lia. Qed.

(** The accesses of a [load] of reader [r]. *)
Definition load_action (r : nat) (a : action) : bool :=
  match a with
  | RSeq1 r' | RWord r' _ | RSeq2 r' => bool_decide (r' = r)
  | _ => false
  end.

Lemma load_action_reader r a : load_action r a = true -> reader_of a = Some r.
Proof. destruct a; try done; cbn; intros ?%bool_decide_eq_true; congruence. Qed.

(** Every access of a [load] in a quiescent memory brings it closer to the end. *)
Lemma load_step_decreases hist m r a rd rd' :
  Z.even (m_seq m) = true -> reader_ok hist m rd -> step_load m a rd = Some rd' ->
  load_action r a = true -> (load_measure m rd' < load_measure m rd)%nat.
Proof.
  intros Hev Hr Hs Hn. destruct a as [| | | |r'|r'|r' i|r'], rd as [o| |seq1 dst]; try discriminate; cbn in Hs.
  - rewrite even_land, Hev in Hs. injection Hs as <-. cbn. rewrite decide_True by done.
    pose proof (missing_bound (replicate (length (m_data m)) None)) as Hb.
    rewrite length_replicate in Hb. lia.
  - destruct (dst !! i) as [[|]|] eqn:Hd; [discriminate| |discriminate].
    destruct (m_data m !! i) as [x|]; [|discriminate]. injection Hs as <-. cbn.
    rewrite (missing_insert _ _ x Hd). lia.
  - destruct (mapM id dst) as [val|] eqn:Hv; [|discriminate].
    destruct (Z.eqb_spec seq1 (m_seq m)); injection Hs as <-; cbn; [lia|].
    rewrite decide_False by done. lia.
Qed.

(** The access with which a [load] returns. *)
Lemma load_step_done hist m r a rd res :
  consistent hist (m_seq m) (m_data m) -> reader_ok hist m rd -> load_action r a = true ->
  step_load m a rd = Some (RDone res) -> res = Some (m_data m).
Proof.
  intros Hc Hr Ha Hs. destruct a as [| | | |r'|r'|r' i|r'], rd as [o| |seq1 dst]; try discriminate; cbn in Hs.
  - destruct (_ =? 0); discriminate.
  - destruct (dst !! i) as [[|]|]; try discriminate. destruct (m_data m !! i); discriminate.
  - destruct (mapM id dst) as [val|] eqn:Hv; [|discriminate].
    destruct (Z.eqb_spec seq1 (m_seq m)); [|discriminate]. injection Hs as <-. f_equal.
    by eapply load_returns.
Qed.

(** A running [load] always has an access to make. *)
Lemma load_enabled hist m r rd :
  reader_ok hist m rd -> (0 < load_measure m rd)%nat ->
  exists a rd', load_action r a = true /\ step_load m a rd = Some rd'.
Proof.
  intros Hr Hm. destruct rd as [o| |seq1 dst]; [by cbn in Hm; lia| |].
  - exists (RSeq1 r). cbn. rewrite bool_decide_true by done. destruct (_ =? 0); eauto.
  - destruct (decide (missing dst = 0%nat)) as [H0|H0].
    + destruct (missing_mapM _ H0) as [val E]. exists (RSeq2 r). cbn. rewrite E, bool_decide_true by done.
      destruct (_ =? _); eauto.
    + destruct (missing_lookup _ H0) as [i Hi]. destruct Hr as (_ & _ & Hlen & _).
      destruct (lookup_lt_is_Some_2 (m_data m) i) as [x Hx].
      { rewrite <- Hlen. by eapply lookup_lt_Some. }
      exists (RWord r i). cbn. rewrite Hi, Hx, bool_decide_true by done. eauto.
Qed.

Lemma quiescent_last σ :
  inv σ -> quiescent σ = true ->
  Z.even (m_seq (mem σ)) = true /\ last (stored σ) = Some (m_data (mem σ)).
Proof.
  intros (Hm & Hlog & _) Hq. destruct σ as [m b w rds hist]. unfold quiescent in Hq.
  cbn [mem buf wr readers stored] in *. destruct w, b as [|e b]; try discriminate.
  destruct Hlog as [Hc Hend]. cbn in Hend.
  assert (Z.even (m_seq m) = true) as Hev by (rewrite Hend, Z.even_mul; done).
  split; [done|]. rewrite last_lookup, <- (Hc Hev). f_equal. rewrite Hend.
  rewrite Z.mul_comm, Z.div_mul by lia. lia.
Qed.

(** A run of accesses of one [load] in a quiescent memory. *)
Lemma load_run r acts : forall σ σ' rd,
  inv σ -> no_wrap (stored σ) -> quiescent σ = true -> readers σ !! r = Some rd ->
  forallb (load_action r) acts = true -> run (H := TSO) acts σ = Some σ' ->
  mem σ' = mem σ /\ stored σ' = stored σ /\ inv σ' /\
  exists rd', readers σ' !! r = Some rd' /\
    (length acts + load_measure (mem σ) rd' <= load_measure (mem σ) rd)%nat /\
    (forall res, rd' = RDone res -> acts = [] \/ res = Some (m_data (mem σ))).
Proof.
  induction acts as [|a acts IH]; intros σ σ' rd Hinv Hw Hq Hrd Hall Hrun.
  { injection Hrun as <-. split_and!; [done..|]. exists rd. cbn. split_and!; [done|lia|by left]. }
  apply andb_true_iff in Hall as [Ha Hall]. cbn [run] in Hrun.
  destruct (step a σ) as [σ1|] eqn:Hs; [|discriminate].
  destruct (step_reader (H := TSO) a r σ σ1) as (rd0 & rd1 & Hrd0 & Hl & E); [by apply load_action_reader|done|].
  replace rd0 with rd in * by congruence. clear Hrd0.
  assert (inv σ1) as Hinv1 by (eapply seqlock_step_inv; [done|by rewrite E|done]).
  destruct (quiescent_last _ Hinv Hq) as [Hev _].
  assert (reader_ok (stored σ) (mem σ) rd) as Hok
    by (destruct Hinv as (_ & _ & Hf); by eapply Forall_lookup_1 in Hf).
  pose proof (load_step_decreases _ _ _ _ _ _ Hev Hok Hl Ha) as Hdec.
  destruct (IH σ1 σ' rd1) as (Em & Es & Hinv' & rd' & Hrd' & Hle & Hdone); try done.
  - by rewrite E.
  - by rewrite E.
  - rewrite E. cbn. apply list_lookup_insert_eq. by eapply lookup_lt_Some.
  - rewrite Em, Es, E in *. cbn [mem stored] in *. split_and!; [done..|].
    exists rd'. split; [done|]. cbn [length]. split; [lia|]. intros res Er. right.
    destruct (Hdone res Er) as [->|?]; [|done]. injection Hrun as <-. subst σ1.
    cbn in Hrd'. rewrite list_lookup_insert_eq in Hrd' by (by eapply lookup_lt_Some).
    injection Hrd' as ->. subst rd'. destruct Hinv as (_ & Hlog & _).
    eapply load_step_done; [by eapply log_ok_consistent|done..].
Qed.

(** * Properties *)

(** C38.  No torn reads on x86_64: under total store order, in every reachable
    state of one writer and any number of readers, as long as fewer than
    [2^63] values were stored, every result of [load] is a value that was
    stored as a whole; a [load] that returns gives the value the memory holds
    at that moment, whose index is half the sequence number; and the sequence
    number in memory never decreases, so no later [load] returns an older
    value. *)
Theorem seqlock_no_torn_reads (initial : list Z) (n : nat) (σ : state) :
  reachable (H := TSO) initial n σ -> no_wrap (stored σ) ->
  (forall r v, readers σ !! r = Some (RDone (Some v)) -> v ∈ stored σ) /\
  (forall r σ' v, step (H := TSO) (RSeq2 r) σ = Some σ' ->
     readers σ' !! r = Some (RDone (Some v)) ->
     Z.even (version σ) = true /\ stored σ !! Z.to_nat (version σ / 2) = Some v) /\
  (forall a σ', step (H := TSO) a σ = Some σ' -> version σ <= version σ').
Proof.
  intros Hr Hw. pose proof (seqlock_reachable_inv _ _ _ Hr Hw) as (Hm & Hlog & Hrds). split_and!.
  - intros r v Hv. by eapply Forall_lookup_1 in Hrds; [|done].
  - intros r σ' v Hs Hv. destruct (step_reader (H := TSO) (RSeq2 r) r _ _ eq_refl Hs) as (rd & rd' & Hrd & Hl & ->).
    cbn in Hv. rewrite list_lookup_insert_eq in Hv by (by eapply lookup_lt_Some). injection Hv as ->.
    destruct rd as [o| |seq1 dst]; try discriminate. cbn in Hl.
    destruct (mapM id dst) as [val|] eqn:Hval; [|discriminate].
    destruct (Z.eqb_spec seq1 (m_seq (mem σ))) as [E|]; [|discriminate]. injection Hl as ->.
    eapply Forall_lookup_1 in Hrds; [|done]. split; [unfold version; rewrite <- E; apply Hrds|].
    eapply load_returns; [by eapply log_ok_consistent|done..].
  - intros a σ' Hs. unfold version.
    destruct (step_frame _ _ _ Hs) as [_ [->|(k & e & -> & Hk & Hb & ->)]]; [done|].
    cbn in Hb. apply bool_decide_eq_true in Hb.
    destruct k as [|k]; [|destruct (buf σ); by cbn in *].
    destruct (buf σ) as [|e' b]; [done|]. injection Hk as ->.
    destruct e as [s|i x]; destruct Hlog as (_ & He & _); cbn; lia.
Qed.

(** A run that stores a value while a reader is copying. *)
Definition demo_run : list action :=
  [RCall 0; RSeq1 0; RWord 0 0; WStart [7; 8]; Flush 0; WWord 1; WWord 0; WEnd; Flush 0;
   RWord 0 1; RSeq2 0; Flush 0; Flush 0; RSeq1 0; RWord 0 1; RWord 0 0].

Definition demo_state : state :=
  Eval vm_compute in
  match run (H := TSO) demo_run (init_state [1; 2] 1) with Some σ => σ | None => init_state [] 0 end.

Lemma seqlock_run_reachable `{MemoryModel} initial n acts : forall σ σ',
  reachable initial n σ -> run acts σ = Some σ' -> reachable initial n σ'.
Proof.
  induction acts as [|a acts IH]; intros σ σ' Hr Hrun; cbn in Hrun; [by injection Hrun as <-|].
  destruct (step a σ) eqn:Hs; [|discriminate]. eapply IH; [|done]. by eapply reach_step.
Qed.

Lemma demo_reachable : reachable (H := TSO) [1; 2] 1 demo_state.
Proof. apply (seqlock_run_reachable (H := TSO) _ _ demo_run _ _ (reach_init (H := TSO) [1; 2] 1)). by vm_compute. Qed.

Lemma seqlock_no_torn_reads_witness :
  Z.even (version demo_state) = true /\ stored demo_state !! Z.to_nat (version demo_state / 2) = Some [7; 8].
Proof.
  apply (proj1 (proj2 (seqlock_no_torn_reads [1; 2] 1 demo_state demo_reachable
    ltac:(by vm_compute))) 0%nat
    (State (mem demo_state) (buf demo_state) (wr demo_state) [RDone (Some [7; 8])] (stored demo_state)));
    reflexivity.
Defined.

(** Without total store order the code's orderings do not prevent a torn read:
    the first [Release] store of [store] does not keep the data words behind
    it, so a word can become visible under the old even number. *)
Theorem release_only_torn_read :
  exists σ, reachable (H := ReleaseOnly) [1; 2] 1 σ /\
    readers σ = [RDone (Some [7; 2])] /\ [7; 2] ∉ stored σ.
Proof.
  eexists. split; [|split].
  - apply (seqlock_run_reachable (H := ReleaseOnly) _ _
      [WStart [7; 8]; WWord 0; Flush 1; RCall 0; RSeq1 0; RWord 0 0; RWord 0 1; RSeq2 0]
      _ _ (reach_init (H := ReleaseOnly) [1; 2] 1)). vm_compute. reflexivity.
  - reflexivity.
  - cbn. rewrite !not_elem_of_cons. split_and!; [done..|]. apply not_elem_of_nil.
Qed.

(** C39.  Termination: once the writer is quiescent, a [load] of a value of
    [w] words makes at most [2w + 3] more memory accesses, always has an
    access to make until it returns, and returns the last stored value. *)
Theorem seqlock_load_terminates (initial : list Z) (n r : nat) (acts : list action) (σ σ' : state) :
  reachable (H := TSO) initial n σ -> no_wrap (stored σ) -> quiescent σ = true ->
  (r < length (readers σ))%nat ->
  forallb (load_action r) acts = true -> run (H := TSO) acts σ = Some σ' ->
  (length acts <= 2 * length (m_data (mem σ)) + 3)%nat /\
  match readers σ' !! r with
  | Some (RDone res) => acts = [] \/ res = last (stored σ)
  | Some _ => exists a σ'', load_action r a = true /\ step (H := TSO) a σ' = Some σ''
  | None => False
  end.
Proof.
  intros Hr Hw Hq Hlt Hall Hrun. pose proof (seqlock_reachable_inv _ _ _ Hr Hw) as Hinv.
  destruct (lookup_lt_is_Some_2 _ _ Hlt) as [rd Hrd].
  destruct (load_run r acts σ σ' rd) as (Em & Es & Hinv' & rd' & Hrd' & Hle & Hdone); try done.
  destruct Hinv as (Hm & Hlog & Hrds). split.
  - eapply Forall_lookup_1 in Hrds; [|done]. transitivity (load_measure (mem σ) rd); [lia|].
    destruct rd as [o| |s1 dst]; cbn; [lia..|]. destruct Hrds as (_ & _ & Hlen & _).
    pose proof (missing_bound dst). case_decide; lia.
  - rewrite Hrd'. destruct (quiescent_last σ) as [_ Hlast]; [done..|]. rewrite Hlast.
    destruct Hinv' as (_ & _ & Hrds'). eapply Forall_lookup_1 in Hrds'; [|done].
    destruct rd' as [res| |s1 dst]; [by apply Hdone|..];
      (destruct (load_enabled (stored σ') (mem σ') r _ Hrds') as (a & rd1 & Ha & Hl); [cbn; lia|];
       exists a; eapply ex_intro; split; [done|]; eapply step_load_step; [|done..];
       by apply load_action_reader).
Qed.

Definition demo_quiescent : state :=
  Eval vm_compute in
  match run (H := TSO) [RSeq2 0; RCall 0] demo_state with Some σ => σ | None => demo_state end.

Lemma seqlock_load_terminates_witness :
  let acts := [RSeq1 0; RWord 0 1; RWord 0 0; RSeq2 0] in
  let σ' := match run (H := TSO) acts demo_quiescent with Some σ => σ | None => demo_quiescent end in
  (length acts <= 7)%nat /\ readers σ' = [RDone (Some [7; 8])].
Proof.
  assert (reachable (H := TSO) [1; 2] 1 demo_quiescent) as Hr.
  { apply (seqlock_run_reachable (H := TSO) _ _ [RSeq2 0; RCall 0] _ _ demo_reachable). by vm_compute. }
  intros acts σ'. split; [|by vm_compute].
  apply (seqlock_load_terminates [1; 2] 1 0 acts demo_quiescent σ' Hr);
    vm_compute; (reflexivity || lia || discriminate).
Defined.

(** A [store] is wait-free: in every reachable state it can make its next
    access, and each of its accesses but the first brings it closer to its
    end, which is at most one access per word and one more away. *)
Theorem seqlock_store_wait_free (initial : list Z) (n : nat) (σ : state) s val pending :
  reachable (H := TSO) initial n σ -> no_wrap (stored σ) -> wr σ = WCopy s val pending ->
  (exists a σ', step_store a σ = Some σ') /\
  (forall a σ', step_store a σ = Some σ' -> (store_measure (wr σ') < store_measure (wr σ))%nat).
Proof.
  intros Hr Hw Hwr. pose proof (seqlock_reachable_inv _ _ _ Hr Hw) as (_ & Hlog & _).
  destruct (log_ok_end _ _ _ _ _ Hlog) as (_ & ws & _ & _ & Hend). rewrite Hwr in Hend.
  destruct Hend as (_ & _ & _ & _ & _ & Hpend & _). split.
  - destruct pending as [|i p]; [exists WEnd; cbn; rewrite Hwr; eauto|].
    apply Forall_cons in Hpend as [Hi _]. destruct (lookup_lt_is_Some_2 _ _ Hi) as [x Hx].
    exists (WWord i). cbn. rewrite Hwr, Hx, decide_True by apply list_elem_of_here. eauto.
  - intros a σ' Hs. rewrite Hwr.
    destruct a as [v|i| |k| | | |]; cbn in Hs; try discriminate; rewrite Hwr in Hs; try discriminate.
    + destruct (val !! i); [|discriminate]. case_decide as Hi; [|discriminate].
      injection Hs as <-. cbn. enough (length (filter (.≠ i) pending) < length pending)%nat by lia.
      eapply length_filter_lt; [done|]. auto.
    + destruct pending; [|discriminate]. injection Hs as <-. cbn. lia.
Qed.
