(* ===== verification/Position.v ===== *)
(** * Positions ([crates/strategy]: position.rs)

    A signed position with its volume-weighted entry price, and the fills that
    move it.  Overflow in the price arithmetic is swallowed by the code's
    [unwrap_or], in the lot arithmetic it is the plain operators'. *)

From stdpp Require Import base decidable list numbers option tactics.
From Stdlib Require Import ZArith Lia.
From S2P Require Import Prelude Platform Fixed Types.

#[local] Open Scope Z_scope.

Record Position := {
  pos_instrument : InstrumentId;
  pos_qty : SignedLots;
  avg_entry : FixedI64 6;
  realized_pnl : FixedI64 6;
  fill_count : Z;
}.

Definition position_new (id : InstrumentId) : Position :=
  {| pos_instrument := id; pos_qty := slots_ZERO; avg_entry := fixed_ZERO; realized_pnl := fixed_ZERO; fill_count := 0 |}.

Section position.
Context `{BuildProfile}.
Implicit Types (p : Position) (price mid : FixedI64 6).

(** [i64::abs], which overflows at the minimum. *)
Definition abs_op (z : Z) : outcome Z := arith I64 (Z.abs z).

Definition or_zero (o : option (FixedI64 6)) : FixedI64 6 := default fixed_ZERO o.

(** The [increasing] branch: the new [avg_entry]. *)
Definition vwap p (delta new_qty : SignedLots) price : outcome (FixedI64 6) :=
  old_qty_raw ← abs_op (slots_to_raw (pos_qty p));
  delta_raw ← abs_op (slots_to_raw delta);
  new_qty_raw ← abs_op (slots_to_raw new_qty);
  let old_cost := or_zero (checked_mul_int (avg_entry p) old_qty_raw) in
  let new_cost := or_zero (checked_mul_int price delta_raw) in
  let total_cost := or_zero (checked_add old_cost new_cost) in
  or_zero <$> checked_div_int total_cost new_qty_raw.

(** The reducing branch: the new [avg_entry] and [realized_pnl]. *)
Definition realize p (delta new_qty : SignedLots) price : outcome (FixedI64 6 * FixedI64 6) :=
  a ← abs_op (slots_to_raw delta);
  b ← abs_op (slots_to_raw (pos_qty p));
  let closed_qty := Z.min a b in
  let direction := slots_signum (pos_qty p) in
  let pnl_per_lot := or_zero (checked_mul_int (or_zero (checked_sub price (avg_entry p))) direction) in
  let fill_pnl := or_zero (checked_mul_int pnl_per_lot closed_qty) in
  let realized := default (realized_pnl p) (checked_add (realized_pnl p) fill_pnl) in
  n ← abs_op (slots_to_raw new_qty);
  let avg := if (0 <? n) && negb (slots_signum new_qty =? slots_signum (pos_qty p)) then price else avg_entry p in
  Ret (avg, realized).

Definition fill_delta (side : Side) (qty : Lots) : outcome SignedLots :=
  match side with Bid => Ret (slots_from_lots qty) | Ask => slots_neg (slots_from_lots qty) end.

Definition pos_on_fill p (side : Side) (qty : Lots) price : outcome Position :=
  delta ← fill_delta side qty;
  let old_qty := pos_qty p in
  new_qty ← slots_add old_qty delta;
  let increasing := slots_is_zero old_qty
    || ((0 <? slots_to_raw old_qty) && (0 <? slots_to_raw delta))
    || ((slots_to_raw old_qty <? 0) && (slots_to_raw delta <? 0)) in
  '(avg, realized) ← (if increasing then (fun avg => (avg, realized_pnl p)) <$> vwap p delta new_qty price
                      else realize p delta new_qty price);
  Ret {| pos_instrument := pos_instrument p; pos_qty := new_qty;
         avg_entry := if slots_is_zero new_qty then fixed_ZERO else avg;
         realized_pnl := realized; fill_count := saturate U32 (fill_count p + 1) |}.

Definition unrealized_pnl p mid : FixedI64 6 :=
  if slots_is_zero (pos_qty p) then fixed_ZERO
  else
    let price_diff := or_zero (checked_sub mid (avg_entry p)) in
    or_zero (checked_mul_int price_diff (slots_to_raw (pos_qty p))).

Definition total_pnl p mid : FixedI64 6 :=
  default (realized_pnl p) (checked_add (realized_pnl p) (unrealized_pnl p mid)).

Definition notional p mid : outcome (FixedI64 6) :=
  abs_qty ← abs_op (slots_to_raw (pos_qty p));
  Ret (or_zero (checked_mul_int mid abs_qty)).
End position.

(** * Accounting *)

(** A position and a fill small enough that no price or lot arithmetic
    overflows: quantities up to [L] lots, prices up to [B] and realised profit
    up to [R] raw units. *)
Record in_budget (L B R : Z) (p : Position) (delta : Z) (price : FixedI64 6) : Prop := {
  budget : 0 <= L /\ 0 <= B /\ 0 <= R /\ 8 * L * B + R <= tmax I64 /\ 2 * L <= tmax I64 /\ 2 * B <= tmax I64;
  budget_qty : Z.abs (slots_to_raw (pos_qty p)) <= L;
  budget_delta : Z.abs delta <= L;
  budget_avg : Z.abs (to_raw (avg_entry p)) <= B;
  budget_price : Z.abs (to_raw price) <= B;
  budget_pnl : Z.abs (to_raw (realized_pnl p)) <= R;
}.

(** The signed size of a fill. *)
Definition signed_fill (side : Side) (qty : Lots) : Z :=
  match side with Bid => lots_to_raw qty | Ask => - lots_to_raw qty end.

(** The specification of the entry price after a fill. *)
Definition entry_after (q avg d price : Z) : Z :=
  if decide (q + d = 0) then 0
  else if decide (0 <= q * d) then Z.quot (Z.abs q * avg + Z.abs d * price) (Z.abs (q + d))
  else if decide (Z.sgn (q + d) = Z.sgn q) then avg else price.

(** The profit a fill realises: the lots it closes, at the fill price against
    the entry price. *)
Definition profit_of (q avg d price : Z) : Z :=
  if decide (0 <= q * d) then 0 else Z.min (Z.abs d) (Z.abs q) * ((price - avg) * Z.sgn q).

(** The specification of a fill of signed size [d] at price [x]. *)
Definition after_fill (p : Position) (d x : Z) : Position :=
  let q := slots_to_raw (pos_qty p) in
  let a := to_raw (avg_entry p) in
  {| pos_instrument := pos_instrument p; pos_qty := slots_from_raw (q + d);
     avg_entry := from_raw (entry_after q a d x);
     realized_pnl := from_raw (to_raw (realized_pnl p) + profit_of q a d x);
     fill_count := saturate U32 (fill_count p + 1) |}.

Section accounting.
Context `{BuildProfile}.
Implicit Types p : Position.

Lemma or_zero_checked z : in_range I64 z -> or_zero (from_raw <$> checked I64 z) = from_raw z.
Proof. intros. by rewrite checked_Some. Qed.

Lemma abs_op_ok z L : Z.abs z <= L -> L <= tmax I64 -> abs_op z = Ret (Z.abs z).
Proof. intros. unfold abs_op. apply arith_ok. mlia. Qed.

Lemma fill_delta_ok side qty :
  Z.abs (signed_fill side qty) <= tmax I64 -> fill_delta side qty = Ret (slots_from_raw (signed_fill side qty)).
Proof.
  unfold fill_delta, signed_fill, slots_neg, slots_from_lots. destruct side; [done|]. cbn [slots_to_raw tmax].
  intros. by rewrite arith_ok by mlia.
Qed.

Lemma abs_mul_le a b A C : Z.abs a <= A -> Z.abs b <= C -> Z.abs (a * b) <= A * C.
Proof. intros. rewrite Z.abs_mul. apply Z.mul_le_mono_nonneg; lia. Qed.

Lemma abs_quot_le n d A : Z.abs n <= A -> d <> 0 -> Z.abs (Z.quot n d) <= A.
Proof.
  intros Hn Hd. rewrite <- Z.quot_abs by done. rewrite Z.quot_div_nonneg by lia.
  etrans; [apply Z.div_le_upper_bound with (q := Z.abs n); nia|done].
Qed.

Lemma no_fill q d : q <> 0 -> q * d <= 0 -> 0 <= q * d -> d = 0.
Proof. intros Hq H1 H2. assert (q * d = 0) as E by lia. apply Z.mul_eq_0 in E. lia. Qed.

Lemma vwap_ok L B R p d price :
  in_budget L B R p d price ->
  let q := slots_to_raw (pos_qty p) in
  q + d <> 0 -> 0 <= q * d ->
  vwap p (slots_from_raw d) (slots_from_raw (q + d)) price
  = Ret (from_raw (entry_after q (to_raw (avg_entry p)) d (to_raw price))).
Proof.
  intros [Hb Hq Hd Ha Hp Hr] q Hn Hs. fold q in Hq. unfold vwap. cbn [slots_to_raw]. fold q.
  pose proof (abs_mul_le (to_raw (avg_entry p)) (Z.abs q) B L Ha ltac:(lia)).
  pose proof (abs_mul_le (to_raw price) (Z.abs d) B L Hp ltac:(lia)).
  rewrite (abs_op_ok q L), (abs_op_ok d L), (abs_op_ok (q + d) (2 * L)) by lia. cbn [mbind outcome_bind].
  unfold checked_mul_int, checked_add. rewrite (or_zero_checked (_ * Z.abs q)) by mlia.
  rewrite (or_zero_checked (_ * Z.abs d)) by mlia. cbn [to_raw]. rewrite or_zero_checked by mlia.
  unfold checked_div_int. destruct (Z.eqb_spec (Z.abs (q + d)) 0); [lia|]. cbn [to_raw].
  pose proof (abs_quot_le (to_raw (avg_entry p) * Z.abs q + to_raw price * Z.abs d) (Z.abs (q + d)) (2 * L * B)
    ltac:(lia) ltac:(lia)).
  rewrite div_op_ok by (lia || mlia). cbn. unfold entry_after. rewrite decide_False, decide_True by done.
  do 3 f_equal; ring.
Qed.

Lemma realize_ok L B R p d price :
  in_budget L B R p d price ->
  let q := slots_to_raw (pos_qty p) in
  q <> 0 -> q * d <= 0 ->
  realize p (slots_from_raw d) (slots_from_raw (q + d)) price
  = Ret (if decide (q + d = 0) then avg_entry p else from_raw (entry_after q (to_raw (avg_entry p)) d (to_raw price)),
         from_raw (to_raw (realized_pnl p) + profit_of q (to_raw (avg_entry p)) d (to_raw price))).
Proof.
  intros [Hb Hq Hd Ha Hp Hr] q Hn Hs. fold q in Hq. unfold realize. cbn [slots_to_raw]. fold q.
  rewrite (abs_op_ok d L), (abs_op_ok q L), (abs_op_ok (q + d) (2 * L)) by lia. cbn [mbind outcome_bind].
  unfold checked_sub, checked_mul_int, checked_add, slots_signum. cbn [slots_to_raw]. fold q.
  set (a := to_raw (avg_entry p)) in *. set (x := to_raw price) in *.
  pose proof (abs_mul_le (x - a) (Z.sgn q) (2 * B) 1 ltac:(lia) ltac:(lia)).
  pose proof (abs_mul_le ((x - a) * Z.sgn q) (Z.min (Z.abs d) (Z.abs q)) (2 * B) L ltac:(lia) ltac:(lia)).
  rewrite (or_zero_checked (x - a)) by mlia. cbn [to_raw]. rewrite (or_zero_checked ((x - a) * Z.sgn q)) by mlia.
  cbn [to_raw]. rewrite or_zero_checked by mlia. cbn [to_raw]. rewrite checked_Some by mlia. cbn [fmap option_fmap option_map default].
  f_equal. f_equal.
  - unfold entry_after. destruct (decide (q + d = 0)) as [E|E].
    + by rewrite E.
    + destruct (Z.ltb_spec 0 (Z.abs (q + d))); [|lia]. destruct (Z.eqb_spec (Z.sgn (q + d)) (Z.sgn q)) as [Es|Es]; cbn [andb negb].
      * destruct (decide (0 <= q * d)); [|by rewrite decide_True by done; destruct (avg_entry p)].
        assert (d = 0) as -> by (by apply (no_fill q)).
        replace (Z.abs q * a + Z.abs 0 * x) with (a * Z.abs q) by (change (Z.abs 0) with 0; ring).
        rewrite Z.add_0_r, Z.quot_mul by lia. by destruct (avg_entry p).
      * destruct (decide (0 <= q * d)); [assert (d = 0) as -> by (by apply (no_fill q)); rewrite Z.add_0_r in Es; done|].
        rewrite decide_False by done. by destruct price.
  - cbn [from_option id]. apply (f_equal from_raw). f_equal. unfold profit_of. destruct (decide (0 <= q * d)); [|ring].
    assert (d = 0) as -> by (by apply (no_fill q)). change (Z.abs 0) with 0. rewrite Z.min_l by lia. ring.
Qed.

Lemma pos_on_fill_ok L B R p side qty price :
  in_budget L B R p (signed_fill side qty) price ->
  pos_on_fill p side qty price = Ret (after_fill p (signed_fill side qty) (to_raw price)).
Proof.
  set (d := signed_fill side qty). set (q := slots_to_raw (pos_qty p)). set (a := to_raw (avg_entry p)).
  set (x := to_raw price). intros Hbud. pose proof Hbud as [Hb Hq Hd Ha Hp Hr]. fold q a x in Hq, Hd, Ha, Hp.
  unfold after_fill. fold q a.
  unfold pos_on_fill. rewrite fill_delta_ok by (fold d; lia). fold d. cbn [mbind outcome_bind].
  unfold slots_add. cbn [slots_to_raw]. fold q. rewrite arith_ok by mlia. cbn [fmap outcome_fmap mbind outcome_bind].
  unfold slots_is_zero. cbn [slots_to_raw]. fold q.
  assert (0 <= q * d -> profit_of q a d x = 0) as Hp0 by (intros; unfold profit_of; by rewrite decide_True).
  destruct (_ || _ || _) eqn:Einc.
  - assert (0 <= q * d) as Hs.
    { apply orb_true_iff in Einc as [[E|E]%orb_true_iff|E]; [apply Z.eqb_eq in E|..]; [lia| |]; 
        apply andb_true_iff in E as [? ?]; lia || nia. }
    destruct (Z.eqb_spec (q + d) 0) as [Eq|Eq].
    + assert (q = 0 /\ d = 0) as [Eq0 Ed0] by nia. rewrite Hp0 by done.
      unfold vwap. cbn [slots_to_raw]. fold q. rewrite Eq0, Ed0. cbn [Z.add].
      rewrite (abs_op_ok 0 0) by lia. cbn [mbind outcome_bind]. change (Z.abs 0) with 0.
      unfold checked_div_int. cbn [Z.eqb fmap outcome_fmap mbind outcome_bind].
      rewrite (Z.add_0_r (to_raw _)). unfold entry_after. rewrite decide_True by done. by destruct (realized_pnl p).
    + rewrite (vwap_ok L B R) by done. rewrite Hp0 by done. cbn. rewrite Z.add_0_r. by destruct (realized_pnl p).
  - assert (q <> 0 /\ q * d <= 0) as [Hq0 Hqd].
    { apply orb_false_iff in Einc as [[E1 E2]%orb_false_iff E3]. apply Z.eqb_neq in E1. split; [done|].
      apply andb_false_iff in E2, E3. rewrite !Z.ltb_ge in E2, E3. nia. }
    rewrite (realize_ok L B R) by done. cbn [mbind outcome_bind]. fold q a x.
    destruct (Z.eqb_spec (q + d) 0) as [Eq|Eq].
      unfold entry_after. by rewrite !(decide_True _ _ Eq).
    + by rewrite decide_False by done.
Qed.

Lemma abs_quot_le_mul n d C : Z.abs n <= Z.abs d * C -> d <> 0 -> Z.abs (Z.quot n d) <= C.
Proof.
  intros Hn Hd. rewrite <- Z.quot_abs by done. rewrite Z.quot_div_nonneg by lia.
  apply Z.div_le_upper_bound; lia.
Qed.

(** The entry price stays between the bounds of the prices paid. *)
Lemma entry_after_le q a d x C :
  0 <= C -> Z.abs a <= C -> Z.abs x <= C -> Z.abs (entry_after q a d x) <= C.
Proof.
  intros HC Ha Hx. unfold entry_after. destruct (decide (q + d = 0)); [lia|].
  destruct (decide (0 <= q * d)) as [Hs|]; [|destruct (decide _); done].
  apply abs_quot_le_mul; [|lia]. rewrite Z.abs_idemp.
  pose proof (abs_mul_le (Z.abs q) a (Z.abs q) C ltac:(lia) Ha).
  pose proof (abs_mul_le (Z.abs d) x (Z.abs d) C ltac:(lia) Hx).
  assert (Z.abs (q + d) = Z.abs q + Z.abs d) as -> by (destruct (Z.le_0_mul q d Hs); lia). lia.
Qed.

Lemma profit_of_le q a d x L B :
  Z.abs q <= L -> Z.abs d <= L -> Z.abs a <= B -> Z.abs x <= B -> Z.abs (profit_of q a d x) <= L * (2 * B).
Proof.
  intros Hq Hd Ha Hx. unfold profit_of. destruct (decide _); [rewrite Z.abs_0; nia|].
  apply abs_mul_le; [lia|]. pose proof (abs_mul_le (x - a) (Z.sgn q) (2 * B) 1 ltac:(lia) ltac:(lia)). lia.
Qed.

(** Value at the fill price is conserved, but for the remainder of the entry
    price division. *)
Lemma fill_conserves_value q a d x :
  let err := (x - entry_after q a d x) * (q + d) + profit_of q a d x - (x - a) * q in
  Z.abs err < Z.max 1 (Z.abs (q + d)) /\ (q * d <= 0 -> err = 0).
Proof.
  unfold entry_after, profit_of. destruct (decide (q + d = 0)) as [E|E].
  - destruct (decide (0 <= q * d)).
    + assert (q = 0 /\ d = 0) as [-> ->] by nia. lia.
    + rewrite E, Z.mul_0_r. replace d with (- q) by lia. rewrite Z.abs_opp, Z.min_id.
      replace (Z.abs q * ((x - a) * Z.sgn q)) with ((x - a) * (Z.abs q * Z.sgn q)) by ring. rewrite Z.abs_sgn. lia.
  - destruct (decide (0 <= q * d)) as [Hs|Hs].
    + set (M := Z.abs (q + d)). set (N := Z.abs q * a + Z.abs d * x).
      pose proof (Z.quot_rem' N M) as Hqr. pose proof (Z.rem_bound_abs N M ltac:(lia)) as Hrb.
      assert ((x - Z.quot N M) * (q + d) + 0 - (x - a) * q = Z.sgn (q + d) * Z.rem N M) as ->.
      { assert (Z.rem N M = N - M * Z.quot N M) as -> by lia. subst N M.
        destruct (Z.le_0_mul q d Hs) as [[? ?]|[? ?]].
        - rewrite (Z.abs_eq q), (Z.abs_eq d), (Z.abs_eq (q + d)), Z.sgn_pos by lia. ring.
        - rewrite (Z.abs_neq q), (Z.abs_neq d), (Z.abs_neq (q + d)), Z.sgn_neg by lia. ring. }
      split; [rewrite Z.abs_mul; destruct (Z.sgn_spec (q + d)) as [[? ->]|[[? ->]|[? ->]]]; lia|]. intros Hz.
      assert (Z.rem N M = 0) as ->; [|lia]. subst N M.
      assert (q = 0 \/ d = 0) as [-> | ->] by (apply Z.mul_eq_0; lia); change (Z.abs 0) with 0;
        rewrite Z.mul_0_l, ?Z.add_0_l, ?Z.add_0_r, Z.mul_comm; apply Z.rem_mul; lia.
    + assert (Z.abs d * Z.sgn q = - d) by (destruct (proj1 (Z.lt_mul_0 q d)) as [[? ?]|[? ?]];
        [lia|rewrite Z.abs_eq, Z.sgn_neg by lia; lia|rewrite Z.abs_neq, Z.sgn_pos by lia; lia]). assert (Z.abs q * Z.sgn q = q) by apply Z.abs_sgn.
      destruct (decide (Z.sgn (q + d) = Z.sgn q)).
      * rewrite Z.min_l by lia. replace (Z.abs d * ((x - a) * Z.sgn q)) with ((x - a) * (Z.abs d * Z.sgn q)) by ring. nia.
      * rewrite Z.min_r by lia. replace (Z.abs q * ((x - a) * Z.sgn q)) with ((x - a) * (Z.abs q * Z.sgn q)) by ring. nia.
Qed.

Lemma fixed_inj {D} (u v : FixedI64 D) : to_raw u = to_raw v -> u = v.
Proof. destruct u, v. by intros [= ->]. Qed.

Lemma total_pnl_ok p mid :
  in_range I64 (to_raw mid - to_raw (avg_entry p)) ->
  in_range I64 ((to_raw mid - to_raw (avg_entry p)) * slots_to_raw (pos_qty p)) ->
  in_range I64 (to_raw (realized_pnl p) + (to_raw mid - to_raw (avg_entry p)) * slots_to_raw (pos_qty p)) ->
  to_raw (total_pnl p mid)
  = to_raw (realized_pnl p) + (to_raw mid - to_raw (avg_entry p)) * slots_to_raw (pos_qty p).
Proof.
  intros H1 H2 H3. unfold total_pnl, unrealized_pnl, slots_is_zero, checked_add.
  assert (to_raw (if slots_to_raw (pos_qty p) =? 0 then fixed_ZERO
     else or_zero (checked_mul_int (or_zero (checked_sub mid (avg_entry p))) (slots_to_raw (pos_qty p))))
     = (to_raw mid - to_raw (avg_entry p)) * slots_to_raw (pos_qty p)) as ->.
  { destruct (Z.eqb_spec (slots_to_raw (pos_qty p)) 0) as [->|]; [by rewrite Z.mul_0_r|].
    unfold checked_mul_int, checked_sub. rewrite (or_zero_checked (_ - _)) by done. cbn [to_raw].
    by rewrite or_zero_checked. }
  by rewrite checked_Some.
Qed.

Lemma after_fill_pnl L B R p d price :
  in_budget L B R p d price ->
  let q := slots_to_raw (pos_qty p) in
  let a := to_raw (avg_entry p) in
  let x := to_raw price in
  to_raw (total_pnl p price) = to_raw (realized_pnl p) + (x - a) * q /\
  to_raw (total_pnl (after_fill p d x) price)
  = to_raw (realized_pnl p) + profit_of q a d x + (x - entry_after q a d x) * (q + d).
Proof.
  intros [Hb Hq Hd Ha Hp Hr] q a x. fold q a x in Hq, Ha, Hp.
  pose proof (entry_after_le q a d x B ltac:(lia) Ha Hp) as He.
  pose proof (profit_of_le q a d x L B Hq Hd Ha Hp) as Hpr.
  pose proof (abs_mul_le (x - entry_after q a d x) (q + d) (2 * B) (2 * L) ltac:(lia) ltac:(lia)) as H1.
  pose proof (abs_mul_le (x - a) q (2 * B) L ltac:(lia) Hq) as H2.
  assert (4 * (L * B) + (4 * (L * B) + R) <= tmax I64 /\ 0 <= L * B) as [Hmax HLB] by (split; [lia|nia]).
  assert (2 * B <= tmax I64) as HB by lia. clear Hb Hd.
  replace (2 * B * (2 * L)) with (4 * (L * B)) in H1 by ring. replace (2 * B * L) with (2 * (L * B)) in H2 by ring.
  replace (L * (2 * B)) with (2 * (L * B)) in Hpr by ring.
  split; apply total_pnl_ok; cbn [after_fill avg_entry realized_pnl pos_qty to_raw slots_to_raw]; fold q a x;
    generalize dependent ((x - entry_after q a d x) * (q + d)); generalize dependent ((x - a) * q);
    generalize dependent (L * B); intros; mlia.
Qed.

(** C26. Fills keep the books straight: as long as the amounts stay within an
    i64, [on_fill] returns, moves the net quantity by the signed fill, keeps
    the entry price of a flat position at zero, and leaves the total profit at
    the fill price unchanged, exactly when the fill reduces, closes or flips
    the position and up to the remainder of the entry-price division (less
    than one raw unit per lot held) when it increases it. *)
Theorem fill_conserves_total_pnl L B R p side qty price :
  in_budget L B R p (signed_fill side qty) price ->
  let q := slots_to_raw (pos_qty p) in
  let d := signed_fill side qty in
  exists p', pos_on_fill p side qty price = Ret p'
    /\ slots_to_raw (pos_qty p') = q + d /\ (q + d = 0 -> avg_entry p' = fixed_ZERO)
    /\ Z.abs (to_raw (total_pnl p' price) - to_raw (total_pnl p price)) < Z.max 1 (Z.abs (q + d))
    /\ (q * d <= 0 -> total_pnl p' price = total_pnl p price).
Proof.
  intros Hbud q d. exists (after_fill p d (to_raw price)). split; [by eapply pos_on_fill_ok|].
  split; [done|]. split.
  { intros E. cbn [avg_entry after_fill]. fold q. unfold entry_after. by rewrite (decide_True _ _ E). }
  destruct (after_fill_pnl L B R p d price Hbud) as [E1 E2]. fold q in E1, E2.
  destruct (fill_conserves_value q (to_raw (avg_entry p)) d (to_raw price)) as [Herr Hex].
  split; [rewrite E1, E2; lia|]. intros Hs. specialize (Hex Hs).
  apply fixed_inj. lia.
Qed.

(** An overflow of the cost is not reported but zeroes the entry price:
    when the cost of a long position and of the lots added to it each fit but
    their sum does not, [on_fill] returns a non-flat position with
    [avg_entry = 0], whose unrealised profit then counts the whole price. *)
Theorem vwap_overflow_zeroes_entry p qty price :
  let q := slots_to_raw (pos_qty p) in
  let d := lots_to_raw qty in
  0 < q -> 0 < d -> q + d <= tmax I64 ->
  in_range I64 (to_raw (avg_entry p) * q) -> in_range I64 (to_raw price * d) ->
  tmax I64 < to_raw (avg_entry p) * q + to_raw price * d ->
  exists p', pos_on_fill p Bid qty price = Ret p' /\ slots_to_raw (pos_qty p') = q + d /\ avg_entry p' = fixed_ZERO.
Proof.
  intros q d Hq Hd Hs H1 H2 H3. unfold pos_on_fill, fill_delta, slots_from_lots. fold d. cbn [mbind outcome_bind slots_to_raw].
  unfold slots_add. cbn [slots_to_raw]. fold q. rewrite arith_ok by mlia. cbn [fmap outcome_fmap mbind outcome_bind].
  destruct (Z.ltb_spec 0 q); [|lia]. destruct (Z.ltb_spec 0 d); [|lia]. cbn [andb]. rewrite orb_true_r. cbn [orb].
  unfold vwap. cbn [slots_to_raw]. fold q.
  rewrite (abs_op_ok q q), (abs_op_ok d d), (abs_op_ok (q + d) (q + d)), !Z.abs_eq by mlia. cbn [mbind outcome_bind].
  unfold checked_mul_int, checked_add. rewrite (or_zero_checked (_ * q)), (or_zero_checked (_ * d)) by done.
  cbn [to_raw]. rewrite checked_None by mlia. unfold checked_div_int.
  destruct (Z.eqb_spec (q + d) 0); [lia|]. rewrite div_op_ok; [|lia|by rewrite Z.quot_0_l by lia].
  eexists. split; [done|]. split; [done|]. cbn [avg_entry pos_qty]. rewrite Z.quot_0_l by lia. by destruct (slots_is_zero _).
Qed.
End accounting.

(** The witness: ten lots at 2.0, four of them sold at 3.0. *)
Lemma fill_conserves_total_pnl_witness :
  let p := {| pos_instrument := inst_from_raw 1; pos_qty := slots_from_raw 10; avg_entry := from_raw 2000000;
              realized_pnl := fixed_ZERO; fill_count := 1 |} in
  exists p', @pos_on_fill debug_profile p Ask (lots_from_raw 4) (from_raw 3000000) = Ret p'
    /\ slots_to_raw (pos_qty p') = 6 /\ total_pnl p' (from_raw 3000000) = total_pnl p (from_raw 3000000).
Proof.
  intros p.
  destruct (@fill_conserves_total_pnl debug_profile 100 1000000000 1000000000 p Ask (lots_from_raw 4) (from_raw 3000000))
    as (p' & E & Eq & _ & _ & Et).
  - split; cbn; lia.
  - exists p'. split; [exact E|]. split; [exact Eq|]. apply Et. cbn. lia.
Defined.

(** The witness: 5,000,000,000,000 lots at 1.0, doubled at 1.0. *)
Lemma vwap_overflow_zeroes_entry_witness :
  let p := {| pos_instrument := inst_from_raw 1; pos_qty := slots_from_raw 5000000000000; avg_entry := from_raw 1000000;
              realized_pnl := fixed_ZERO; fill_count := 1 |} in
  exists p', @pos_on_fill release_profile p Bid (lots_from_raw 5000000000000) (from_raw 1000000) = Ret p'
    /\ slots_to_raw (pos_qty p') = 10000000000000 /\ avg_entry p' = fixed_ZERO.
Proof.
  intros p. apply (@vwap_overflow_zeroes_entry release_profile p (lots_from_raw 5000000000000) (from_raw 1000000));
    cbn; mlia.
Defined.
