(* ===== verification/Orders.v ===== *)
(** * Order tracking and exposure ([crates/strategy]: order_tracker.rs, exposure.rs, risk.rs)

    The fixed-size table of a strategy's orders and its event handlers, and
    the exposure view over positions and open orders. *)

From Stdlib Require Import ZArith Lia.
From stdpp Require Import base decidable numbers option tactics gmap list.
From S2P Require Import Prelude Platform Fixed Types Position.

#[local] Open Scope Z_scope.

(** ** order_tracker.rs *)

Definition MAX_TRACKED_ORDERS : nat := 64.

Inductive OrderState := Pending | Sending | Live | CancelPending | Filled | Cancelled | Rejected.

#[global] Instance OrderState_eq_dec : EqDecision OrderState.
Proof. solve_decision. Defined.

Record TrackedOrder := {
  client_order_id : Z;
  exchange_order_id : Z;
  strategy_id : Z;
  ord_instrument : InstrumentId;
  ord_side : Side;
  ord_price : Ticks;
  original_qty : Lots;
  filled_qty : Lots;
  ord_state : OrderState;
  created_at_ns : Z;
  acked_at_ns : Z;
}.

Definition is_active (o : TrackedOrder) : bool :=
  match ord_state o with Pending | Sending | Live | CancelPending => true | _ => false end.

Definition remaining_qty `{BuildProfile} (o : TrackedOrder) : outcome Lots := lots_sub (original_qty o) (filled_qty o).

Inductive TrackerFullError := tracker_full.

Record OrderTracker := { orders : list (option TrackedOrder); active_count : Z }.

Definition tracker_new : OrderTracker := {| orders := replicate MAX_TRACKED_ORDERS None; active_count := 0 |}.

Definition set_state (o : TrackedOrder) (s : OrderState) (exch acked : Z) (filled : Lots) : TrackedOrder :=
  {| client_order_id := client_order_id o; exchange_order_id := exch; strategy_id := strategy_id o;
     ord_instrument := ord_instrument o; ord_side := ord_side o; ord_price := ord_price o;
     original_qty := original_qty o; filled_qty := filled; ord_state := s;
     created_at_ns := created_at_ns o; acked_at_ns := acked |}.

(** [can_reuse]. *)
Definition can_reuse (slot : option TrackedOrder) : bool :=
  match slot with
  | None => true
  | Some o => match ord_state o with Filled | Cancelled | Rejected => true | _ => false end
  end.

Definition has_id (id : Z) (slot : option TrackedOrder) : bool :=
  match slot with Some o => client_order_id o =? id | None => false end.

(** The first slot that satisfies a test. *)
Fixpoint find_slot (test : option TrackedOrder -> bool) (l : list (option TrackedOrder)) : option nat :=
  match l with
  | [] => None
  | s :: l => if test s then Some 0%nat else match find_slot test l with Some i => Some (S i) | None => None end
  end.

Section tracker.
Context `{BuildProfile}.
Implicit Types t : OrderTracker.

Definition on_intent_sent t (order : TrackedOrder) : outcome (OrderTracker * result unit TrackerFullError) :=
  match find_slot can_reuse (orders t) with
  | Some i =>
      n ← arith USIZE (active_count t + 1);
      Ret ({| orders := <[i := Some order]> (orders t); active_count := n |}, Ok tt)
  | None => Ret (t, Err tracker_full)
  end.

(** [find_mut]: the slot and the order in it. *)
Definition find_mut t (id : Z) : option (nat * TrackedOrder) :=
  match find_slot (has_id id) (orders t) with
  | Some i => match orders t !! i with Some (Some o) => Some (i, o) | _ => None end
  | None => None
  end.

Definition get t (id : Z) : option TrackedOrder :=
  match find_mut t id with Some (_, o) => Some o | None => None end.

(** [active_count.saturating_sub(1)]. *)
Definition one_less (n : Z) : Z := saturate USIZE (n - 1).

Definition on_ack t (id exch acked : Z) : OrderTracker :=
  match find_mut t id with
  | Some (i, o) =>
      {| orders := <[i := Some (set_state o Live exch acked (filled_qty o))]> (orders t); active_count := active_count t |}
  | None => t
  end.

(** [on_reject] and [on_cancel_ack] differ in the state they set. *)
Definition close t (id : Z) (s : OrderState) : OrderTracker :=
  match find_mut t id with
  | Some (i, o) =>
      {| orders := <[i := Some (set_state o s (exchange_order_id o) (acked_at_ns o) (filled_qty o))]> (orders t);
         active_count := one_less (active_count t) |}
  | None => t
  end.

Definition on_reject t (id : Z) : OrderTracker := close t id Rejected.
Definition on_cancel_ack t (id : Z) : OrderTracker := close t id Cancelled.

Definition tracker_on_fill t (id : Z) (fill_qty : Lots) : outcome OrderTracker :=
  match find_mut t id with
  | Some (i, o) =>
      if negb (is_active o) then Ret t
      else
        filled ← lots_add (filled_qty o) fill_qty;
        if lots_to_raw (original_qty o) <=? lots_to_raw filled then
          Ret {| orders := <[i := Some (set_state o Filled (exchange_order_id o) (acked_at_ns o) (original_qty o))]> (orders t);
                 active_count := one_less (active_count t) |}
        else
          Ret {| orders := <[i := Some (set_state o (ord_state o) (exchange_order_id o) (acked_at_ns o) filled)]> (orders t);
                 active_count := active_count t |}
  | None => Ret t
  end.

Definition active_orders t : list TrackedOrder := filter is_active (omap id (orders t)).

(** The loop of [open_qty]. *)
Fixpoint open_loop (inst : InstrumentId) (side : Side) (l : list TrackedOrder) (total : Lots) : outcome Lots :=
  match l with
  | [] => Ret total
  | o :: l =>
      if is_active o && bool_decide (ord_instrument o = inst) && bool_decide (ord_side o = side) then
        r ← remaining_qty o;
        total ← lots_add total r;
        open_loop inst side l total
      else open_loop inst side l total
  end.

Definition open_qty t (inst : InstrumentId) (side : Side) : outcome Lots :=
  open_loop inst side (omap id (orders t)) lots_ZERO.
End tracker.

(** ** exposure.rs *)

Record ExposureView := { positions : list Position; view_orders : OrderTracker }.

Fixpoint find_position (ps : list Position) (inst : InstrumentId) : option Position :=
  match ps with
  | [] => None
  | p :: ps => if bool_decide (pos_instrument p = inst) then Some p else find_position ps inst
  end.

Section exposure.
Context `{BuildProfile}.

Definition worst_case_qty (v : ExposureView) (inst : InstrumentId) (side : Side) : outcome SignedLots :=
  let current := match find_position (positions v) inst with Some p => pos_qty p | None => slots_ZERO end in
  open ← open_qty (view_orders v) inst side;
  delta ← (match side with Bid => Ret (slots_from_lots open) | Ask => slots_neg (slots_from_lots open) end);
  slots_add current delta.

(** The inner loop of [total_notional_at_risk]. *)
Fixpoint risk_loop (inst : InstrumentId) (mid : FixedI64 6) (ps : list Position) (total : FixedI64 6) : outcome (FixedI64 6) :=
  match ps with
  | [] => Ret total
  | p :: ps =>
      if bool_decide (pos_instrument p = inst) then
        n ← notional p mid;
        risk_loop inst mid ps (saturating_add n total)
      else risk_loop inst mid ps total
  end.

Fixpoint mid_loop (ps : list Position) (mids : list (InstrumentId * FixedI64 6)) (total : FixedI64 6) : outcome (FixedI64 6) :=
  match mids with
  | [] => Ret total
  | (inst, mid) :: mids =>
      total ← risk_loop inst mid ps total;
      mid_loop ps mids total
  end.

Definition total_notional_at_risk (v : ExposureView) (mids : list (InstrumentId * FixedI64 6)) : outcome (FixedI64 6) :=
  mid_loop (positions v) mids fixed_ZERO.
End exposure.

(** * The tracker refines the map of active orders *)

Definition ids (l : list (option TrackedOrder)) : list Z := client_order_id <$> omap id l.
Definition actives (l : list (option TrackedOrder)) : list TrackedOrder := filter is_active (omap id l).
Definition active_map (l : list (option TrackedOrder)) : gmap Z TrackedOrder :=
  list_to_map ((fun o => (client_order_id o, o)) <$> actives l).

(** The events a strategy feeds to its tracker. *)
Inductive tracker_op :=
| Intent (o : TrackedOrder) | Ack (id exch acked : Z) | Reject (id : Z) | CancelAck (id : Z) | FillOf (id : Z) (q : Lots).

Definition ack_order (exch acked : Z) (o : TrackedOrder) : TrackedOrder := set_state o Live exch acked (filled_qty o).
Definition fill_order (filled : Z) (o : TrackedOrder) : TrackedOrder :=
  set_state o (ord_state o) (exchange_order_id o) (acked_at_ns o) (lots_from_raw filled).

(** The specification: the orders that can still fill, by client identifier. *)
Definition active_step (m : gmap Z TrackedOrder) (op : tracker_op) : gmap Z TrackedOrder * result unit TrackerFullError :=
  match op with
  | Intent o =>
      if decide (size m = MAX_TRACKED_ORDERS) then (m, Err tracker_full) else (<[client_order_id o := o]> m, Ok tt)
  | Ack id exch acked =>
      (match m !! id with Some o => <[id := ack_order exch acked o]> m | None => m end, Ok tt)
  | Reject id | CancelAck id => (delete id m, Ok tt)
  | FillOf id q =>
      (match m !! id with
       | Some o =>
           let f := lots_to_raw (filled_qty o) + lots_to_raw q in
           if lots_to_raw (original_qty o) <=? f then delete id m else <[id := fill_order f o]> m
       | None => m
       end, Ok tt)
  end.

Section refinement.
Context `{BuildProfile}.
Implicit Types (t : OrderTracker) (l : list (option TrackedOrder)) (m : gmap Z TrackedOrder).

Definition tracker_step t (op : tracker_op) : outcome (OrderTracker * result unit TrackerFullError) :=
  match op with
  | Intent o => on_intent_sent t o
  | Ack id exch acked => Ret (on_ack t id exch acked, Ok tt)
  | Reject id => Ret (on_reject t id, Ok tt)
  | CancelAck id => Ret (on_cancel_ack t id, Ok tt)
  | FillOf id q => t' ← tracker_on_fill t id q; Ret (t', Ok tt)
  end.

(** What the handlers rely on: new identifiers are not in the table, an order
    that already ended gets no acknowledgement, rejection or cancellation, and
    filled quantities stay in range. *)
Definition allowed t (op : tracker_op) : Prop :=
  match op with
  | Intent o => is_active o = true /\ get t (client_order_id o) = None
  | Ack id _ _ | Reject id | CancelAck id => match get t id with Some o => is_active o = true | None => True end
  | FillOf id q =>
      match get t id with
      | Some o => if is_active o then in_range I64 (lots_to_raw (filled_qty o) + lots_to_raw q) else True
      | None => True
      end
  end.

(** The table without slot [i], and what a slot contributes. *)
Definition rest l (i : nat) : list (option TrackedOrder) := take i l ++ drop (S i) l.
Definition slot_ids (s : option TrackedOrder) : list Z := match s with Some o => [client_order_id o] | None => [] end.
Definition add_slot (s : option TrackedOrder) m : gmap Z TrackedOrder :=
  match s with Some o => if is_active o then <[client_order_id o := o]> m else m | None => m end.
Definition slot_active (s : option TrackedOrder) : nat :=
  match s with Some o => if is_active o then 1 else 0 | None => 0 end.

Record tracker_inv t : Prop := {
  inv_ids : NoDup (ids (orders t));
  inv_length : length (orders t) = MAX_TRACKED_ORDERS;
  inv_count : active_count t = Z.of_nat (length (actives (orders t)));
}.

Lemma find_slot_Some test l i : find_slot test l = Some i -> exists s, l !! i = Some s /\ test s = true.
Proof.
  revert i. induction l as [|s l IH]; cbn; intros i E; [done|].
  destruct (test s) eqn:Es; [injection E as <-; by exists s|].
  destruct (find_slot test l) as [j|]; [|done]. injection E as <-. by apply IH.
Qed.

Lemma find_slot_None test l : find_slot test l = None -> Forall (fun s => test s = false) l.
Proof.
  induction l as [|s l IH]; cbn; intros E; [constructor|].
  destruct (test s) eqn:Es; [done|]. destruct (find_slot test l) as [j|]; [done|]. constructor; auto.
Qed.

Lemma rest_split l i s : l !! i = Some s -> l = take i l ++ s :: drop (S i) l.
Proof. intros E. symmetry. by apply take_drop_middle. Qed.

Lemma rest_insert l i s s' : l !! i = Some s -> rest (<[i := s']> l) i = rest l i.
Proof.
  intros E. pose proof (lookup_lt_Some _ _ _ E). unfold rest.
  by rewrite take_insert_ge, drop_insert_lt by lia.
Qed.

Lemma ids_split l i s : l !! i = Some s -> ids l ≡ₚ slot_ids s ++ ids (rest l i).
Proof.
  intros E. rewrite (rest_split _ _ _ E) at 1. unfold ids, rest. rewrite !omap_app, !fmap_app.
  destruct s as [o|]; cbn; [by rewrite <- Permutation_middle|done].
Qed.

Lemma actives_split l i s :
  l !! i = Some s -> actives l ≡ₚ (match s with Some o => if is_active o then [o] else [] | None => [] end) ++ actives (rest l i).
Proof.
  intros E. rewrite (rest_split _ _ _ E) at 1. unfold actives, rest. rewrite !omap_app, !filter_app.
  destruct s as [o|]; cbn [omap list_omap id]; [|done]. rewrite filter_cons.
  destruct (decide (is_active o)) as [E'|E'], (is_active o); try done. by rewrite <- Permutation_middle.
Qed.

Lemma actives_ids l : (client_order_id <$> actives l) `sublist_of` ids l.
Proof. unfold actives, ids. apply fmap_sublist, sublist_filter. Qed.

Lemma active_keys_NoDup l :
  NoDup (ids l) -> NoDup (((fun o => (client_order_id o, o)) <$> actives l).*1).
Proof.
  intros Hn. rewrite <- list_fmap_compose. eapply sublist_NoDup; [exact Hn|apply actives_ids].
Qed.

Lemma active_map_split l i s :
  NoDup (ids l) -> l !! i = Some s -> active_map l = add_slot s (active_map (rest l i)).
Proof.
  intros Hn E. unfold active_map.
  rewrite (list_to_map_proper _ _ (active_keys_NoDup l Hn) (fmap_Permutation _ _ _ (actives_split l i s E))).
  destruct s as [o|]; [|done]. cbn [add_slot]. by destruct (is_active o).
Qed.

Lemma active_map_size l : NoDup (ids l) -> size (active_map l) = length (actives l).
Proof.
  intros Hn. unfold active_map. rewrite map_size_list_to_map by (by apply active_keys_NoDup). apply length_fmap.
Qed.

Lemma active_map_None l id : id ∉ ids l -> active_map l !! id = None.
Proof.
  intros Hn. apply not_elem_of_list_to_map_1. rewrite <- list_fmap_compose. intros Hi. apply Hn.
  eapply elem_of_sublist; [|apply actives_ids]. done.
Qed.

(** Replacing a slot by one whose identifier is its own or new. *)
Lemma replace_slot l i s s' :
  NoDup (ids l) -> l !! i = Some s ->
  (slot_ids s' = slot_ids s \/ forall x, x ∈ slot_ids s' -> x ∉ ids l) ->
  let l' := <[i := s']> l in
  NoDup (ids l') /\ active_map l' = add_slot s' (active_map (rest l i))
  /\ (length (actives l') + slot_active s = length (actives l) + slot_active s')%nat.
Proof.
  intros Hn E Hid l'. assert (l' !! i = Some s') as E' by (apply list_lookup_insert_eq; by eapply lookup_lt_Some).
  pose proof (ids_split _ _ _ E) as Ps. pose proof (ids_split _ _ _ E') as Ps'.
  unfold l' in Ps' at 2. rewrite (rest_insert _ _ _ _ E) in Ps'.
  assert (NoDup (ids l')) as Hn'.
  { rewrite Ps'. rewrite Ps in Hn. destruct Hid as [->|Hid]; [done|].
    apply NoDup_app in Hn as (_ & _ & Hr). apply NoDup_app. split_and!; [destruct s'; repeat constructor; set_solver| |done].
    intros x Hx Hin. apply (Hid x Hx). rewrite Ps. set_solver. }
  split; [done|]. split.
  - rewrite (active_map_split _ _ _ Hn' E'). unfold l'. by rewrite (rest_insert _ _ _ _ E).
  - rewrite (Permutation_length (actives_split _ _ _ E)), (Permutation_length (actives_split _ _ _ E')).
    unfold l'. rewrite (rest_insert _ _ _ _ E), !length_app.
    unfold slot_active. destruct s as [o|], s' as [o'|]; try destruct (is_active o); try destruct (is_active o'); cbn; lia.
Qed.

Lemma rest_fresh l i o : NoDup (ids l) -> l !! i = Some (Some o) -> active_map (rest l i) !! client_order_id o = None.
Proof.
  intros Hn E. apply active_map_None. rewrite (ids_split _ _ _ E) in Hn. cbn in Hn. by apply NoDup_cons in Hn as [? _].
Qed.

Lemma find_mut_Some t id i o :
  find_mut t id = Some (i, o) -> orders t !! i = Some (Some o) /\ client_order_id o = id.
Proof.
  unfold find_mut. destruct (find_slot (has_id id) (orders t)) as [j|] eqn:E; [|done].
  destruct (find_slot_Some _ _ _ E) as (s & Es & Ht). rewrite Es. destruct s as [o'|]; [|done].
  intros [= <- <-]. split; [done|]. by apply Z.eqb_eq.
Qed.

Lemma find_mut_None t id : find_mut t id = None -> id ∉ ids (orders t).
Proof.
  unfold find_mut. destruct (find_slot (has_id id) (orders t)) as [j|] eqn:E.
  - destruct (find_slot_Some _ _ _ E) as (s & Es & Ht). rewrite Es. by destruct s.
  - intros _ Hi. apply find_slot_None in E. rewrite Forall_forall in E.
    unfold ids in Hi. apply list_elem_of_fmap in Hi as (o & -> & Ho). apply list_elem_of_omap in Ho as ([o'|] & Hin & [= ->]).
    specialize (E _ Hin). cbn in E. by rewrite Z.eqb_refl in E.
Qed.

Lemma get_find t id o : get t id = Some o -> exists i, find_mut t id = Some (i, o).
Proof. unfold get. destruct (find_mut t id) as [[i o']|]; [|done]. intros [= ->]. by exists i. Qed.

Lemma find_get t id i o : find_mut t id = Some (i, o) -> get t id = Some o.
Proof. unfold get. by intros ->. Qed.

Lemma add_slot_active o m : is_active o = true -> add_slot (Some o) m = <[client_order_id o := o]> m.
Proof. cbn. by intros ->. Qed.

Lemma add_slot_ended o m : is_active o = false -> add_slot (Some o) m = m.
Proof. cbn. by intros ->. Qed.

(** The state of the table after its slot [i], which holds the active order
    [o], is replaced by [o']. *)
Lemma replace_active t id i o o' n :
  tracker_inv t -> find_mut t id = Some (i, o) -> is_active o = true -> client_order_id o' = id ->
  n = active_count t - (if is_active o' then 0 else 1) ->
  let t' := {| orders := <[i := Some o']> (orders t); active_count := n |} in
  tracker_inv t' /\ active_map (orders t) !! id = Some o
  /\ active_map (orders t')
     = if is_active o' then <[id := o']> (active_map (orders t)) else delete id (active_map (orders t)).
Proof.
  intros [Hn Hl Hc] F Ha Eid En t'. destruct (find_mut_Some _ _ _ _ F) as [E Eo]. subst id.
  destruct (replace_slot (orders t) i (Some o) (Some o') Hn E) as (Hn' & Em & Hlen); [left; cbn; by rewrite Eo|].
  pose proof (active_map_split _ _ _ Hn E) as Em0. rewrite (add_slot_active _ _ Ha) in Em0.
  pose proof (rest_fresh _ _ _ Hn E) as Hf. rewrite Eo in Em0, Hf.
  cbn [slot_active] in Hlen. rewrite Ha in Hlen. split.
  - split; [done|by unfold t'; cbn [orders]; rewrite length_insert|]. cbn [active_count orders t'].
    rewrite En, Hc. destruct (is_active o'); lia.
  - split; [rewrite Em0; apply lookup_insert_eq|]. cbn [orders t']. rewrite Em, Em0. destruct (is_active o') eqn:Ea'.
    + rewrite add_slot_active by done. by rewrite insert_insert_eq.
    + rewrite add_slot_ended by done. by rewrite delete_insert_id.
Qed.

Lemma untracked t id : tracker_inv t -> find_mut t id = None -> active_map (orders t) !! id = None.
Proof. intros _ F. by apply active_map_None, find_mut_None. Qed.

Lemma actives_cons s l :
  actives (s :: l) = (match s with Some o => if is_active o then [o] else [] | None => [] end) ++ actives l.
Proof.
  unfold actives. destruct s as [o|]; cbn [omap list_omap id]; [|done]. rewrite filter_cons.
  by destruct (decide (is_active o)), (is_active o).
Qed.

Lemma can_reuse_active o : can_reuse (Some o) = negb (is_active o).
Proof. unfold can_reuse, is_active. by destruct (ord_state o). Qed.

(** The table is full exactly when every slot holds an active order. *)
Lemma actives_full l :
  (length (actives l) <= length l)%nat /\ (find_slot can_reuse l = None <-> length (actives l) = length l).
Proof.
  induction l as [|[o|] l [IH1 IH2]]; [done| |]; rewrite actives_cons; cbn [find_slot].
  - rewrite can_reuse_active. destruct (is_active o); cbn; split; try lia.
    + destruct IH2 as [A B]. destruct (find_slot can_reuse l); split; intros E; [done| |f_equal; by apply A|done].
      discriminate B. lia.
    + split; [done|lia].
  - cbn. split; [lia|]. split; [done|lia].
Qed.

Lemma one_less_active t i o id :
  tracker_inv t -> find_mut t id = Some (i, o) -> is_active o = true -> one_less (active_count t) = active_count t - 1.
Proof.
  intros [Hn Hl Hc] F Ha. destruct (find_mut_Some _ _ _ _ F) as [E _].
  pose proof (Permutation_length (actives_split _ _ _ E)) as Hp. cbn in Hp. rewrite Ha in Hp. cbn in Hp.
  destruct (actives_full (orders t)) as [Hle _]. unfold MAX_TRACKED_ORDERS in Hl.
  unfold one_less. rewrite saturate_id; [done|]. mlia.
Qed.

Lemma intent_step t o :
  tracker_inv t -> allowed t (Intent o) ->
  exists t', tracker_step t (Intent o) = Ret (t', (active_step (active_map (orders t)) (Intent o)).2)
    /\ tracker_inv t' /\ active_map (orders t') = (active_step (active_map (orders t)) (Intent o)).1.
Proof.
  intros I [Ha Hg]. pose proof I as [Hn Hl Hc]. cbn [tracker_step active_step]. unfold on_intent_sent.
  rewrite active_map_size by done. destruct (actives_full (orders t)) as [Hle Hfull]. rewrite Hl in Hle, Hfull.
  destruct (find_slot can_reuse (orders t)) as [i|] eqn:Ef.
  - rewrite decide_False by (intros E; by apply Hfull in E).
    assert (length (actives (orders t)) <> 64)%nat by (intros E; by apply Hfull in E).
    unfold MAX_TRACKED_ORDERS in Hle. rewrite arith_ok by mlia. cbn [mbind outcome_bind].
    destruct (find_slot_Some _ _ _ Ef) as (s & Es & Hr).
    assert (find_mut t (client_order_id o) = None) as Fn
      by (unfold get in Hg; destruct (find_mut t (client_order_id o)) as [[]|]; done).
    pose proof (find_mut_None _ _ Fn) as Hfresh.
    destruct (replace_slot (orders t) i s (Some o) Hn Es) as (Hn' & Em & Hlen); [right; cbn; set_solver|].
    assert (add_slot s (active_map (rest (orders t) i)) = active_map (rest (orders t) i) /\ slot_active s = 0%nat) as [Ea E0].
    { destruct s as [o'|]; [|done]. rewrite can_reuse_active in Hr. cbn. by destruct (is_active o'). }
    eexists. split; [done|]. cbn [orders]. rewrite Em, add_slot_active by done.
    rewrite (active_map_split _ _ _ Hn Es), Ea. split; [|done].
    split; cbn [orders active_count]; [done|by rewrite length_insert|]. cbn [slot_active] in Hlen. rewrite Ha in Hlen. lia.
  - rewrite decide_True by (by apply Hfull). by exists t.
Qed.

Lemma close_step t id s :
  tracker_inv t -> (match get t id with Some o => is_active o = true | None => True end) -> (s = Rejected \/ s = Cancelled) ->
  tracker_inv (close t id s) /\ active_map (orders (close t id s)) = delete id (active_map (orders t)).
Proof.
  intros I Hg Hs. unfold close. destruct (find_mut t id) as [[i o]|] eqn:F.
  - rewrite (find_get _ _ _ _ F) in Hg. rename Hg into Ha.
    set (o' := set_state o s (exchange_order_id o) (acked_at_ns o) (filled_qty o)).
    assert (is_active o' = false) as Ea by (by destruct Hs as [-> | ->]).
    destruct (replace_active t id i o o' (one_less (active_count t)) I F Ha) as (I' & _ & Em).
    { apply (find_mut_Some _ _ _ _ F). }
    { rewrite Ea. by eapply one_less_active. }
    rewrite Ea in Em. done.
  - split; [done|]. by rewrite delete_id by (by apply untracked).
Qed.

Lemma fill_step t id q i o :
  tracker_inv t -> allowed t (FillOf id q) -> find_mut t id = Some (i, o) ->
  exists t', tracker_step t (FillOf id q) = Ret (t', (active_step (active_map (orders t)) (FillOf id q)).2)
    /\ tracker_inv t' /\ active_map (orders t') = (active_step (active_map (orders t)) (FillOf id q)).1.
Proof.
  intros I Hal F. pose proof I as [Hn _ _]. destruct (find_mut_Some _ _ _ _ F) as [E Eid].
  cbn [tracker_step active_step fst snd]. unfold tracker_on_fill. rewrite F.
  destruct (is_active o) eqn:Ha; cbn [negb].
  2: { exists t. split; [done|]. split; [done|]. rewrite (active_map_split _ _ _ Hn E), add_slot_ended by done.
       rewrite <- Eid. by rewrite (rest_fresh _ _ _ Hn E). }
  cbn [allowed] in Hal. rewrite (find_get _ _ _ _ F), Ha in Hal. rename Hal into Hr. unfold lots_add. rewrite arith_ok by done.
  cbn [fmap outcome_fmap mbind outcome_bind lots_to_raw].
  set (f := lots_to_raw (filled_qty o) + lots_to_raw q) in *.
  destruct (lots_to_raw (original_qty o) <=? f) eqn:El.
  - destruct (replace_active t id i o (set_state o Filled (exchange_order_id o) (acked_at_ns o) (original_qty o))
      (one_less (active_count t)) I F Ha Eid) as (I' & Ho & Em); [by eapply one_less_active|].
    rewrite Ho. fold f. rewrite El. by eexists.
  - destruct (replace_active t id i o (fill_order f o) (active_count t) I F Ha Eid) as (I' & Ho & Em).
    { assert (is_active (fill_order f o) = is_active o) as -> by done. rewrite Ha. lia. }
    assert (is_active (fill_order f o) = true) as Ea by done. rewrite Ea in Em.
    rewrite Ho. fold f. rewrite El. by eexists.
Qed.

Lemma tracker_step_refines t op :
  tracker_inv t -> allowed t op ->
  exists t', tracker_step t op = Ret (t', (active_step (active_map (orders t)) op).2)
    /\ tracker_inv t' /\ active_map (orders t') = (active_step (active_map (orders t)) op).1.
Proof.
  intros I Hal. destruct op as [o|id exch acked|id|id|id q].
  - by apply intent_step.
  - cbn [tracker_step active_step fst snd]. eexists. split; [done|]. unfold on_ack.
    destruct (find_mut t id) as [[i o]|] eqn:F; [|by rewrite untracked].
    destruct (replace_active t id i o (ack_order exch acked o) (active_count t) I F) as (I' & Ho & Em);
      [cbn in Hal; by rewrite (find_get _ _ _ _ F) in Hal|apply (find_mut_Some _ _ _ _ F)|cbn; lia|]. by rewrite Ho.
  - cbn [tracker_step active_step fst snd]. eexists. split; [done|]. apply close_step; auto.
  - cbn [tracker_step active_step fst snd]. eexists. split; [done|]. apply close_step; auto.
  - destruct (find_mut t id) as [[i o]|] eqn:F.
    2: { cbn [tracker_step active_step fst snd]. unfold tracker_on_fill. rewrite F. exists t. by rewrite untracked. }
    by apply (fill_step t id q i o).
Qed.

(** The run of a list of events, and the discipline along it. *)
Fixpoint tracker_run t (ops : list tracker_op) : outcome (OrderTracker * list (result unit TrackerFullError)) :=
  match ops with
  | [] => Ret (t, [])
  | op :: ops => '(t1, r) ← tracker_step t op; '(t2, rs) ← tracker_run t1 ops; Ret (t2, r :: rs)
  end.

Fixpoint allowed_run t (ops : list tracker_op) : Prop :=
  match ops with
  | [] => True
  | op :: ops => allowed t op /\ match tracker_step t op with Ret (t1, _) => allowed_run t1 ops | Panic => True end
  end.
End refinement.

Fixpoint active_run (m : gmap Z TrackedOrder) (ops : list tracker_op)
    : gmap Z TrackedOrder * list (result unit TrackerFullError) :=
  match ops with
  | [] => (m, [])
  | op :: ops => let '(m1, r) := active_step m op in let '(m2, rs) := active_run m1 ops in (m2, r :: rs)
  end.

Section claims.
Context `{BuildProfile}.
Implicit Types t : OrderTracker.

Lemma tracker_run_refines ops t :
  tracker_inv t -> allowed_run t ops ->
  exists t', tracker_run t ops = Ret (t', (active_run (active_map (orders t)) ops).2)
    /\ tracker_inv t' /\ active_map (orders t') = (active_run (active_map (orders t)) ops).1.
Proof.
  revert t. induction ops as [|op ops IH]; cbn [allowed_run tracker_run active_run]; intros t I Hal; [by exists t|].
  destruct Hal as [Ho Hal]. destruct (tracker_step_refines t op I Ho) as (t1 & E1 & I1 & Em1). rewrite E1 in Hal |- *.
  cbn [mbind outcome_bind]. destruct (IH t1 I1 Hal) as (t2 & E2 & I2 & Em2). rewrite E2, Em1 in *.
  destruct (active_step (active_map (orders t)) op) as [m1 r]. cbn [fst snd mbind outcome_bind] in *.
  destruct (active_run m1 ops) as [m2 rs]. by exists t2.
Qed.

Lemma tracker_new_inv : tracker_inv tracker_new.
Proof. split; vm_compute; [constructor|done|done]. Qed.

(** C28. The tracker keeps exactly the orders that can still fill: for every
    sequence of events in which new identifiers are new and orders that have
    ended get no further acknowledgement, rejection or cancellation, the
    handlers return, the active orders in the table are those of the map that
    the events describe (added by an intent, updated by an acknowledgement or a
    partial fill, removed by a rejection, a cancellation or the completing
    fill), an intent is refused exactly when 64 are active, and [active_count]
    is their number. *)
Theorem tracker_refines_active_orders ops :
  allowed_run tracker_new ops ->
  let '(m, rs) := active_run ∅ ops in
  exists t, tracker_run tracker_new ops = Ret (t, rs)
    /\ active_map (orders t) = m /\ active_count t = Z.of_nat (size m)
    /\ (forall id o, m !! id = Some o -> get t id = Some o).
Proof.
  intros Hal. destruct (tracker_run_refines ops _ tracker_new_inv Hal) as (t & E & I & Em).
  replace (active_map (orders tracker_new)) with (∅ : gmap Z TrackedOrder) in * by (by vm_compute).
  destruct (active_run ∅ ops) as [m rs]. cbn [fst snd] in *. exists t. split; [done|]. split; [done|].
  pose proof I as [Hn Hl Hc]. split; [rewrite <- Em, active_map_size by done; done|].
  intros id o Ho. rewrite <- Em in Ho. destruct (find_mut t id) as [[i o']|] eqn:F.
  - rewrite (find_get _ _ _ _ F). destruct (find_mut_Some _ _ _ _ F) as [Es Eid].
    rewrite (active_map_split _ _ _ Hn Es) in Ho. pose proof (rest_fresh _ _ _ Hn Es) as Hf. rewrite Eid in Hf.
    unfold add_slot in Ho. destruct (is_active o'); [|congruence]. rewrite Eid, lookup_insert_eq in Ho. done.
  - by rewrite untracked in Ho.
Qed.

(** C29. An event for an order that already ended corrupts the count: a second
    cancellation leaves the active orders as they are but takes one off
    [active_count], and a late acknowledgement makes the order active again
    without adding it to [active_count]. *)
Theorem late_events_miscount t id o exch acked :
  tracker_inv t -> get t id = Some o -> is_active o = false -> 0 < active_count t ->
  let t1 := on_cancel_ack t id in
  let t2 := on_ack t id exch acked in
  (active_map (orders t1) = active_map (orders t) /\ active_count t1 = active_count t - 1) /\
  (active_map (orders t2) = <[id := ack_order exch acked o]> (active_map (orders t))
   /\ size (active_map (orders t2)) = S (size (active_map (orders t))) /\ active_count t2 = active_count t).
Proof.
  intros [Hn Hl Hc] Hg Ha Hpos t1 t2. destruct (get_find _ _ _ Hg) as [i F].
  destruct (find_mut_Some _ _ _ _ F) as [E Eid]. pose proof (active_map_split _ _ _ Hn E) as Em0.
  rewrite add_slot_ended in Em0 by done. pose proof (rest_fresh _ _ _ Hn E) as Hf. rewrite Eid in Hf.
  subst t1 t2. unfold on_cancel_ack, close, on_ack. rewrite F. cbn [orders active_count]. split.
  - destruct (replace_slot (orders t) i (Some o)
      (Some (set_state o Cancelled (exchange_order_id o) (acked_at_ns o) (filled_qty o))) Hn E) as (_ & -> & _); [by left|].
    split; [by rewrite add_slot_ended|]. destruct (actives_full (orders t)) as [Hle _].
    unfold one_less, MAX_TRACKED_ORDERS in *. rewrite saturate_id; [done|mlia].
  - destruct (replace_slot (orders t) i (Some o) (Some (ack_order exch acked o)) Hn E) as (_ & Em & _); [by left|].
    unfold ack_order in *. rewrite Em, Em0, add_slot_active by done. cbn [client_order_id set_state]. rewrite Eid.
    split; [done|]. split; [by rewrite map_size_insert_None|done].
Qed.

(** The orders that may still fill: not filled, cancelled or rejected. *)
Definition may_fill (o : TrackedOrder) : Prop := ord_state o ∈ [Pending; Sending; Live; CancelPending].

(** The orders of an instrument and side that may still fill, and what is left
    of each. *)
Definition open_on (inst : InstrumentId) (side : Side) (o : TrackedOrder) : Prop :=
  may_fill o /\ ord_instrument o = inst /\ ord_side o = side.
#[global] Instance open_on_dec inst side o : Decision (open_on inst side o).
Proof. unfold open_on, may_fill. apply _. Defined.

Definition open_orders t (inst : InstrumentId) (side : Side) : list TrackedOrder :=
  filter (open_on inst side) (omap id (orders t)).
Definition left_of (o : TrackedOrder) : Z := lots_to_raw (original_qty o) - lots_to_raw (filled_qty o).
Definition total_left (l : list TrackedOrder) : Z := foldr (fun o z => left_of o + z) 0 l.

#[global] Instance may_fill_dec o : Decision (may_fill o).
Proof. unfold may_fill. apply _. Defined.

Lemma is_active_spec o : is_active o = bool_decide (may_fill o).
Proof. symmetry. case_bool_decide as E; unfold is_active, may_fill in *; destruct (ord_state o); done || set_solver. Qed.

Lemma open_on_spec inst side o :
  is_active o && bool_decide (ord_instrument o = inst) && bool_decide (ord_side o = side) = bool_decide (open_on inst side o).
Proof.
  rewrite is_active_spec. unfold open_on.
  repeat case_bool_decide; cbn [andb]; naive_solver.
Qed.

Lemma total_left_nonneg l : Forall (fun o => 0 <= left_of o) l -> 0 <= total_left l.
Proof. induction 1 as [|o l Ho _ IH]; [done|]. unfold total_left in *. cbn [foldr]. lia. Qed.

Lemma open_loop_ok inst side l total :
  let open := filter (open_on inst side) l in
  Forall (fun o => 0 <= left_of o) open -> 0 <= total -> total + total_left open <= tmax I64 ->
  open_loop inst side l (lots_from_raw total) = Ret (lots_from_raw (total + total_left open)).
Proof.
  revert total. induction l as [|o l IH]; intros total; cbn [open_loop]; [intros; cbn; by rewrite Z.add_0_r|].
  rewrite filter_cons, open_on_spec.
  destruct (decide (open_on inst side o)) as [Ho|Ho]; [rewrite bool_decide_true by done|rewrite bool_decide_false by done; apply IH].
  intros [H0 HF]%Forall_cons Ht Hs. pose proof (total_left_nonneg _ HF). cbn [total_left foldr] in *.
  change (foldr _ 0 ?x) with (total_left x) in *. unfold remaining_qty, lots_sub. fold (left_of o).
  rewrite arith_ok by mlia. cbn [fmap outcome_fmap mbind outcome_bind]. unfold lots_add. cbn [lots_to_raw].
  rewrite arith_ok by mlia. cbn [fmap outcome_fmap mbind outcome_bind]. rewrite IH by (done || lia). do 2 f_equal. lia.
Qed.

(** The quantity of the first position of the instrument, 0 without one. *)
Definition current_qty (v : ExposureView) (inst : InstrumentId) : Z :=
  from_option (fun p => slots_to_raw (pos_qty p)) 0 (head (filter (fun p => pos_instrument p = inst) (positions v))).

Lemma find_position_qty v inst :
  slots_to_raw (match find_position (positions v) inst with Some p => pos_qty p | None => slots_ZERO end) = current_qty v inst.
Proof.
  unfold current_qty. induction (positions v) as [|p ps IH]; [done|]. cbn [find_position]. rewrite filter_cons.
  destruct (decide (pos_instrument p = inst)); [by rewrite bool_decide_true by done|by rewrite bool_decide_false by done].
Qed.

Lemma fills_total open fills :
  Forall2 (fun o f => 0 <= f <= left_of o) open fills -> 0 <= foldr Z.add 0 fills <= total_left open.
Proof. induction 1 as [|o f l fs Ho _ IH]; [done|]. unfold total_left in *. cbn [foldr]. lia. Qed.

(** C30. The worst case is a worst case: with non-negative remainders that fit
    together with the position, [worst_case_qty] is the position plus, for bids,
    or minus, for asks, everything left of the orders of the side that may still
    fill; partial or full fills of these orders, in any amounts, leave the
    position between where it is and there. *)
Theorem worst_case_bounds_fills (v : ExposureView) inst side :
  let open := open_orders (view_orders v) inst side in
  let current := current_qty v inst in
  Forall (fun o => 0 <= left_of o) open -> Z.abs current + total_left open <= tmax I64 ->
  worst_case_qty v inst side
  = Ret (slots_from_raw (match side with Bid => current + total_left open | Ask => current - total_left open end)) /\
  forall fills, Forall2 (fun o f => 0 <= f <= left_of o) open fills ->
    match side with
    | Bid => current <= current + foldr Z.add 0 fills <= current + total_left open
    | Ask => current - total_left open <= current - foldr Z.add 0 fills <= current
    end.
Proof.
  intros open current HF Hs. pose proof (total_left_nonneg _ HF) as H0.
  split; [|intros fills Hf; pose proof (fills_total _ _ Hf); destruct side; lia].
  unfold worst_case_qty, open_qty. rewrite (open_loop_ok inst side _ 0) by (done || unfold open, open_orders in *; lia).
  change (filter _ _) with open. cbn [mbind outcome_bind]. rewrite Z.add_0_l.
  pose proof (find_position_qty v inst) as Ec. fold current in Ec.
  unfold slots_add, slots_neg, slots_from_lots. destruct side; cbn [slots_to_raw lots_to_raw].
  - cbn [mbind outcome_bind slots_to_raw]. by rewrite Ec, arith_ok by mlia.
  - rewrite (arith_ok _ (- _)) by mlia. cbn [fmap outcome_fmap mbind outcome_bind slots_to_raw].
    by rewrite Ec, arith_ok by mlia.
Qed.
End claims.

(** A bid for a hundred lots. *)
Definition sample_order (id : Z) : TrackedOrder :=
  {| client_order_id := id; exchange_order_id := 0; strategy_id := 0; ord_instrument := inst_from_raw 1; ord_side := Bid;
     ord_price := ticks_from_raw 650; original_qty := lots_from_raw 100; filled_qty := lots_ZERO; ord_state := Pending;
     created_at_ns := 1000; acked_at_ns := 0 |}.

Definition sample_run : list tracker_op :=
  [Intent (sample_order 1); Ack 1 42 999; FillOf 1 (lots_from_raw 30); Intent (sample_order 2); CancelAck 2;
   Intent (sample_order 3); FillOf 3 (lots_from_raw 120)].

(** The witness: one order partly filled, one cancelled, one overfilled. *)
Lemma tracker_refines_active_orders_witness :
  exists t, @tracker_run debug_profile tracker_new sample_run = Ret (t, replicate 7 (Ok tt)) /\ active_count t = 1
    /\ get t 1 = Some (fill_order 30 (ack_order 42 999 (sample_order 1))).
Proof.
  pose proof (@tracker_refines_active_orders debug_profile sample_run) as Hw.
  destruct Hw as (t & E & _ & Ec & Hg).
  - vm_compute. repeat split; discriminate.
  - exists t. split; [exact E|]. split; [exact Ec|]. apply Hg. vm_compute. reflexivity.
Defined.

(** The witness: the cancellation of order 2 arrives twice while order 1 is
    live. *)
Lemma late_events_miscount_witness :
  exists t, @tracker_run debug_profile tracker_new [Intent (sample_order 1); Intent (sample_order 2); CancelAck 2]
      = Ret (t, replicate 3 (Ok tt))
    /\ active_count (on_cancel_ack t 2) = 0 /\ active_map (orders (on_cancel_ack t 2)) = active_map (orders t)
    /\ active_map (orders t) !! 1 = Some (sample_order 1).
Proof.
  eexists. split; [vm_compute; reflexivity|].
  match goal with |- context [on_cancel_ack ?t 2] =>
    destruct (late_events_miscount t 2 (set_state (sample_order 2) Cancelled 0 0 lots_ZERO) 42 999) as [[Em Ec] _]
  end.
  - split; [|reflexivity|reflexivity].
    apply (bool_decide_unpack (NoDup (ids _))). vm_compute. exact I.
  - reflexivity.
  - reflexivity.
  - reflexivity.
  - split; [exact Ec|]. split; [exact Em|]. vm_compute. reflexivity.
Defined.

(** The witness: a long position of 10 and a hundred lots bid. *)
Lemma worst_case_bounds_fills_witness :
  let p := {| pos_instrument := inst_from_raw 1; pos_qty := slots_from_raw (-10); avg_entry := from_raw 2000000;
              realized_pnl := fixed_ZERO; fill_count := 1 |} in
  let v := {| positions := [p]; view_orders := {| orders := [Some (sample_order 1)]; active_count := 1 |} |} in
  @worst_case_qty debug_profile v (inst_from_raw 1) Bid = Ret (slots_from_raw 90) /\ -10 <= -10 + 40 <= 90.
Proof.
  intros p v.
  destruct (@worst_case_bounds_fills debug_profile v (inst_from_raw 1) Bid) as [E Hw].
  - vm_compute. repeat constructor; discriminate.
  - vm_compute. discriminate.
  - split; [exact E|]. apply (Hw [40]). vm_compute. repeat constructor; discriminate.
Defined.
