(* ===== verification/Queue.v ===== *)
(** * Queue position estimator ([crates/strategy/src/queue.rs])

    For each resting order the estimator keeps the quantity ahead of it at its
    price level: trades at the level consume from the front, and a shrinking
    level is split between front and back by the power model.  Orders live in
    64 slots; the take rates per instrument and side are moving averages in 16
    slots each.  Floating-point numbers are IEEE binary64 and the functions of
    the [libm] crate are parameters ([Libm]). *)

From Stdlib Require Import ZArith Lia.
From Stdlib.Floats Require Import SpecFloat.
From stdpp Require Import base decidable numbers option tactics gmap fin_maps list.
From S2P Require Import Prelude Float64 Types.

#[local] Open Scope Z_scope.

Definition MAX_QUEUED_ORDERS : nat := 64.
Definition MAX_RATE_INSTRUMENTS : nat := 16.

Inductive QueueFullError := QueueFull.

Record QueuedOrder := {
  qo_order_id : Z;
  qo_instrument_id : InstrumentId;
  qo_side : Side;
  qo_price : Ticks;
  qo_qty : Lots;
  qo_ahead_qty : Lots;
  qo_posted_at_level_size : Lots;
}.

Record TakeRateEntry := { tr_instrument_id : InstrumentId; tr_rate : f64 }.

Record QueueEstimator := {
  qe_orders : list (option QueuedOrder);
  qe_order_count : Z;
  take_rates_bid : list (option TakeRateEntry);
  take_rates_ask : list (option TakeRateEntry);
  prob_power_n : f64;
}.

Definition queue_new (n : f64) : QueueEstimator := {|
  qe_orders := replicate MAX_QUEUED_ORDERS None; qe_order_count := 0;
  take_rates_bid := replicate MAX_RATE_INSTRUMENTS None;
  take_rates_ask := replicate MAX_RATE_INSTRUMENTS None;
  prob_power_n := n |}.

Definition queue_default : QueueEstimator := queue_new (f64_of_Z 3).

Definition with_orders (q : QueueEstimator) (orders : list (option QueuedOrder)) (count : Z)
    : QueueEstimator := {|
  qe_orders := orders; qe_order_count := count; take_rates_bid := take_rates_bid q;
  take_rates_ask := take_rates_ask q; prob_power_n := prob_power_n q |}.

Definition with_qty (o : QueuedOrder) (qty ahead : Lots) : QueuedOrder := {|
  qo_order_id := qo_order_id o; qo_instrument_id := qo_instrument_id o; qo_side := qo_side o;
  qo_price := qo_price o; qo_qty := qty; qo_ahead_qty := ahead;
  qo_posted_at_level_size := qo_posted_at_level_size o |}.

Definition with_ahead (o : QueuedOrder) (ahead : Lots) : QueuedOrder := with_qty o (qo_qty o) ahead.

(** ** Slots *)

(** The first empty slot gets the order; [None] when there is none. *)
Fixpoint fill_slot {A} (slots : list (option A)) (x : A) : option (list (option A)) :=
  match slots with
  | [] => None
  | None :: rest => Some (Some x :: rest)
  | Some y :: rest => match fill_slot rest x with Some rest' => Some (Some y :: rest') | None => None end
  end.

(** [find] and [find_order_mut]: the first order with the identifier. *)
Fixpoint find_order (slots : list (option QueuedOrder)) (id : Z) : option (nat * QueuedOrder) :=
  match slots with
  | [] => None
  | slot :: rest =>
      let later := match find_order rest id with Some (i, o) => Some (S i, o) | None => None end in
      match slot with
      | Some o => if qo_order_id o =? id then Some (0%nat, o) else later
      | None => later
      end
  end.

Definition queue_find (q : QueueEstimator) (id : Z) : option QueuedOrder :=
  match find_order (qe_orders q) id with Some (_, o) => Some o | None => None end.

(** [for order in self.orders.iter_mut().flatten()]. *)
Fixpoint each_order (g : QueuedOrder -> outcome QueuedOrder) (slots : list (option QueuedOrder))
    : outcome (list (option QueuedOrder)) :=
  match slots with
  | [] => Ret []
  | None :: rest => rest' ← each_order g rest; Ret (None :: rest')
  | Some o :: rest => o' ← g o; rest' ← each_order g rest; Ret (Some o' :: rest')
  end.

Section estimator.
Context `{BuildProfile} `{Libm}.
Implicit Types q : QueueEstimator.

(** The order is built when the loop reaches an empty slot. *)
Definition register_order q (order_id : Z) (inst : InstrumentId) (side : Side) (price : Ticks)
    (qty current_level_size : Lots) : outcome (QueueEstimator * result unit QueueFullError) :=
  if forallb (fun slot => bool_decide (is_Some slot)) (qe_orders q) then Ret (q, Err QueueFull)
  else
    posted ← arith I64 (lots_to_raw current_level_size + lots_to_raw qty);
    let o := {| qo_order_id := order_id; qo_instrument_id := inst; qo_side := side;
                qo_price := price; qo_qty := qty; qo_ahead_qty := current_level_size;
                qo_posted_at_level_size := lots_from_raw posted |} in
    match fill_slot (qe_orders q) o with
    | Some orders =>
        count ← arith USIZE (qe_order_count q + 1);
        Ret (with_orders q orders count, Ok tt)
    | None => Ret (q, Err QueueFull)
    end.

Definition remove_order q (order_id : Z) : QueueEstimator :=
  match find_order (qe_orders q) order_id with
  | Some (i, _) =>
      with_orders q (<[i:=None]> (qe_orders q)) (saturate USIZE (qe_order_count q - 1))
  | None => q
  end.

Definition order_filled q (order_id : Z) (fill_qty : Lots) : outcome QueueEstimator :=
  match find_order (qe_orders q) order_id with
  | None => Ret q
  | Some (i, o) =>
      remaining ← arith I64 (lots_to_raw (qo_qty o) - lots_to_raw fill_qty);
      if remaining <=? 0 then Ret (remove_order q order_id)
      else Ret (with_orders q (<[i:=Some (with_qty o (lots_from_raw remaining) lots_ZERO)]> (qe_orders q))
                  (qe_order_count q))
  end.

Definition order_cancelled q (order_id : Z) : QueueEstimator := remove_order q order_id.

(** ** Take rates *)

(** The first entry of the instrument moves towards [qty_f]. *)
Fixpoint ewma (rates : list (option TakeRateEntry)) (inst : InstrumentId) (qty_f alpha : f64)
    : option (list (option TakeRateEntry)) :=
  match rates with
  | [] => None
  | slot :: rest =>
      let later := match ewma rest inst qty_f alpha with Some rest' => Some (slot :: rest') | None => None end in
      match slot with
      | Some e =>
          if bool_decide (tr_instrument_id e = inst) then
            let rate := f64_add (f64_mul (tr_rate e) (f64_sub (f64_of_Z 1) alpha)) (f64_mul qty_f alpha) in
            Some (Some {| tr_instrument_id := inst; tr_rate := rate |} :: rest)
          else later
      | None => later
      end
  end.

Definition update_take_rate (rates : list (option TakeRateEntry)) (inst : InstrumentId)
    (qty_f alpha : f64) : outcome (list (option TakeRateEntry)) :=
  match ewma rates inst qty_f alpha with
  | Some rates' => Ret rates'
  | None =>
      let e := {| tr_instrument_id := inst; tr_rate := qty_f |} in
      match fill_slot rates e with
      | Some rates' => Ret rates'
      | None => set_index rates 0 (Some e)
      end
  end.

Fixpoint rate_of (rates : list (option TakeRateEntry)) (inst : InstrumentId) : f64 :=
  match rates with
  | [] => f64_of_Z 1
  | Some e :: rest => if bool_decide (tr_instrument_id e = inst) then tr_rate e else rate_of rest inst
  | None :: rest => rate_of rest inst
  end.

Definition instrument_take_rate q (inst : InstrumentId) (side : Side) : f64 :=
  rate_of (match side with Bid => take_rates_bid q | Ask => take_rates_ask q end) inst.

Definition take_rate q (inst : InstrumentId) (side : Side) : f64 := instrument_take_rate q inst side.

(** ** Market events *)

(** Does the order rest at the level? *)
Definition at_level (inst : InstrumentId) (side : Side) (price : Ticks) (o : QueuedOrder) : bool :=
  bool_decide (qo_instrument_id o = inst) && bool_decide (qo_side o = side) && bool_decide (qo_price o = price).

(** The body of the loop of [on_trade]. *)
Definition trade_order (inst : InstrumentId) (side : Side) (price : Ticks) (qty : Lots) (o : QueuedOrder)
    : outcome QueuedOrder :=
  if at_level inst side price o then
    let ahead := lots_to_raw (qo_ahead_qty o) in
    let reduction := Z.min (lots_to_raw qty) ahead in
    left ← arith I64 (ahead - reduction);
    Ret (with_ahead o (lots_from_raw (Z.max left 0)))
  else Ret o.

Definition with_rates q (bid ask : list (option TakeRateEntry)) : QueueEstimator := {|
  qe_orders := qe_orders q; qe_order_count := qe_order_count q; take_rates_bid := bid;
  take_rates_ask := ask; prob_power_n := prob_power_n q |}.

Definition on_trade q (inst : InstrumentId) (side : Side) (price : Ticks) (qty : Lots)
    : outcome QueueEstimator :=
  let alpha := f64_lit 1 1 in
  let qty_f := f64_of_Z (lots_to_raw qty) in
  q1 ← match side with
       | Bid => rates ← update_take_rate (take_rates_bid q) inst qty_f alpha;
                Ret (with_rates q rates (take_rates_ask q))
       | Ask => rates ← update_take_rate (take_rates_ask q) inst qty_f alpha;
                Ret (with_rates q (take_rates_bid q) rates)
       end;
  orders ← each_order (trade_order inst side price qty) (qe_orders q1);
  Ret (with_orders q1 orders (qe_order_count q1)).

(** Lots cancelled in front of an order when its level shrinks from [old] by
    [decrease]; [None] when the loop skips the order. *)
Definition cancelled_in_front (n : f64) (old decrease : Z) (o : QueuedOrder) : option Z :=
  let front := f64_of_Z (lots_to_raw (qo_ahead_qty o)) in
  let total := f64_of_Z old in
  if f64_le total (f64_of_Z 0) then None
  else
    let back := f64_sub total front in
    let prob_from_back :=
      if f64_lt (f64_of_Z 0) (f64_add back front) then
        f64_div (libm_pow back n) (f64_add (libm_pow back n) (libm_pow front n))
      else f64_lit 5 1 in
    let decrease_f := f64_of_Z decrease in
    let cancel_from_front := f64_mul decrease_f (f64_sub (f64_of_Z 1) prob_from_back) in
    Some (f64_to I64 cancel_from_front).

(** The body of the loop of [on_level_change]. *)
Definition level_order (n : f64) (inst : InstrumentId) (side : Side) (price : Ticks) (old decrease : Z)
    (o : QueuedOrder) : outcome QueuedOrder :=
  if at_level inst side price o then
    match cancelled_in_front n old decrease o with
    | None => Ret o
    | Some cancel_lots =>
        left ← arith I64 (lots_to_raw (qo_ahead_qty o) - cancel_lots);
        Ret (with_ahead o (lots_from_raw (Z.max left 0)))
    end
  else Ret o.

Definition on_level_change q (inst : InstrumentId) (side : Side) (price : Ticks) (old_qty new_qty : Lots)
    : outcome QueueEstimator :=
  if lots_to_raw old_qty <=? lots_to_raw new_qty then Ret q
  else
    decrease ← arith I64 (lots_to_raw old_qty - lots_to_raw new_qty);
    orders ← each_order (level_order (prob_power_n q) inst side price (lots_to_raw old_qty) decrease)
               (qe_orders q);
    Ret (with_orders q orders (qe_order_count q)).

(** ** Queries *)

Definition queue_ahead q (order_id : Z) : option Lots := qo_ahead_qty <$> queue_find q order_id.

(** [0.327_591_1] and the coefficients of Abramowitz and Stegun 7.1.26. *)
Definition erfc (x : f64) : f64 :=
  let abs_x := if f64_lt x (f64_of_Z 0) then f64_neg x else x in
  let t := f64_div (f64_of_Z 1) (f64_add (f64_of_Z 1) (f64_mul (f64_lit 3275911 7) abs_x)) in
  let poly :=
    f64_mul t (f64_add (f64_lit 254829592 9)
      (f64_mul t (f64_add (f64_lit (-284496736) 9)
        (f64_mul t (f64_add (f64_lit 1421413741 9)
          (f64_mul t (f64_add (f64_lit (-1453152027) 9)
            (f64_mul t (f64_lit 1061405429 9))))))))) in
  let res := f64_mul poly (libm_exp (f64_mul (f64_neg abs_x) abs_x)) in
  if f64_le (f64_of_Z 0) x then res else f64_sub (f64_of_Z 2) res.

(** The sum of the Poisson terms [i], [i + 1], ... ([left] of them). *)
Fixpoint poisson_cdf (lambda : f64) (i : Z) (left : nat) (cdf term : f64) : f64 :=
  match left with
  | O => cdf
  | S left' =>
      poisson_cdf lambda (i + 1) left' (f64_add cdf term)
        (f64_mul term (f64_div lambda (f64_of_Z (i + 1))))
  end.

Definition fill_probability q (order_id : Z) (time_remaining_secs : f64) : outcome f64 :=
  match queue_find q order_id with
  | None => Ret (f64_of_Z 0)
  | Some o =>
      let rate := instrument_take_rate q (qo_instrument_id o) (qo_side o) in
      let lambda := f64_mul rate time_remaining_secs in
      sum ← arith I64 (lots_to_raw (qo_ahead_qty o) + lots_to_raw (qo_qty o));
      let k := f64_of_Z sum in
      if f64_le lambda (f64_of_Z 0) then Ret (f64_of_Z 0)
      else if f64_lt (f64_of_Z 20) lambda then
        let z := f64_div (f64_sub k lambda) (libm_sqrt lambda) in
        Ret (f64_mul (f64_lit 5 1) (erfc (f64_div z (libm_sqrt (f64_of_Z 2)))))
      else
        let cdf := poisson_cdf lambda 0 (Z.to_nat (f64_to USIZE k)) (f64_of_Z 0) (libm_exp (f64_neg lambda)) in
        Ret (f64_sub (f64_of_Z 1) cdf)
  end.
End estimator.

(** * The tracked orders as a map

    A step between the estimator and its specification: the loops over slots
    become operations on the map of the orders they hold. *)

Abbreviation tracked := (gmap Z QueuedOrder).

Inductive queue_op :=
  | QRegister (id : Z) (inst : InstrumentId) (side : Side) (price : Ticks) (qty level : Lots)
  | QFilled (id : Z) (qty : Lots)
  | QCancelled (id : Z)
  | QTrade (inst : InstrumentId) (side : Side) (price : Ticks) (qty : Lots)
  | QLevel (inst : InstrumentId) (side : Side) (price : Ticks) (old new : Lots).

Definition is_ret {A} (x : outcome A) : bool := match x with Ret _ => true | Panic => false end.
Definition value_or {A} (x : outcome A) (a : A) : A := match x with Ret b => b | Panic => a end.

(** Apply a step to every tracked order; one panic is a panic of the whole. *)
Definition map_orders (g : QueuedOrder -> outcome QueuedOrder) (m : tracked) : outcome tracked :=
  if decide (map_Forall (fun _ o => is_ret (g o) = true) m)
  then Ret ((fun o => value_or (g o) o) <$> m) else Panic.

Section map_level.
Context `{BuildProfile} `{Libm} (n : f64).

(** An operation on the map, and whether a registration was accepted. *)
Definition map_queue_op (op : queue_op) (m : tracked) : outcome (tracked * bool) :=
  match op with
  | QRegister id inst side price qty level =>
      if decide (size m = MAX_QUEUED_ORDERS) then Ret (m, false)
      else
        posted ← arith I64 (lots_to_raw level + lots_to_raw qty);
        Ret (<[id := {| qo_order_id := id; qo_instrument_id := inst; qo_side := side; qo_price := price;
                        qo_qty := qty; qo_ahead_qty := level;
                        qo_posted_at_level_size := lots_from_raw posted |}]> m, true)
  | QFilled id qty =>
      match m !! id with
      | None => Ret (m, true)
      | Some o =>
          remaining ← arith I64 (lots_to_raw (qo_qty o) - lots_to_raw qty);
          Ret (if remaining <=? 0 then delete id m
               else <[id := with_qty o (lots_from_raw remaining) lots_ZERO]> m, true)
      end
  | QCancelled id => Ret (delete id m, true)
  | QTrade inst side price qty =>
      m' ← map_orders (trade_order inst side price qty) m; Ret (m', true)
  | QLevel inst side price old new =>
      if lots_to_raw old <=? lots_to_raw new then Ret (m, true)
      else
        decrease ← arith I64 (lots_to_raw old - lots_to_raw new);
        m' ← map_orders (level_order n inst side price (lots_to_raw old) decrease) m;
        Ret (m', true)
  end.

(** The estimator's operation. *)
Definition queue_step (op : queue_op) (q : QueueEstimator) : outcome (QueueEstimator * bool) :=
  match op with
  | QRegister id inst side price qty level =>
      '(q', res) ← register_order q id inst side price qty level;
      Ret (q', match res with Ok _ => true | Err _ => false end)
  | QFilled id qty => q' ← order_filled q id qty; Ret (q', true)
  | QCancelled id => Ret (order_cancelled q id, true)
  | QTrade inst side price qty => q' ← on_trade q inst side price qty; Ret (q', true)
  | QLevel inst side price old new => q' ← on_level_change q inst side price old new; Ret (q', true)
  end.

Fixpoint queue_run (ops : list queue_op) (q : QueueEstimator) : outcome (QueueEstimator * list bool) :=
  match ops with
  | [] => Ret (q, [])
  | op :: ops' => '(q1, b) ← queue_step op q; '(q2, bs) ← queue_run ops' q1; Ret (q2, b :: bs)
  end.

End map_level.

(** * The specification

    A resting order by its raw values; what is known of an instrument's trades
    is one rate per side. *)

Record resting := { r_inst : Z; r_side : Side; r_price : Z; r_qty : Z; r_ahead : Z; r_posted : Z }.

Record queue_spec := {
  sq_orders : gmap Z resting;
  sq_bid_rates : list (Z * f64);
  sq_ask_rates : list (Z * f64);
}.

Definition spec_init : queue_spec := {| sq_orders := ∅; sq_bid_rates := []; sq_ask_rates := [] |}.

Definition rates_of (side : Side) (q : queue_spec) : list (Z * f64) :=
  match side with Bid => sq_bid_rates q | Ask => sq_ask_rates q end.

Definition set_ahead (r : resting) (ahead : Z) : resting :=
  {| r_inst := r_inst r; r_side := r_side r; r_price := r_price r; r_qty := r_qty r; r_ahead := ahead;
     r_posted := r_posted r |}.

(** The orders resting at a level. *)
Definition rests_at (inst : Z) (side : Side) (price : Z) (r : resting) : Prop :=
  r_inst r = inst /\ r_side r = side /\ r_price r = price.
#[global] Instance rests_at_dec inst side price r : Decision (rests_at inst side price r).
Proof. unfold rests_at. apply _. Defined.

(** New estimates for the orders at a level and no others; one overflow is an
    overflow of the whole. *)
Definition update_level (P : resting -> Prop) `{!forall r, Decision (P r)} (ahead : resting -> outcome Z)
    (m : gmap Z resting) : outcome (gmap Z resting) :=
  if decide (map_Forall (fun _ r => P r -> ahead r <> Panic) m)
  then Ret ((fun r => if decide (P r) then match ahead r with Ret a => set_ahead r a | Panic => r end else r) <$> m)
  else Panic.

(** Sixteen instruments have a rate, in order of their first trade; the rate of
    another one takes the first place. *)
Definition spec_rate (rates : list (Z * f64)) (inst : Z) (qty : f64) : list (Z * f64) :=
  match list_find (fun e => e.1 = inst) rates with
  | Some (i, (_, rate)) =>
      <[i := (inst, f64_add (f64_mul rate (f64_sub (f64_of_Z 1) (f64_lit 1 1))) (f64_mul qty (f64_lit 1 1)))]> rates
  | None => if decide (length rates < 16)%nat then rates ++ [(inst, qty)] else <[0%nat := (inst, qty)]> rates
  end.

Definition spec_take_rate (rates : list (Z * f64)) (inst : Z) : f64 :=
  match list_find (fun e => e.1 = inst) rates with Some (_, (_, rate)) => rate | None => f64_of_Z 1 end.

Section spec.
Context `{BuildProfile} `{Libm} (n : f64).

(** A trade of [qty] lots at the level takes from the front of the queue. *)
Definition spec_traded (qty : Z) (r : resting) : outcome Z := Z.max 0 <$> arith I64 (Z.max 0 (r_ahead r - qty)).

(** The power model: of what is cancelled at a level of [old] lots, the share
    that was in front of [ahead] lots is [1 - back^n / (back^n + front^n)]. *)
Definition front_share (ahead old : Z) : f64 :=
  let front := f64_of_Z ahead in
  let back := f64_sub (f64_of_Z old) front in
  f64_sub (f64_of_Z 1)
    (if f64_lt (f64_of_Z 0) (f64_add back front)
     then f64_div (libm_pow back n) (f64_add (libm_pow back n) (libm_pow front n)) else f64_lit 5 1).

(** The level shrinks from [old] by [decrease] lots. *)
Definition spec_shrunk (old decrease : Z) (r : resting) : outcome Z :=
  if f64_le (f64_of_Z old) (f64_of_Z 0) then Ret (r_ahead r)
  else Z.max 0 <$> arith I64 (r_ahead r - f64_to I64 (f64_mul (f64_of_Z decrease) (front_share (r_ahead r) old))).

Definition spec_queue_op (op : queue_op) (q : queue_spec) : outcome (queue_spec * bool) :=
  let with_sq m := {| sq_orders := m; sq_bid_rates := sq_bid_rates q; sq_ask_rates := sq_ask_rates q |} in
  match op with
  | QRegister id inst side price qty level =>
      if decide (size (sq_orders q) = 64%nat) then Ret (q, false)
      else
        posted ← arith I64 (lots_to_raw level + lots_to_raw qty);
        Ret (with_sq (<[id := {| r_inst := inst_to_raw inst; r_side := side; r_price := ticks_to_raw price;
                                 r_qty := lots_to_raw qty; r_ahead := lots_to_raw level; r_posted := posted |}]>
                        (sq_orders q)), true)
  | QFilled id qty =>
      match sq_orders q !! id with
      | None => Ret (q, true)
      | Some r =>
          remaining ← arith I64 (r_qty r - lots_to_raw qty);
          Ret (with_sq (if decide (remaining <= 0) then delete id (sq_orders q)
                        else <[id := {| r_inst := r_inst r; r_side := r_side r; r_price := r_price r;
                                        r_qty := remaining; r_ahead := 0; r_posted := r_posted r |}]> (sq_orders q)), true)
      end
  | QCancelled id => Ret (with_sq (delete id (sq_orders q)), true)
  | QTrade inst side price qty =>
      m ← update_level (rests_at (inst_to_raw inst) side (ticks_to_raw price)) (spec_traded (lots_to_raw qty)) (sq_orders q);
      let rates := spec_rate (rates_of side q) (inst_to_raw inst) (f64_of_Z (lots_to_raw qty)) in
      Ret ({| sq_orders := m; sq_bid_rates := match side with Bid => rates | Ask => sq_bid_rates q end;
              sq_ask_rates := match side with Bid => sq_ask_rates q | Ask => rates end |}, true)
  | QLevel inst side price old new =>
      if decide (lots_to_raw old <= lots_to_raw new) then Ret (q, true)
      else
        decrease ← arith I64 (lots_to_raw old - lots_to_raw new);
        m ← update_level (rests_at (inst_to_raw inst) side (ticks_to_raw price))
              (spec_shrunk (lots_to_raw old) decrease) (sq_orders q);
        Ret (with_sq m, true)
  end.

Fixpoint spec_queue_run (ops : list queue_op) (q : queue_spec) : outcome (queue_spec * list bool) :=
  match ops with
  | [] => Ret (q, [])
  | op :: ops' => '(q1, b) ← spec_queue_op op q; '(q2, bs) ← spec_queue_run ops' q1; Ret (q2, b :: bs)
  end.

(** Registered identifiers are not in use. *)
Fixpoint fresh_ids (ops : list queue_op) (q : queue_spec) : Prop :=
  match ops with
  | [] => True
  | op :: ops' =>
      match op with QRegister id _ _ _ _ _ => sq_orders q !! id = None | _ => True end /\
      match spec_queue_op op q with Ret (q', _) => fresh_ids ops' q' | Panic => True end
  end.
End spec.

(** * Slots and maps *)

Definition entries (slots : list (option QueuedOrder)) : list QueuedOrder := omap id slots.
Definition keyed (l : list QueuedOrder) : list (Z * QueuedOrder) := (fun o => (qo_order_id o, o)) <$> l.
Definition map_of (slots : list (option QueuedOrder)) : tracked := list_to_map (keyed (entries slots)).
Definition unique_ids (l : list QueuedOrder) : Prop := NoDup (qo_order_id <$> l).

Lemma keyed_fst l : (keyed l).*1 = qo_order_id <$> l.
Proof. unfold keyed. by rewrite <- list_fmap_compose. Qed.

Lemma map_of_cons_perm l l' o :
  unique_ids l -> l ≡ₚ o :: l' ->
  unique_ids l' /\ list_to_map (keyed l) =@{tracked} <[qo_order_id o := o]> (list_to_map (keyed l')) /\
  (list_to_map (keyed l') : tracked) !! qo_order_id o = None.
Proof.
  intros Hu Hp. assert (unique_ids (o :: l')) as Hu'. { unfold unique_ids in *. by rewrite <- Hp. }
  apply NoDup_cons in Hu' as [Hnin Hu']. split; [done|]. split.
  - change (<[_:=o]> (list_to_map (keyed l'))) with (list_to_map (keyed (o :: l')) : tracked).
    apply list_to_map_proper; [by rewrite keyed_fst|]. unfold keyed. by rewrite Hp.
  - apply not_elem_of_list_to_map_1. by rewrite keyed_fst.
Qed.

Lemma size_map_of l : unique_ids l -> size (list_to_map (keyed l) : tracked) = length l.
Proof. intros Hu. rewrite map_size_list_to_map; [by unfold keyed; rewrite length_fmap|by rewrite keyed_fst]. Qed.

Lemma fill_slot_Some slots o slots' :
  fill_slot slots o = Some slots' -> length slots' = length slots /\ entries slots' ≡ₚ o :: entries slots.
Proof.
  revert slots'. induction slots as [|[y|] slots IH]; intros slots' E; cbn in E; [done| |].
  - destruct (fill_slot slots o) as [rest|] eqn:Er; [|done]. injection E as <-.
    destruct (IH _ eq_refl) as [Hl Hp]. split; [cbn; by f_equal|].
    change (entries (Some y :: rest)) with (y :: entries rest).
    change (entries (Some y :: slots)) with (y :: entries slots). rewrite Hp. apply Permutation_swap.
  - injection E as <-. by split.
Qed.

Lemma fill_slot_None slots o : fill_slot slots o = None -> length (entries slots) = length slots.
Proof.
  induction slots as [|[y|] slots IH]; intros E; cbn in E; [done| |done].
  destruct (fill_slot slots o); [done|]. change (entries (Some y :: slots)) with (y :: entries slots).
  cbn. f_equal. by apply IH.
Qed.

Lemma entries_full slots :
  forallb (fun slot => bool_decide (is_Some slot)) slots = true <-> length (entries slots) = length slots.
Proof.
  induction slots as [|[y|] slots IH]; [done| |].
  - change (entries (Some y :: slots)) with (y :: entries slots). cbn. rewrite IH. lia.
  - change (entries (None :: slots)) with (entries slots). cbn. split; [done|].
    assert (length (entries slots) <= length slots)%nat; [|lia].
    clear. induction slots as [|[y|] slots IH]; [done|..]; cbn in *; unfold entries in *; lia.
Qed.

Lemma find_order_Some slots id i o :
  find_order slots id = Some (i, o) ->
  qo_order_id o = id /\ slots !! i = Some (Some o).
Proof.
  revert i. induction slots as [|slot slots IH]; intros i E; cbn in E; [done|].
  destruct (find_order slots id) as [[j o']|] eqn:Ef;
    (destruct slot as [y|]; [destruct (Z.eqb_spec (qo_order_id y) id)|]); try discriminate;
    injection E as <- <-; first [by split|by apply IH].
Qed.

Lemma find_order_None slots id : find_order slots id = None -> id ∉ qo_order_id <$> entries slots.
Proof.
  induction slots as [|slot slots IH]; intros E; [apply not_elem_of_nil|]. cbn in E.
  destruct slot as [y|]; [destruct (Z.eqb_spec (qo_order_id y) id); [done|]|];
    (destruct (find_order slots id) as [[? ?]|] eqn:Ef; [done|]).
  - change (entries (Some y :: slots)) with (y :: entries slots). rewrite fmap_cons, not_elem_of_cons.
    split; [congruence|by apply IH].
  - by apply IH.
Qed.

(** Taking one occupied slot out, and putting something else there. *)
Lemma entries_insert slots i o new :
  slots !! i = Some (Some o) ->
  exists rest, entries slots ≡ₚ o :: rest /\
    entries (<[i:=new]> slots) ≡ₚ match new with Some o' => o' :: rest | None => rest end.
Proof.
  intros Hi.
  assert (entries slots = entries (take i slots ++ Some o :: drop (S i) slots)) as ->
    by by rewrite take_drop_middle.
  exists (entries (take i slots) ++ entries (drop (S i) slots)).
  rewrite insert_take_drop by (by eapply lookup_lt_Some).
  unfold entries. rewrite !omap_app. cbn. split; [by rewrite Permutation_middle|].
  destruct new; cbn; [by rewrite Permutation_middle|done].
Qed.

(** * Simulation *)

Lemma each_order_spec g slots :
  each_order g slots =
  if forallb (fun o => is_ret (g o)) (entries slots)
  then Ret (option_map (fun o => value_or (g o) o) <$> slots) else Panic.
Proof.
  induction slots as [|[o|] slots IH]; [done|..]; cbn [each_order].
  - change (entries (Some o :: slots)) with (o :: entries slots). cbn [forallb].
    destruct (g o) as [o'|] eqn:Eg; cbn [mbind outcome_bind is_ret andb]; [|done].
    rewrite IH. destruct (forallb _ _); cbn [mbind outcome_bind]; [|done]. cbn. by rewrite Eg.
  - change (entries (None :: slots)) with (entries slots). rewrite IH. by destruct (forallb _ _).
Qed.

(** Steps on all orders agree on slots and on the map when they keep the
    identifiers. *)
Lemma each_order_map g slots :
  (forall o o', g o = Ret o' -> qo_order_id o' = qo_order_id o) -> unique_ids (entries slots) ->
  match map_orders g (map_of slots) with
  | Ret m => exists slots', each_order g slots = Ret slots' /\ length slots' = length slots /\
      unique_ids (entries slots') /\ map_of slots' = m
  | Panic => each_order g slots = Panic
  end.
Proof.
  intros Hg Hu. rewrite each_order_spec. unfold map_orders.
  assert (forall o, qo_order_id (value_or (g o) o) = qo_order_id o) as Hid.
  { intros o. destruct (g o) as [o'|] eqn:E; [|done]. by apply Hg. }
  assert (map_Forall (fun _ o => is_ret (g o) = true) (map_of slots) <->
          forallb (fun o => is_ret (g o)) (entries slots) = true) as Hall.
  { rewrite forallb_forall. split.
    - intros Hm o Ho. apply (Hm (qo_order_id o)). apply elem_of_list_to_map_1; [by rewrite keyed_fst|].
      apply list_elem_of_fmap. exists o. split; [done|]. by apply list_elem_of_In.
    - intros Hl id o Ho. apply elem_of_list_to_map_2, list_elem_of_fmap in Ho as (o' & [= -> ->] & Ho).
      by apply Hl, list_elem_of_In. }
  case_decide as Hm.
  - rewrite (proj1 Hall Hm). eexists. split; [done|]. split; [by rewrite length_fmap|].
    assert (entries (option_map (fun o => value_or (g o) o) <$> slots)
            = (fun o => value_or (g o) o) <$> entries slots) as Ee.
    { clear. unfold entries. induction slots as [|[o|] slots IH]; cbn; [done| |done]. f_equal. apply IH. }
    unfold map_of. rewrite Ee. split.
    + unfold unique_ids in *. rewrite <- list_fmap_compose.
      rewrite (list_fmap_ext _ qo_order_id (entries slots)); [done|]. intros ? o _. apply Hid.
    + rewrite <- list_to_map_fmap. f_equal. unfold keyed. rewrite <- !list_fmap_compose.
      apply list_fmap_ext. intros ? o _. cbn. by rewrite Hid.
  - destruct (forallb _ _) eqn:E; [|done]. by destruct Hm; apply Hall.
Qed.

Lemma fill_slot_length {A} (slots : list (option A)) x slots' :
  fill_slot slots x = Some slots' -> length slots' = length slots.
Proof.
  revert slots'. induction slots as [|[y|] slots IH]; intros slots' E; cbn in E; [done| |by injection E as <-].
  destruct (fill_slot slots x) as [r|]; [|done]. injection E as <-. cbn. by rewrite (IH r).
Qed.

Lemma ewma_length rates inst qty alpha rates' :
  ewma rates inst qty alpha = Some rates' -> length rates' = length rates.
Proof.
  revert rates'. induction rates as [|slot rates IH]; intros rates' E; cbn in E; [done|].
  destruct (ewma rates inst qty alpha) as [r|] eqn:Er;
    (destruct slot as [e|]; [case_bool_decide|]); try discriminate;
    injection E as <-; cbn; rewrite ?(IH r); done.
Qed.

(** Updating a table of rates never panics. *)
Lemma update_take_rate_total rates inst qty alpha :
  length rates = MAX_RATE_INSTRUMENTS ->
  exists rates', update_take_rate rates inst qty alpha = Ret rates' /\ length rates' = MAX_RATE_INSTRUMENTS.
Proof.
  intros Hl. unfold update_take_rate. destruct (ewma _ _ _ _) as [r|] eqn:E.
  { exists r. split; [done|]. by rewrite (ewma_length _ _ _ _ _ E). }
  cbv zeta. destruct (fill_slot _ _) as [r|] eqn:Ef.
  { exists r. split; [done|]. by rewrite (fill_slot_length _ _ _ Ef). }
  rewrite set_index_ok by (rewrite Hl; unfold MAX_RATE_INSTRUMENTS; lia).
  eexists. split; [done|]. by rewrite length_insert.
Qed.

Definition queue_ok (n : f64) (q : QueueEstimator) (m : tracked) : Prop :=
  length (qe_orders q) = MAX_QUEUED_ORDERS /\ unique_ids (entries (qe_orders q)) /\
  map_of (qe_orders q) = m /\ qe_order_count q = Z.of_nat (size m) /\
  length (take_rates_bid q) = MAX_RATE_INSTRUMENTS /\
  length (take_rates_ask q) = MAX_RATE_INSTRUMENTS /\ prob_power_n q = n.

Lemma entries_length slots : (length (entries slots) <= length slots)%nat.
Proof. induction slots as [|[y|] slots IH]; [done|..]; cbn in *; unfold entries in *; lia. Qed.

(** Looking an order up is looking it up in the map. *)
Lemma find_order_map slots id :
  unique_ids (entries slots) ->
  match find_order slots id with
  | Some (i, o) => map_of slots !! id = Some o /\ slots !! i = Some (Some o)
  | None => map_of slots !! id = None
  end.
Proof.
  intros Hu. destruct (find_order slots id) as [[i o]|] eqn:E.
  - apply find_order_Some in E as [<- Hi]. split; [|done].
    destruct (entries_insert _ _ _ None Hi) as (rest & Hp & _).
    destruct (map_of_cons_perm _ _ _ Hu Hp) as (_ & Em & _). unfold map_of. rewrite Em.
    apply lookup_insert_eq.
  - apply find_order_None in E. apply not_elem_of_list_to_map_1. by rewrite keyed_fst.
Qed.

(** Replacing an order in its slot. *)
Lemma queue_replace_slot slots i o o' :
  unique_ids (entries slots) -> slots !! i = Some (Some o) -> qo_order_id o' = qo_order_id o ->
  unique_ids (entries (<[i:=Some o']> slots)) /\
  map_of (<[i:=Some o']> slots) = <[qo_order_id o := o']> (map_of slots).
Proof.
  intros Hu Hi Hid. destruct (entries_insert _ _ _ (Some o') Hi) as (rest & Hp & Hp').
  destruct (map_of_cons_perm _ _ _ Hu Hp) as (Hu' & Em & Hnone).
  assert (unique_ids (entries (<[i:=Some o']> slots))) as Hu2.
  { unfold unique_ids. rewrite Hp', fmap_cons, Hid, <- fmap_cons. rewrite <- Hp. done. }
  split; [done|]. destruct (map_of_cons_perm _ _ _ Hu2 Hp') as (_ & Em' & _).
  unfold map_of. rewrite Em, Em', Hid. by rewrite insert_insert_eq.
Qed.

(** Emptying a slot. *)
Lemma clear_slot slots i o :
  unique_ids (entries slots) -> slots !! i = Some (Some o) ->
  unique_ids (entries (<[i:=None]> slots)) /\
  map_of (<[i:=None]> slots) = delete (qo_order_id o) (map_of slots).
Proof.
  intros Hu Hi. destruct (entries_insert _ _ _ None Hi) as (rest & Hp & Hp').
  destruct (map_of_cons_perm _ _ _ Hu Hp) as (Hu' & Em & Hnone).
  split; [unfold unique_ids; by rewrite Hp'|]. unfold map_of. rewrite Em, delete_insert_id by done.
  apply list_to_map_proper; [rewrite keyed_fst; by rewrite Hp'|]. unfold keyed. by rewrite Hp'.
Qed.

Section simulation.
Context `{BuildProfile} `{Libm} (n : f64).
Implicit Types (q : QueueEstimator) (m : tracked).

(** One operation of the estimator does what the map's does. *)
Definition simulates (x : outcome (QueueEstimator * bool)) (y : outcome (tracked * bool)) : Prop :=
  match y with
  | Ret (m', b) => exists q', x = Ret (q', b) /\ queue_ok n q' m'
  | Panic => x = Panic
  end.

Lemma register_sim q m id inst side price qty level :
  queue_ok n q m -> m !! id = None ->
  simulates (queue_step (QRegister id inst side price qty level) q)
            (map_queue_op n (QRegister id inst side price qty level) m).
Proof.
  intros (Hl & Hu & Hm & Hc & Hb & Ha & Hn) Hfresh. unfold simulates. cbn [queue_step map_queue_op].
  unfold register_order.
  assert (size m = length (entries (qe_orders q))) as Hs by (rewrite <- Hm; by apply size_map_of).
  destruct (forallb _ _) eqn:Efull.
  { apply entries_full in Efull. rewrite decide_True by congruence. by exists q. }
  rewrite decide_False.
  2: { intros E. by rewrite (proj2 (entries_full _) (eq_trans (eq_sym Hs) (eq_trans E (eq_sym Hl)))) in Efull. }
  destruct (arith I64 _) as [posted|]; cbn [mbind outcome_bind]; [|done]. cbv zeta.
  set (o := {| qo_order_id := id |}).
  destruct (fill_slot (qe_orders q) o) as [slots|] eqn:Ef.
  2: { apply fill_slot_None, entries_full in Ef. congruence. }
  apply fill_slot_Some in Ef as [Hl' Hp].
  assert (unique_ids (entries slots)) as Hu'.
  { unfold unique_ids. rewrite Hp. cbn. apply NoDup_cons. split; [|done].
    rewrite <- keyed_fst. apply not_elem_of_list_to_map_2. fold (map_of (qe_orders q)). by rewrite Hm. }
  destruct (map_of_cons_perm _ _ _ Hu' Hp) as (_ & Em & _).
  pose proof (entries_length (qe_orders q)) as Hmax. rewrite Hl in Hmax. unfold MAX_QUEUED_ORDERS in Hmax.
  rewrite arith_ok by mlia. cbn [mbind outcome_bind]. eexists. split; [done|].
  split_and!; cbn [with_orders qe_orders qe_order_count take_rates_bid take_rates_ask prob_power_n];
    [congruence|done| |rewrite map_size_insert_None by done; lia|done..].
  unfold map_of. rewrite Em. fold (map_of (qe_orders q)). by rewrite Hm.
Qed.

Lemma remove_ok q m id : queue_ok n q m -> queue_ok n (remove_order q id) (delete id m).
Proof.
  intros Hok. pose proof Hok as (Hl & Hu & Hm & Hc & Hr). unfold remove_order.
  pose proof (find_order_map _ id Hu) as Hf.
  destruct (find_order (qe_orders q) id) as [[i o]|] eqn:E.
  - destruct Hf as [Ho Hi]. apply find_order_Some in E as [Eid _].
    destruct (clear_slot _ _ _ Hu Hi) as [Hu' Hm']. rewrite Hm in *. rewrite Eid in *.
    assert (size m <> 0%nat) as Hs by (intros E%map_size_empty_iff; by rewrite E in Ho).
    assert (size m = length (entries (qe_orders q))) as Hs' by (rewrite <- Hm; by apply size_map_of).
    pose proof (entries_length (qe_orders q)) as Hmax. rewrite Hl in Hmax. unfold MAX_QUEUED_ORDERS in Hmax.
    split_and!; cbn [with_orders qe_orders qe_order_count take_rates_bid take_rates_ask prob_power_n];
      [by rewrite length_insert|done|done| |apply Hr..].
    rewrite map_size_delete_Some, Hc by (by eexists). rewrite saturate_id by mlia. lia.
  - rewrite delete_id; [done|]. by rewrite <- Hm.
Qed.

Lemma filled_sim q m id qty :
  queue_ok n q m -> simulates (queue_step (QFilled id qty) q) (map_queue_op n (QFilled id qty) m).
Proof.
  intros Hok. pose proof Hok as (Hl & Hu & Hm & Hc & Hr). unfold simulates.
  cbn [queue_step map_queue_op]. unfold order_filled. pose proof (find_order_map _ id Hu) as Hf.
  destruct (find_order (qe_orders q) id) as [[i o]|] eqn:E.
  - destruct Hf as [Ho Hi]. apply find_order_Some in E as [Eid _]. rewrite Hm in Ho. rewrite Ho.
    destruct (arith I64 _) as [r|]; cbn [mbind outcome_bind]; [|done].
    destruct (r <=? 0); cbn [mbind outcome_bind]; (eexists; split; [done|]); [by apply remove_ok|].
    destruct (queue_replace_slot _ _ _ (with_qty o (lots_from_raw r) lots_ZERO) Hu Hi) as [Hu' Hm']; [done|].
    rewrite Hm, Eid in Hm'.
    split_and!; cbn [with_orders qe_orders qe_order_count take_rates_bid take_rates_ask prob_power_n];
      [by rewrite length_insert|done|done| |apply Hr..].
    by rewrite map_size_insert_Some by (by eexists).
  - rewrite Hm in Hf. rewrite Hf. cbn [mbind outcome_bind]. by exists q.
Qed.

(** A step on all orders. *)
Lemma each_order_sim q m g :
  queue_ok n q m -> (forall o o', g o = Ret o' -> qo_order_id o' = qo_order_id o) ->
  match map_orders g m with
  | Ret m' => exists slots, each_order g (qe_orders q) = Ret slots /\
      queue_ok n (with_orders q slots (qe_order_count q)) m'
  | Panic => each_order g (qe_orders q) = Panic
  end.
Proof.
  intros (Hl & Hu & Hm & Hc & Hr) Hg. pose proof (each_order_map g _ Hg Hu) as Hmap. rewrite Hm in Hmap.
  destruct (map_orders g m) as [m'|] eqn:E; [|done]. destruct Hmap as (slots & Es & Hl' & Hu' & Hm').
  exists slots. split; [done|]. unfold map_orders in E. case_decide; [|done]. injection E as <-.
  split_and!; cbn [with_orders qe_orders qe_order_count take_rates_bid take_rates_ask prob_power_n];
    [congruence|done|done| |apply Hr..]. by rewrite map_size_fmap.
Qed.

Lemma trade_order_id inst side price qty o o' :
  trade_order inst side price qty o = Ret o' -> qo_order_id o' = qo_order_id o.
Proof.
  unfold trade_order. destruct (at_level _ _ _ _); [|by intros [= <-]]. intros Ho.
  inv_bind Ho. by injection Ho as <-.
Qed.

Lemma level_order_id inst side price old dec o o' :
  level_order n inst side price old dec o = Ret o' -> qo_order_id o' = qo_order_id o.
Proof.
  unfold level_order. destruct (at_level _ _ _ _); [|by intros [= <-]].
  destruct (cancelled_in_front _ _ _ _); [|by intros [= <-]]. intros Ho. inv_bind Ho. by injection Ho as <-.
Qed.

Lemma trade_sim q m inst side price qty :
  queue_ok n q m ->
  simulates (queue_step (QTrade inst side price qty) q) (map_queue_op n (QTrade inst side price qty) m).
Proof.
  intros Hok. unfold simulates. cbn [queue_step map_queue_op]. unfold on_trade. cbv zeta.
  assert (exists q1, queue_ok n q1 m /\ qe_orders q1 = qe_orders q /\
    match side with
    | Bid => rates ← update_take_rate (take_rates_bid q) inst (f64_of_Z (lots_to_raw qty)) (f64_lit 1 1);
             Ret (with_rates q rates (take_rates_ask q))
    | Ask => rates ← update_take_rate (take_rates_ask q) inst (f64_of_Z (lots_to_raw qty)) (f64_lit 1 1);
             Ret (with_rates q (take_rates_bid q) rates)
    end = Ret q1) as (q1 & Hok1 & Eo & ->).
  { destruct Hok as (Hl & Hu & Hm & Hc & Hb & Ha & Hn). destruct side.
    - destruct (update_take_rate_total _ inst (f64_of_Z (lots_to_raw qty)) (f64_lit 1 1) Hb) as (r & -> & Hr).
      exists (with_rates q r (take_rates_ask q)). by split_and!.
    - destruct (update_take_rate_total _ inst (f64_of_Z (lots_to_raw qty)) (f64_lit 1 1) Ha) as (r & -> & Hr).
      exists (with_rates q (take_rates_bid q) r). by split_and!. }
  cbn [mbind outcome_bind]. pose proof (each_order_sim q1 m (trade_order inst side price qty) Hok1
    (trade_order_id _ _ _ _)) as Hs.
  destruct (map_orders _ m) as [m'|]; cbn [mbind outcome_bind].
  - destruct Hs as (slots & -> & Hok'). cbn [mbind outcome_bind]. by eexists.
  - by rewrite Hs.
Qed.

Lemma level_sim q m inst side price old new :
  queue_ok n q m ->
  simulates (queue_step (QLevel inst side price old new) q) (map_queue_op n (QLevel inst side price old new) m).
Proof.
  intros Hok. unfold simulates. cbn [queue_step map_queue_op]. unfold on_level_change.
  destruct (_ <=? _); [cbn [mbind outcome_bind]; by exists q|].
  destruct (arith I64 _) as [dec|]; cbn [mbind outcome_bind]; [|done].
  assert (prob_power_n q = n) as -> by apply Hok.
  pose proof (each_order_sim q m (level_order n inst side price (lots_to_raw old) dec) Hok
    (level_order_id _ _ _ _ _)) as Hs.
  destruct (map_orders _ m) as [m'|]; cbn [mbind outcome_bind].
  - destruct Hs as (slots & -> & Hok'). cbn [mbind outcome_bind]. by eexists.
  - by rewrite Hs.
Qed.

Lemma queue_ok_new : queue_ok n (queue_new n) ∅.
Proof. split_and!; try done. apply NoDup_nil_2. Qed.

Lemma queue_ok_find q m id : queue_ok n q m -> queue_find q id = m !! id.
Proof.
  intros (_ & Hu & Hm & _). unfold queue_find. pose proof (find_order_map _ id Hu) as Hf. rewrite Hm in Hf.
  destruct (find_order _ _) as [[i o]|]; [by destruct Hf|done].
Qed.
End simulation.

(** * Quantities *)

(** Estimates start from the level size and never become negative. *)
Definition level_nonneg (op : queue_op) : bool :=
  match op with QRegister _ _ _ _ _ level => 0 <=? lots_to_raw level | _ => true end.

Definition ahead_nonneg (m : tracked) : Prop := map_Forall (fun _ o => 0 <= lots_to_raw (qo_ahead_qty o)) m.

Section quantities.
Context `{BuildProfile} `{Libm} (n : f64).

Lemma map_orders_nonneg g m m' :
  (forall o o', 0 <= lots_to_raw (qo_ahead_qty o) -> g o = Ret o' -> 0 <= lots_to_raw (qo_ahead_qty o')) ->
  ahead_nonneg m -> map_orders g m = Ret m' -> ahead_nonneg m'.
Proof.
  intros Hg Hm Hmap. unfold map_orders in Hmap. case_decide as Hall; [|done]. injection Hmap as <-.
  intros id o' Ho. rewrite lookup_fmap in Ho. destruct (m !! id) as [o|] eqn:E; [|done]. injection Ho as <-.
  specialize (Hall id o E). specialize (Hm id o E). cbn in Hall, Hm.
  destruct (g o) as [o'|] eqn:Eg; [|done]. by eapply Hg.
Qed.

Lemma map_queue_op_nonneg op m m' b :
  level_nonneg op = true -> ahead_nonneg m -> map_queue_op n op m = Ret (m', b) -> ahead_nonneg m'.
Proof.
  intros Hop Hm Hs. destruct op as [id inst side price qty level|id qty|id|inst side price qty|inst side price old new];
    cbn [map_queue_op] in Hs.
  - case_decide; [by injection Hs as <- <-|]. inv_bind Hs. injection Hs as <- <-.
    apply map_Forall_insert_2; [|done]. cbn in *. lia.
  - destruct (m !! id) as [o|]; [|by injection Hs as <- <-]. inv_bind Hs. injection Hs as <- <-.
    destruct (_ <=? 0); [by apply map_Forall_delete|]. apply map_Forall_insert_2; [done|done].
  - injection Hs as <- <-. by apply map_Forall_delete.
  - inv_bind Hs. injection Hs as <- <-. eapply map_orders_nonneg; [|done|done].
    intros o o' Ho. unfold trade_order. destruct (at_level _ _ _ _); [|by intros [= <-]].
    intros Hx. inv_bind Hx. injection Hx as <-. cbn. lia.
  - destruct (_ <=? _); [by injection Hs as <- <-|]. inv_bind Hs. inv_bind Hs. injection Hs as <- <-.
    eapply map_orders_nonneg; [|done|done]. intros o o' Ho. unfold level_order.
    destruct (at_level _ _ _ _); [|by intros [= <-]].
    destruct (cancelled_in_front _ _ _ _); [|by intros [= <-]].
    intros Hx. inv_bind Hx. injection Hx as <-. cbn. lia.
Qed.

(** Without overflow checks nothing panics. *)
Lemma arith_release t z : overflow_checks = false -> exists r, arith t z = Ret r.
Proof. unfold arith. intros ->. case_decide; eauto. Qed.

Lemma map_orders_release g m : (forall o, is_ret (g o) = true) -> exists m', map_orders g m = Ret m'.
Proof. intros Hg. unfold map_orders. rewrite decide_True; [eauto|]. intros ? o _. apply Hg. Qed.

Lemma map_queue_op_release op m : overflow_checks = false -> exists r, map_queue_op n op m = Ret r.
Proof.
  intros Hoc. destruct op as [id inst side price qty level|id qty|id|inst side price qty|inst side price old new];
    cbn [map_queue_op].
  - case_decide; [eauto|]. destruct (arith_release I64 (lots_to_raw level + lots_to_raw qty) Hoc) as [r ->]. eauto.
  - destruct (m !! id) as [o|]; [|eauto].
    destruct (arith_release I64 (lots_to_raw (qo_qty o) - lots_to_raw qty) Hoc) as [r ->]. eauto.
  - eauto.
  - destruct (map_orders_release (trade_order inst side price qty) m) as [m' ->]; [|eauto].
    intros o. unfold trade_order. destruct (at_level _ _ _ _); [|done]. cbv zeta.
    by destruct (arith_release I64 (lots_to_raw (qo_ahead_qty o) - Z.min (lots_to_raw qty) (lots_to_raw (qo_ahead_qty o))) Hoc) as [r ->].
  - destruct (_ <=? _); [eauto|]. destruct (arith_release I64 (lots_to_raw old - lots_to_raw new) Hoc) as [d ->].
    cbn [mbind outcome_bind].
    destruct (map_orders_release (level_order n inst side price (lots_to_raw old) d) m) as [m' ->]; [|eauto].
    intros o. unfold level_order. destruct (at_level _ _ _ _); [|done].
    destruct (cancelled_in_front _ _ _ _) as [c|]; [|done].
    by destruct (arith_release I64 (lots_to_raw (qo_ahead_qty o) - c) Hoc) as [r ->].
Qed.

End quantities.

(** * From the map to the specification *)

Definition view (o : QueuedOrder) : resting :=
  {| r_inst := inst_to_raw (qo_instrument_id o); r_side := qo_side o; r_price := ticks_to_raw (qo_price o);
     r_qty := lots_to_raw (qo_qty o); r_ahead := lots_to_raw (qo_ahead_qty o);
     r_posted := lots_to_raw (qo_posted_at_level_size o) |}.

Lemma at_level_spec inst side price o :
  at_level inst side price o = bool_decide (rests_at (inst_to_raw inst) side (ticks_to_raw price) (view o)).
Proof.
  unfold at_level, rests_at. destruct o as [? [i] sd [p] ? ? ?], inst as [i'], price as [p']. cbn.
  repeat case_bool_decide; cbn [andb]; naive_solver.
Qed.

(** A step that only changes estimates, at a level. *)
Lemma map_orders_view (P : resting -> Prop) `{!forall r, Decision (P r)} ahead g (m : tracked) :
  (forall o, g o = if decide (P (view o)) then a ← ahead (view o); Ret (with_ahead o (lots_from_raw a)) else Ret o) ->
  match update_level P ahead (view <$> m) with
  | Ret m' => exists m1, map_orders g m = Ret m1 /\ view <$> m1 = m'
  | Panic => map_orders g m = Panic
  end.
Proof.
  intros Hg. unfold update_level, map_orders.
  assert (map_Forall (fun _ r => P r -> ahead r <> Panic) (view <$> m)
          <-> map_Forall (fun _ o => is_ret (g o) = true) m) as Hiff.
  { assert (forall o, (P (view o) -> ahead (view o) <> Panic) <-> is_ret (g o) = true) as Ho.
    { intros o. rewrite Hg. destruct (decide (P (view o))); [|by cbn]. by destruct (ahead (view o)); cbn; naive_solver. }
    rewrite map_Forall_fmap. split; intros Hall id o Hio; [exact (proj1 (Ho o) (Hall id o Hio))|exact (proj2 (Ho o) (Hall id o Hio))]. }
  destruct (decide (map_Forall _ (view <$> m))) as [Ha|Ha].
  - rewrite decide_True by (by apply Hiff). eexists. split; [done|].
    rewrite <- !map_fmap_compose. apply map_fmap_ext. intros id o Ho. cbn. apply Hiff in Ha. specialize (Ha id o Ho).
    cbn in Ha. rewrite Hg in *. destruct (decide (P (view o))); [|done]. by destruct (ahead (view o)).
  - by rewrite decide_False by (by rewrite <- Hiff).
Qed.

Section view_level.
Context `{BuildProfile} `{Libm} (n : f64).

Lemma trade_order_spec inst side price qty o :
  trade_order inst side price qty o
  = if decide (rests_at (inst_to_raw inst) side (ticks_to_raw price) (view o))
    then a ← spec_traded (lots_to_raw qty) (view o); Ret (with_ahead o (lots_from_raw a)) else Ret o.
Proof.
  unfold trade_order. rewrite at_level_spec. case_decide; [rewrite bool_decide_true by done|by rewrite bool_decide_false].
  unfold spec_traded. cbn [view r_ahead].
  replace (lots_to_raw (qo_ahead_qty o) - Z.min (lots_to_raw qty) (lots_to_raw (qo_ahead_qty o)))
    with (Z.max 0 (lots_to_raw (qo_ahead_qty o) - lots_to_raw qty)) by lia.
  destruct (arith I64 _) as [a|]; [|done]. cbn. by rewrite Z.max_comm.
Qed.

Lemma level_order_spec inst side price old decrease o :
  level_order n inst side price old decrease o
  = if decide (rests_at (inst_to_raw inst) side (ticks_to_raw price) (view o))
    then a ← spec_shrunk n old decrease (view o); Ret (with_ahead o (lots_from_raw a)) else Ret o.
Proof.
  unfold level_order. rewrite at_level_spec. case_decide; [rewrite bool_decide_true by done|by rewrite bool_decide_false].
  unfold cancelled_in_front, spec_shrunk, front_share. cbn [view r_ahead]. cbv zeta. destruct (f64_le _ _).
  - cbn. by destruct o as [? ? ? ? ? [] ?].
  - destruct (arith I64 _) as [a|]; [|done]. cbn. by rewrite Z.max_comm.
Qed.

(** An operation on the map does what the specification does. *)
Lemma map_queue_op_view op (m : tracked) A :
  view <$> m = sq_orders A ->
  match spec_queue_op n op A with
  | Ret (A', b) => exists m', map_queue_op n op m = Ret (m', b) /\ view <$> m' = sq_orders A'
  | Panic => map_queue_op n op m = Panic
  end.
Proof.
  intros Hm. destruct op as [id inst side price qty level|id qty|id|inst side price qty|inst side price old new];
    cbn [spec_queue_op map_queue_op].
  - rewrite <- Hm, map_size_fmap. change MAX_QUEUED_ORDERS with 64%nat. destruct (decide (size m = 64%nat)); [by exists m|].
    destruct (arith I64 _) as [posted|]; cbn [mbind outcome_bind]; [|done]. eexists. split; [done|].
    cbn [sq_orders]. by rewrite fmap_insert.
  - rewrite <- Hm, lookup_fmap. destruct (m !! id) as [o|] eqn:Eo; cbn [fmap option_fmap option_map]; [|by exists m].
    change (r_qty (view o)) with (lots_to_raw (qo_qty o)).
    destruct (arith I64 _) as [r|]; cbn [mbind outcome_bind]; [|done]. eexists. split; [done|]. cbn [sq_orders].
    destruct (Z.leb_spec r 0); [rewrite decide_True by done; by rewrite fmap_delete|].
    rewrite decide_False by lia. by rewrite fmap_insert.
  - eexists. split; [done|]. cbn [sq_orders]. by rewrite fmap_delete, Hm.
  - pose proof (map_orders_view _ _ _ m (trade_order_spec inst side price qty)) as Hv. rewrite Hm in Hv.
    destruct (update_level _ _ _) as [m'|]; cbn [mbind outcome_bind]; [|by rewrite Hv].
    destruct Hv as (m1 & -> & Ev). cbn [mbind outcome_bind]. by exists m1.
  - destruct (Z.leb_spec (lots_to_raw old) (lots_to_raw new)); [rewrite decide_True by done; by exists m|].
    rewrite decide_False by lia. destruct (arith I64 _) as [d|]; cbn [mbind outcome_bind]; [|done].
    pose proof (map_orders_view _ _ _ m (level_order_spec inst side price (lots_to_raw old) d)) as Hv. rewrite Hm in Hv.
    destruct (update_level _ _ _) as [m'|]; cbn [mbind outcome_bind]; [|by rewrite Hv].
    destruct Hv as (m1 & -> & Ev). cbn [mbind outcome_bind]. by exists m1.
Qed.
End view_level.

(** ** Rates *)

Definition rate_entry (e : Z * f64) : TakeRateEntry := {| tr_instrument_id := inst_from_raw e.1; tr_rate := e.2 |}.

(** The table holds the rates, in order, in its first slots. *)
Definition rates_ok (slots : list (option TakeRateEntry)) (rates : list (Z * f64)) : Prop :=
  exists k, slots = (Some ∘ rate_entry <$> rates) ++ replicate k None /\ (length rates + k = MAX_RATE_INSTRUMENTS)%nat.

Lemma rate_of_spec inst rates k :
  rate_of ((Some ∘ rate_entry <$> rates) ++ replicate k None) inst = spec_take_rate rates (inst_to_raw inst).
Proof.
  unfold spec_take_rate. induction rates as [|[i r] rates IH]; cbn.
  - induction k; [done|]. by cbn.
  - destruct inst as [j]. cbn in *. destruct (decide (i = j)) as [->|Hne].
    + by rewrite bool_decide_true.
    + rewrite bool_decide_false by congruence. rewrite IH. destruct (list_find _ rates) as [[? [? ?]]|]; done.
Qed.

Lemma ewma_spec inst qty rates k :
  ewma ((Some ∘ rate_entry <$> rates) ++ replicate k None) inst qty (f64_lit 1 1)
  = match list_find (fun e => e.1 = inst_to_raw inst) rates with
    | Some _ => Some ((Some ∘ rate_entry <$> spec_rate rates (inst_to_raw inst) qty) ++ replicate k None)
    | None => None
    end.
Proof.
  unfold spec_rate. destruct inst as [j]. cbn [inst_to_raw]. induction rates as [|[i r] rates IH].
  - cbn. induction k as [|k IHk]; [done|]. cbn. by rewrite IHk.
  - cbn -[f64_lit]. destruct (decide (i = j)) as [->|Hne].
    + by rewrite bool_decide_true.
    + rewrite bool_decide_false by congruence. rewrite IH.
      destruct (list_find _ rates) as [[? [? ?]]|]; done.
Qed.

Lemma fill_slot_rates e rates k :
  fill_slot ((Some ∘ rate_entry <$> rates) ++ replicate k None) (rate_entry e)
  = match k with
    | O => None
    | S k' => Some ((Some ∘ rate_entry <$> rates ++ [e]) ++ replicate k' None)
    end.
Proof.
  induction rates as [|r rates IH]; cbn; [by destruct k|]. rewrite IH. by destruct k.
Qed.

(** Updating the table is updating the rates. *)
Lemma update_take_rate_spec slots rates inst qty :
  rates_ok slots rates ->
  exists slots', update_take_rate slots inst qty (f64_lit 1 1) = Ret slots'
    /\ rates_ok slots' (spec_rate rates (inst_to_raw inst) qty).
Proof.
  intros (k & -> & Hk). unfold update_take_rate. rewrite ewma_spec.
  destruct (list_find (fun e => e.1 = inst_to_raw inst) rates) as [[i [? ?]]|] eqn:Ef.
  - eexists. split; [done|]. exists k. split; [done|]. unfold spec_rate. rewrite Ef. by rewrite length_insert.
  - cbv zeta. destruct inst as [j]. cbn [inst_to_raw] in *.
    change {| tr_instrument_id := inst_from_raw j; tr_rate := qty |} with (rate_entry (j, qty)).
    rewrite fill_slot_rates. unfold spec_rate. rewrite Ef. unfold MAX_RATE_INSTRUMENTS in Hk. destruct k as [|k].
    + rewrite set_index_ok by (rewrite length_app, length_fmap; cbn; lia).
      rewrite decide_False by lia. eexists. split; [done|]. exists 0%nat. rewrite length_insert. split; [|done].
      destruct rates as [|e rates]; [cbn in Hk; lia|]. done.
    + rewrite decide_True by lia. eexists. split; [done|]. exists k. rewrite length_app. cbn. split; [done|].
      unfold MAX_RATE_INSTRUMENTS. lia.
Qed.

Definition queue_rates_ok (q : QueueEstimator) (A : queue_spec) : Prop :=
  rates_ok (take_rates_bid q) (sq_bid_rates A) /\ rates_ok (take_rates_ask q) (sq_ask_rates A).

Lemma remove_order_rates q id A : queue_rates_ok q A -> queue_rates_ok (remove_order q id) A.
Proof. unfold remove_order. by destruct (find_order _ _) as [[? ?]|]. Qed.

Section runs.
Context `{BuildProfile} `{Libm} (n : f64).

Lemma queue_step_rates op q q' b A A' b' :
  queue_step op q = Ret (q', b) -> spec_queue_op n op A = Ret (A', b') -> queue_rates_ok q A -> queue_rates_ok q' A'.
Proof.
  intros Eq Es Hr. destruct op as [id inst side price qty level|id qty|id|inst side price qty|inst side price old new];
    cbn [queue_step spec_queue_op] in Eq, Es.
  - assert (queue_rates_ok q A') as Hr'
      by (case_decide; [by injection Es as <- _|]; inv_bind Es; by injection Es as <- _).
    unfold register_order in Eq. destruct (forallb _ _); [by injection Eq as <- _|].
    destruct (arith I64 _); [|done]. cbn [mbind outcome_bind] in Eq. cbv zeta in Eq.
    destruct (fill_slot _ _); [|by injection Eq as <- _]. destruct (arith USIZE _); [|done].
    by injection Eq as <- _.
  - assert (queue_rates_ok q A') as Hr'
      by (destruct (sq_orders A !! id); [|by injection Es as <- _]; inv_bind Es; by injection Es as <- _).
    unfold order_filled in Eq. destruct (find_order _ _) as [[i o]|]; [|by injection Eq as <- _].
    destruct (arith I64 _); [|done]. cbn [mbind outcome_bind] in Eq.
    destruct (_ <=? 0); injection Eq as <- _; [by apply remove_order_rates|done].
  - injection Eq as <- _. injection Es as <- _. by apply remove_order_rates.
  - destruct (update_level _ _ _) as [m|]; [|done]. injection Es as <- _. unfold on_trade in Eq. cbv zeta in Eq.
    destruct Hr as [Hb Ha]. destruct side; cbn [rates_of].
    + destruct (update_take_rate_spec _ _ inst (f64_of_Z (lots_to_raw qty)) Hb) as (r & Er & Hr).
      rewrite Er in Eq. cbn [mbind outcome_bind] in Eq. destruct (each_order _ _); [|done]. by injection Eq as <- _.
    + destruct (update_take_rate_spec _ _ inst (f64_of_Z (lots_to_raw qty)) Ha) as (r & Er & Hr).
      rewrite Er in Eq. cbn [mbind outcome_bind] in Eq. destruct (each_order _ _); [|done]. by injection Eq as <- _.
  - assert (queue_rates_ok q A') as Hr'.
    { case_decide; [by injection Es as <- _|]. inv_bind Es. inv_bind Es. by injection Es as <- _. }
    unfold on_level_change in Eq. destruct (_ <=? _); [by injection Eq as <- _|].
    destruct (arith I64 _); [|done]. cbn [mbind outcome_bind] in Eq. destruct (each_order _ _); [|done].
    by injection Eq as <- _.
Qed.

(** The estimator, the map between and the specification agree. *)
Definition queue_refines (q : QueueEstimator) (A : queue_spec) : Prop :=
  exists m, queue_ok n q m /\ ahead_nonneg m /\ view <$> m = sq_orders A /\ queue_rates_ok q A.

Lemma queue_step_refines op q A :
  queue_refines q A -> level_nonneg op = true ->
  match op with QRegister id _ _ _ _ _ => sq_orders A !! id = None | _ => True end ->
  match spec_queue_op n op A with
  | Ret (A', b) => exists q', queue_step op q = Ret (q', b) /\ queue_refines q' A'
  | Panic => queue_step op q = Panic /\ overflow_checks = true
  end.
Proof.
  intros (m & Hok & Hpos & Hm & Hr) Hlv Hid. pose proof (map_queue_op_view n op m A Hm) as Hv.
  assert (simulates n (queue_step op q) (map_queue_op n op m)) as Hsim.
  { destruct op; [|by apply filled_sim| |by apply trade_sim|by apply level_sim].
    - apply register_sim; [done|]. rewrite <- Hm, lookup_fmap in Hid. by destruct (m !! id).
    - eexists. split; [done|]. by apply remove_ok. }
  unfold simulates in Hsim. destruct (spec_queue_op n op A) as [[A' b]|] eqn:Es.
  - destruct Hv as (m' & Em & Hm'). rewrite Em in Hsim. destruct Hsim as (q' & Eq & Hok'). exists q'. split; [done|].
    exists m'. split_and!; [done|by eapply map_queue_op_nonneg|done|by eapply queue_step_rates].
  - rewrite Hv in Hsim. split; [done|]. destruct overflow_checks eqn:E; [done|].
    destruct (map_queue_op_release n op m E) as [r Hr']. congruence.
Qed.

Lemma queue_run_refines ops : forall q A,
  queue_refines q A -> fresh_ids n ops A -> forallb level_nonneg ops = true ->
  match spec_queue_run n ops A with
  | Ret (A', bs) => exists q', queue_run ops q = Ret (q', bs) /\ queue_refines q' A'
  | Panic => queue_run ops q = Panic /\ overflow_checks = true
  end.
Proof.
  induction ops as [|op ops IH]; intros q A Href Hf Hl; [by exists q|].
  cbn [spec_queue_run queue_run fresh_ids forallb] in *. destruct Hf as [Hid Hf]. apply andb_true_iff in Hl as [Hl Hls].
  pose proof (queue_step_refines op q A Href Hl Hid) as Hs.
  destruct (spec_queue_op n op A) as [[A1 b]|]; cbn [mbind outcome_bind]; [|destruct Hs as [-> ?]; by split].
  destruct Hs as (q1 & -> & Href1). cbn [mbind outcome_bind]. specialize (IH q1 A1 Href1 Hf Hls).
  destruct (spec_queue_run n ops A1) as [[A2 bs]|]; cbn [mbind outcome_bind].
  - destruct IH as (q2 & -> & Href2). cbn [mbind outcome_bind]. by exists q2.
  - destruct IH as [-> ?]. by split.
Qed.

Lemma queue_refines_new : queue_refines (queue_new n) spec_init.
Proof.
  exists ∅. split; [apply queue_ok_new|]. split; [apply map_Forall_empty|]. split; [by rewrite fmap_empty|].
  split; by exists MAX_RATE_INSTRUMENTS.
Qed.
End runs.

(** * Properties *)

(** C3.  The estimator implements its specification: for every sequence of
    operations in which registered identifiers are not in use and level sizes
    are not negative, whatever the [libm] functions return, the tracked orders
    are those of the specification: [register_order] puts an order behind the
    whole level and fails exactly when 64 are tracked; a fill reduces the order
    and moves it to the front, or ends it; a trade reduces the quantity ahead of
    exactly the orders of its instrument, side and price, down to zero; a
    shrinking level reduces it by the share the power model puts in front.
    [queue_ahead] and [take_rate] return the specified estimates and moving
    averages, [order_count] is the number of orders, and estimates are never
    negative.  The estimator panics exactly where the specification's arithmetic
    leaves the [i64] range in a build with overflow checks, and never without. *)
Theorem queue_estimator_refines `{BuildProfile} `{Libm} (n : f64) (ops : list queue_op) :
  fresh_ids n ops spec_init -> forallb level_nonneg ops = true ->
  match spec_queue_run n ops spec_init with
  | Ret (A, bs) =>
      exists q, queue_run ops (queue_new n) = Ret (q, bs) /\
        (forall id, view <$> queue_find q id = sq_orders A !! id) /\
        (forall id, lots_to_raw <$> queue_ahead q id = r_ahead <$> sq_orders A !! id) /\
        (forall inst side, take_rate q inst side = spec_take_rate (rates_of side A) (inst_to_raw inst)) /\
        qe_order_count q = Z.of_nat (size (sq_orders A)) /\ (size (sq_orders A) <= 64)%nat /\
        map_Forall (fun _ r => 0 <= r_ahead r) (sq_orders A)
  | Panic => queue_run ops (queue_new n) = Panic /\ overflow_checks = true
  end.
Proof.
  intros Hfresh Hpos. pose proof (queue_run_refines n ops _ _ (queue_refines_new n) Hfresh Hpos) as Hsim.
  destruct (spec_queue_run n ops spec_init) as [[A bs]|]; [|done].
  destruct Hsim as (q & Hrun & m & Hok & Hnn & Hm & [kb [Eb _]] & [ka [Ea _]]). exists q. split; [done|].
  pose proof Hok as (Hl & Hu & Hmo & Hc & _).
  assert (forall id, queue_find q id = m !! id) as Hf by (intros id; by apply (queue_ok_find n)).
  rewrite <- Hm, map_size_fmap. split_and!; [..|done| |].
  - intros id. by rewrite Hf, lookup_fmap.
  - intros id. unfold queue_ahead. rewrite Hf, lookup_fmap. by destruct (m !! id).
  - intros inst side. unfold take_rate, instrument_take_rate. destruct side; cbn [rates_of];
      rewrite ?Eb, ?Ea; apply rate_of_spec.
  - rewrite <- Hmo. change 64%nat with MAX_QUEUED_ORDERS. rewrite <- Hl. unfold map_of.
    rewrite size_map_of by done. apply entries_length.
  - by apply map_Forall_fmap.
Qed.

(** Cubes for [pow(_, 3.0)], enough to run the power model. *)
Definition demo_libm : Libm := {|
  libm_pow x _ := f64_mul x (f64_mul x x); libm_sqrt := SFsqrt 53 1024; libm_exp x := x |}.

Definition demo_ops : list queue_op :=
  let i := inst_from_raw 1 in
  [QRegister 7 i Bid (ticks_from_raw 50) (lots_from_raw 10) (lots_from_raw 100);
   QTrade i Bid (ticks_from_raw 50) (lots_from_raw 30);
   QLevel i Bid (ticks_from_raw 50) (lots_from_raw 110) (lots_from_raw 80);
   QRegister 8 i Ask (ticks_from_raw 51) (lots_from_raw 5) (lots_from_raw 20); QCancelled 8;
   QTrade i Ask (ticks_from_raw 50) (lots_from_raw 9)].

Definition demo_order : resting :=
  {| r_inst := 1; r_side := Bid; r_price := 50; r_qty := 10; r_ahead := 45; r_posted := 110 |}.

Definition demo_spec : queue_spec :=
  {| sq_orders := {[7 := demo_order]}; sq_bid_rates := [(1, f64_of_Z 30)]; sq_ask_rates := [(1, f64_of_Z 9)] |}.

Lemma demo_run :
  @spec_queue_run debug_profile demo_libm (f64_of_Z 3) demo_ops spec_init
  = Ret (demo_spec, [true; true; true; true; true; true]).
Proof. vm_compute. reflexivity. Qed.

Lemma demo_fresh : @fresh_ids debug_profile demo_libm (f64_of_Z 3) demo_ops spec_init.
Proof. vm_compute. tauto. Qed.

Lemma queue_estimator_refines_witness :
  exists q, @queue_run debug_profile demo_libm demo_ops (queue_new (f64_of_Z 3))
            = Ret (q, [true; true; true; true; true; true]) /\
    lots_to_raw <$> queue_ahead q 7 = Some 45 /\ take_rate q (inst_from_raw 1) Ask = f64_of_Z 9.
Proof.
  pose proof (@queue_estimator_refines debug_profile demo_libm (f64_of_Z 3) demo_ops demo_fresh eq_refl) as Hw.
  rewrite demo_run in Hw. destruct Hw as (q & Hrun & _ & Hahead & Hrate & _). exists q. split; [exact Hrun|].
  split; [rewrite Hahead; reflexivity|rewrite Hrate; vm_compute; reflexivity].
Defined.
