(* ===== verification/Strategy.v ===== *)
(** * The strategy runtime ([crates/strategy]: intent.rs, context.rs, traits.rs, risk.rs)

    The data a strategy exchanges with its framework: the order intents, the
    runtime bundle, the risk limits, and the trait as a type class.  An intent
    crosses a ring as its bytes, so its layout is part of the interface; the
    codec is built with the combinators of [Layout]. *)

From Stdlib Require Import ZArith Lia.
From stdpp Require Import base decidable numbers option tactics strings list.
From S2P Require Import Prelude Fixed Types Events Book MarketEngine CopyDispatch Position Orders Queue Layout.

#[local] Open Scope Z_scope.

(** ** intent.rs *)

Definition MAX_INTENTS_PER_TICK : nat := 32.

Inductive OrderAction := Post | Cancel | Amend.

#[global] Instance OrderAction_eq_dec : EqDecision OrderAction.
Proof. solve_decision. Defined.

Record OrderIntent := {
  int_instrument_id : InstrumentId;
  int_side : Side;
  int_price : Ticks;
  int_qty : Lots;
  int_action : OrderAction;
  int_client_order_id : Z;
  int_target_order_id : Z;
  int_strategy_id : Z;
}.

#[global] Instance OrderIntent_eq_dec : EqDecision OrderIntent.
Proof. solve_decision. Defined.

(** The derived [Default]: zeros and the first variants. *)
Definition intent_default : OrderIntent := {|
  int_instrument_id := inst_NONE; int_side := Bid; int_price := ticks_ZERO; int_qty := lots_ZERO;
  int_action := Post; int_client_order_id := 0; int_target_order_id := 0; int_strategy_id := 0 |}.

Definition order_action_raw (a : OrderAction) : Z := match a with Post => 0 | Cancel => 1 | Amend => 2 end.
Definition c_order_action : codec OrderAction := c_map (c_int U8) order_action_raw (variant_of [Post; Cancel; Amend]).

Definition c_order_intent : codec OrderIntent :=
  c_map (c_struct (c_instrument_id :: c_side :: c_ticks :: c_lots :: c_order_action :: c_int U64 :: c_int U64 :: c_int U8 :: f_nil)%fields)
    (fun i => (int_instrument_id i, (int_side i, (int_price i, (int_qty i, (int_action i,
      (int_client_order_id i, (int_target_order_id i, (int_strategy_id i, tt)))))))))
    (fun '(inst, (side, (price, (qty, (action, (client, (target, (strategy, _)))))))) => Some {|
      int_instrument_id := inst; int_side := side; int_price := price; int_qty := qty; int_action := action;
      int_client_order_id := client; int_target_order_id := target; int_strategy_id := strategy |}).

(** ** risk.rs *)

Record RiskLimits := {
  max_position_per_instrument : Lots;
  max_capital_deployed : FixedI64 6;
  max_worst_case_loss : FixedI64 6;
  max_orders_live : Z;
  max_intents_per_sec : Z;
  max_replaces_per_min : Z;
  capital_budget : FixedI64 6;
}.

Inductive RiskCheckResult := Pass | RejectPosition | RejectCapital | RejectOrderCount | RejectRate | RejectFeedUnhealthy.

#[global] Instance RiskCheckResult_eq_dec : EqDecision RiskCheckResult.
Proof. solve_decision. Defined.

(** ** context.rs *)

Record StrategyContext (B : Type) (MAX : nat) := {
  ctx_engine : MarketStateEngine B;
  ctx_queue : QueueEstimator;
  ctx_orders : OrderTracker;
  ctx_risk : RiskLimits;
  ctx_positions : list Position;   (* [Position; MAX] *)
}.

(** ** traits.rs *)

(** A strategy over its own state [S]: one event and the buffer in, the number
    of intents written and the buffer out; the code may panic. *)
Class Strategy (S : Type) := {
  STRATEGY_ID : Z;
  NAME : bytes;
  on_event : S -> HotEvent -> list OrderIntent -> outcome (S * nat * list OrderIntent);
}.

(** * The layout of an intent *)

#[global] Instance c_order_action_laws : CodecLaws c_order_action.
Proof. solve_codec. Qed.
#[global] Instance c_order_intent_laws : CodecLaws c_order_intent.
Proof. solve_codec. Qed.

(** Fixed-size: 56 bytes, 17 of which are the compiler's padding (3 after the
    side, 7 after the action, 7 after the strategy id), and memory that holds an
    intent gives it back whatever that padding is. *)
Lemma order_intent_layout :
  c_layout c_order_intent = Layout 56 8 /\
  offsets 0 [c_layout c_instrument_id; c_layout c_side; c_layout c_ticks; c_layout c_lots; c_layout c_order_action;
             c_layout (c_int U64); c_layout (c_int U64); c_layout (c_int U8)] = [0; 4; 8; 16; 24; 32; 40; 48]%nat.
Proof. done. Qed.

(** So an intent survives a copy by either copy policy. *)
Lemma order_intent_copied `{BuildProfile} (i : OrderIntent) (simd : bool) (m : bytes) (dst src : nat) :
  c_ok c_order_intent i -> holds (enc c_order_intent i) (Some <$> read_bytes m src 56) ->
  in_bounds m src 56 -> in_bounds m dst 56 -> disjoint_ranges dst src 56 ->
  forall policy, policy ∈ [DefaultCopyPolicy; SimdCopyPolicy simd] ->
  exists m', copy_in (CopyPolicy := policy) 56 dst src m = EOk m' /\
    dec c_order_intent (Some <$> read_bytes m' dst 56) = Some i.
Proof.
  intros Hok Hat Hs Hd Hdis policy Hp.
  assert (copies_value 56 dst src m (copy_in (CopyPolicy := policy) 56 dst src m)) as ->.
  { apply elem_of_cons in Hp as [->|[->|[]%elem_of_nil]%elem_of_cons].
    - by apply copy_nonoverlapping_ok.
    - apply dispatch_copy_ok; [right; lia|mlia|done..]. }
  eexists. split; [done|]. apply dec_holds; [done|]. rewrite <- (length_read m src 56 Hs) at 2.
  rewrite read_write; [done|]. by rewrite length_read.
Qed.
