(* ===== verification/Timer.v ===== *)
(** * Timer thread ([crates/transport]: timer.rs, and [interruptible_sleep] of feed.rs)

    The timer thread sleeps for the tick interval in chunks of 100 ms, leaves
    when the shutdown flag is set, and pushes a timer event per tick and a
    heartbeat every [heartbeat_every] ticks.  Durations and instants are
    nanoseconds; adding a duration to an instant panics when the sum is not an
    instant.  Time passes only while the thread sleeps; a sleep takes at
    least its duration and overshoots by an arbitrary amount ([oversleep], by
    the number of sleeps so far).  The shutdown flag, once set, stays set, so it
    is the instant at which it is set ([stop_at]). *)

From Stdlib Require Import ZArith Lia.
From stdpp Require Import base decidable numbers option tactics strings list.
From S2P Require Import Prelude Types Events.

#[local] Open Scope Z_scope.

(** * Time *)

Abbreviation Duration := Z.

Definition MILLI : Duration := 1000000.
Definition SECOND : Duration := 1000000000.
(** [Duration::MAX]: all seconds of a [u64] and 999,999,999 ns. *)
Definition DURATION_MAX : Duration := 2 ^ 64 * SECOND - 1.

Definition is_duration (d : Duration) : Prop := 0 <= d <= DURATION_MAX.

(** The latest [Instant]: the seconds of the system's clock are an [i64]. *)
Definition INSTANT_MAX : Z := 2 ^ 63 * SECOND - 1.

(** [Instant + Duration], which panics on overflow in every build. *)
Definition instant_add (t : Z) (d : Duration) : outcome Z := if t + d <=? INSTANT_MAX then Ret (t + d) else Panic.

Record world := World { now : Z; sleeps : nat }.

Section time.
Context (stop_at : option Z) (oversleep : nat -> Z).

(** [shutdown.load(Acquire)]. *)
Definition shutdown_load (w : world) : bool :=
  match stop_at with Some T => T <=? now w | None => false end.

(** [thread::sleep]. *)
Definition thread_sleep (d : Duration) (w : world) : world :=
  World (now w + d + oversleep (sleeps w)) (S (sleeps w)).

Definition CHUNK : Duration := 100 * MILLI.

(** The loop of [interruptible_sleep]; [None] is out of fuel. *)
Fixpoint sleep_loop (fuel : nat) (deadline : Z) (w : world) : option (bool * world) :=
  match fuel with
  | O => None
  | S fuel' =>
      if now w <? deadline then
        if shutdown_load w then Some (true, w)
        else
          let remaining := Z.max 0 (deadline - now w) in
          sleep_loop fuel' deadline (thread_sleep (Z.min remaining CHUNK) w)
      else Some (shutdown_load w, w)
  end.

(** One round per chunk, and the last one. *)
Definition sleep_fuel (duration : Duration) : nat := Z.to_nat (duration / CHUNK) + 2.

Definition interruptible_sleep (duration : Duration) (w : world) : outcome (option (bool * world)) :=
  deadline ← instant_add (now w) duration;
  Ret (sleep_loop (sleep_fuel duration) deadline w).
End time.

(** * Configuration *)

Record TimerConfig := {
  tc_name : string;
  tick_interval : Duration;
  heartbeat_interval : Duration;
  tc_source_id : SourceId;
  tc_core_id : option nat;
}.

Inductive TimerConfigError :=
  | ZeroTickInterval | HeartbeatShorterThanTick | HeartbeatNotDivisible | HeartbeatTooLarge.

Definition validate (config : TimerConfig) : result Z TimerConfigError :=
  if tick_interval config =? 0 then Err ZeroTickInterval
  else
    let tick_ns := tick_interval config in
    let hb_ns := heartbeat_interval config in
    if hb_ns <? tick_ns then Err HeartbeatShorterThanTick
    else if negb (hb_ns mod tick_ns =? 0) then Err HeartbeatNotDivisible
    else
      let ratio := hb_ns / tick_ns in
      if tmax U64 <? ratio then Err HeartbeatTooLarge
      else Ok (wrap U64 ratio).

(** * The loop *)

(** The locals of [timer_loop]. *)
Record timer_state := TimerState { tick_counter : Z; heartbeat_counter : Z; tm_seq : Z }.

Definition timer_init : timer_state := TimerState 0 0 0.

Section timer_loop.
Context `{BuildProfile} (timestamp_now : world -> Timestamp)
  (stop_at : option Z) (oversleep : nat -> Z).

(** What an iteration does after the sleep: the new locals and the events
    pushed. *)
Definition timer_tick (config : TimerConfig) (heartbeat_every : Z) (w : world) (s : timer_state)
    : outcome (timer_state * list HotEvent) :=
  ticks ← arith U64 (tick_counter s + 1);
  seq ← arith U64 (tm_seq s + 1);
  let timer_payload := {| timer_id := 0; timer_kind := Periodic |} in
  let ev := ev_timer (timestamp_now w) (seqnum_from_raw seq) inst_NONE (tc_source_id config)
              flags_EMPTY timer_payload in
  if ticks mod heartbeat_every =? 0 then
    let hb := wrap U32 (heartbeat_counter s + 1) in
    seq' ← arith U64 (seq + 1);
    let ev' := ev_heartbeat (timestamp_now w) (seqnum_from_raw seq') (tc_source_id config)
                 flags_EMPTY {| hb_counter := hb |} in
    Ret (TimerState ticks hb seq', [ev; ev'])
  else Ret (TimerState ticks (heartbeat_counter s) seq, [ev]).

(** [timer_loop] for at most [fuel] iterations: whether it returned, and the
    events pushed. *)
Fixpoint timer_loop (fuel : nat) (config : TimerConfig) (heartbeat_every : Z) (w : world)
    (s : timer_state) : outcome (bool * list HotEvent) :=
  match fuel with
  | O => Ret (false, [])
  | S fuel' =>
      slept ← interruptible_sleep stop_at oversleep (tick_interval config) w;
      match slept with
      | None => Ret (false, [])
      | Some (true, _) => Ret (true, [])
      | Some (false, w') =>
          if shutdown_load stop_at w' then Ret (true, [])
          else
            '(s', evs) ← timer_tick config heartbeat_every w' s;
            '(returned, evs') ← timer_loop fuel' config heartbeat_every w' s';
            Ret (returned, evs ++ evs')
      end
  end.
End timer_loop.

(** * Sleeping *)

Section sleep_theory.
Context (stop_at : option Z) (oversleep : nat -> Z) (slack : Z).
Hypothesis oversleep_bound : forall k, 0 <= oversleep k <= slack.

(** What the sleep promises: it ends after its duration, or early when the
    flag is set, at most a chunk (and an overshoot) after the flag was. *)
Definition slept (w : world) (deadline : Z) (b : bool) (w' : world) : Prop :=
  b = shutdown_load stop_at w' /\ now w <= now w' <= Z.max (now w) (deadline + slack) /\
  (b = false -> deadline <= now w') /\
  (forall T, stop_at = Some T -> now w' <= Z.max (now w) (T + CHUNK + slack)).

Lemma sleep_loop_ok fuel deadline w :
  deadline - now w <= (Z.of_nat fuel - 1) * CHUNK -> (0 < fuel)%nat ->
  exists b w', sleep_loop stop_at oversleep fuel deadline w = Some (b, w') /\ slept w deadline b w'.
Proof.
  revert w. induction fuel as [|fuel IH]; intros w Hf Hpos; [lia|]. cbn [sleep_loop].
  pose proof (oversleep_bound (sleeps w)) as Hov. unfold slept.
  destruct (Z.ltb_spec (now w) deadline) as [Hlt|Hge].
  2: { eexists _, _. split; [done|]. split_and!; try lia. done. }
  destruct (shutdown_load stop_at w) eqn:Hstop.
  { eexists _, _. split; [done|]. split_and!; try lia. done. }
  set (w1 := thread_sleep oversleep (Z.min (Z.max 0 (deadline - now w)) CHUNK) w).
  assert (now w < now w1 /\ now w1 <= now w + CHUNK + slack /\ now w1 <= deadline + slack
          /\ (now w + CHUNK <= now w1 \/ deadline <= now w1)) as (H1 & H2 & H3 & H4).
  { unfold w1, thread_sleep, CHUNK, MILLI. cbn [now]. lia. }
  destruct (decide (fuel = 0%nat)) as [->|Hne]; [unfold CHUNK, MILLI in *; lia|].
  destruct (IH w1) as (b & w' & E & Hb & Hnow & Hdl & Hprompt); [unfold CHUNK, MILLI in *; lia|lia|].
  exists b, w'. split; [done|]. split_and!; [done|lia|lia|done|].
  intros T HT. specialize (Hprompt T HT). unfold shutdown_load in Hstop. rewrite HT in Hstop.
  apply Z.leb_gt in Hstop. lia.
Qed.

(** [interruptible_sleep] returns, unless its deadline is not an instant. *)
Lemma interruptible_sleep_ok duration w :
  0 <= duration -> now w + duration <= INSTANT_MAX ->
  exists b w', interruptible_sleep stop_at oversleep duration w = Ret (Some (b, w')) /\
               slept w (now w + duration) b w'.
Proof.
  intros Hd Hmax. unfold interruptible_sleep, instant_add. rewrite (proj2 (Z.leb_le _ _)) by done. cbn [mbind outcome_bind].
  destruct (sleep_loop_ok (sleep_fuel duration) (now w + duration) w) as (b & w' & E & Hs);
    [|unfold sleep_fuel; lia|exists b, w'; by rewrite E].
  unfold sleep_fuel. pose proof (Z.div_mod duration CHUNK ltac:(done)) as E.
  pose proof (Z.mod_pos_bound duration CHUNK ltac:(done)) as Hr.
  pose proof (Z.div_pos duration CHUNK Hd ltac:(done)). unfold CHUNK, MILLI in *. lia.
Qed.

(** A sleep that starts after the request ends at once. *)
Lemma sleep_stopped duration deadline w :
  shutdown_load stop_at w = true -> sleep_loop stop_at oversleep (sleep_fuel duration) deadline w = Some (true, w).
Proof.
  intros Hs. unfold sleep_fuel. rewrite Nat.add_comm. cbn [Nat.add sleep_loop]. rewrite Hs. by destruct (_ <? _).
Qed.

Lemma interruptible_sleep_overflow duration w :
  INSTANT_MAX < now w + duration -> interruptible_sleep stop_at oversleep duration w = Panic.
Proof. intros Hm. unfold interruptible_sleep, instant_add. by rewrite (proj2 (Z.leb_gt _ _)). Qed.
End sleep_theory.

(** * Validation *)

(** A configuration is accepted exactly when the heartbeat interval is a
    positive multiple of the tick interval by a factor that fits a [u64]. *)
Lemma validate_spec config h :
  is_duration (tick_interval config) -> is_duration (heartbeat_interval config) ->
  validate config = Ok h <->
  0 < tick_interval config /\ heartbeat_interval config = h * tick_interval config /\
  1 <= h <= tmax U64.
Proof.
  unfold is_duration, validate. intros Ht Hh. cbv zeta.
  set (t := tick_interval config) in *. set (b := heartbeat_interval config) in *. clearbody t b.
  destruct (Z.eqb_spec t 0) as [->|Hne]; [split; [done|lia]|].
  destruct (Z.ltb_spec b t); [split; [done|nia]|].
  pose proof (Z.div_mod b t Hne) as E. pose proof (Z.mod_pos_bound b t ltac:(lia)) as Hm.
  destruct (Z.eqb_spec (b mod t) 0) as [E0|Hr]; cbn [negb].
  2: { split; [done|]. intros (_ & -> & _). by rewrite Z.mod_mul in Hr. }
  assert (1 <= b / t) by (apply Z.div_le_lower_bound; lia).
  destruct (Z.ltb_spec (tmax U64) (b / t)).
  { split; [done|]. intros (_ & -> & Hh'). rewrite Z.div_mul in * by done. lia. }
  rewrite wrap_id by mlia. split.
  - intros [= <-]. lia.
  - intros (_ & -> & Hh'). by rewrite Z.div_mul.
Qed.

(** * The schedule *)

(** An event without its timestamp. *)
Definition erase_ts (e : HotEvent) : HotEvent :=
  {| ev_header := mk_header (from_nanos 0) (hdr_seq (ev_header e)) (hdr_instrument_id (ev_header e))
                    (hdr_source_id (ev_header e)) (hdr_flags (ev_header e));
     ev_body := ev_body e |}.

(** The events of the [i]-th tick: the tick, and a heartbeat on every [h]-th. *)
Definition tick_events (src : SourceId) (h i : Z) : list HotEvent :=
  ev_timer (from_nanos 0) (seqnum_from_raw (i + (i - 1) / h)) inst_NONE src flags_EMPTY
    {| timer_id := 0; timer_kind := Periodic |} ::
  (if i mod h =? 0 then
     [ev_heartbeat (from_nanos 0) (seqnum_from_raw (i + i / h)) src flags_EMPTY
        {| hb_counter := wrap U32 (i / h) |}]
   else []).

(** Ticks [i], ..., [i + k - 1]. *)
Fixpoint schedule (src : SourceId) (h i : Z) (k : nat) : list HotEvent :=
  match k with
  | O => []
  | S k' => tick_events src h i ++ schedule src h (i + 1) k'
  end.

Definition event_seqs (evs : list HotEvent) : list Z :=
  map (fun e => seqnum_to_raw (hdr_seq (ev_header e))) evs.

(** Whether the next tick completes a heartbeat period. *)
Lemma heartbeat_step h i :
  0 < h -> 0 <= i ->
  (i + 1) / h = i / h + (if (i + 1) mod h =? 0 then 1 else 0).
Proof.
  intros Hh Hi. pose proof (Z.div_mod i h ltac:(lia)). pose proof (Z.mod_pos_bound i h Hh).
  destruct (Z.eqb_spec (i + 1 - (i + 1) / h * h) 0) as [E|E];
    rewrite (Z.mod_eq (i + 1) h) by lia; pose proof (Z.div_mod (i + 1) h ltac:(lia));
    pose proof (Z.mod_pos_bound (i + 1) h Hh).
  - rewrite (proj2 (Z.eqb_eq _ _)) by lia. nia.
  - rewrite (proj2 (Z.eqb_neq _ _)) by lia. nia.
Qed.

Lemma schedule_seqs src h k : forall i,
  0 < h -> 0 <= i ->
  event_seqs (schedule src h (i + 1) k)
  = seqZ (i + i / h + 1) (Z.of_nat k + (i + Z.of_nat k) / h - i / h).
Proof.
  induction k as [|k IH]; intros i Hh Hi.
  { replace (Z.of_nat 0 + (i + Z.of_nat 0) / h - i / h) with 0 by (rewrite !Z.add_0_r; lia). done. }
  cbn [schedule]. unfold event_seqs in *. rewrite map_app, IH by lia. unfold tick_events. cbn [map].
  rewrite Z.add_simpl_r.
  pose proof (heartbeat_step h i Hh Hi) as E.
  assert (0 <= (i + 1 + Z.of_nat k) / h - (i + 1) / h)
    by (pose proof (Z.div_le_mono (i + 1) (i + 1 + Z.of_nat k) h Hh ltac:(lia)); lia).
  replace (i + Z.of_nat (S k)) with (i + 1 + Z.of_nat k) by lia.
  destruct ((i + 1) mod h =? 0);
    cbn [map app ev_header ev_timer ev_heartbeat mk_header hdr_seq seqnum_to_raw];
    rewrite (seqZ_cons (i + i / h + 1)) by lia; (f_equal; [lia|]).
  - rewrite (seqZ_cons (Z.succ (i + i / h + 1))) by lia. f_equal; [lia|]. f_equal; lia.
  - f_equal; lia.
Qed.

Section loop_theory.
Context `{BuildProfile} (timestamp_now : world -> Timestamp)
  (stop_at : option Z) (oversleep : nat -> Z) (slack : Z).
Hypothesis oversleep_bound : forall k, 0 <= oversleep k <= slack.
Context (config : TimerConfig) (h : Z).
Hypothesis tick_pos : 0 < tick_interval config.
Hypothesis h_pos : 1 <= h.

(** The locals after [k] ticks. *)
Definition ticked (k : Z) : timer_state := TimerState k (wrap U32 (k / h)) (k + k / h).

Lemma timer_tick_ok w k :
  0 <= k < 2 ^ 63 - 1 ->
  exists evs, timer_tick timestamp_now config h w (ticked k) = Ret (ticked (k + 1), evs) /\
    map erase_ts evs = tick_events (tc_source_id config) h (k + 1).
Proof.
  intros Hk. unfold timer_tick, ticked, tick_events. cbn [tick_counter heartbeat_counter tm_seq].
  pose proof (heartbeat_step h k ltac:(lia) ltac:(lia)) as E.
  assert (0 <= k / h <= k) by (split; [apply Z.div_pos; lia|apply Z.div_le_upper_bound; nia]).
  rewrite (arith_ok U64 (k + 1)) by mlia. cbn [mbind outcome_bind].
  rewrite (arith_ok U64 (k + k / h + 1)) by mlia. cbn [mbind outcome_bind]. rewrite Z.add_simpl_r.
  replace (k + k / h + 1) with (k + 1 + k / h) by lia.
  destruct ((k + 1) mod h =? 0).
  - replace (k + 1 + k / h + 1) with (k + 1 + (k + 1) / h) by lia.
    rewrite arith_ok by mlia. cbn [mbind outcome_bind].
    assert (wrap U32 (wrap U32 (k / h) + 1) = wrap U32 ((k + 1) / h)) as ->.
    { rewrite E. apply wrap_congr. by rewrite <- Zplus_mod_idemp_l, wrap_mod, Zplus_mod_idemp_l. }
    eexists. by split.
  - rewrite E, Z.add_0_r. eexists. by split.
Qed.

Lemma timer_loop_ok fuel : forall w k,
  0 <= k -> k + Z.of_nat fuel < 2 ^ 63 ->
  now w + Z.of_nat fuel * (tick_interval config + slack) <= INSTANT_MAX ->
  exists r evs n, timer_loop timestamp_now stop_at oversleep fuel config h w (ticked k) = Ret (r, evs) /\
    map erase_ts evs = schedule (tc_source_id config) h (k + 1) n /\
    (n <= fuel)%nat /\ (r = false -> n = fuel) /\
    (forall T, stop_at = Some T -> T <= now w + (Z.of_nat fuel - 1) * tick_interval config ->
       (0 < fuel)%nat -> r = true).
Proof.
  induction fuel as [|fuel IH]; intros w k Hk Hf Hmax.
  { exists false, [], 0%nat. split_and!; try done. lia. }
  pose proof (oversleep_bound 0) as Hov. cbn [timer_loop].
  destruct (interruptible_sleep_ok stop_at oversleep slack oversleep_bound (tick_interval config) w)
    as (b & w' & Es & Hb & Hnow & Hdl & _); [lia|nia|]. rewrite Es. cbn [mbind outcome_bind].
  destruct b; [exists true, [], 0%nat; split_and!; done || lia|].
  rewrite <- Hb. specialize (Hdl eq_refl).
  destruct (timer_tick_ok w' k) as (evs & Et & Eevs); [lia|]. rewrite Et. cbn [mbind outcome_bind].
  destruct (IH w' (k + 1)) as (r & evs' & n & El & Eevs' & Hn & Hr & HT); [lia|lia|nia|].
  rewrite El. cbn [mbind outcome_bind]. exists r, (evs ++ evs'), (S n). split_and!.
  - done.
  - rewrite map_app, Eevs, Eevs'. done.
  - lia.
  - intros E. f_equal. by apply Hr.
  - intros T ET Hle _. unfold shutdown_load in Hb. rewrite ET in Hb. symmetry in Hb.
    apply Z.leb_gt in Hb. apply (HT T ET); [nia|]. destruct fuel; [|lia].
    exfalso. cbn in Hle. lia.
Qed.
End loop_theory.

(** * Spawning *)

Inductive TimerSpawnError := TConfig (e : TimerConfigError) | TSpawn.

(** [TimerThread::spawn]; [os_spawn] is whether the system creates the thread,
    which then runs [timer_loop] with the returned factor. *)
Definition timer_spawn (os_spawn : bool) (config : TimerConfig) : result Z TimerSpawnError :=
  match validate config with
  | Err e => Err (TConfig e)
  | Ok heartbeat_every => if os_spawn then Ok heartbeat_every else Err TSpawn
  end.

(** * Properties *)

(** C40.  The timer's schedule, for an accepted configuration, whatever the
    sleeps overshoot and whenever shutdown is requested.  While the clock stays
    within the instants of the system, the thread has pushed after [n]
    iterations exactly the events of some number [k <= n] of ticks ([k = n]
    while it runs): tick events, and after every [h]-th tick a heartbeat that
    counts them, with consecutive sequence numbers from 1; once shutdown is
    requested the thread returns at the latest in the first iteration that
    starts after the request.  A tick interval that reaches past the last
    instant, which validation accepts, panics in the first iteration. *)
Theorem timer_schedule `{BuildProfile} timestamp_now stop_at oversleep slack config h w n :
  validate config = Ok h ->
  is_duration (tick_interval config) -> is_duration (heartbeat_interval config) ->
  (forall j, 0 <= oversleep j <= slack) -> (0 < n)%nat -> Z.of_nat n < 2 ^ 63 ->
  (now w + Z.of_nat n * (tick_interval config + slack) <= INSTANT_MAX ->
   exists r evs k,
    timer_loop timestamp_now stop_at oversleep n config h w timer_init = Ret (r, evs) /\
    (k <= n)%nat /\ (r = false -> k = n) /\
    map erase_ts evs = schedule (tc_source_id config) h 1 k /\
    event_seqs evs = seqZ 1 (Z.of_nat k + Z.of_nat k / h) /\
    (forall T, stop_at = Some T -> T <= now w + (Z.of_nat n - 1) * tick_interval config -> r = true)) /\
  (INSTANT_MAX < now w + tick_interval config ->
   timer_loop timestamp_now stop_at oversleep n config h w timer_init = Panic).
Proof.
  intros Hv Ht Hb Hov Hn Hmax. apply validate_spec in Hv as (Hpos & _ & Hh); [|done..]. split.
  2: { intros Hp. destruct n as [|n]; [lia|]. cbn [timer_loop]. by rewrite interruptible_sleep_overflow. }
  intros Hclock.
  destruct (timer_loop_ok timestamp_now stop_at oversleep slack Hov config h Hpos ltac:(lia) n w 0)
    as (r & evs & k & El & Ee & Hk & Hr & HT); [lia..|].
  change (ticked h 0) with timer_init in El. rewrite Z.add_0_l in Ee. exists r, evs, k. split_and!; auto; [|by eauto].
  pose proof (schedule_seqs (tc_source_id config) h k 0 ltac:(lia) ltac:(lia)) as Es.
  rewrite Z.div_0_l, Z.sub_0_r, !Z.add_0_l in Es by lia. rewrite <- Es, <- Ee.
  unfold event_seqs. rewrite map_map. apply map_ext. done.
Qed.

(** Ticks of 50 ms, heartbeats every 200 ms, shutdown after 225 ms; and ticks of
    [Duration::MAX]. *)
Lemma timer_schedule_witness :
  let config := {| tc_name := "timer"; tick_interval := 50 * MILLI; heartbeat_interval := 200 * MILLI;
                   tc_source_id := source_from_raw 9; tc_core_id := None |} in
  let longest := {| tc_name := "timer"; tick_interval := DURATION_MAX; heartbeat_interval := DURATION_MAX;
                    tc_source_id := source_from_raw 9; tc_core_id := None |} in
  (exists evs, @timer_loop debug_profile (fun w => from_nanos (now w)) (Some (225 * MILLI)) (fun _ => 0) 10
                config 4 (World 0 0) timer_init = Ret (true, evs) /\ event_seqs evs = seqZ 1 5)
  /\ @timer_loop debug_profile (fun w => from_nanos (now w)) None (fun _ => 0) 1 longest 1 (World 0 0) timer_init = Panic.
Proof.
  intros config longest.
  destruct (@timer_schedule debug_profile (fun w => from_nanos (now w)) (Some (225 * MILLI)) (fun _ => 0) 0
              config 4 (World 0 0) 10) as [Hr _];
    [reflexivity|by apply (bool_decide_unpack _)..|lia|lia|done|].
  destruct (@timer_schedule debug_profile (fun w => from_nanos (now w)) None (fun _ => 0) 0
              longest 1 (World 0 0) 1) as [_ Hp];
    [reflexivity|by apply (bool_decide_unpack _)..|lia|lia|done|].
  split; [|apply Hp; reflexivity].
  destruct Hr as (r & evs & k & E & _ & _ & _ & Es & _); [by apply (bool_decide_unpack _)|].
  vm_compute in E. injection E as <- <-. eexists. split; vm_compute; reflexivity.
Defined.
