(* ===== verification/Feed.v ===== *)
(** * Feed threads ([crates/transport]: feed.rs, ws.rs, monitor.rs)

    A feed thread connects to a WebSocket, hands every text frame to a
    callback and reconnects with exponential backoff; the monitor compares
    event counters between checks to find silent feeds.  The socket
    ([tungstenite]) is a parameter, and so are the answers of the network, the
    callback and the clock, which arrive as inputs of the feed's state machine. *)

From Stdlib Require Import ZArith Lia.
From Stdlib.Floats Require Import SpecFloat.
From stdpp Require Import base decidable numbers option tactics strings list.
From S2P Require Import Prelude Float64 Types Timer.

#[local] Open Scope Z_scope.

(** * Backoff (feed.rs) *)

Record BackoffConfig := {
  bo_initial : Duration;
  bo_max : Duration;
  jitter_factor : f64;
}.

Definition backoff_default : BackoffConfig :=
  {| bo_initial := 1 * SECOND; bo_max := 30 * SECOND; jitter_factor := f64_lit 125 3 |}.

(** [Duration::saturating_mul]. *)
Definition duration_saturating_mul (d : Duration) (k : Z) : Duration := Z.min (d * k) DURATION_MAX.

(** [delay]; [nanos] is the sub-second part of the system time. *)
Definition backoff_delay (cfg : BackoffConfig) (nanos attempt : Z) : Duration :=
  let base := duration_saturating_mul (bo_initial cfg) (wrap U32 (Z.shiftl 1 (Z.min attempt 20))) in
  let capped := Z.min base (bo_max cfg) in
  if f64_le (jitter_factor cfg) (f64_of_Z 0) then capped
  else
    let millis := f64_of_Z (capped / MILLI) in
    let jitter_range := f64_mul millis (jitter_factor cfg) in
    let jitter_ms :=
      f64_sub (f64_mul (f64_mul (f64_div (f64_of_Z (nanos mod 1000)) (f64_of_Z 1000)) jitter_range)
                 (f64_of_Z 2)) jitter_range in
    let ms := f64_add millis jitter_ms in
    f64_to U64 (f64_max ms (f64_of_Z 100)) * MILLI.

(** * WebSocket connection (ws.rs) *)

Abbreviation bytes := (list Z).

Inductive Message :=
  | MText (text : bytes) | MPing (d : bytes) | MPong (d : bytes) | MBinary (d : bytes)
  | MFrame (d : bytes) | MClose.

(** The errors of the socket that the code tells apart. *)
Inductive socket_error := WouldBlock | TimedOut | OtherError.

Inductive WsError := WConnect | WRead | WSend | WClosed.

Record WsConfig := {
  url : string;
  subscribe_msg : option string;
  ping_interval : option Duration;
  read_timeout : option Duration;
}.

Definition ws_polymarket (u : string) : WsConfig :=
  {| url := u; subscribe_msg := None; ping_interval := Some (10 * SECOND);
     read_timeout := Some (15 * SECOND) |}.
Definition ws_binance (u : string) : WsConfig :=
  {| url := u; subscribe_msg := None; ping_interval := None; read_timeout := Some (35 * SECOND) |}.

(** [tungstenite]'s socket, with the clock its operations advance. *)
Class Socket (S : Type) := {
  sock_read : S -> result Message socket_error * S;
  sock_send : Message -> S -> bool * S;  (* [false]: the send failed *)
  sock_now : S -> Z;
}.

Definition text_PING : bytes := [80; 73; 78; 71].
Definition text_PONG : bytes := [80; 79; 78; 71].

Record WsConnection (S : Type) := Conn { ws : S; conn_config : WsConfig; last_ping : Z }.
Arguments Conn {S} _ _ _.
Arguments ws {S} _.
Arguments conn_config {S} _.
Arguments last_ping {S} _.

Section connection.
Context {S : Type} `{Socket S}.
Implicit Types c : WsConnection S.

Definition send_ping c : result unit WsError * WsConnection S :=
  let '(ok, s) := sock_send (MText text_PING) (ws c) in
  if ok then (Ok tt, Conn s (conn_config c) (sock_now s))
  else (Err WSend, Conn s (conn_config c) (last_ping c)).

Definition maybe_send_ping c : result unit WsError * WsConnection S :=
  match ping_interval (conn_config c) with
  | Some interval =>
      if interval <=? Z.max 0 (sock_now (ws c) - last_ping c) then send_ping c else (Ok tt, c)
  | None => (Ok tt, c)
  end.

(** [read_bytes]: the result, the connection and the buffer afterwards. *)
Definition read_bytes c (buf : bytes) : result Z WsError * WsConnection S * bytes :=
  match maybe_send_ping c with
  | (Err e, c1) => (Err e, c1, buf)
  | (Ok _, c1) =>
      let '(res, s) := sock_read (ws c1) in
      let c2 := Conn s (conn_config c1) (last_ping c1) in
      match res with
      | Ok (MText text) =>
          if bool_decide (text = text_PONG) then (Ok 0, c2, buf)
          else (Ok (Z.of_nat (length text)), c2, text)
      | Ok (MPing d) =>
          let '(ok, s') := sock_send (MPong d) s in
          let c3 := Conn s' (conn_config c2) (last_ping c2) in
          (if ok then Ok 0 else Err WSend, c3, buf)
      | Ok (MPong _) | Ok (MBinary _) | Ok (MFrame _) => (Ok 0, c2, buf)
      | Ok MClose => (Err WClosed, c2, buf)
      | Err (WouldBlock | TimedOut) =>
          match maybe_send_ping c2 with
          | (Err e, c3) => (Err e, c3, buf)
          | (Ok _, c3) => (Ok 0, c3, buf)
          end
      | Err OtherError => (Err WRead, c2, buf)
      end
  end.

Definition string_bytes (s : string) : bytes :=
  map (fun a => Z.of_N (Ascii.N_of_ascii a)) (String.list_ascii_of_string s).

(** [connect]: [into_request] parses the URL, [dial] connects, [configure] sets
    the read timeout and [TCP_NODELAY]. *)
Definition ws_connect (into_request : string -> bool) (dial : string -> option S)
    (configure : option Duration -> S -> bool) (config : WsConfig) : result (WsConnection S) WsError :=
  if negb (into_request (url config)) then Err WConnect
  else match dial (url config) with
       | None => Err WConnect
       | Some s =>
           if negb (configure (read_timeout config) s) then Err WConnect
           else
             let c := Conn s config (sock_now s) in
             match subscribe_msg config with
             | Some sub =>
                 let '(ok, s') := sock_send (MText (string_bytes sub)) s in
                 if ok then Ok (Conn s' config (last_ping c)) else Err WSend
             | None => Ok c
             end
       end.
End connection.

(** * The feed loop (feed.rs) *)

(** Where [feed_loop] is: at the [while], reading from a connection, asleep
    before the next connection, or returned. *)
Inductive phase := FTop | FRead | FSleep | FExit.

(** What [read_bytes] answered, with the callback's verdict on a message. *)
Inductive read_result := RdNone | RdMsg (msg : bytes) (continue : bool) | RdFail (e : WsError).

(** How the loop reads the answer of [read_bytes]: [Ok(0)] is no data, any other
    length is a message in [buf], which goes to the callback. *)
Definition read_outcome (on_message : bytes -> bool) (res : result Z WsError) (buf : bytes) : read_result :=
  match res with
  | Ok n => if n =? 0 then RdNone else RdMsg buf (on_message buf)
  | Err e => RdFail e
  end.

(** What the thread learns at each step: the shutdown flag, and the outcome of
    [connect], of [read_bytes] or of [interruptible_sleep]. *)
Inductive input :=
  | IConnect (stop connected : bool)
  | IRead (stop : bool) (res : read_result)
  | ISleep (stop : bool).

(** What it does: sleeps for [delay(attempt)], calls [on_message]. *)
Inductive output := ODelay (attempt : Z) | OMessage (msg : bytes).

Record feed_state := LoopState {
  fs_phase : phase;
  fs_attempt : Z;
  fs_reconnects : Z;
  fs_msg_count : Z;
}.

Definition feed_init : feed_state := LoopState FTop 0 0 0.

(** [let delay = backoff.delay(attempt); attempt = attempt.saturating_add(1)]. *)
Definition back_off (s : feed_state) : feed_state * list output :=
  (LoopState FSleep (saturate U32 (fs_attempt s + 1)) (fs_reconnects s) (fs_msg_count s),
   [ODelay (fs_attempt s)]).

(** One step of [feed_loop]; [None] when the input is not for this phase. *)
Definition feed_step (s : feed_state) (i : input) : option (feed_state * list output) :=
  match fs_phase s, i with
  | FTop, IConnect stop connected =>
      if stop then Some (LoopState FExit (fs_attempt s) (fs_reconnects s) (fs_msg_count s), [])
      else if connected then
        let reconnects :=
          if 0 <? fs_attempt s then wrap U64 (fs_reconnects s + 1) else fs_reconnects s in
        Some (LoopState FRead 0 reconnects (fs_msg_count s), [])
      else Some (back_off s)
  | FRead, IRead stop res =>
      if stop then Some (LoopState FExit (fs_attempt s) (fs_reconnects s) (fs_msg_count s), [])
      else match res with
           | RdNone => Some (s, [])
           | RdMsg msg continue =>
               let count := wrap U64 (fs_msg_count s + 1) in
               Some (LoopState (if continue then FRead else FExit) (fs_attempt s) (fs_reconnects s) count,
                     [OMessage msg])
           | RdFail _ => Some (back_off s)
           end
  | FSleep, ISleep stop =>
      Some (LoopState (if stop then FExit else FTop) (fs_attempt s) (fs_reconnects s) (fs_msg_count s), [])
  | _, _ => None
  end.

Fixpoint feed_run (ins : list input) (s : feed_state) : option (feed_state * list output) :=
  match ins with
  | [] => Some (s, [])
  | i :: ins' =>
      match feed_step s i with
      | None => None
      | Some (s1, out1) =>
          match feed_run ins' s1 with
          | None => None
          | Some (s2, out2) => Some (s2, out1 ++ out2)
          end
      end
  end.

(** * The liveness monitor (monitor.rs) *)

Definition MAX_FEEDS : nat := 8.

(** [event_count] is a shared [Arc<AtomicU64>]: the name of a counter. *)
Record FeedState := MonFeed {
  event_count : nat;
  last_seen : Z;
  mf_source_id : SourceId;
  stale : bool;
  first_check : bool;
}.

Record FeedMonitor := Monitor { mon_feeds : list (option FeedState); mon_len : nat }.

Record StaleFeedInfo := StaleInfo { si_source_id : SourceId; si_last_event_count : Z }.

Inductive MonitorFullError := MonitorFull.

Definition monitor_new : FeedMonitor := Monitor (replicate MAX_FEEDS None) 0.

Section monitor.
Context `{BuildProfile}.

(** The counters' current values. *)
Implicit Types (counters : nat -> Z) (m : FeedMonitor).

Definition mon_register counters m (source_id : SourceId) (counter : nat)
    : outcome (FeedMonitor * result unit MonitorFullError) :=
  if (MAX_FEEDS <=? mon_len m)%nat then Ret (m, Err MonitorFull)
  else
    let current := counters counter in
    feeds ← set_index (mon_feeds m) (mon_len m)
              (Some (MonFeed counter current source_id false true));
    len ← arith USIZE (Z.of_nat (mon_len m) + 1);
    Ret (Monitor feeds (Z.to_nat len), Ok tt).

(** The body of the loop of [check_all]: the slot afterwards, and whether it
    counts as stale. *)
Definition check_slot counters (slot : option FeedState) : option FeedState * bool :=
  match slot with
  | None => (None, false)
  | Some feed =>
      let current := counters (event_count feed) in
      if first_check feed then
        (Some (MonFeed (event_count feed) current (mf_source_id feed) (stale feed) false), false)
      else
        let st := current =? last_seen feed in
        (Some (MonFeed (event_count feed) current (mf_source_id feed) st (first_check feed)), st)
  end.

Definition check_all counters m : FeedMonitor * nat :=
  let checked := map (check_slot counters) (take (mon_len m) (mon_feeds m)) in
  (Monitor (map fst checked ++ drop (mon_len m) (mon_feeds m)) (mon_len m),
   length (filter (fun p => snd p = true) checked)).

Definition stale_feeds m : list StaleFeedInfo :=
  omap (fun slot => match slot with
                    | Some feed => if stale feed then Some (StaleInfo (mf_source_id feed) (last_seen feed))
                                   else None
                    | None => None
                    end) (take (mon_len m) (mon_feeds m)).

Definition is_stale m (source_id : SourceId) : bool :=
  existsb (fun slot => match slot with
                       | Some f => bool_decide (mf_source_id f = source_id) && stale f
                       | None => false
                       end) (take (mon_len m) (mon_feeds m)).

Definition mon_is_empty m : bool := (mon_len m =? 0)%nat.
End monitor.

(** * Adapters (polymarket/market.rs, binance/reference.rs) *)

(** tuning.rs; [busy_poll_us] with the feature [tuning]. *)
Record SocketTuning := { core_id : option nat; busy_poll_us : option Z }.

Record FeedConfig := {
  feed_name : string;
  feed_ws : WsConfig;
  feed_tuning : SocketTuning;
  feed_backoff : BackoffConfig;
}.

(** The errors [spawn] returns: a rejected configuration, or the system refusing
    to create the thread. *)
Inductive SpawnError := InvalidInput | OsSpawn.

(** [FeedThread::spawn]: [os_spawn] is whether the system creates the thread,
    which then runs the loop with the given configuration. *)
Definition feed_spawn (os_spawn : bool) (config : FeedConfig) : result FeedConfig SpawnError :=
  if os_spawn then Ok config else Err OsSpawn.

Definition WS_MARKET_URL : string := "wss://ws-subscriptions-clob.polymarket.com/ws/market".

(** [spawn_market_feed]; [json] is the subscription message that [serde_json]
    makes of the token identifiers. *)
Definition spawn_market_feed (os_spawn : bool) (json : list string -> string) (token_ids : list string)
    (core : option nat) (backoff : BackoffConfig) : result FeedConfig SpawnError :=
  if bool_decide (token_ids = []) then Err InvalidInput
  else feed_spawn os_spawn
            {| feed_name := "polymarket-market";
               feed_ws := {| url := WS_MARKET_URL; subscribe_msg := Some (json token_ids);
                             ping_interval := Some (10 * SECOND);
                             read_timeout := Some (15 * SECOND) |};
               feed_tuning := {| core_id := core; busy_poll_us := Some 50 |}; feed_backoff := backoff |}.

Definition WS_BASE : string := "wss://fstream.binance.com".

Definition book_ticker_url (symbols : list string) : string :=
  let streams := map (fun s => s +:+ "@bookTicker") symbols in
  match streams with
  | [s0] => WS_BASE +:+ "/ws/" +:+ s0
  | _ => WS_BASE +:+ "/stream?streams=" +:+ String.concat "/" streams
  end.

Definition spawn_reference_feed (os_spawn : bool) (symbols : list string) (core : option nat)
    (backoff : BackoffConfig) : result FeedConfig SpawnError :=
  if bool_decide (symbols = []) then Err InvalidInput
  else feed_spawn os_spawn
            {| feed_name := "binance-reference"; feed_ws := ws_binance (book_ticker_url symbols);
               feed_tuning := {| core_id := core; busy_poll_us := None |}; feed_backoff := backoff |}.

Example book_ticker_url_single :
  book_ticker_url ["btcusdt"] = "wss://fstream.binance.com/ws/btcusdt@bookTicker"%string.
Proof. reflexivity. Qed.

Example book_ticker_url_multi :
  book_ticker_url ["btcusdt"; "ethusdt"; "solusdt"] =
  "wss://fstream.binance.com/stream?streams=btcusdt@bookTicker/ethusdt@bookTicker/solusdt@bookTicker"%string.
Proof. reflexivity. Qed.

(** * What reaches the callback *)

(** The callback only ever sees text frames, whole, and neither the answers to
    the text pings nor empty frames. *)
Lemma read_delivers_text {S} `{Socket S} (c c' : WsConnection S) on_message buf buf' res msg k :
  read_bytes c buf = (res, c', buf') -> read_outcome on_message res buf' = RdMsg msg k ->
  msg <> [] /\ msg <> text_PONG /\ k = on_message msg /\
  exists s s', sock_read s = (Ok (MText msg), s') /\ ws c' = s'.
Proof.
  unfold read_bytes, read_outcome. destruct (maybe_send_ping c) as [[_u|_e] c1]; [|by intros [= <- _ _]].
  destruct (sock_read (ws c1)) as [[m|e] s] eqn:Er.
  - destruct m; try (by intros [= <- _ _]).
    + case_bool_decide as Hp; [by intros [= <- _ _]|]. intros [= <- <- <-].
      case_match eqn:Hn; [done|]. intros [= <- <-]. split_and!; [|done|done|by eauto].
      intros ->. by apply Z.eqb_neq in Hn.
    + destruct (sock_send _ s) as [[] ?]; by intros [= <- _ _].
  - destruct e; try (by intros [= <- _ _]).
    all: destruct (maybe_send_ping _) as [[] ?]; by intros [= <- _ _].
Qed.

(** * Backoff delays *)

(** Without jitter the delay doubles from the initial one, up to the maximum. *)
Lemma backoff_delay_plain cfg nanos attempt :
  f64_le (jitter_factor cfg) (f64_of_Z 0) = true -> 0 <= attempt ->
  is_duration (bo_initial cfg) -> is_duration (bo_max cfg) ->
  backoff_delay cfg nanos attempt = Z.min (bo_initial cfg * 2 ^ Z.min attempt 20) (bo_max cfg).
Proof.
  intros Hj Ha Hi Hm. unfold backoff_delay. rewrite Hj. unfold duration_saturating_mul, is_duration in *.
  rewrite Z.shiftl_1_l, wrap_id; [lia|].
  assert (2 ^ Z.min attempt 20 <= 2 ^ 20) by (apply Z.pow_le_mono_r; lia).
  assert (0 <= 2 ^ Z.min attempt 20) by (apply Z.pow_nonneg; lia). mlia.
Qed.

(** With jitter it can exceed the maximum: the default configuration waits up
    to 33.7 s although its maximum is 30 s. *)
Theorem backoff_exceeds_max :
  bo_max backoff_default < backoff_delay backoff_default 999 5 /\
  backoff_delay backoff_default 999 5 = 33742 * MILLI.
Proof. split; vm_compute; reflexivity. Qed.

(** * The feed loop *)

(** The lengths of the runs of failures (connections refused or lost) between
    successful connections; the last run is still open. *)
Fixpoint fail_runs (cur : nat) (ins : list input) : list nat :=
  match ins with
  | [] => [cur]
  | IConnect false true :: ins' => cur :: fail_runs 0 ins'
  | IConnect false false :: ins' | IRead false (RdFail _) :: ins' => fail_runs (S cur) ins'
  | _ :: ins' => fail_runs cur ins'
  end.

Definition delays (outs : list output) : list Z :=
  omap (fun o => match o with ODelay a => Some a | OMessage _ => None end) outs.
Definition delivered (outs : list output) : list bytes :=
  omap (fun o => match o with OMessage m => Some m | ODelay _ => None end) outs.
Definition received (ins : list input) : list bytes :=
  omap (fun i => match i with IRead false (RdMsg m _) => Some m | _ => None end) ins.

(** Successful connections after at least one failure. *)
Definition reconnections (runs : list nat) : nat := length (filter (fun k => (0 < k)%nat) (removelast runs)).

Lemma fail_runs_ne cur ins : fail_runs cur ins <> [].
Proof.
  revert cur. induction ins as [|i ins IH]; intros cur; [done|].
  destruct i as [[] []|[] []|]; cbn; auto; discriminate.
Qed.

Lemma reconnections_cons k runs :
  runs <> [] -> reconnections (k :: runs) = ((if (0 <? k)%nat then 1 else 0) + reconnections runs)%nat.
Proof.
  intros Hne. unfold reconnections. destruct runs as [|r runs]; [done|].
  change (removelast (k :: r :: runs)) with (k :: removelast (r :: runs)).
  destruct (Nat.ltb_spec 0 k);
    [rewrite filter_cons_True by done|rewrite filter_cons_False by lia]; done.
Qed.

(** A step's share of the runs, deliveries and counters. *)
Lemma feed_step_ok s i s1 out1 (cur : nat) ins :
  feed_step s i = Some (s1, out1) -> fs_attempt s = Z.of_nat cur -> Z.of_nat cur < tmax U32 ->
  0 <= fs_reconnects s < tmax U64 -> 0 <= fs_msg_count s < tmax U64 ->
  exists cur1 : nat, fs_attempt s1 = Z.of_nat cur1 /\ (cur1 <= S cur)%nat /\
    (fail_runs cur (i :: ins) = fail_runs cur1 ins /\ delays out1 = seqZ (Z.of_nat cur) (Z.of_nat cur1 - Z.of_nat cur)
       /\ (cur <= cur1)%nat /\ fs_reconnects s1 = fs_reconnects s \/
     fail_runs cur (i :: ins) = cur :: fail_runs 0 ins /\ cur1 = 0%nat /\ out1 = [] /\
       fs_reconnects s1 = fs_reconnects s + (if (0 <? cur)%nat then 1 else 0)) /\
    delivered out1 = received [i] /\
    fs_msg_count s1 = fs_msg_count s + Z.of_nat (length (received [i])).
Proof.
  intros Hs Ha Hcur Hrec Hmsg. destruct s as [ph at_ rec msg]. cbn in Ha, Hrec, Hmsg. subst at_.
  unfold feed_step in Hs. cbn [fs_phase fs_attempt fs_reconnects fs_msg_count] in Hs.
  assert (saturate U32 (Z.of_nat cur + 1) = Z.of_nat (S cur)) as Esat by (rewrite saturate_id by mlia; lia).
  assert (forall k, seqZ k (Z.of_nat (S cur) - Z.of_nat cur) = [k]) as Eone
    by (intros k; replace (Z.of_nat (S cur) - Z.of_nat cur) with 1 by lia; cbn; f_equal; lia).
  assert (forall k, seqZ k (Z.of_nat cur - Z.of_nat cur) = []) as Enil by (intros k; by rewrite Z.sub_diag).
  unfold back_off in Hs. cbn [fs_phase fs_attempt fs_reconnects fs_msg_count] in Hs.
  destruct ph, i as [[] []|[] []|[]]; try discriminate; injection Hs as <- <-;
    cbn [fs_phase fs_attempt fs_reconnects fs_msg_count fail_runs];
    try (exists cur; cbn; rewrite Enil; split_and!; try done; try lia; left; by split_and!).
  - exists 0%nat. split_and!; try done; [lia| |cbn; lia]. right. split_and!; try done.
    destruct (Nat.ltb_spec 0 cur), (Z.ltb_spec 0 (Z.of_nat cur)); try lia. rewrite wrap_id by mlia. done.
  - exists (S cur). rewrite Esat. split_and!; try done; [|cbn; lia].
    left. rewrite Eone. split_and!; try done. lia.
  - exists cur. rewrite Enil. split_and!; try done; [lia| |].
    + left. by split_and!.
    + rewrite wrap_id by mlia. cbn. lia.
  - exists (S cur). rewrite Esat. split_and!; try done; [|cbn; lia].
    left. rewrite Eone. split_and!; try done. lia.
Qed.

Lemma delays_app a b : delays (a ++ b) = delays a ++ delays b.
Proof. unfold delays. apply omap_app. Qed.
Lemma delivered_app a b : delivered (a ++ b) = delivered a ++ delivered b.
Proof. unfold delivered. apply omap_app. Qed.
Lemma received_cons i ins : received (i :: ins) = received [i] ++ received ins.
Proof. unfold received. change (i :: ins) with ([i] ++ ins). apply omap_app. Qed.

Definition run_delays (runs : list nat) : list Z := concat (map (fun k => seqZ 0 (Z.of_nat k)) runs).

Lemma feed_run_ok ins : forall s s' outs (cur : nat),
  feed_run ins s = Some (s', outs) -> fs_attempt s = Z.of_nat cur ->
  Z.of_nat cur + Z.of_nat (length ins) < tmax U32 ->
  0 <= fs_reconnects s /\ fs_reconnects s + Z.of_nat (length ins) <= tmax U64 ->
  0 <= fs_msg_count s /\ fs_msg_count s + Z.of_nat (length ins) <= tmax U64 ->
  let runs := fail_runs cur ins in
  seqZ 0 (Z.of_nat cur) ++ delays outs = run_delays runs /\
  fs_reconnects s' = fs_reconnects s + Z.of_nat (reconnections runs) /\
  delivered outs = received ins /\
  fs_msg_count s' = fs_msg_count s + Z.of_nat (length (received ins)).
Proof.
  induction ins as [|i ins IH]; intros s s' outs cur Hrun Ha Hc Hr Hm; cbn [feed_run] in Hrun; cbv zeta.
  { injection Hrun as <- <-. unfold run_delays, reconnections. cbn [map concat fail_runs].
    rewrite !app_nil_r. cbn. split_and!; done || lia. }
  cbn [length] in *.
  destruct (feed_step s i) as [[s1 out1]|] eqn:Es; [|discriminate].
  destruct (feed_run ins s1) as [[s2 out2]|] eqn:Er; [|discriminate]. injection Hrun as <- <-.
  destruct (feed_step_ok s i s1 out1 cur ins Es Ha) as (cur1 & Ha1 & Hle & Hcase & Hdel & Hmsg); [lia..|].
  assert (length (received [i]) <= 1)%nat as Hone by (destruct i as [[] []|[] []|[]]; cbn; lia).
  assert (fs_reconnects s <= fs_reconnects s1 <= fs_reconnects s + 1) as Hr1.
  { destruct Hcase as [(_ & _ & _ & E)|(_ & _ & _ & E)]; rewrite E; [lia|destruct (0 <? cur)%nat; lia]. }
  destruct (IH s1 s2 out2 cur1 Er Ha1) as (Hd & Hrec & Hdl & Hmc); [lia..|].
  rewrite delays_app, delivered_app, received_cons, length_app, Hdel, Hdl, Hmc, Hmsg, Hrec.
  split_and!; [| |done|lia]; destruct Hcase as [(Ef & Ed & Hge & Er1)|(Ef & -> & Eo & Er1)];
    rewrite Ef, ?Ed, ?Eo, ?Er1.
  - rewrite <- Hd, app_assoc. f_equal.
    replace (Z.of_nat cur1) with (Z.of_nat cur + (Z.of_nat cur1 - Z.of_nat cur)) at 2 by lia.
    rewrite seqZ_app by lia. done.
  - unfold run_delays in *. cbn [map concat]. rewrite <- Hd. done.
  - lia.
  - rewrite reconnections_cons by apply fail_runs_ne. destruct (0 <? cur)%nat; lia.
Qed.

(** Shutdown stops the thread at its next check. *)
Lemma feed_stops s i :
  match i with IConnect stop _ | IRead stop _ | ISleep stop => stop = true end ->
  match feed_step s i with
  | Some (s', outs) => fs_phase s' = FExit /\ outs = []
  | None => True
  end.
Proof.
  intros Hi. destruct s as [[] ? ? ?], i as [stop c|stop r|stop]; cbn; try done; subst stop; done.
Qed.

(** * The monitor *)

(** Abstractly, a feed is its source, its counter and the counter's values at
    the checks since it was registered. *)
Record watched := Watched { w_source : SourceId; w_counter : nat; w_obs : list Z }.

Definition silent (f : watched) : bool :=
  match reverse (w_obs f) with v :: v' :: _ => v =? v' | _ => false end.

Inductive mon_op := MRegister (src : SourceId) (counter : nat) | MCheck.

(** The monitor as a list of watched feeds. *)
Definition spec_op (counters : nat -> Z) (op : mon_op) (fs : list watched) : list watched :=
  match op with
  | MRegister src c => if (MAX_FEEDS <=? length fs)%nat then fs else fs ++ [Watched src c []]
  | MCheck => map (fun f => Watched (w_source f) (w_counter f) (w_obs f ++ [counters (w_counter f)])) fs
  end.

Definition mon_step `{BuildProfile} (counters : nat -> Z) (op : mon_op) (m : FeedMonitor) : outcome FeedMonitor :=
  match op with
  | MRegister src c => '(m', _) ← mon_register counters m src c; Ret m'
  | MCheck => Ret (fst (check_all counters m))
  end.

(** The operations with the counters' values at the time of each. *)
Fixpoint mon_run `{BuildProfile} (ops : list ((nat -> Z) * mon_op)) (m : FeedMonitor) : outcome FeedMonitor :=
  match ops with
  | [] => Ret m
  | (counters, op) :: ops' => m' ← mon_step counters op m; mon_run ops' m'
  end.

Fixpoint spec_run (ops : list ((nat -> Z) * mon_op)) (fs : list watched) : list watched :=
  match ops with
  | [] => fs
  | (counters, op) :: ops' => spec_run ops' (spec_op counters op fs)
  end.

(** The slot that represents a watched feed; the value seen at registration
    is replaced at the first check. *)
Definition slot_ok (slot : option FeedState) (f : watched) : Prop :=
  exists ls, slot = Some (MonFeed (w_counter f) ls (w_source f) (silent f) (bool_decide (w_obs f = []))) /\
    (w_obs f <> [] -> last (w_obs f) = Some ls).

Definition mon_ok (m : FeedMonitor) (fs : list watched) : Prop :=
  mon_len m = length fs /\ (length fs <= MAX_FEEDS)%nat /\
  exists slots, mon_feeds m = slots ++ replicate (MAX_FEEDS - length fs) None /\ Forall2 slot_ok slots fs.

Lemma check_slot_ok counters slot f :
  slot_ok slot f ->
  let f' := Watched (w_source f) (w_counter f) (w_obs f ++ [counters (w_counter f)]) in
  slot_ok (fst (check_slot counters slot)) f' /\ snd (check_slot counters slot) = silent f'.
Proof.
  intros (ls & -> & Hls) f'. unfold check_slot. cbn [first_check event_count last_seen mf_source_id stale].
  destruct f as [src c obs]. unfold f', slot_ok, silent in *. cbn [w_source w_counter w_obs] in *.
  rewrite reverse_snoc, (bool_decide_false (obs ++ _ = [])) by (by intros [_ ?]%app_eq_nil).
  destruct obs as [|v obs] using rev_ind; [by split; [eexists|]|]. clear IHobs.
  rewrite bool_decide_false by (by intros [_ ?]%app_eq_nil).
  rewrite last_snoc in Hls. rewrite reverse_snoc. cbn.
  specialize (Hls ltac:(by intros [_ ?]%app_eq_nil)). injection Hls as ->.
  split; [|done]. eexists. split; [done|]. intros _. by rewrite last_snoc.
Qed.

Lemma mon_ok_new : mon_ok monitor_new [].
Proof. split; [done|]. split; [cbn; lia|]. exists []. by split. Qed.

Lemma mon_slots m fs :
  mon_ok m fs -> Forall2 slot_ok (take (mon_len m) (mon_feeds m)) fs /\
  drop (mon_len m) (mon_feeds m) = replicate (MAX_FEEDS - length fs) None.
Proof.
  intros (El & _ & slots & Ef & Hslots). pose proof (Forall2_length _ _ _ Hslots) as Hlen.
  rewrite Ef, El, <- Hlen. by rewrite take_app_length, drop_app_length.
Qed.

Lemma mon_register_ok `{BuildProfile} counters m fs src c :
  mon_ok m fs ->
  exists m', mon_register counters m src c
    = Ret (m', if (MAX_FEEDS <=? length fs)%nat then Err MonitorFull else Ok tt) /\
    mon_ok m' (spec_op counters (MRegister src c) fs).
Proof.
  intros (El & Hle & slots & Ef & Hslots). pose proof (Forall2_length _ _ _ Hslots) as Hlen.
  unfold mon_register, spec_op. rewrite El. destruct (Nat.leb_spec MAX_FEEDS (length fs)) as [Hge|Hlt].
  { eexists. split; [done|]. split_and!; [done..|]. by exists slots. }
  unfold MAX_FEEDS in *. rewrite set_index_ok
    by (rewrite Ef, length_app, length_replicate; lia). cbn [mbind outcome_bind].
  rewrite arith_ok by mlia. cbn [mbind outcome_bind]. eexists. split; [done|].
  unfold mon_ok, MAX_FEEDS. cbn [mon_len mon_feeds]. rewrite length_app. cbn [length]. split_and!; [lia|lia|].
  exists (slots ++ [Some (MonFeed c (counters c) src false true)]). split.
  - rewrite Ef, <- Hlen. replace (8 - length slots)%nat with (S (8 - (length slots + 1))) by lia.
    rewrite <- (Nat.add_0_r (length slots)) at 1. rewrite insert_app_r. cbn. by rewrite <- app_assoc.
  - apply Forall2_app; [done|]. constructor; [|constructor]. eexists. by split.
Qed.

Lemma check_all_ok counters m fs :
  mon_ok m fs ->
  mon_ok (fst (check_all counters m)) (spec_op counters MCheck fs) /\
  snd (check_all counters m) = length (filter (fun f => silent f = true) (spec_op counters MCheck fs)).
Proof.
  intros Hok. pose proof (mon_slots _ _ Hok) as [Hslots Hdrop]. destruct Hok as (El & Hle & _).
  unfold check_all, spec_op. cbn [fst snd]. rewrite Hdrop.
  set (slots := take (mon_len m) (mon_feeds m)) in *. clearbody slots. split.
  - unfold mon_ok. cbn [mon_len mon_feeds]. rewrite length_map. split_and!; [done..|].
    exists (map fst (map (check_slot counters) slots)). split; [done|]. rewrite map_map.
    apply Forall2_fmap. eapply Forall2_impl; [done|]. intros slot f Hf.
    by apply (check_slot_ok counters slot f Hf).
  - clear El Hle Hdrop. induction Hslots as [|slot f slots fs Hf Hslots IH]; [done|].
    cbn [map]. destruct (check_slot_ok counters slot f Hf) as [_ Hs].
    destruct (check_slot counters slot) as [slot' b]. cbn in Hs. subst b.
    destruct (silent _) eqn:E;
      [rewrite !filter_cons_True by done; cbn; by f_equal|rewrite !filter_cons_False by (cbn; congruence); done].
Qed.

Lemma mon_run_ok `{BuildProfile} ops : forall m fs,
  mon_ok m fs -> exists m', mon_run ops m = Ret m' /\ mon_ok m' (spec_run ops fs).
Proof.
  induction ops as [|[counters op] ops IH]; intros m fs Hok; [by exists m|]. cbn [mon_run spec_run].
  destruct op as [src c|].
  - destruct (mon_register_ok counters m fs src c Hok) as (m1 & E & Hok1).
    cbn [mon_step]. rewrite E. cbn [mbind outcome_bind]. by apply IH.
  - cbn [mon_step mbind outcome_bind]. by apply IH, check_all_ok.
Qed.

Lemma stale_feeds_ok m fs :
  mon_ok m fs ->
  stale_feeds m = omap (fun f => if silent f then StaleInfo (w_source f) <$> last (w_obs f) else None) fs /\
  forall src, is_stale m src = existsb (fun f => bool_decide (w_source f = src) && silent f) fs.
Proof.
  intros [Hslots _]%mon_slots. unfold stale_feeds, is_stale.
  induction Hslots as [|slot f slots fs (ls & -> & Hls) Hslots [IH1 IH2]]; [done|]. split.
  - cbn. destruct (silent f) eqn:Es; [|done]. destruct (decide (w_obs f = [])) as [E|E].
    + unfold silent in Es. by rewrite E in Es.
    + rewrite (Hls E). cbn. by f_equal.
  - intros src. cbn. by rewrite IH2.
Qed.

(** * Properties *)

(** The feed loop: in every run, the callback receives exactly the
    messages read from the connections, in order, and they are counted; the
    backoff restarts after every successful connection, so the delays are
    [delay(0), delay(1), ...] once per run of failures; and [reconnects] counts
    the connections made after at least one failure. *)
Theorem feed_loop_backoff (ins : list input) (s : feed_state) (outs : list output) :
  feed_run ins feed_init = Some (s, outs) -> Z.of_nat (length ins) < tmax U32 ->
  delays outs = run_delays (fail_runs 0 ins) /\
  fs_reconnects s = Z.of_nat (reconnections (fail_runs 0 ins)) /\
  delivered outs = received ins /\
  fs_msg_count s = Z.of_nat (length (received ins)).
Proof.
  intros Hrun Hlen. unfold_ranges.
  apply (feed_run_ok ins feed_init s outs 0 Hrun); [done|cbn; lia..].
Qed.

(** Refused, connected, one message, lost, refused, connected, lost. *)
Definition demo_inputs : list input :=
  [IConnect false false; ISleep false; IConnect false true; IRead false (RdMsg [65] true);
   IRead false (RdFail WClosed); ISleep false; IConnect false false; ISleep false;
   IConnect false true; IRead false (RdFail WRead)].

Lemma feed_loop_backoff_witness :
  let s := LoopState FSleep 1 2 1 in
  let outs := [ODelay 0; OMessage [65]; ODelay 0; ODelay 1; ODelay 0] in
  feed_run demo_inputs feed_init = Some (s, outs) /\
  delays outs = run_delays [1; 2; 1]%nat /\ fs_reconnects s = 2.
Proof.
  intros s outs. split; [reflexivity|]. split; [|reflexivity].
  apply (feed_loop_backoff demo_inputs s outs); reflexivity.
Defined.

(** C6.  The monitor: after any registrations and checks, with counters that
    change arbitrarily in between and may be shared, the monitor never
    panics, holds the first eight registered feeds, and calls a feed stale
    exactly when its counter had the same value at the last two checks since
    its registration; a check returns the number of stale feeds. *)
Theorem monitor_finds_silent_feeds `{BuildProfile} (ops : list ((nat -> Z) * mon_op)) :
  let fs := spec_run ops [] in
  exists m, mon_run ops monitor_new = Ret m /\
    mon_len m = length fs /\ (length fs <= MAX_FEEDS)%nat /\
    stale_feeds m = omap (fun f => if silent f then StaleInfo (w_source f) <$> last (w_obs f) else None) fs /\
    (forall src, is_stale m src = existsb (fun f => bool_decide (w_source f = src) && silent f) fs) /\
    (forall counters, snd (check_all counters m)
       = length (filter (fun f => silent f = true) (spec_op counters MCheck fs))).
Proof.
  intros fs. destruct (mon_run_ok ops _ _ mon_ok_new) as (m & Hrun & Hok). exists m.
  pose proof (stale_feeds_ok _ _ Hok) as [Hst His]. pose proof Hok as (El & Hle & _).
  split_and!; try done. intros counters. by apply check_all_ok.
Qed.
