(* ===== verification/FeedThread.v ===== *)
(** * The feed thread and its handle ([crates/transport]: feed.rs, tuning.rs, timer.rs)

    [feed_loop] iteration by iteration, over the connection of [Feed] and the
    sleeping of [Timer]: connecting, reading into the buffer, calling the
    callback, backing off and looking at the shutdown flag, with the handles
    that set the flag and join the thread.  The network is a parameter: which
    connections succeed, what the sockets return and how long it all takes.
    Time passes in the network and while sleeping; the callback takes none.
    The thread is shown to run the state machine of [Feed], and to end once it
    is told to. *)

From Stdlib Require Import ZArith Lia.
From stdpp Require Import base decidable numbers option tactics strings list.
From S2P Require Import Prelude Float64 Types Timer Feed.

#[local] Open Scope Z_scope.

(** * CPU pinning and busy polling (tuning.rs) *)

(** The crate [core_affinity]. *)
Class Affinity := { get_core_ids : option (list nat); set_for_current : nat -> bool }.

(** What [apply_affinity] did, as its log line says. *)
Inductive affinity := NotRequested | PinnedTo (core : nat) | PinFailed (core : nat) | CoreNotFound (core : nat).

Definition apply_affinity `{Affinity} (t : SocketTuning) : affinity :=
  match core_id t with
  | None => NotRequested
  | Some core =>
      let available := default [] get_core_ids in
      match List.find (fun c => bool_decide (c = core)) available with
      | Some id => if set_for_current id then PinnedTo core else PinFailed core
      | None => CoreNotFound core
      end
  end.

(** [apply_busy_poll]: the value given to [setsockopt], and whether it was
    accepted; nothing when none is configured. *)
Definition apply_busy_poll (setsockopt : Z -> Z -> Z) (t : SocketTuning) (fd : Z) : option (Z * bool) :=
  match busy_poll_us t with
  | None => None
  | Some us => let val := wrap I32 us in Some (val, setsockopt fd val =? 0)
  end.

(** * The thread *)

(** The network: URLs that parse, connections that succeed (the socket's clock
    is the instant at which it is ready) and can be configured, the instant at
    which a failed [connect] returns, and the system clock the jitter uses. *)
Class Network (S : Type) := {
  valid_url : string -> bool;
  dial : world -> string -> option S;
  set_timeouts : option Duration -> S -> bool;
  failed_at : world -> Z;
  subsec_nanos : world -> Z;
}.

(** The callback: whether to go on, the buffer, which it may change, and its
    own state. *)
Class Callback (C : Type) := on_message : C -> bytes -> bool * bytes * C.

Inductive feed_pc (S : Type) :=
| AtTop (w : world)
| Reading (conn : WsConnection S) (buf : bytes) (slept : nat)
| Returned (w : world)
| Panicked (w : world).
Arguments AtTop {S} _.
Arguments Reading {S} _ _ _.
Arguments Returned {S} _.
Arguments Panicked {S} _.

(** The locals of [feed_loop], the shared counters, the callback, and a record
    of the delays and messages. *)
Record feed_thread (S C : Type) := Thread {
  ft_pc : feed_pc S;
  ft_attempt : Z;
  ft_reconnects : Z;
  ft_msg_count : Z;
  ft_callback : C;
  ft_log : list output;
}.
Arguments Thread {S C} _ _ _ _ _ _.
Arguments ft_pc {S C} _.
Arguments ft_attempt {S C} _.
Arguments ft_reconnects {S C} _.
Arguments ft_msg_count {S C} _.
Arguments ft_callback {S C} _.
Arguments ft_log {S C} _.

Section thread.
Context {S C : Type} `{Socket S} `{Network S} `{Callback C}.
Context (stop_at : option Z) (oversleep : nat -> Z) (config : FeedConfig).
Implicit Types t : feed_thread S C.

Definition conn_world (conn : WsConnection S) (slept : nat) : world := World (sock_now (ws conn)) slept.

Definition pc_world (pc : feed_pc S) : world :=
  match pc with AtTop w | Returned w | Panicked w => w | Reading conn _ k => conn_world conn k end.

(** [let delay = ..; attempt = attempt.saturating_add(1);
    if interruptible_sleep(delay, shutdown) { return }]; the thread panics when
    the deadline is not an instant. *)
Definition sleep_off t (w : world) : option (feed_thread S C) :=
  let delay := backoff_delay (feed_backoff config) (subsec_nanos w) (ft_attempt t) in
  let go pc := Thread pc (saturate U32 (ft_attempt t + 1)) (ft_reconnects t) (ft_msg_count t) (ft_callback t)
                 (ft_log t ++ [ODelay (ft_attempt t)]) in
  match interruptible_sleep stop_at oversleep delay w with
  | Panic => Some (go (Panicked w))
  | Ret None => None
  | Ret (Some (stop, w')) => Some (go (if (stop : bool) then Returned w' else AtTop w'))
  end.

Definition goto_pc t (pc : feed_pc S) : feed_thread S C :=
  Thread pc (ft_attempt t) (ft_reconnects t) (ft_msg_count t) (ft_callback t) (ft_log t).

(** An iteration of the [while], up to the inner loop. *)
Definition top_iteration t (w : world) : option (feed_thread S C) :=
  if shutdown_load stop_at w then Some (goto_pc t (Returned w))
  else
    match ws_connect valid_url (dial w) set_timeouts (feed_ws config) with
    | Ok conn =>
        let reconnects := if 0 <? ft_attempt t then wrap U64 (ft_reconnects t + 1) else ft_reconnects t in
        Some (Thread (Reading conn [] (sleeps w)) 0 reconnects (ft_msg_count t) (ft_callback t) (ft_log t))
    | Err _ => sleep_off t (World (failed_at w) (sleeps w))
    end.

(** An iteration of the inner loop, and what follows its [break]. *)
Definition read_iteration t (conn : WsConnection S) (buf : bytes) (k : nat) : option (feed_thread S C) :=
  if shutdown_load stop_at (conn_world conn k) then Some (goto_pc t (Returned (conn_world conn k)))
  else
    let '(res, conn', buf') := read_bytes conn buf in
    match res with
    | Ok n =>
        if n =? 0 then Some (goto_pc t (Reading conn' buf' k))
        else
          let count := wrap U64 (ft_msg_count t + 1) in
          let '(continue, buf'', cb) := on_message (ft_callback t) buf' in
          Some (Thread (if (continue : bool) then Reading conn' buf'' k else Returned (conn_world conn' k))
                  (ft_attempt t) (ft_reconnects t) count cb (ft_log t ++ [OMessage buf']))
    | Err _ => sleep_off t (conn_world conn' k)
    end.

Definition iteration t : option (feed_thread S C) :=
  match ft_pc t with
  | AtTop w => top_iteration t w
  | Reading conn buf k => read_iteration t conn buf k
  | Returned _ | Panicked _ => Some t
  end.

Definition thread_new (cb : C) (w : world) : feed_thread S C := Thread (AtTop w) 0 0 0 cb [].

(** The loops of [feed_loop], for at most [fuel] iterations. *)
Fixpoint feed_loop (fuel : nat) t : option (feed_thread S C) :=
  match fuel with
  | O => Some t
  | Datatypes.S fuel => t' ← iteration t; feed_loop fuel t'
  end.

(** [feed_loop] as the thread starts it: it is pinned first. *)
Definition feed_main `{Affinity} (fuel : nat) (cb : C) (w : world) : affinity * option (feed_thread S C) :=
  (apply_affinity (feed_tuning config), feed_loop fuel (thread_new cb w)).

(** The frame an iteration reads from the socket. *)
Definition frame_read t : option Message :=
  match ft_pc t with
  | Reading conn buf k =>
      if shutdown_load stop_at (conn_world conn k) then None
      else match maybe_send_ping conn with
           | (Ok _, c) => match sock_read (ws c) with (Ok m, _) => Some m | _ => None end
           | (Err _, _) => None
           end
  | _ => None
  end.

Fixpoint frames_read (fuel : nat) t : list Message :=
  match fuel with
  | O => []
  | Datatypes.S fuel =>
      option_list (frame_read t) ++ match iteration t with Some t' => frames_read fuel t' | None => [] end
  end.

(** When an iteration fails, to connect or to read: the instant from which the
    thread backs off. *)
Definition failure t : option world :=
  match ft_pc t with
  | AtTop w =>
      if shutdown_load stop_at w then None
      else match ws_connect valid_url (dial w) set_timeouts (feed_ws config) with
           | Ok _ => None
           | Err _ => Some (World (failed_at w) (sleeps w))
           end
  | Reading conn buf k =>
      if shutdown_load stop_at (conn_world conn k) then None
      else match read_bytes conn buf with
           | (Err _, conn', _) => Some (conn_world conn' k)
           | _ => None
           end
  | _ => None
  end.

(** The backoffs of a run: the instant of the failure, and where the thread is
    after it. *)
Fixpoint waits (fuel : nat) t : list (world * feed_pc S) :=
  match fuel with
  | O => []
  | Datatypes.S fuel =>
      match iteration t with
      | Some t' => option_list ((fun w => (w, ft_pc t')) <$> failure t) ++ waits fuel t'
      | None => []
      end
  end.

(** The instant at which the network operation of an iteration ends: the
    connection attempt, or the read with its pings. *)
Definition net_end t : Z :=
  match ft_pc t with
  | AtTop w =>
      match ws_connect valid_url (dial w) set_timeouts (feed_ws config) with
      | Ok conn => sock_now (ws conn)
      | Err _ => failed_at w
      end
  | Reading conn buf _ => let '(_, conn', _) := read_bytes conn buf in sock_now (ws conn')
  | Returned w | Panicked w => now w
  end.
End thread.

(** The text a frame hands to the callback. *)
Definition frame_text (m : Message) : option bytes :=
  match m with
  | MText text => if bool_decide (text = [] \/ text = text_PONG) then None else Some text
  | _ => None
  end.

(** * Handles (feed.rs, timer.rs)

    [FeedHandle] and [TimerThread] share a flag with their thread and hold its
    join handle until [shutdown] takes it.  [th_stop] is the instant at which
    the flag was first set. *)

Record thread_handle := Handle { th_join : bool; th_stop : option Z }.

Definition handle_new : thread_handle := Handle true None.

(** [self.shutdown.store(true, Release)]. *)
Definition store_shutdown (h : thread_handle) (now : Z) : thread_handle :=
  Handle (th_join h) (match th_stop h with Some T => Some T | None => Some now end).

(** [Drop]: the flag only. *)
Definition handle_drop (h : thread_handle) (now : Z) : thread_handle := store_shutdown h now.

(** [shutdown]: the flag, then a join, which returns once the thread has
    ([exited]); the handle is dropped at the end of the call.  The handle
    afterwards and the instant at which the call returns. *)
Definition handle_shutdown (h : thread_handle) (now exited : Z) : thread_handle * Z :=
  let h1 := store_shutdown h now in
  let '(h2, t) := if th_join h1 then (Handle false (th_stop h1), Z.max now exited) else (h1, now) in
  (handle_drop h2 t, t).

(** [is_running]; [exited] is the instant at which the thread ended, if it did. *)
Definition is_running (h : thread_handle) (now : Z) (exited : option Z) : bool :=
  th_join h && match exited with Some e => now <? e | None => true end.

(** The feed's handle also carries counters; [drops] is created by [spawn] and
    given to nobody else, the other two are the thread's. *)
Record FeedHandle := { fh_thread : thread_handle; fh_drops : Z }.

(** [FeedThread::spawn], with the thread that is started at [w]. *)
Definition feed_thread_spawn {S C} (os_spawn : bool) (config : FeedConfig) (cb : C) (w : world)
    : result (FeedHandle * feed_thread S C) SpawnError :=
  match feed_spawn os_spawn config with
  | Ok _ => Ok ({| fh_thread := handle_new; fh_drops := 0 |}, thread_new cb w)
  | Err e => Err e
  end.

(** * Refinement: the thread runs the state machine of [Feed] *)

Section refinement.
Context {S C : Type} `{Socket S} `{Network S} `{Callback C}.
Context (stop_at : option Z) (oversleep : nat -> Z) (config : FeedConfig).
Implicit Types t : feed_thread S C.

Definition phase_of (pc : feed_pc S) : phase :=
  match pc with AtTop _ => FTop | Reading _ _ _ => FRead | Returned _ | Panicked _ => FExit end.
Definition loop_state t : feed_state := LoopState (phase_of (ft_pc t)) (ft_attempt t) (ft_reconnects t) (ft_msg_count t).

(** The callback after a list of messages. *)
Definition called (cb : C) (msgs : list bytes) : C := foldl (fun cb m => (on_message cb m).2) cb msgs.

(** [t'] is reached from [t] by the machine, on inputs in which the messages
    are the texts of [frames], and the callback was called with these. *)
Definition machine_runs t t' (frames : list Message) (k : nat) : Prop :=
  exists ins outs, feed_run ins (loop_state t) = Some (loop_state t', outs) /\ (length ins <= k)%nat
    /\ ft_log t' = ft_log t ++ outs /\ received ins = omap frame_text frames
    /\ ft_callback t' = called (ft_callback t) (omap frame_text frames).

Lemma feed_run_app ins1 : forall ins2 s s1 s2 outs1 outs2,
  feed_run ins1 s = Some (s1, outs1) -> feed_run ins2 s1 = Some (s2, outs2) ->
  feed_run (ins1 ++ ins2) s = Some (s2, outs1 ++ outs2).
Proof.
  induction ins1 as [|i ins1 IH]; intros ins2 s s1 s2 outs1 outs2 E1 E2; cbn in *; [by simplify_eq|].
  destruct (feed_step s i) as [[s' out]|]; [|done].
  destruct (feed_run ins1 s') as [[s'' outs']|] eqn:E; [|done]. injection E1 as -> <-.
  by rewrite (IH ins2 _ _ _ _ _ E E2), app_assoc.
Qed.

Lemma machine_runs_refl t k : machine_runs t t [] k.
Proof. exists [], []. rewrite app_nil_r. split_and!; cbn; done || lia. Qed.

Lemma machine_runs_trans t1 t2 t3 f1 f2 k1 k2 :
  machine_runs t1 t2 f1 k1 -> machine_runs t2 t3 f2 k2 -> machine_runs t1 t3 (f1 ++ f2) (k1 + k2).
Proof.
  intros (i1 & o1 & E1 & L1 & Lo1 & R1 & C1) (i2 & o2 & E2 & L2 & Lo2 & R2 & C2). exists (i1 ++ i2), (o1 ++ o2).
  split_and!.
  - by eapply feed_run_app.
  - rewrite length_app. lia.
  - by rewrite Lo2, Lo1, app_assoc.
  - unfold received in *. by rewrite !omap_app, R1, R2.
  - unfold called in *. by rewrite omap_app, foldl_app, C2, C1.
Qed.

(** A failure: the machine backs off and sleeps. *)
Lemma sleep_off_runs t w t' frames i :
  sleep_off stop_at oversleep config t w = Some t' -> ft_pc t <> Returned w ->
  feed_step (loop_state t) i = Some (back_off (loop_state t)) -> received [i] = [] -> omap frame_text frames = [] ->
  machine_runs t t' frames 2.
Proof.
  unfold sleep_off. intros E _ Ei Er Ef.
  assert (exists stop, loop_state t' = LoopState (if (stop : bool) then FExit else FTop) (saturate U32 (ft_attempt t + 1))
      (ft_reconnects t) (ft_msg_count t) /\ ft_log t' = ft_log t ++ [ODelay (ft_attempt t)]
      /\ ft_callback t' = ft_callback t) as (stop & Es & El & Ecb).
  { destruct (interruptible_sleep _ _ _ w) as [[[[] w']|]|]; try done; injection E as <-;
      [by exists true|by exists false|by exists true]. }
  exists [i; ISleep stop], [ODelay (ft_attempt t)]. rewrite Es. split_and!.
  - cbn [feed_run]. rewrite Ei. unfold back_off. cbn. by destruct stop.
  - cbn. lia.
  - done.
  - by rewrite Ef, received_cons, Er.
  - by rewrite Ef.
Qed.

(** What [read_bytes] returns, by the frame it read. *)
Lemma read_bytes_frame (conn conn' : WsConnection S) buf buf' res :
  read_bytes conn buf = (res, conn', buf') ->
  let texts := omap frame_text (option_list
    match maybe_send_ping conn with
    | (Ok _, c) => match sock_read (ws c) with (Ok m, _) => Some m | _ => None end
    | (Err _, _) => None
    end) in
  match res with
  | Ok n => texts = if n =? 0 then [] else [buf']
  | Err _ => texts = []
  end.
Proof.
  unfold read_bytes. destruct (maybe_send_ping conn) as [[_u|e] c1]; [|by intros [= <- _ _]].
  destruct (sock_read (ws c1)) as [[m|e] s]; cbv zeta.
  - destruct m; cbn [option_list omap list_omap frame_text]; try (by intros [= <- _ _]).
    + destruct (decide (text = text_PONG)) as [->|Hp]; [by intros [= <- _ _]|].
      rewrite (bool_decide_false (text = text_PONG)) by done. intros [= <- _ <-].
      destruct text as [|b text]; [done|].
      cbn -[bool_decide Z.of_nat length]. rewrite bool_decide_false by naive_solver.
      destruct (Z.eqb_spec (Z.of_nat (length (b :: text))) 0) as [E|]; [cbn in E; lia|done].
    + destruct (sock_send _ s) as [[] ?]; by intros [= <- _ _].
  - destruct e; try (by intros [= <- _ _]).
    all: destruct (maybe_send_ping _) as [[] ?]; by intros [= <- _ _].
Qed.

Lemma iteration_runs t t' :
  iteration stop_at oversleep config t = Some t' ->
  machine_runs t t' (option_list (frame_read stop_at t)) 2.
Proof.
  unfold iteration, frame_read. destruct (ft_pc t) as [w|conn buf k|w|w] eqn:Epc.
  - unfold top_iteration. destruct (shutdown_load stop_at w) eqn:Es.
    { intros [= <-]. exists [IConnect true false], []. rewrite app_nil_r. split_and!; cbn; try done; [|lia].
      unfold loop_state. by rewrite Epc. }
    destruct (ws_connect _ _ _ _) as [conn|e] eqn:Ec.
    + intros [= <-]. exists [IConnect false true], []. rewrite app_nil_r. split_and!; cbn; try done; [|lia].
      unfold loop_state. by rewrite Epc.
    + intros E. eapply (sleep_off_runs t _ _ _ (IConnect false false)); [exact E|by rewrite Epc| |done|done].
      unfold loop_state. by rewrite Epc.
  - unfold read_iteration. destruct (shutdown_load stop_at _) eqn:Es.
    { intros [= <-]. exists [IRead true RdNone], []. rewrite app_nil_r. split_and!; cbn; try done; [|lia].
      unfold loop_state. by rewrite Epc. }
    destruct (read_bytes conn buf) as [[res conn'] buf'] eqn:Er. pose proof (read_bytes_frame _ _ _ _ _ Er) as F.
    cbv zeta in F. destruct res as [n|e].
    + destruct (n =? 0) eqn:En.
      * intros [= <-]. exists [IRead false RdNone], []. rewrite app_nil_r, F. split_and!; cbn; try done; [|lia].
        unfold loop_state. by rewrite Epc.
      * destruct (on_message (ft_callback t) buf') as [[continue buf''] cb] eqn:Ecb. intros [= <-].
        exists [IRead false (RdMsg buf' continue)], [OMessage buf']. rewrite F. split_and!; cbn; try done; [|lia|by rewrite Ecb].
        unfold loop_state. rewrite Epc. by destruct continue.
    + intros E. eapply (sleep_off_runs t _ _ _ (IRead false (RdFail e))); [exact E|by rewrite Epc| |done|done].
      unfold loop_state. by rewrite Epc.
  - intros [= <-]. apply machine_runs_refl.
  - intros [= <-]. apply machine_runs_refl.
Qed.

Lemma feed_loop_runs fuel : forall t t',
  feed_loop stop_at oversleep config fuel t = Some t' ->
  machine_runs t t' (frames_read stop_at oversleep config fuel t) (2 * fuel).
Proof.
  induction fuel as [|fuel IH]; intros t t'; cbn [feed_loop frames_read].
  - intros [= <-]. apply machine_runs_refl.
  - destruct (iteration stop_at oversleep config t) as [t1|] eqn:E; [|done]. intros El.
    replace (2 * Datatypes.S fuel)%nat with (2 + 2 * fuel)%nat by lia.
    eapply machine_runs_trans; [by apply iteration_runs|by apply IH].
Qed.
End refinement.

(** * Time *)

Lemma backoff_delay_nonneg cfg nanos attempt :
  0 <= bo_initial cfg -> 0 <= bo_max cfg -> 0 <= backoff_delay cfg nanos attempt.
Proof.
  intros Hi Hm. unfold backoff_delay. cbv zeta. destruct (f64_le _ _).
  - unfold duration_saturating_mul. pose proof (wrap_in_range U32 (Z.shiftl 1 (Z.min attempt 20))) as Hw.
    assert (0 <= bo_initial cfg * wrap U32 (Z.shiftl 1 (Z.min attempt 20))) by (apply Z.mul_nonneg_nonneg; mlia).
    unfold DURATION_MAX, SECOND. lia.
  - match goal with |- 0 <= f64_to U64 ?x * _ => pose proof (f64_to_in_range U64 x) as Hx; set (y := f64_to U64 x) in * end.
    clearbody y. unfold MILLI. mlia.
Qed.

Section timing.
Context {S C : Type} `{Socket S} `{Network S} `{Callback C}.
Context (stop_at : option Z) (oversleep : nat -> Z) (config : FeedConfig).
Context (slack : Z).
Hypothesis oversleep_bound : forall k, 0 <= oversleep k <= slack.
Hypothesis initial_ok : 0 <= bo_initial (feed_backoff config).
Hypothesis max_ok : 0 <= bo_max (feed_backoff config).
Implicit Types t : feed_thread S C.

(** A backoff of attempt [a] that started at [w] and left the thread at [pc]: it
    lasts the delay, is cut short only by shutdown, and panics exactly when its
    deadline is not an instant. *)
Definition wait_ok (a : Z) (wait : world * feed_pc S) : Prop :=
  let '(w, pc) := wait in
  let deadline := now w + backoff_delay (feed_backoff config) (subsec_nanos w) a in
  match pc with
  | AtTop w' => deadline <= INSTANT_MAX /\ deadline <= now w' <= deadline + slack
  | Returned w' => deadline <= INSTANT_MAX /\ now w <= now w' <= deadline + slack /\ shutdown_load stop_at w' = true
  | Panicked w' => w' = w /\ INSTANT_MAX < deadline
  | Reading _ _ _ => False
  end.

Lemma sleep_off_ok t w :
  exists t', sleep_off stop_at oversleep config t w = Some t' /\ wait_ok (ft_attempt t) (w, ft_pc t')
    /\ ft_log t' = ft_log t ++ [ODelay (ft_attempt t)]
    /\ (forall T, stop_at = Some T ->
          now (pc_world (ft_pc t')) <= (if T <=? now w then now w else T + CHUNK + slack)).
Proof.
  unfold sleep_off, wait_ok. set (d := backoff_delay (feed_backoff config) (subsec_nanos w) (ft_attempt t)).
  assert (0 <= d) as Hd by (by apply backoff_delay_nonneg).
  pose proof (oversleep_bound 0) as Hov. destruct (Z.le_gt_cases (now w + d) INSTANT_MAX) as [Hm|Hm].
  - destruct (interruptible_sleep_ok stop_at oversleep slack oversleep_bound d w Hd Hm)
      as (b & w' & E & Hb & Hnow & Hdl & HT). rewrite E. eexists. split; [done|]. cbn [ft_pc ft_log]. split_and!.
    + destruct b; [|specialize (Hdl eq_refl)]; split_and!; done || lia.
    + done.
    + intros T ET. specialize (HT T ET). assert (now (pc_world (if b then Returned w' else @AtTop S w')) = now w') as -> by (by destruct b).
      destruct (Z.leb_spec T (now w)) as [Hle|]; [|unfold CHUNK, MILLI in *; lia].
      unfold interruptible_sleep, instant_add in E. rewrite (proj2 (Z.leb_le _ _)) in E by done. injection E as E.
      rewrite sleep_stopped in E; [by injection E as _ <-|unfold shutdown_load; rewrite ET; by apply Z.leb_le].
  - rewrite interruptible_sleep_overflow by done. eexists. split; [done|]. cbn [ft_pc ft_log pc_world]. split_and!; try done.
    intros T _. destruct (Z.leb_spec T (now w)); unfold CHUNK, MILLI; lia.
Qed.

(** No iteration gets stuck. *)
Lemma iteration_total t : exists t', iteration stop_at oversleep config t = Some t'.
Proof.
  unfold iteration. destruct (ft_pc t) as [w|conn buf k|w|w]; [| |by eexists..].
  - unfold top_iteration. destruct (shutdown_load stop_at w); [by eexists|].
    destruct (ws_connect _ _ _ _); [by eexists|]. edestruct sleep_off_ok as (t' & E & _). by eexists.
  - unfold read_iteration. destruct (shutdown_load stop_at _); [by eexists|].
    destruct (read_bytes conn buf) as [[[n|e] conn'] buf'].
    + destruct (n =? 0); [by eexists|]. destruct (on_message _ _) as [[? ?] ?]. by eexists.
    + edestruct sleep_off_ok as (t' & E & _). by eexists.
Qed.

Lemma feed_loop_total fuel : forall t, exists t', feed_loop stop_at oversleep config fuel t = Some t'.
Proof.
  induction fuel as [|fuel IH]; intros t; cbn [feed_loop]; [by eexists|].
  destruct (iteration_total t) as [t1 E]. rewrite E. apply IH.
Qed.

(** The log notes a delay exactly when the thread backs off, and the thread
    panics only there. *)
Lemma iteration_waits t t' :
  iteration stop_at oversleep config t = Some t' ->
  match failure stop_at config t with
  | Some w => delays (ft_log t') = delays (ft_log t) ++ [ft_attempt t] /\ wait_ok (ft_attempt t) (w, ft_pc t')
  | None => delays (ft_log t') = delays (ft_log t) /\ forall w, ft_pc t' = Panicked w -> t' = t
  end.
Proof.
  assert (forall w t', sleep_off stop_at oversleep config t w = Some t' ->
    delays (ft_log t') = delays (ft_log t) ++ [ft_attempt t] /\ wait_ok (ft_attempt t) (w, ft_pc t')) as Hoff.
  { intros w t1 E. destruct (sleep_off_ok t w) as (t2 & E2 & Hw & Hl & _). rewrite E in E2. injection E2 as <-.
    by rewrite Hl, delays_app. }
  unfold iteration, failure. destruct (ft_pc t) as [w|conn buf k|w|w]; [| |by intros [= <-]..].
  - unfold top_iteration. destruct (shutdown_load stop_at w); [by intros [= <-]|].
    destruct (ws_connect _ _ _ _); [by intros [= <-]|apply Hoff].
  - unfold read_iteration. destruct (shutdown_load stop_at _); [by intros [= <-]|].
    destruct (read_bytes conn buf) as [[[n|e] conn'] buf']; [|apply Hoff].
    destruct (n =? 0); [by intros [= <-]|]. destruct (on_message _ _) as [[continue buf''] cb]. intros [= <-].
    cbn [ft_log ft_pc]. rewrite delays_app, app_nil_r. split; [done|]. by destruct continue.
Qed.

Lemma feed_loop_waits fuel : forall t t',
  feed_loop stop_at oversleep config fuel t = Some t' ->
  exists ds, delays (ft_log t') = delays (ft_log t) ++ ds /\ Forall2 wait_ok ds (waits stop_at oversleep config fuel t)
    /\ (forall w, ft_pc t' = Panicked w ->
          ft_pc t = Panicked w \/ (w, Panicked w) ∈ waits stop_at oversleep config fuel t).
Proof.
  induction fuel as [|fuel IH]; intros t t'; cbn [feed_loop waits].
  { intros [= <-]. exists []. rewrite app_nil_r. split_and!; [done|constructor|by left]. }
  destruct (iteration stop_at oversleep config t) as [t1|] eqn:E; [|done]. intros El.
  destruct (IH t1 t' El) as (ds & Ed & Hds & Hp). pose proof (iteration_waits t t1 E) as Hw.
  destruct (failure stop_at config t) as [w0|]; destruct Hw as [Hw1 Hw2]; rewrite Hw1 in Ed.
  - exists (ft_attempt t :: ds). rewrite Ed, <- app_assoc. cbn [fmap option_fmap option_map option_list app]. split_and!; [done|by constructor|].
    intros w Ew. right. apply elem_of_cons. destruct (Hp w Ew) as [E1|]; [left|by right]. rewrite E1 in *.
    destruct Hw2 as [-> _]. done.
  - exists ds. cbn [fmap option_fmap option_map option_list app]. split_and!; [done..|].
    intros w Ew. destruct (Hp w Ew) as [E1|]; [left|by right]. by rewrite <- (Hw2 w E1).
Qed.
End timing.

Section stopping.
Context {S C : Type} `{Socket S} `{Network S} `{Callback C}.
Context (T : Z) (oversleep : nat -> Z) (config : FeedConfig) (slack : Z).
Hypothesis oversleep_bound : forall k, 0 <= oversleep k <= slack.
Hypothesis initial_ok : 0 <= bo_initial (feed_backoff config).
Hypothesis max_ok : 0 <= bo_max (feed_backoff config).
Implicit Types t : feed_thread S C.

Definition at_now t : Z := now (pc_world (ft_pc t)).
Definition ended t : bool := match ft_pc t with Returned _ | Panicked _ => true | _ => false end.

(** An iteration that starts after the request returns at once; one that starts
    before it ends with its network operation, or a sleeping chunk after the
    request. *)
Lemma iteration_stops t t' :
  iteration (Some T) oversleep config t = Some t' -> ended t = false ->
  if T <=? at_now t then ended t' = true /\ at_now t' = at_now t
  else at_now t' <= (if T <=? net_end config t then net_end config t else T + CHUNK + slack).
Proof.
  assert (forall w t', sleep_off (Some T) oversleep config t w = Some t' ->
    at_now t' <= (if T <=? now w then now w else T + CHUNK + slack)) as Hoff.
  { intros w t1 E. destruct (sleep_off_ok (Some T) oversleep config slack oversleep_bound initial_ok max_ok t w)
      as (t2 & E2 & _ & _ & HT). rewrite E in E2. injection E2 as <-. by apply HT. }
  assert (forall x, x <= (if T <=? x then x else T + CHUNK + slack)) as Hx.
  { intros x. pose proof (oversleep_bound 0). destruct (Z.leb_spec T x); unfold CHUNK, MILLI; lia. }
  unfold iteration, ended, at_now, net_end in *. intros E Hn. destruct (ft_pc t) as [w|conn buf k|w|w] eqn:Epc; [| |done..].
  - revert E. unfold top_iteration, shutdown_load. cbn [pc_world].
    destruct (Z.leb_spec T (now w)) as [HT|HT]; [by intros [= <-]|].
    destruct (ws_connect _ _ _ _) as [conn|e] eqn:Ec; intros E; [injection E as <-; apply Hx|apply (Hoff _ _ E)].
  - revert E. unfold read_iteration, shutdown_load. cbn [pc_world conn_world now].
    destruct (Z.leb_spec T (sock_now (ws conn))) as [HT|HT]; [by intros [= <-]|].
    destruct (read_bytes conn buf) as [[res conn'] buf'] eqn:Er. destruct res as [n|e]; [|apply Hoff].
    destruct (n =? 0); [intros [= <-]; apply Hx|]. destruct (on_message _ _) as [[continue buf''] cb]. intros [= <-].
    destruct continue; apply Hx.
Qed.

(** The last iteration of the thread is the one in progress at the request, or
    the next. *)
Definition stops_in_time t m t' : Prop :=
  feed_loop (Some T) oversleep config m t = Some t' /\ ended t' = true /\
  (at_now t' <= Z.max (at_now t) (T + CHUNK + slack) \/
   exists k tk, (k < m)%nat /\ feed_loop (Some T) oversleep config k t = Some tk /\ ended tk = false
     /\ at_now tk < T <= net_end config tk /\ at_now t' <= net_end config tk).

Lemma stops_next t t1 m t' :
  iteration (Some T) oversleep config t = Some t1 -> at_now t1 <= T -> stops_in_time t1 m t' ->
  stops_in_time t (Datatypes.S m) t'.
Proof.
  intros E Hle (El & He & Hb). pose proof (oversleep_bound 0). unfold stops_in_time. cbn [feed_loop]. rewrite E. split_and!; [done..|].
  destruct Hb as [Hb|(k & tk & Hk & Ek & Hrest)].
  - left. unfold CHUNK, MILLI in *. lia.
  - right. exists (Datatypes.S k), tk. cbn [feed_loop]. rewrite E. split_and!; [lia|done|apply Hrest..].
Qed.

Lemma stops_now t :
  T <= at_now t -> ended t = false ->
  exists t', iteration (Some T) oversleep config t = Some t' /\ ended t' = true /\ at_now t' = at_now t.
Proof.
  intros HT He. destruct (iteration_total (Some T) oversleep config slack oversleep_bound initial_ok max_ok t) as [t' E].
  exists t'. pose proof (iteration_stops t t' E He) as Hs. by rewrite (proj2 (Z.leb_le _ _)) in Hs.
Qed.

Lemma thread_stops n : forall t t1,
  feed_loop (Some T) oversleep config n t = Some t1 -> T <= at_now t1 \/ ended t1 = true ->
  exists m t', (m <= Datatypes.S n)%nat /\ stops_in_time t m t'.
Proof.
  assert (forall j t, ended t = true -> exists m t', (m <= j)%nat /\ stops_in_time t m t') as Hend.
  { intros j t He. exists 0%nat, t. split; [lia|]. split_and!; [done..|]. left. lia. }
  assert (forall j t, T <= at_now t -> ended t = false -> exists m t', (m <= Datatypes.S j)%nat /\ stops_in_time t m t') as Hat.
  { intros j t HT He. destruct (stops_now t HT He) as (t' & E & He' & Ht'). exists 1%nat, t'. split; [lia|].
    unfold stops_in_time. cbn [feed_loop]. rewrite E. split_and!; [done..|]. left. lia. }
  induction n as [|n IH]; intros t t1 El HT; (destruct (ended t) eqn:He; [by apply Hend|]);
    (destruct (Z.le_gt_cases T (at_now t)) as [Hle|Hgt]; [by apply Hat|]).
  { injection El as <-. destruct HT; [lia|congruence]. }
  cbn [feed_loop] in El. destruct (iteration _ _ _ t) as [t2|] eqn:E; [|done]. cbn [mbind option_bind] in El.
  pose proof (iteration_stops t t2 E He) as Hs. rewrite (proj2 (Z.leb_gt _ _)) in Hs by done.
  destruct (Z.le_gt_cases (at_now t2) T) as [Hb|Ha].
  { destruct (IH t2 t1 El HT) as (m & t' & Hm & Hst). exists (Datatypes.S m), t'. split; [lia|]. by eapply stops_next. }
  assert (exists m t', (m <= 1)%nat /\ feed_loop (Some T) oversleep config m t2 = Some t' /\ ended t' = true
    /\ at_now t' = at_now t2) as (m & t' & Hm & Em & He' & Ht').
  { destruct (ended t2) eqn:He2; [by exists 0%nat, t2; split; [lia|]|].
    destruct (stops_now t2 ltac:(lia) He2) as (t' & E' & ? & ?). exists 1%nat, t'. cbn [feed_loop]. by rewrite E'. }
  exists (Datatypes.S m), t'. split; [lia|]. unfold stops_in_time. cbn [feed_loop]. rewrite E. split_and!; [done..|].
  destruct (Z.leb_spec T (net_end config t)); [right|left; lia].
  exists 0%nat, t. split_and!; [lia|done|done|lia..].
Qed.
End stopping.

(** * Pinning and handles *)

(** A thread is pinned to the configured core exactly when the core exists and
    the system agrees; anything else leaves it where it is. *)
Lemma apply_affinity_pins `{Affinity} t core :
  apply_affinity t = PinnedTo core <->
  core_id t = Some core /\ (exists cores, get_core_ids = Some cores /\ core ∈ cores) /\ set_for_current core = true.
Proof.
  unfold apply_affinity. destruct (core_id t) as [k|]; [|split; [done|by intros [? _]]].
  assert (Hin : forall c, c ∈ default [] get_core_ids <-> exists cores, get_core_ids = Some cores /\ c ∈ cores).
  { intros c. destruct get_core_ids as [cores|]; unfold default, id; cbn [from_option].
    - split; [by exists cores|]. by intros (? & [= <-] & ?).
    - split; [by intros ?%not_elem_of_nil|]. by intros (? & ? & _). }
  rewrite <- Hin. destruct (List.find _ _) as [i|] eqn:Ef.
  - apply List.find_some in Ef as [Hi ->%bool_decide_eq_true]. apply list_elem_of_In in Hi.
    destruct (set_for_current k) eqn:E; split; try done; [by intros [= <-]|by intros ([= ->] & _)|].
    intros ([= ->] & _ & ?). congruence.
  - split; [done|]. intros ([= ->] & Hc%list_elem_of_In & _). apply (List.find_none _ _ Ef) in Hc.
    by apply bool_decide_eq_false in Hc.
Qed.

(** * Properties *)

(** C32. The feed thread: whatever the network does, it never gets stuck; its
    run is a run of the state machine; the callback is called with exactly the
    texts of the frames read, in order, except empty ones and the answers to
    the text pings, and each is counted.  The backoff restarts after every
    successful connection, so the delays are [delay(0), delay(1), ...] once per
    run of failures, and the thread waits for them: by the clock, each wait lasts
    its delay, up to the overshoot of a sleep, unless shutdown is requested;
    where the end of a wait would lie past the last instant, and only there, the
    thread panics.  [reconnects] counts the connections made after at least one
    failure. *)
Theorem feed_thread_delivers {S C} `{Socket S} `{Network S} `{Callback C}
    (stop_at : option Z) (oversleep : nat -> Z) (config : FeedConfig) (slack : Z) (cb : C) (w : world) (fuel : nat) :
  (forall k, 0 <= oversleep k <= slack) ->
  0 <= bo_initial (feed_backoff config) -> 0 <= bo_max (feed_backoff config) -> 2 * Z.of_nat fuel < tmax U32 ->
  let t0 : feed_thread S C := thread_new cb w in
  let texts := omap frame_text (frames_read stop_at oversleep config fuel t0) in
  let backoffs := waits stop_at oversleep config fuel t0 in
  exists t ins, feed_loop stop_at oversleep config fuel t0 = Some t
    /\ feed_run ins feed_init = Some (loop_state t, ft_log t)
    /\ delivered (ft_log t) = texts /\ ft_callback t = called cb texts
    /\ ft_msg_count t = Z.of_nat (length texts)
    /\ Forall2 (wait_ok stop_at config slack) (run_delays (fail_runs 0 ins)) backoffs
    /\ (forall w', ft_pc t = Panicked w' -> (w', Panicked w') ∈ backoffs)
    /\ ft_reconnects t = Z.of_nat (reconnections (fail_runs 0 ins)).
Proof.
  intros Hov Hi Hm Hf t0 texts backoffs. destruct (feed_loop_total stop_at oversleep config slack Hov Hi Hm fuel t0) as [t E].
  destruct (feed_loop_runs stop_at oversleep config fuel t0 t E) as (ins & outs & Er & Hl & El & Et & Ec).
  destruct (feed_loop_waits stop_at oversleep config slack Hov Hi Hm fuel t0 t E) as (ds & Ed & Hds & Hp).
  cbn in El. rewrite <- El in Er. exists t, ins.
  destruct (feed_run_ok ins feed_init _ _ 0 Er) as (Hd & Hr & Hdl & Hc); cbn in *; [done|unfold_ranges; cbn; lia..|].
  split_and!; try done; [by rewrite Hdl, Et|by rewrite Hc, Et| |].
  - by rewrite <- Hd, Ed.
  - intros w' Ew. destruct (Hp w' Ew) as [|?]; [done|done].
Qed.

(** C25. Shutting down a running feed, over any network: once the thread gets past
    the request (the network operation in progress returns, as one without a
    timeout need not), [shutdown] returns.  The thread ends at the latest a
    sleeping chunk after the request, or with the one network operation, a
    connection attempt or a read with its pings, that was in progress when the
    request was made.  Afterwards it is not running. *)
Theorem feed_thread_stops {S C} `{Socket S} `{Network S} `{Callback C}
    (oversleep : nat -> Z) (config : FeedConfig) (slack : Z) (cb : C) (w : world) (T : Z) h (t0 t1 : feed_thread S C) n :
  (forall k, 0 <= oversleep k <= slack) ->
  0 <= bo_initial (feed_backoff config) -> 0 <= bo_max (feed_backoff config) ->
  feed_thread_spawn true config cb w = Ok (h, t0) ->
  let flag := th_stop (store_shutdown (fh_thread h) T) in
  feed_loop flag oversleep config n t0 = Some t1 -> T <= at_now t1 \/ ended t1 = true ->
  exists m t, (m <= Datatypes.S n)%nat /\ feed_loop flag oversleep config m t0 = Some t /\ ended t = true
    /\ (at_now t <= Z.max (now w) (T + CHUNK + slack) \/
        exists k tk, (k < m)%nat /\ feed_loop flag oversleep config k t0 = Some tk /\ ended tk = false
          /\ at_now tk < T <= net_end config tk /\ at_now t <= net_end config tk)
    /\ let '(h', returns) := handle_shutdown (fh_thread h) T (at_now t) in
       returns = Z.max T (at_now t) /\ is_running h' returns (Some (at_now t)) = false /\ th_stop h' = flag.
Proof.
  intros Hov Hi Hm [= <- <-] flag El HT.
  destruct (thread_stops T oversleep config slack Hov Hi Hm n _ _ El HT) as (m & t & Hmn & E & He & Hb).
  exists m, t. split_and!; [done..|]. by cbn.
Qed.

(** ** A scripted network: the first connection is refused, every socket returns
    a message, a ping answer and an empty frame and is then closed; each
    operation takes a millisecond. *)
Record script := Script { sc_frames : list (result Message socket_error); sc_now : Z }.

#[global] Instance script_socket : Socket script := {|
  sock_read sk := match sc_frames sk with
                  | [] => (Err WouldBlock, Script [] (sc_now sk + MILLI))
                  | f :: fs => (f, Script fs (sc_now sk + MILLI))
                  end;
  sock_send _ sk := (true, Script (sc_frames sk) (sc_now sk + MILLI));
  sock_now := sc_now;
|}.
#[global] Instance script_network : Network script := {|
  valid_url _ := true;
  dial w _ := if decide (sleeps w = 0%nat) then None
              else Some (Script [Ok (MText [65]); Ok (MText text_PONG); Ok (MText []); Ok MClose] (now w + MILLI));
  set_timeouts _ _ := true;
  failed_at w := now w + MILLI;
  subsec_nanos _ := 0;
|}.
#[global] Instance counting_callback : Callback nat := fun n buf => (true, [], S n).

Definition demo_config : FeedConfig :=
  {| feed_name := "demo"; feed_ws := ws_binance "wss://demo"; feed_tuning := {| core_id := None; busy_poll_us := None |};
     feed_backoff := {| bo_initial := 150 * MILLI; bo_max := 1 * SECOND; jitter_factor := f64_of_Z 0 |} |}.
Definition demo_thread : feed_thread script nat := thread_new 0%nat (World 0 0).

(** Two connections, each with one message for the callback, and three waits. *)
Lemma feed_thread_delivers_witness : exists t ins,
  feed_loop None (fun _ => 0) demo_config 11 demo_thread = Some t /\
  feed_run ins feed_init = Some (loop_state t, ft_log t) /\ delivered (ft_log t) = [[65]; [65]] /\ ft_callback t = 2%nat /\
  Forall2 (wait_ok None demo_config 0) (run_delays (fail_runs 0 ins)) (waits None (fun _ => 0) demo_config 11 demo_thread).
Proof.
  destruct (feed_thread_delivers None (fun _ => 0) demo_config 0 0%nat (World 0 0) 11)
    as (t & ins & E1 & E2 & E3 & E4 & _ & E5 & _); [lia|done..|].
  exists t, ins. split_and!; [exact E1|exact E2|rewrite E3; vm_compute; reflexivity|rewrite E4; vm_compute; reflexivity|exact E5].
Defined.

(** Told to stop at 0.4 s, in the second wait. *)
Lemma feed_thread_stops_witness : exists m t,
  feed_loop (Some (400 * MILLI)) (fun _ => 0) demo_config m demo_thread = Some t /\ ended t = true /\ (m <= 12)%nat.
Proof.
  assert (exists t1, feed_loop (Some (400 * MILLI)) (fun _ => 0) demo_config 11 demo_thread = Some t1 /\ ended t1 = true)
    as (t1 & E1 & He1) by (eexists; vm_compute; split; reflexivity).
  destruct (feed_thread_stops (S := script) (fun _ => 0) demo_config 0 0%nat (World 0 0) (400 * MILLI)
    {| fh_thread := handle_new; fh_drops := 0 |} demo_thread t1 11) as (m & t & Hm & E & Hr & _); [lia|done..|by right|].
  exists m, t. split; [exact E|]. split; [exact Hr|exact Hm].
Defined.
