(* ===== verification/Texts.v ===== *)
(** * Printed texts

    The [Display] and [Debug] impls of the newtypes ([crates/types]), of the
    fixed-point numbers ([crates/fixed/src/fmt.rs]), of the events
    ([crates/events]), of the constant-time wrappers and of the error types, and
    the symbols of instrument keys ([crates/registry/src/types.rs]).  Texts are
    byte strings in UTF-8, as [FixedText] has them; slicing a string inside a
    character panics. *)

From Stdlib Require Import ZArith Lia Ascii String.
From stdpp Require Import base decidable numbers option tactics list.
From S2P Require Import Prelude Platform CtArith Fixed FixedText Types Events Registry Binance Ring Timer Feed.

#[local] Open Scope Z_scope.

(** A literal. *)
Fixpoint txt (s : string) : bytes :=
  match s with EmptyString => [] | String c s => Z.of_N (N_of_ascii c) :: txt s end.

(** [Display] and [Debug]. *)
Class Display (A : Type) := display : A -> bytes.
Class Debug (A : Type) := debug : A -> bytes.

(** ** Newtypes over integers: the number, and the number in parentheses *)

Definition debug_number (name : string) (n : bytes) : bytes := txt name ++ txt "(" ++ n ++ txt ")".

#[global] Instance ticks_display : Display Ticks := fun x => show_int (ticks_to_raw x).
#[global] Instance ticks_debug : Debug Ticks := fun x => debug_number "Ticks" (show_int (ticks_to_raw x)).
#[global] Instance lots_display : Display Lots := fun x => show_int (lots_to_raw x).
#[global] Instance lots_debug : Debug Lots := fun x => debug_number "Lots" (show_int (lots_to_raw x)).
#[global] Instance signed_lots_display : Display SignedLots := fun x => show_int (slots_to_raw x).
#[global] Instance signed_lots_debug : Debug SignedLots :=
  fun x => debug_number "SignedLots" (show_int (slots_to_raw x)).
#[global] Instance instrument_id_display : Display InstrumentId := fun x => show_nat (inst_to_raw x).
#[global] Instance instrument_id_debug : Debug InstrumentId :=
  fun x => debug_number "InstrumentId" (show_nat (inst_to_raw x)).
#[global] Instance source_id_display : Display SourceId := fun x => show_nat (source_to_raw x).
#[global] Instance source_id_debug : Debug SourceId := fun x => debug_number "SourceId" (show_nat (source_to_raw x)).
#[global] Instance order_id_display : Display OrderId := fun x => show_nat (order_to_raw x).
#[global] Instance order_id_debug : Debug OrderId := fun x => debug_number "OrderId" (show_nat (order_to_raw x)).
#[global] Instance seqnum_display : Display SeqNum := fun x => show_nat (seqnum_to_raw x).
#[global] Instance seqnum_debug : Debug SeqNum := fun x => debug_number "SeqNum" (show_nat (seqnum_to_raw x)).
#[global] Instance timestamp_display : Display Timestamp := fun x => show_nat (as_nanos x) ++ txt "ns".
#[global] Instance timestamp_debug : Debug Timestamp :=
  fun x => debug_number "Timestamp" (show_nat (as_nanos x) ++ txt "ns").
#[global] Instance side_display : Display Side := fun s => match s with Bid => txt "Bid" | Ask => txt "Ask" end.
#[global] Instance side_debug : Debug Side := fun s => match s with Bid => txt "Bid" | Ask => txt "Ask" end.

(** ** Amounts *)

#[global] Instance fixed_display_inst {D} : Display (FixedI64 D) := fixed_display.
#[global] Instance fixed_debug {D} : Debug (FixedI64 D) := fun x =>
  txt "FixedI64<" ++ show_nat D ++ txt ">(raw=" ++ show_int (to_raw x) ++ txt ", value=" ++ display x ++ txt ")".
#[global] Instance probability_display : Display Probability := fun x => display (prob_to_fixed x).
#[global] Instance probability_debug : Debug Probability :=
  fun x => debug_number "Probability" (display (prob_to_fixed x)).
#[global] Instance usdc_display : Display UsdcAmount := fun x => display (usdc_to_fixed x).
#[global] Instance usdc_debug : Debug UsdcAmount := fun x => debug_number "UsdcAmount" (display (usdc_to_fixed x)).
#[global] Instance btc_display : Display BtcQty := fun x => display (btc_to_fixed x).
#[global] Instance btc_debug : Debug BtcQty := fun x => debug_number "BtcQty" (display (btc_to_fixed x)).

(** ** Events (crates/events) *)

(** [{:04x}] of a 16-bit number. *)
Definition hex_digit (n : Z) : Z := if n <? 10 then 48 + n else 87 + n.
Definition hex16 (n : Z) : bytes :=
  (fun k => hex_digit (Z.land (Z.shiftr n k) 15)) <$> [12; 8; 4; 0].

#[global] Instance flags_debug : Debug EventFlags := fun f => txt "EventFlags(0x" ++ hex16 (flags_to_raw f) ++ txt ")".
#[global] Instance action_debug : Debug UpdateAction := fun a =>
  txt match a with
      | ActNew => "UpdateAction::New" | ActChange => "UpdateAction::Change" | ActDelete => "UpdateAction::Delete"
      end.
#[global] Instance order_status_debug : Debug OrderStatus := fun s =>
  txt match s with
      | StAccepted => "OrderStatus::Accepted" | StCancelled => "OrderStatus::Cancelled"
      | StExpired => "OrderStatus::Expired"
      end.
#[global] Instance reject_reason_debug : Debug RejectReason := fun r =>
  txt match r with
      | InsufficientFunds => "RejectReason::InsufficientFunds"
      | InvalidPrice => "RejectReason::InvalidPrice"
      | InvalidQty => "RejectReason::InvalidQty"
      | DuplicateOrderId => "RejectReason::DuplicateOrderId"
      | RiskLimitBreached => "RejectReason::RiskLimitBreached"
      | VenueError => "RejectReason::VenueError"
      | UnknownReason => "RejectReason::Unknown"
      end.
#[global] Instance timer_kind_debug : Debug TimerKind := fun k =>
  txt match k with
      | StaleFeed => "TimerKind::StaleFeed" | Periodic => "TimerKind::Periodic" | Deadline => "TimerKind::Deadline"
      end.
#[global] Instance event_kind_debug : Debug EventKind := fun k =>
  txt match k with
      | KBookDelta => "EventKind::BookDelta"
      | KTrade => "EventKind::Trade"
      | KTopOfBook => "EventKind::TopOfBook"
      | KOrderAck => "EventKind::OrderAck"
      | KFill => "EventKind::Fill"
      | KOrderReject => "EventKind::OrderReject"
      | KTimer => "EventKind::Timer"
      | KHeartbeat => "EventKind::Heartbeat"
      end.

(** [debug_struct]: the fields, and the dots of [finish_non_exhaustive]. *)
Fixpoint debug_fields (fields : list (string * bytes)) : bytes :=
  match fields with
  | [] => []
  | [(name, text)] => txt name ++ txt ": " ++ text
  | (name, text) :: fields => txt name ++ txt ": " ++ text ++ txt ", " ++ debug_fields fields
  end.
#[global] Instance header_debug : Debug EventHeader := fun h =>
  txt "EventHeader { " ++
  debug_fields [("recv_ts", debug (recv_ts h)); ("seq", debug (hdr_seq h));
                ("instrument_id", debug (hdr_instrument_id h)); ("source_id", debug (hdr_source_id h));
                ("flags", debug (hdr_flags h))]%string ++ txt " }".
#[global] Instance hot_event_debug : Debug HotEvent := fun e =>
  txt "HotEvent { " ++
  debug_fields [("kind", debug (event_kind e)); ("header", debug (ev_header e))]%string ++ txt ", .. }".

(** ** Secrets (constant_time/ct_types.rs): the value is never printed *)

#[global] Instance ct_debug {t} : Debug (Ct t) := fun _ => txt "Ct(***)".
#[global] Instance ctbool_debug {t} : Debug (CTBool t) := fun _ => txt "CTBool(***)".

(** ** Errors *)

#[global] Instance parse_fixed_error_display : Display ParseFixedError := fun e =>
  match e with
  | InvalidFormat => txt "invalid decimal format"
  | Overflow => txt "value overflows i64 at this scale"
  | ExcessPrecision => txt "fractional digits exceed scale D"
  end.

#[global] Instance instrument_meta_error_display : Display InstrumentMetaError := fun e =>
  match e with
  | InvalidTickSize => txt "tick size must be strictly positive"
  | InvalidLotSize => txt "lot size must be strictly positive"
  end.

#[global] Instance push_error_display {T} : Display (PushError T) := fun e => match e with Full _ => txt "queue is full" end.
#[global] Instance queue_error_display : Display QueueError := fun e =>
  match e with QueueFull => txt "queue is full" | QueueEmpty => txt "queue is empty" end.

#[global] Instance decoder_error_display : Display DecoderError := fun e =>
  match e with
  | TooManySymbols => txt "too many symbols (max " ++ show_nat (Z.of_nat MAX_BINANCE_SYMBOLS) ++ txt ")"
  | EmptyMappings => txt "at least one symbol mapping is required"
  | SymbolTooLong => txt "symbol exceeds " ++ show_nat (Z.of_nat MAX_SYMBOL_LEN) ++ txt " bytes"
  end.

#[global] Instance timer_config_error_display : Display TimerConfigError := fun e =>
  match e with
  | ZeroTickInterval => txt "tick_interval must be > 0"
  | HeartbeatShorterThanTick => txt "heartbeat_interval must be >= tick_interval"
  | HeartbeatNotDivisible => txt "heartbeat_interval must be evenly divisible by tick_interval"
  | HeartbeatTooLarge => txt "heartbeat_interval / tick_interval exceeds u64::MAX"
  end.

#[global] Instance monitor_full_display : Display MonitorFullError := fun _ => txt "feed monitor is full".

Definition timer_spawn_error_display (io : bytes) : Display TimerSpawnError := fun e =>
  match e with
  | TConfig e => txt "timer config error: " ++ display e
  | TSpawn => txt "timer spawn error: " ++ io
  end.

(** [str::is_char_boundary], and [&s[..n]]. *)
Definition is_char_boundary (s : bytes) (n : nat) : bool :=
  match n with
  | O => true
  | _ =>
      match s !! n with
      | Some b => negb ((128 <=? b) && (b <=? 191))
      | None => bool_decide (n = length s)
      end
  end.
Definition str_prefix (s : bytes) (n : nat) : outcome bytes :=
  if is_char_boundary s n then Ret (take n s) else Panic.

(** crates/registry/src/error.rs. *)
Definition registry_error_display (e : RegistryError) : outcome bytes :=
  match e with
  | DuplicateInstrumentId id => Ret (txt "duplicate instrument ID: " ++ display id)
  | DuplicateInstrumentKey => Ret (txt "duplicate instrument key")
  | DuplicateBinanceSymbol s => Ret (txt "duplicate Binance symbol: " ++ s)
  | DuplicatePolymarketTokenId t =>
      p ← str_prefix t (length t `min` 20);
      Ret (txt "duplicate Polymarket token ID: " ++ p)
  | MissingInstrument id => Ret (txt "instrument not found: " ++ display id)
  | MissingPolymarketBinding id => Ret (txt "no Polymarket binding for instrument: " ++ display id)
  | NoNextWindow id => Ret (txt "no next window to promote for instrument: " ++ display id)
  | IdSpaceExhausted => Ret (txt "instrument ID space exhausted (2^32 - 1 IDs used)")
  end.

(** ** Instrument symbols (crates/registry/src/types.rs) *)

#[global] Instance asset_debug : Debug Asset := fun a =>
  txt match a with
      | Btc => "Btc" | Eth => "Eth" | Sol => "Sol" | Xrp => "Xrp" | Doge => "Doge" | Usdt => "Usdt" | Usdc => "Usdc"
      | Usd => "Usd"
      end.
#[global] Instance timeframe_debug : Debug Timeframe := fun t =>
  txt match t with M5 => "M5" | M15 => "M15" | M60 => "M60" | H4 => "H4" end.
#[global] Instance outcome_side_debug : Debug OutcomeSide := fun o =>
  txt match o with Up => "Up" | Down => "Down" | Yes => "Yes" | No => "No" end.

(** [to_uppercase] of an ASCII text. *)
Definition to_uppercase (s : bytes) : bytes := (fun b => if (97 <=? b) && (b <=? 122) then b - 32 else b) <$> s.

Fixpoint join_dash (parts : list bytes) : bytes :=
  match parts with
  | [] => []
  | [p] => p
  | p :: parts => p ++ txt "-" ++ join_dash parts
  end.

Definition symbol (k : InstrumentKey) : bytes :=
  let parts := [to_uppercase (debug (key_base k))] in
  let parts := parts ++ match key_timeframe k with Some tf => [debug tf] | None => [] end in
  let parts := parts ++ match key_outcome k with Some o => [debug o] | None => [] end in
  let parts := parts ++
    (if decide (key_class k = OracleReference) then
       match key_quote k with Some q => [to_uppercase (debug q)] | None => [] end ++ [txt "Ref"]
     else []) in
  join_dash parts.

(** * Properties *)

Lemma show_nat_inj a b : 0 <= a < 10 ^ 39 -> 0 <= b < 10 ^ 39 -> show_nat a = show_nat b -> a = b.
Proof.
  intros Ha Hb E. destruct (show_nat_spec a Ha) as (_ & <- & _), (show_nat_spec b Hb) as (_ & <- & _). by rewrite E.
Qed.

Lemma show_int_inj a b : Z.abs a < 10 ^ 39 -> Z.abs b < 10 ^ 39 -> show_int a = show_int b -> a = b.
Proof.
  intros Ha Hb. assert (Hd : forall n l, 0 <= n < 10 ^ 39 -> show_nat n <> c_minus :: l).
  { intros n l Hn E. destruct (show_nat_spec n Hn) as (Hf & _). rewrite E in Hf. apply Forall_cons in Hf as [Hf _].
    unfold is_digit, c_0, c_9, c_minus in Hf. lia. }
  unfold show_int. destruct (Z.ltb_spec a 0), (Z.ltb_spec b 0); intros E.
  - injection E as E. apply show_nat_inj in E; lia.
  - symmetry in E. by apply Hd in E; [|lia].
  - by apply Hd in E; [|lia].
  - apply show_nat_inj in E; lia.
Qed.

Lemma show_i64_inj a b : in_range I64 a -> in_range I64 b -> show_int a = show_int b -> a = b.
Proof.
  assert (9223372036854775808 < 10 ^ 39) as Hlt by reflexivity. unfold in_range. cbn [tmin tmax]. intros Ha Hb.
  apply show_int_inj; eapply Z.le_lt_trans; try exact Hlt; lia.
Qed.

Lemma show_u64_inj a b : in_range U64 a -> in_range U64 b -> show_nat a = show_nat b -> a = b.
Proof.
  assert (18446744073709551615 < 10 ^ 39) as Hlt by reflexivity. unfold in_range. cbn [tmin tmax]. intros Ha Hb.
  apply show_nat_inj; (split; [lia|]); eapply Z.le_lt_trans; try exact Hlt; lia.
Qed.

Lemma fixed_display_inj D (x y : FixedI64 D) :
  valid_exp D -> fixed_wf x -> fixed_wf y -> fixed_display x = fixed_display y -> x = y.
Proof.
  intros HD Hx Hy E. destruct (fixed_display_syntax D x HD Hx) as (nx & wx & fx & Sx & Lx & Rx).
  destruct (fixed_display_syntax D y HD Hy) as (ny & wy & fy & Sy & Ly & Ry).
  destruct (@parse_spec debug_profile D (fixed_display x) HD) as (r & _ & Hr).
  assert (r = Ok x) as -> by (apply Hr; naive_solver).
  assert (Ok x = Ok y :> result _ ParseFixedError) as [= ->]; [|done]. apply Hr. rewrite E. naive_solver.
Qed.

Lemma debug_number_inj name a b : debug_number name a = debug_number name b -> a = b.
Proof. unfold debug_number. by intros E%app_inv_head%app_inv_head%app_inv_tail. Qed.

(** Two instruments of the same kind never share a symbol: the keys that
    [prediction] and [spot_reference] build print differently. *)
Definition assets : list Asset := [Btc; Eth; Sol; Xrp; Doge; Usdt; Usdc; Usd].
Definition built_keys : list InstrumentKey :=
  (b ← assets; t ← [M5; M15; M60; H4]; o ← [Up; Down; Yes; No]; [key_prediction b t o])
  ++ (b ← assets; q ← assets; [key_spot_reference b q]).

Lemma built_keys_all :
  (forall b t o, key_prediction b t o ∈ built_keys) /\ (forall b q, key_spot_reference b q ∈ built_keys).
Proof.
  split; intros.
  - apply (bool_decide_unpack _). destruct b, t, o; vm_compute; exact I.
  - apply (bool_decide_unpack _). destruct b, q; vm_compute; exact I.
Qed.

Lemma built_symbols_nodup : NoDup (symbol <$> built_keys).
Proof. apply (bool_decide_unpack _). vm_compute. exact I. Qed.

Lemma symbol_inj k1 k2 : k1 ∈ built_keys -> k2 ∈ built_keys -> symbol k1 = symbol k2 -> k1 = k2.
Proof.
  intros [i Hi]%list_elem_of_lookup [j Hj]%list_elem_of_lookup E.
  assert (i = j) as ->; [|congruence]. eapply (NoDup_lookup _ i j (symbol k1) built_symbols_nodup);
    rewrite list_lookup_fmap; [by rewrite Hi|by rewrite Hj, E].
Qed.

(** The flag word is printed without loss. *)
Lemma hex16_inj a b : in_range U16 a -> in_range U16 b -> hex16 a = hex16 b -> a = b.
Proof.
  intros Ha Hb E. assert (Hinj : forall m n, 0 <= m < 16 -> 0 <= n < 16 -> hex_digit m = hex_digit n -> m = n).
  { intros m n Hm Hn. unfold hex_digit. destruct (Z.ltb_spec m 10), (Z.ltb_spec n 10); lia. }
  assert (Hnib : forall n k, 0 <= k -> Z.land (Z.shiftr n k) 15 = (n / 2 ^ k) mod 16).
  { intros n k ?. change 15 with (Z.ones 4). by rewrite Z.land_ones, Z.shiftr_div_pow2 by lia. }
  unfold hex16 in E. cbn in E. rewrite !Hnib in E by lia. injection E as E3 E2 E1 E0.
  apply Hinj in E0, E1, E2, E3; try (apply Z.mod_pos_bound; lia).
  unfold in_range in *. cbn in Ha, Hb. change (2 ^ 12) with 4096 in *. change (2 ^ 8) with 256 in *.
  change (2 ^ 4) with 16 in *. change (2 ^ 0) with 1 in *. Z.to_euclidean_division_equations. lia.
Qed.

(** A spot and a perpetual of the same pair do share one. *)
Example spot_perp_symbol :
  let k c := {| key_class := c; key_base := Btc; key_quote := Some Usdt; key_timeframe := None; key_outcome := None |} in
  symbol (k Spot) = symbol (k Perp) /\ symbol (k Spot) = txt "BTC".
Proof. split; reflexivity. Qed.

(** Printing a registry error panics exactly when it shows a token identifier of
    more than 20 bytes whose 21st byte is in the middle of a character; an
    identifier of ASCII characters is shown up to 20 of them. *)
Theorem registry_error_display_panics (e : RegistryError) :
  (registry_error_display e = Panic <->
   exists t b, e = DuplicatePolymarketTokenId t /\ t !! 20%nat = Some b /\ 128 <= b <= 191) /\
  (forall t, e = DuplicatePolymarketTokenId t -> Forall (fun b => 0 <= b < 128) t ->
   registry_error_display e = Ret (txt "duplicate Polymarket token ID: " ++ take 20 t)).
Proof.
  assert (Hp : forall t, str_prefix t (length t `min` 20) =
    match t !! 20%nat with
    | Some b => if (128 <=? b) && (b <=? 191) then Panic else Ret (take 20 t)
    | None => Ret (take 20 t)
    end).
  { intros t. unfold str_prefix, is_char_boundary. destruct (t !! 20%nat) as [b|] eqn:E.
    - pose proof (lookup_lt_Some _ _ _ E). rewrite Nat.min_r by lia. rewrite E. by destruct (_ && _).
    - apply lookup_ge_None in E. rewrite Nat.min_l, (take_ge t 20), (take_ge t (length t)) by lia.
      rewrite (lookup_ge_None_2 t (length t)), bool_decide_true by done. by destruct (length t). }
  split.
  - split.
    + intros E. destruct e as [| | |t| | | |]; try done. cbn in E. rewrite Hp in E. destruct (t !! 20%nat) as [b|] eqn:Et; [|done].
      destruct (Z.leb_spec 128 b), (Z.leb_spec b 191); try done. exists t, b. split; [done|]. split; [done|lia].
    + intros (t & b & -> & Et & H1 & H2). cbn. rewrite Hp, Et.
      by destruct (Z.leb_spec 128 b), (Z.leb_spec b 191); try lia.
  - intros t -> Ht. cbn. rewrite Hp. destruct (t !! 20%nat) as [b|] eqn:Et; [|done].
    pose proof (Forall_lookup_1 _ _ _ _ Ht Et) as Hb. cbn in Hb. by destruct (Z.leb_spec 128 b); [lia|].
Qed.

(** No printed form is ambiguous: for values in range, [Display] and [Debug] of
    the newtypes are injective. *)
Theorem displays_injective :
  (forall x y : Ticks, in_range I64 (ticks_to_raw x) -> in_range I64 (ticks_to_raw y) -> display x = display y -> x = y) /\
  (forall x y : SignedLots, in_range I64 (slots_to_raw x) -> in_range I64 (slots_to_raw y) -> display x = display y -> x = y) /\
  (forall x y : OrderId, in_range U64 (order_to_raw x) -> in_range U64 (order_to_raw y) -> display x = display y -> x = y) /\
  (forall x y : Timestamp, in_range U64 (as_nanos x) -> in_range U64 (as_nanos y) -> debug x = debug y -> x = y) /\
  (forall x y : UsdcAmount, fixed_wf (usdc_to_fixed x) -> fixed_wf (usdc_to_fixed y) -> debug x = debug y -> x = y).
Proof.
  split_and!; intros [x] [y]; cbn [ticks_to_raw slots_to_raw order_to_raw as_nanos usdc_to_fixed]; intros Hx Hy E; f_equal.
  - by apply show_i64_inj in E.
  - by apply show_i64_inj in E.
  - by apply show_u64_inj in E.
  - apply debug_number_inj, app_inv_tail in E. by apply show_u64_inj in E.
  - apply debug_number_inj in E. by apply fixed_display_inj in E.
Qed.
