(* ===== verification/Spawn.v ===== *)
(** * Feed callbacks ([crates/binance/src/spawn.rs], [crates/polymarket/src/market/spawn.rs])

    [build_callback] wires a decoder to the transport: it counts the frame,
    decodes it and pushes the events, counting those the queue refuses.  The
    two crates have the same text over their own decoder, so the callback is
    written once against the class [FrameDecoder], whose law both decoders
    discharge.  The queue is a parameter: the state of the [push] closure, and
    what [push] does to it, panics included. *)

From Stdlib Require Import ZArith Lia.
From stdpp Require Import base decidable list numbers option tactics strings.
From S2P Require Import Prelude Platform Fixed Types Events Registry Polymarket Binance Timer Feed.

#[local] Open Scope Z_scope.

(** * Interface *)

(** [decode(buf, recv_ts, &mut out)]: the decoder, the count and the buffer. *)
Class FrameDecoder (Dec : Type) :=
  frame_decode : Dec -> list Z -> Timestamp -> list HotEvent -> outcome (Dec * nat * list HotEvent).

(** [frame_ready dec n]: the decoder can take [n] more frames before its sequence
    number overflows.  A ready decoder writes some events to the front of the
    buffer. *)
Class FrameDecoderLaws (Dec : Type) `{FrameDecoder Dec} := {
  frame_ready : Dec -> nat -> Prop;
  frame_decode_law : forall dec n buf ts out,
    frame_ready dec (S n) -> length out = 64%nat ->
    exists dec' es, frame_decode dec buf ts out = Ret (dec', length es, es ++ drop (length es) out) /\
      (length es <= 64)%nat /\ frame_ready dec' n;
}.

#[global] Instance binance_frames `{BuildProfile} `{BinanceJson} {D} : FrameDecoder (BinanceDecoder D) :=
  binance_decode.
#[global] Instance polymarket_frames `{BuildProfile} `{PolymarketJson} {D} :
  FrameDecoder (PolymarketMarketDecoder D) := polymarket_decode.

#[global] Program Instance polymarket_frame_laws `{BuildProfile} `{PolymarketJson} {D} (HD : valid_exp D) :
  FrameDecoderLaws (PolymarketMarketDecoder D) := {|
  frame_ready dec n := dec_wf dec /\ 0 <= pd_seq dec /\ pd_seq dec + 64 * Z.of_nat n <= tmax U64;
|}.
Next Obligation.
  intros ? ? D HD dec n buf ts out (Hwf & Hpos & Hseq) Hout.
  destruct (polymarket_decode_wrote dec buf ts out HD Hwf Hout) as (k & es & E & Hk & Hle); [lia|].
  exists (set_seq dec (pd_seq dec + Z.of_nat k)), es. unfold frame_decode, polymarket_frames. rewrite E, Hk.
  split_and!; [done|done| |..]; unfold set_seq; cbn [pd_seq]; [exact Hwf|lia|lia].
Qed.

#[global] Program Instance binance_frame_laws `{BuildProfile} `{BinanceJson} {D} (HD : valid_exp D)
    (ms : list (BinanceSymbolMapping D)) (Hms : Forall (fun m => meta_wf (bm_meta m)) ms) :
  FrameDecoderLaws (BinanceDecoder D) := {|
  frame_ready dec n := represents dec ms /\ 0 <= bd_seq dec /\ bd_seq dec + Z.of_nat n <= tmax U64;
|}.
Next Obligation.
  intros ? ? D HD ms Hms dec n buf ts out (Hr & Hpos & Hseq) Hout. unfold frame_decode, binance_frames.
  rewrite (binance_decode_spec HD dec ms) by (done || lia).
  destruct (frame_tob ms (combined_stream dec) buf) as [[id p]|].
  - destruct out as [|e0 out]; [done|]. eexists _, [_]. split; [cbn; by rewrite drop_0|]. split; [cbn; lia|].
    split_and!; cbn [set_bseq bd_seq]; [exact Hr|lia|lia].
  - exists dec, []. split; [by rewrite drop_0|]. split_and!; [cbn; lia|done|lia|lia].
Qed.

(** * The callback *)

(** What the closure owns: the decoder, the counters, the event buffer and the
    state of [push]. *)
Record callback_state (Dec P : Type) := Callback {
  cb_decoder : Dec;
  cb_event_count : Z;
  cb_drop_count : Z;
  cb_out : list HotEvent;
  cb_sink : P;
}.
Arguments Callback {Dec P} _ _ _ _ _.
Arguments cb_decoder {Dec P} _.
Arguments cb_event_count {Dec P} _.
Arguments cb_drop_count {Dec P} _.
Arguments cb_out {Dec P} _.
Arguments cb_sink {Dec P} _.

Definition make_out : list HotEvent :=
  replicate 64 (ev_heartbeat (from_nanos 0) seqnum_ZERO (source_from_raw 0) flags_EMPTY {| hb_counter := 0 |}).

Section callback.
Context {Dec P : Type} `{FrameDecoder Dec} (push : P -> HotEvent -> outcome (bool * P)).

Definition build_callback (decoder : Dec) (sink : P) : callback_state Dec P :=
  Callback decoder 0 0 make_out sink.

(** [for event in out.iter().take(count)]. *)
Fixpoint push_events (evs : list HotEvent) (drops : Z) (sink : P) : outcome (Z * P) :=
  match evs with
  | [] => Ret (drops, sink)
  | e :: evs' =>
      '(ok, sink') ← push sink e;
      push_events evs' (if (ok : bool) then drops else wrap U64 (drops + 1)) sink'
  end.

(** One invocation; the result is always [true], the feed goes on. *)
Definition on_frame (c : callback_state Dec P) (buf : list Z) (recv_ts : Timestamp)
    : outcome (callback_state Dec P * bool) :=
  let events := wrap U64 (cb_event_count c + 1) in
  '(dec, count, out) ← frame_decode (cb_decoder c) buf recv_ts (cb_out c);
  '(drops, sink) ← push_events (take count out) (cb_drop_count c) (cb_sink c);
  Ret (Callback dec events drops out sink, true).

Fixpoint on_frames (frames : list (list Z * Timestamp)) (c : callback_state Dec P)
    : outcome (callback_state Dec P) :=
  match frames with
  | [] => Ret c
  | (buf, ts) :: frames' => '(c', _) ← on_frame c buf ts; on_frames frames' c'
  end.
End callback.

(** * Spawning *)

(** [spawn_binance_feed] and [spawn_polymarket_market_feed]: the configuration
    of the transport thread and the callback it runs. *)
Definition spawn_binance_feed {D P} (os_spawn : bool) (symbols : list string) (core_id : option nat)
    (backoff : BackoffConfig) (decoder : BinanceDecoder D) (sink : P)
    : result (FeedConfig * callback_state (BinanceDecoder D) P) SpawnError :=
  let decoder := set_combined_stream decoder (1 <? length symbols)%nat in
  match spawn_reference_feed os_spawn symbols core_id backoff with
  | Ok cfg => Ok (cfg, build_callback decoder sink)
  | Err e => Err e
  end.

Definition spawn_polymarket_market_feed {D P} (os_spawn : bool) (json : list string -> string)
    (token_ids : list string) (core_id : option nat) (backoff : BackoffConfig) (source_id : SourceId) (registry : InstrumentRegistry D)
    (sink : P) : result (FeedConfig * callback_state (PolymarketMarketDecoder D) P) SpawnError :=
  let decoder := polymarket_new source_id registry in
  match spawn_market_feed os_spawn json token_ids core_id backoff with
  | Ok cfg => Ok (cfg, build_callback decoder sink)
  | Err e => Err e
  end.

(** * What a run of the callback does *)

(** Offering events to the sink one by one: how many it refuses. *)
Fixpoint offer {P} (push : P -> HotEvent -> outcome (bool * P)) (evs : list HotEvent) (sink : P) : outcome (nat * P) :=
  match evs with
  | [] => Ret (0%nat, sink)
  | e :: evs' =>
      '(ok, sink1) ← push sink e;
      '(refused, sink2) ← offer push evs' sink1;
      Ret ((if (ok : bool) then 0 else 1) + refused, sink2)%nat
  end.

Section runs.
Context {Dec P : Type} `{FrameDecoderLaws Dec} (push : P -> HotEvent -> outcome (bool * P)).
Implicit Types c : callback_state Dec P.

Lemma offer_app evs evs' (sink : P) :
  offer push (evs ++ evs') sink =
  '(r1, s1) ← offer push evs sink; '(r2, s2) ← offer push evs' s1; Ret ((r1 + r2)%nat, s2).
Proof.
  revert sink. induction evs as [|e evs IH]; intros sink; cbn [app offer].
  { cbn [mbind outcome_bind]. by destruct (offer push evs' sink) as [[]|]. }
  destruct (push sink e) as [[ok s1]|]; [|done]. cbn [mbind outcome_bind]. rewrite IH.
  destruct (offer push evs s1) as [[r1 s2]|]; [|done]. cbn [mbind outcome_bind].
  destruct (offer push evs' s2) as [[r2 s3]|]; [|done]. cbn [mbind outcome_bind]. do 2 f_equal. lia.
Qed.

Lemma push_events_offer evs drops (sink : P) :
  0 <= drops -> drops + Z.of_nat (length evs) <= tmax U64 ->
  push_events push evs drops sink = '(r, s) ← offer push evs sink; Ret (drops + Z.of_nat r, s).
Proof.
  revert drops sink. induction evs as [|e evs IH]; intros drops sink Hpos Hmax; cbn [push_events offer].
  { cbn. by rewrite Z.add_0_r. }
  cbn [length] in Hmax. destruct (push sink e) as [[ok s1]|]; [|done]. cbn [mbind outcome_bind].
  assert ((if ok then drops else wrap U64 (drops + 1)) = drops + (if ok then 0 else 1)) as ->
    by (destruct ok; rewrite ?wrap_id by mlia; lia).
  rewrite IH by (destruct ok; lia). destruct (offer push evs s1) as [[r s2]|]; [|done].
  cbn [mbind outcome_bind]. do 2 f_equal. destruct ok; lia.
Qed.

Lemma offer_refused evs (sink : P) r s : offer push evs sink = Ret (r, s) -> (r <= length evs)%nat.
Proof.
  revert sink r s. induction evs as [|e evs IH]; intros sink r s; cbn [offer]; [by intros [= <- <-]|].
  intros E. inv_bind E. destruct x as [ok s1]. inv_bind E. destruct x as [r1 s2]. injection E as <- <-.
  specialize (IH _ _ _ E1). cbn [length]. destruct ok; lia.
Qed.

(** What the decoder makes of a frame: the events the callback will push. *)
Definition frame_events c (buf : list Z) (ts : Timestamp) : list HotEvent :=
  match frame_decode (cb_decoder c) buf ts (cb_out c) with Ret (_, count, out) => take count out | Panic => [] end.

(** One frame: it is counted, and its events are offered to the sink. *)
Lemma on_frame_ok c n buf ts :
  frame_ready (cb_decoder c) (S n) -> length (cb_out c) = 64%nat ->
  0 <= cb_event_count c < tmax U64 -> 0 <= cb_drop_count c -> cb_drop_count c + 64 <= tmax U64 ->
  (length (frame_events c buf ts) <= 64)%nat /\
  exists dec out, frame_ready dec n /\ length out = 64%nat /\
    on_frame push c buf ts =
      '(r, sink) ← offer push (frame_events c buf ts) (cb_sink c);
      Ret (Callback dec (cb_event_count c + 1) (cb_drop_count c + Z.of_nat r) out sink, true).
Proof.
  intros Hready Hout He Hd Hdmax. destruct (frame_decode_law _ _ buf ts _ Hready Hout) as (dec & es & E & Hes & Hready').
  unfold frame_events, on_frame. rewrite E. cbn [mbind outcome_bind]. rewrite take_app_length.
  rewrite push_events_offer by lia. split; [done|]. exists dec, (es ++ drop (length es) (cb_out c)).
  split; [done|]. split; [rewrite length_app, length_drop; lia|]. rewrite wrap_id by mlia.
  by destruct (offer push es (cb_sink c)) as [[r s]|].
Qed.

Lemma on_frames_ok frames : forall c,
  frame_ready (cb_decoder c) (length frames) -> length (cb_out c) = 64%nat ->
  0 <= cb_event_count c -> cb_event_count c + Z.of_nat (length frames) <= tmax U64 ->
  0 <= cb_drop_count c -> cb_drop_count c + 64 * Z.of_nat (length frames) <= tmax U64 ->
  exists batches dec out, length batches = length frames /\ Forall (fun es => (length es <= 64)%nat) batches /\
    on_frames push frames c =
      '(r, sink) ← offer push (concat batches) (cb_sink c);
      Ret (Callback dec (cb_event_count c + Z.of_nat (length frames)) (cb_drop_count c + Z.of_nat r) out sink).
Proof.
  induction frames as [|[buf ts] frames IH]; intros c Hready Hout He Hemax Hd Hdmax.
  { exists [], (cb_decoder c), (cb_out c). cbn. split_and!; try done. rewrite !Z.add_0_r. by destruct c. }
  cbn [length on_frames] in *.
  destruct (on_frame_ok c (length frames) buf ts) as (Hes & dec & out & Hready' & Hout' & Ef); [done|done|lia..|].
  rewrite Ef. destruct (offer push (frame_events c buf ts) (cb_sink c)) as [[r1 s1]|] eqn:Eo; cbn [mbind outcome_bind].
  2: { exists (frame_events c buf ts :: replicate (length frames) []), dec, out. cbn [length concat].
       rewrite length_replicate, offer_app, Eo. split; [done|]. split; [|done].
       constructor; [done|]. apply Forall_replicate. cbn. lia. }
  pose proof (offer_refused _ _ _ _ Eo) as Hr.
  destruct (IH (Callback dec (cb_event_count c + 1) (cb_drop_count c + Z.of_nat r1) out s1))
    as (bs & dec' & out' & Hl & Hall & E');
    cbn [cb_decoder cb_out cb_event_count cb_drop_count cb_sink] in *; [done|done|lia..|].
  exists (frame_events c buf ts :: bs), dec', out'. cbn [length concat]. split; [lia|]. split; [by constructor|].
  rewrite E', offer_app, Eo. cbn [mbind outcome_bind]. destruct (offer push (concat bs) s1) as [[r2 s2]|]; [|done].
  cbn [mbind outcome_bind]. do 2 f_equal; lia.
Qed.
End runs.

(** The callback of a feed: whatever the frames, each is counted once, the
    decoded events are offered to the queue in order, at most 64 per frame,
    and [drop_count] is the number refused; only the queue can panic. *)
Theorem callback_counts {Dec P : Type} `{FrameDecoderLaws Dec} (push : P -> HotEvent -> outcome (bool * P))
    (decoder : Dec) (sink : P) (frames : list (list Z * Timestamp)) :
  frame_ready decoder (length frames) -> 64 * Z.of_nat (length frames) <= tmax U64 ->
  exists batches dec out, length batches = length frames /\ Forall (fun es => (length es <= 64)%nat) batches /\
    on_frames push frames (build_callback decoder sink) =
      '(refused, sink') ← offer push (concat batches) sink;
      Ret (Callback dec (Z.of_nat (length frames)) (Z.of_nat refused) out sink').
Proof.
  intros Hready Hmax. destruct (on_frames_ok push frames (build_callback decoder sink)) as (bs & dec & out & Hl & Hall & E);
    cbn [build_callback cb_decoder cb_out cb_event_count cb_drop_count cb_sink] in *; [done|done|lia..|].
  by exists bs, dec, out.
Qed.

(** The counter as the monitor's input: between two checks the feed is silent
    exactly when no frame arrived. *)
Lemma event_count_silent (n k : nat) :
  Z.of_nat n + Z.of_nat k <= tmax U64 ->
  silent (Watched (source_from_raw 0) 0 [Z.of_nat n; Z.of_nat (n + k)]) = true <-> k = 0%nat.
Proof. intros _. unfold silent. cbn. rewrite Z.eqb_eq. lia. Qed.
