(* ===== verification/Pipeline.v ===== *)
(** * From frames to the engine through the ring

    The composition of four components: a feed's callback
    ([crates/binance/src/spawn.rs], [crates/polymarket/src/market/spawn.rs])
    decodes each frame and pushes its events through the producer handle of an
    SPSC ring ([crates/queue/src/handle.rs]); the consumer pops them and hands
    each to the market-state engine ([crates/market-state/src/engine.rs]).
    Frames and polls interleave arbitrarily, one ring operation at a time ([Spsc]
    shows that the memory accesses inside them may interleave as well).
    [pl_decoded] and [pl_processed] record what the decoder produced and what
    the engine was given. *)

From Stdlib Require Import ZArith Lia.
From stdpp Require Import base decidable list numbers option tactics strings.
From S2P Require Import Prelude Platform Fixed FixedText Types Events Book MarketEngine Registry Polymarket.
From S2P Require Import Binance Ring Handles Timer Feed Spawn.

#[local] Open Scope Z_scope.

(** The [push] closure of a feed whose queue is a ring: [|event| tx.push(event)] (crates/binance/README.md has [ring.try_push(event).is_ok()]). *)
Definition ring_sink `{BuildProfile} `{TargetArch} (ring : split HotEvent NoInstr) (e : HotEvent)
    : outcome (bool * split HotEvent NoInstr) :=
  '(ring', ok) ← tx_push ring e; Ret (ok, ring').

Record pipeline (Dec B : Type) := {
  pl_feed : callback_state Dec (split HotEvent NoInstr);
  pl_engine : MarketStateEngine B;
  pl_decoded : list HotEvent;
  pl_processed : list HotEvent;
}.
Arguments pl_feed {Dec B} _.
Arguments pl_engine {Dec B} _.
Arguments pl_decoded {Dec B} _.
Arguments pl_processed {Dec B} _.

(** A frame arrives, or the consumer polls the ring once. *)
Inductive pipe_op :=
| PFrame (buf : list Z) (recv_ts : Timestamp)
| PPoll.

Section pipeline.
Context `{BuildProfile} `{TargetArch} {Dec B : Type} `{FrameDecoder Dec} `{OrderBook B}.
Implicit Types p : pipeline Dec B.

Definition pipe_new (decoder : Dec) (ring : split HotEvent NoInstr) (eng : MarketStateEngine B) : pipeline Dec B :=
  {| pl_feed := build_callback decoder ring; pl_engine := eng; pl_decoded := []; pl_processed := [] |}.

Definition set_ring (c : callback_state Dec (split HotEvent NoInstr)) (ring : split HotEvent NoInstr)
    : callback_state Dec (split HotEvent NoInstr) :=
  Callback (cb_decoder c) (cb_event_count c) (cb_drop_count c) (cb_out c) ring.

Definition pipe_step p (op : pipe_op) : outcome (pipeline Dec B) :=
  match op with
  | PFrame buf ts =>
      '(c, _) ← on_frame ring_sink (pl_feed p) buf ts;
      Ret {| pl_feed := c; pl_engine := pl_engine p; pl_decoded := pl_decoded p ++ frame_events (pl_feed p) buf ts;
             pl_processed := pl_processed p |}
  | PPoll =>
      '(ring, res) ← rx_try_pop (cb_sink (pl_feed p));
      match res with
      | Ok e =>
          eng ← process (pl_engine p) e;
          Ret {| pl_feed := set_ring (pl_feed p) ring; pl_engine := eng; pl_decoded := pl_decoded p;
                 pl_processed := pl_processed p ++ [e] |}
      | Err _ =>
          Ret {| pl_feed := set_ring (pl_feed p) ring; pl_engine := pl_engine p; pl_decoded := pl_decoded p;
                 pl_processed := pl_processed p |}
      end
  end.

Fixpoint pipe_run p (ops : list pipe_op) : outcome (pipeline Dec B) :=
  match ops with
  | [] => Ret p
  | op :: ops => p' ← pipe_step p op; pipe_run p' ops
  end.

Definition is_frame (op : pipe_op) : bool := match op with PFrame _ _ => true | PPoll => false end.
Definition frames_of (ops : list pipe_op) : nat := length (filter (fun op => is_frame op = true) ops).
End pipeline.

(** * The ring as a sink *)

Section sink.
Context `{BuildProfile} `{TargetArch}.
Context (St : IndexStrategy) (cap : Z) (Hcap : 1 <= cap <= 2 ^ 62) `{!@StepWrap St cap}.
Implicit Types (s : split HotEvent NoInstr) (q : list HotEvent).

(** Both handles are there, over a ring that holds [q]. *)
Definition ring_holds s q : Prop :=
  handles_inv St cap s q /\ tx_live s = true /\ rx_live s = true /\ Z.of_nat (length q) <= cap - 1.

Lemma ring_sink_fifo s q e :
  ring_holds s q ->
  exists s', ring_sink s e = Ret (Z.of_nat (length q) <? cap - 1, s') /\
    ring_holds s' (if Z.of_nat (length q) <? cap - 1 then q ++ [e] else q).
Proof.
  intros (Hi & Ht & Hr & Hq). pose proof Hi as [_ Ha]. rewrite Ht in Ha. destruct Ha as (r & Ea & He).
  destruct (@try_push_fifo _ _ St _ _ _ cap Hcap _ r q e He) as (r' & res & Ep & He' & Eo & _).
  destruct (through_live St cap s q (fun ring => raw_push ring e) r r' (tx_live s)
    match res with Ok _ => true | Err _ => false end Ht Ea) with (q' := (fifo_step cap q (RingPush e)).1)
    as (s' & E & Hi' & Et & Er); try done.
  { unfold raw_push, on_engine. cbn [raw_strategy raw_engine].
    rewrite (proj1 (flag_variants_agree r e e)), Ep. done. }
  { by rewrite Ht. }
  unfold ring_sink, tx_push. rewrite E. cbn [mbind outcome_bind fifo_step] in *. exists s'.
  destruct (Z.ltb_spec (Z.of_nat (length q)) (cap - 1)); destruct res as [|[]]; try done;
    (split; [done|]); (split; [done|]); split_and!; try congruence; try done.
  cbn [fst]. rewrite length_app. cbn [length]. lia.
Qed.

Lemma ring_pop_fifo s q :
  ring_holds s q ->
  exists s' res, rx_try_pop s = Ret (s', res) /\
    match q with [] => (exists err, res = Err err) /\ ring_holds s' [] | e :: q' => res = Ok e /\ ring_holds s' q' end.
Proof.
  intros (Hi & Ht & Hr & Hq). pose proof Hi as [_ Ha]. rewrite Ht in Ha. destruct Ha as (r & Ea & He).
  destruct (@try_pop_fifo _ _ St _ _ _ cap Hcap _ r q He) as (r' & res & Ep & He' & Eo & _).
  destruct (through_live St cap s q (fun ring => raw_try_pop ring) r r' (rx_live s) res Hr Ea)
    with (q' := (fifo_step cap q RingPop).1) as (s' & E & Hi' & Et & Er); try done.
  { unfold raw_try_pop, on_engine. cbn [raw_strategy raw_engine]. by rewrite Ep. }
  { by rewrite Ht. }
  exists s', res. split; [exact E|]. unfold ring_holds.
  destruct q as [|e q]; cbn [fifo_step fst snd length] in *; destruct res; try done.
  - split; [by eexists|]. split_and!; try congruence; try done.
  - injection Eo as ->. split; [done|]. split_and!; try congruence; try done. lia.
Qed.

(** A batch is accepted up to the room there is. *)
Lemma offer_ring es : forall s q,
  ring_holds s q ->
  let n := (length es `min` Z.to_nat (cap - 1 - Z.of_nat (length q)))%nat in
  exists s', offer ring_sink es s = Ret ((length es - n)%nat, s') /\ ring_holds s' (q ++ take n es).
Proof.
  induction es as [|e es IH]; intros s q Hs n.
  { exists s. subst n. cbn. by rewrite app_nil_r. }
  cbn [offer]. destruct (ring_sink_fifo s q e Hs) as (s1 & E & Hs1). rewrite E. cbn [mbind outcome_bind].
  destruct (Z.ltb_spec (Z.of_nat (length q)) (cap - 1)) as [Hlt|Hge].
  - destruct (IH s1 (q ++ [e]) Hs1) as (s' & E' & Hs'). rewrite length_app in E', Hs'. cbn [length] in *.
    rewrite E'. cbn [mbind outcome_bind].
    exists s'. set (m := (length es `min` Z.to_nat (cap - 1 - Z.of_nat (length q + 1)))%nat) in *.
    assert (n = S m) as -> by (subst n m; cbn [length]; lia). cbn [take].
    split; [do 2 f_equal; lia|]. by rewrite <- app_assoc in Hs'.
  - destruct (IH s1 q Hs1) as (s' & E' & Hs'). rewrite E'. cbn [mbind outcome_bind]. exists s'. cbn [length] in *.
    replace (length es `min` Z.to_nat (cap - 1 - Z.of_nat (length q)))%nat with 0%nat in * by lia.
    assert (n = 0%nat) as -> by (subst n; cbn [length]; lia). split; [do 2 f_equal; lia|]. by rewrite take_0 in *.
Qed.
End sink.

(** * Runs of the pipeline *)

Section runs.
Context `{BuildProfile} `{TargetArch} {Dec B : Type} `{FrameDecoderLaws Dec} `{OrderBook B}.
Context (St : IndexStrategy) (cap : Z) (Hcap : 1 <= cap <= 2 ^ 62) `{!@StepWrap St cap}.
Implicit Types (p : pipeline Dec B) (q : list HotEvent).

(** The state after [n] frames, with room for [k] more, started with the engine
    [eng]. *)
Record pipe_inv (eng : MarketStateEngine B) (n k : nat) p q : Prop := {
  pi_ready : frame_ready (cb_decoder (pl_feed p)) k;
  pi_out : length (cb_out (pl_feed p)) = 64%nat;
  pi_ring : ring_holds St cap (cb_sink (pl_feed p)) q;
  pi_events : cb_event_count (pl_feed p) = Z.of_nat n;
  pi_drops : 0 <= cb_drop_count (pl_feed p) <= 64 * Z.of_nat n;
  pi_order : pl_processed p ++ q `sublist_of` pl_decoded p;
  pi_count : Z.of_nat (length (pl_decoded p)) = Z.of_nat (length (pl_processed p ++ q)) + cb_drop_count (pl_feed p);
  pi_engine : process_all eng (pl_processed p) = Ret (pl_engine p);
}.

(** What one frame, respectively one poll, does to the queue [q]. *)
Definition frame_effect p q (buf : list Z) (ts : Timestamp) p' q' : Prop :=
  let es := frame_events (pl_feed p) buf ts in
  let n := (length es `min` Z.to_nat (cap - 1 - Z.of_nat (length q)))%nat in
  q' = q ++ take n es /\ (length es <= 64)%nat /\ pl_decoded p' = pl_decoded p ++ es
  /\ cb_drop_count (pl_feed p') = cb_drop_count (pl_feed p) + Z.of_nat (length es - n)
  /\ cb_event_count (pl_feed p') = cb_event_count (pl_feed p) + 1
  /\ pl_engine p' = pl_engine p /\ pl_processed p' = pl_processed p.

Definition poll_effect p q (o : outcome (pipeline Dec B)) : Prop :=
  match q with
  | [] => exists p', o = Ret p' /\ pl_engine p' = pl_engine p /\ pl_processed p' = pl_processed p
  | e :: _ =>
      match process (pl_engine p) e with
      | Ret eng => exists p', o = Ret p' /\ pl_engine p' = eng /\ pl_processed p' = pl_processed p ++ [e]
      | Panic => o = Panic
      end
  end.

Lemma process_all_snoc (eng : MarketStateEngine B) es e :
  process_all eng (es ++ [e]) = (eng' ← process_all eng es; process eng' e).
Proof.
  revert eng. induction es as [|x es IH]; intros eng; cbn.
  { by destruct (process eng e). }
  destruct (process eng x); [apply IH|done].
Qed.

Lemma pipe_frame eng n k p q buf ts :
  pipe_inv eng n (S k) p q -> 64 * Z.of_nat (S n) <= tmax U64 ->
  exists p' q', pipe_step p (PFrame buf ts) = Ret p' /\ frame_effect p q buf ts p' q' /\ pipe_inv eng (S n) k p' q'.
Proof.
  intros [Ir Io Ig Ie Id Ior Ic Ien] Hmax. set (es := frame_events (pl_feed p) buf ts).
  destruct (on_frame_ok ring_sink (pl_feed p) k buf ts) as (Hes & dec & out & Hr & Hout & E); [done|done|lia..|].
  destruct (offer_ring St cap Hcap es _ q Ig) as (s' & Eo & Hs').
  set (m := (length es `min` Z.to_nat (cap - 1 - Z.of_nat (length q)))%nat) in *.
  cbn [pipe_step]. rewrite E. fold es. rewrite Eo. cbn [mbind outcome_bind]. eexists _, (q ++ take m es). split; [done|].
  split; [by split_and!|]. split; cbn [pl_feed pl_engine pl_decoded pl_processed cb_decoder cb_out cb_sink
    cb_event_count cb_drop_count]; try done; try lia.
  - fold es in Hes. lia.
  - rewrite app_assoc. apply sublist_app; [done|]. apply sublist_take.
  - rewrite !length_app, length_take in *. fold es. lia.
Qed.

Lemma pipe_poll eng n k p q :
  pipe_inv eng n k p q ->
  poll_effect p q (pipe_step p PPoll) /\
  (forall p', pipe_step p PPoll = Ret p' -> exists q', pipe_inv eng n k p' q').
Proof.
  intros [Ir Io Ig Ie Id Ior Ic Ien]. destruct (ring_pop_fifo St cap Hcap _ q Ig) as (s' & res & E & Hq).
  cbn [pipe_step]. rewrite E. cbn [mbind outcome_bind]. unfold poll_effect. destruct q as [|e q].
  - destruct Hq as [[err ->] Hs']. split; [by eexists|]. intros p' [= <-]. exists []. by split.
  - destruct Hq as [-> Hs']. destruct (process (pl_engine p) e) as [eng'|] eqn:Ee; cbn [mbind outcome_bind]; [|done].
    split; [by eexists|]. intros p' [= <-]. exists q.
    split; cbn [set_ring pl_feed pl_engine pl_decoded pl_processed cb_decoder cb_out cb_sink cb_event_count cb_drop_count];
      rewrite <- ?app_assoc; try done.
    by rewrite process_all_snoc, Ien.
Qed.

Lemma pipe_run_inv ops : forall eng n k p q p',
  pipe_inv eng n (frames_of ops + k) p q -> 64 * Z.of_nat (n + frames_of ops) <= tmax U64 ->
  pipe_run p ops = Ret p' -> exists q', pipe_inv eng (n + frames_of ops) k p' q'.
Proof.
  induction ops as [|op ops IH]; intros eng n k p q p' I Hmax E.
  { injection E as <-. exists q. by rewrite Nat.add_0_r. }
  cbn [pipe_run] in E. inv_bind E. destruct op as [buf ts|].
  - change (frames_of (PFrame buf ts :: ops)) with (S (frames_of ops)) in *.
    destruct (pipe_frame eng n (frames_of ops + k) p q buf ts I) as (p1 & q1 & E1 & _ & I1); [lia|].
    assert (x = p1) as -> by congruence. rewrite <- Nat.add_succ_comm. eapply IH; [exact I1|lia|exact E].
  - change (frames_of (PPoll :: ops)) with (frames_of ops) in *.
    destruct (pipe_poll eng n _ p q I) as [_ Hp]. destruct (Hp x E0) as [q1 I1]. by eapply IH.
Qed.
End runs.

Section admissible.
Context `{BuildProfile} {B} `{!OrderBook B} `{!OrderBookLaws B} `{!SmallPrices B}.

(** Admissible events keep the engine well formed. *)
Lemma process_all_wf es : forall eng eng' : MarketStateEngine B,
  engine_wf eng -> Forall event_ok es -> process_all eng es = Ret eng' -> engine_wf eng'.
Proof.
  induction es as [|e es IH]; intros eng eng' Hwf He E; cbn in E; [by injection E as <-|].
  inversion He as [|?? He1 He2]; subst. destruct (process_step eng e Hwf He1) as (eng1 & E1 & Hs). rewrite E1 in E.
  eapply (IH eng1); [|done|exact E]. destruct (slot_of eng _) as [slot|]; [|by subst].
  destruct Hs as (st & st' & _ & Hs). by eapply step_spec_wf.
Qed.
End admissible.

Lemma sublist_Forall {A} (P : A -> Prop) l k : l `sublist_of` k -> Forall P k -> Forall P l.
Proof. induction 1; inversion 1; subst; eauto. Qed.

(** C11. The pipeline delivers in order and accounts for every event: a feed's
    callback pushing into the ring and a consumer popping from it, with frames
    and polls in any order.  In every state reached, the events processed and
    those queued are, in order, decoded events; the decoded ones that are
    missing were dropped and [drop_count] is their number; the engine is the
    one that processing the delivered events gives.  The next frame is decoded
    to at most 64 events, of which exactly those that fit into the free slots
    are queued, in order, and the others counted as dropped; the next poll
    hands exactly the oldest queued event to the engine, and panics only if the
    engine does, which it does not while the events are admissible. *)
Theorem pipeline_delivers_in_order `{BuildProfile} `{TargetArch} {Dec} `{FrameDecoderLaws Dec} {N : nat} (HN : BookSize N)
    (St : IndexStrategy) (storage : list (option HotEvent)) (decoder : Dec) (eng : MarketStateEngine (ArrayBook N))
    (ops : list pipe_op) (p : pipeline Dec (ArrayBook N)) :
  supported St storage -> engine_wf eng ->
  frame_ready decoder (S (frames_of ops)) -> 64 * Z.of_nat (S (frames_of ops)) <= tmax U64 ->
  let cap := capacity_of storage in
  pipe_run (pipe_new decoder (split_ring (with_strategies St storage no_instr)) eng) ops = Ret p ->
  exists q, ring_holds St cap (cb_sink (pl_feed p)) q
    /\ pl_processed p ++ q `sublist_of` pl_decoded p
    /\ Z.of_nat (length (pl_decoded p)) = Z.of_nat (length (pl_processed p ++ q)) + cb_drop_count (pl_feed p)
    /\ cb_event_count (pl_feed p) = Z.of_nat (frames_of ops)
    /\ process_all eng (pl_processed p) = Ret (pl_engine p)
    /\ (forall buf ts, exists p' q', pipe_step p (PFrame buf ts) = Ret p' /\ frame_effect cap p q buf ts p' q'
          /\ ring_holds St cap (cb_sink (pl_feed p')) q')
    /\ poll_effect p q (pipe_step p PPoll)
    /\ (Forall event_ok (pl_decoded p) -> exists p', pipe_step p PPoll = Ret p').
Proof.
  intros HS Hwf Hready Hmax cap E. destruct (supported_ring _ _ HS) as (Hc & Es & HW). fold cap in Hc, Es, HW.
  assert (pipe_inv St cap eng 0 (frames_of ops + 1)
    (pipe_new decoder (split_ring (with_strategies St storage no_instr)) eng) []) as I0.
  { split; cbn [pipe_new build_callback pl_feed cb_decoder cb_out cb_sink cb_event_count cb_drop_count pl_processed
      pl_decoded pl_engine]; try done.
    - by rewrite Nat.add_1_r.
    - split_and!; try done; [|cbn; lia]. rewrite Es. by apply split_ring_inv. }
  destruct (pipe_run_inv St cap Hc ops eng 0 1 _ [] p I0) as [q I]; [lia|done|]. cbn [Nat.add] in I. exists q.
  destruct (pipe_poll St cap Hc _ _ _ _ _ I) as [Hpoll _]. pose proof I as [_ _ Ig Ie _ Ior Ic Ien]. split_and!; try done.
  - intros buf ts. destruct (pipe_frame St cap Hc _ _ _ _ _ buf ts I) as (p' & q' & Ep & Hf & I'); [lia|].
    exists p', q'. split_and!; try done; apply I'.
  - intros Hok. assert (Forall event_ok (pl_processed p ++ q)) as Hq by (by eapply sublist_Forall).
    apply Forall_app in Hq as [Hpr Hq]. unfold poll_effect in Hpoll. destruct q as [|e q].
    { destruct Hpoll as (p' & -> & _). by exists p'. }
    apply Forall_cons in Hq as [He _].
    destruct (process_step (pl_engine p) e) as (eng' & Ep & _); [by eapply process_all_wf|done|].
    rewrite Ep in Hpoll. destruct Hpoll as (p' & -> & _). by exists p'.
Qed.

(** What a run decoded, processed and dropped. *)
Definition summary {Dec B} (o : outcome (pipeline Dec B)) : option (nat * nat * Z) :=
  match o with
  | Ret p => Some (length (pl_decoded p), length (pl_processed p), cb_drop_count (pl_feed p))
  | Panic => None
  end.

Lemma summary_ret {Dec B} (o : outcome (pipeline Dec B)) p :
  o = Ret p -> summary o = Some (length (pl_decoded p), length (pl_processed p), cb_drop_count (pl_feed p)).
Proof. by intros ->. Qed.

(** The witness: a one-element ring; two ticker frames arrive before the
    consumer polls, so the second event is dropped and counted. *)
Lemma pipeline_delivers_in_order_witness :
  exists (dec : BinanceDecoder 3) (eng : MarketStateEngine (ArrayBook 100)) p q,
    binance_new (source_from_raw 2) [sample_mapping] = Ret (Ok dec) /\
    @pipe_run debug_profile false _ _ (@binance_frames debug_profile sample_binance_json 3) (@ArrayBook_book debug_profile 100)
      (pipe_new dec (split_ring (with_strategies (@Pow2Masked debug_profile) (replicate 2 None) no_instr)) eng)
      [PFrame [123; 125] (from_nanos 7); PFrame [123; 125] (from_nanos 8); PPoll] = Ret p
    /\ length (pl_decoded p) = 2%nat /\ length (pl_processed p) = 1%nat
    /\ pl_processed p ++ q `sublist_of` pl_decoded p
    /\ 2 = Z.of_nat (length (pl_processed p ++ q)) + cb_drop_count (pl_feed p) /\ cb_drop_count (pl_feed p) = 1.
Proof.
  destruct (binance_new_spec (source_from_raw 2) [sample_mapping])
    as [[? _]|[[Hl _]|[_ [[HE _]|(_ & dec & E & Hr & Es & _ & Ec)]]]]; [done|unfold MAX_BINANCE_SYMBOLS in Hl; cbn in Hl; lia| |].
  { apply Exists_cons in HE as [HE|HE]; [unfold too_long, MAX_SYMBOL_LEN in HE; cbn in HE; lia|by apply Exists_nil in HE]. }
  assert (HN : BookSize 100) by (by vm_compute).
  destruct (@engine_new_ok (ArrayBook 100) (@ArrayBook_book debug_profile 100) _ 1 1 1000) as (eng & En & _ & Hwf & _);
    [lia|by vm_compute|].
  exists dec, eng. assert (HD : valid_exp 3) by (by vm_compute).
  assert (Hms : Forall (fun m => meta_wf (bm_meta m)) [sample_mapping]) by (repeat constructor; by vm_compute).
  set (ops := [PFrame [123; 125] (from_nanos 7); PFrame [123; 125] (from_nanos 8); PPoll]).
  assert (exists p, @pipe_run debug_profile false _ _ (@binance_frames debug_profile sample_binance_json 3)
      (@ArrayBook_book debug_profile 100)
      (pipe_new dec (split_ring (with_strategies (@Pow2Masked debug_profile) (replicate 2 None) no_instr)) eng) ops = Ret p
    /\ length (pl_decoded p) = 2%nat /\ length (pl_processed p) = 1%nat /\ cb_drop_count (pl_feed p) = 1)
    as (p & Ep & Hd & Hp & Hc).
  { destruct (pipe_run _ ops) as [p|] eqn:Ep.
    - exists p. split; [done|].
      assert (Some (length (pl_decoded p), length (pl_processed p), cb_drop_count (pl_feed p)) = Some (2%nat, 1%nat, 1))
        as [= -> -> ->]; [|done].
      rewrite <- (summary_ret _ _ Ep). injection En as <-. vm_compute in E. injection E as <-. vm_compute. reflexivity.
    - exfalso. apply (f_equal summary) in Ep. injection En as <-. vm_compute in E. injection E as <-. vm_compute in Ep. done. }
  destruct (@pipeline_delivers_in_order debug_profile false _ _
    (@binance_frame_laws debug_profile sample_binance_json 3 HD [sample_mapping] Hms) 100 HN (@Pow2Masked debug_profile)
    (replicate 2 None) dec eng ops p) as (q & _ & Hsub & Hcount & _).
  - split; [by left|]. split; [left; by exists 2%nat|done].
  - exact Hwf.
  - split; [exact Hr|]. rewrite Es. by vm_compute.
  - by vm_compute.
  - exact Ep.
  - exists p, q. rewrite Hd in Hcount. by split_and!.
Defined.
