(* ===== verification/Harness.v ===== *)
(** * The remaining test harnesses ([crates/verify]: fixed_props.rs, decoder_props.rs, market_state_props.rs, seqlock_proofs.rs, seqlock_props.rs)

    Translated as in RingHarness.v: a function of the generated input, with a
    failed assertion or a panicking operation as [Panic].  [harnesses_pass]
    collects every harness of the crate. *)

From stdpp Require Import base decidable numbers option tactics gmap strings list.
From Stdlib Require Import ZArith Lia.
From S2P Require Import Prelude Platform Ring SeqLock Fixed FixedText Float64 FloatExact Types Events Book MarketEngine Registry Polymarket Binance Timer Feed Spawn Testing RingHarness.

#[local] Open Scope Z_scope.

#[global] Instance scale_2 : Scale 2.
Proof. done. Qed.
#[global] Instance scale_6 : Scale 6.
Proof. done. Qed.

#[global] Instance parse_error_eq_dec : EqDecision ParseFixedError.
Proof. solve_decision. Defined.

(** * Fixed-point numbers (fixed_props.rs) *)

Section fixed_props.
Context `{BuildProfile}.
#[local] Abbreviation F6 := (FixedI64 6).

Definition checked_add_commutative (a b : Z) : outcome unit :=
  let fa : F6 := from_raw a in
  let fb : F6 := from_raw b in
  assert_ (bool_decide (checked_add fa fb = checked_add fb fa)).

Definition checked_sub_inverse_of_add (a b : Z) : outcome unit :=
  let fa : F6 := from_raw a in
  let fb : F6 := from_raw b in
  match checked_add fa fb with
  | Some sum => assert_ (bool_decide (checked_sub sum fb = Some fa))
  | None => Ret tt
  end.

Definition checked_mul_trunc_commutative (a b : Z) : outcome unit :=
  let fa : F6 := from_raw a in
  let fb : F6 := from_raw b in
  x ← checked_mul_trunc fa fb;
  y ← checked_mul_trunc fb fa;
  assert_ (bool_decide (x = y)).

Definition from_int_to_raw_consistency (n : Z) : outcome unit :=
  match from_int (D := 6) n with
  | Some f => expected ← arith I64 (n * SCALE 6); assert_ (to_raw f =? expected)
  | None => Ret tt
  end.

Definition rescale_widen_then_narrow_preserves (raw : Z) : outcome unit :=
  let f2 : FixedI64 2 := from_raw raw in
  wide ← rescale_trunc 6 f2;
  match wide with
  | Some f6 =>
      narrowed ← rescale_trunc 2 f6;
      match narrowed with Some back => assert_ (bool_decide (back = f2)) | None => Ret tt end
  | None => Ret tt
  end.

Definition checked_rescale_exact_none_iff_lossy (raw : Z) : outcome unit :=
  let f6 : F6 := from_raw raw in
  exact ← checked_rescale_exact 2 f6;
  trunc ← rescale_trunc 2 f6;
  match exact, trunc with
  | Some e, Some t =>
      _ ← assert_ (bool_decide (e = t));
      remainder ← rem_op I64 raw 10000;
      assert_ (remainder =? 0)
  | None, Some _ => remainder ← rem_op I64 raw 10000; assert_ (negb (remainder =? 0))
  | _, None => Ret tt
  end.

Definition display_parse_roundtrip_prop (raw : Z) : outcome unit :=
  let f : F6 := from_raw raw in
  let s := fixed_display f in
  parsed ← from_str_decimal 6 s;
  assert_ (bool_decide (parsed = Ok f)).
End fixed_props.

(** * Decoders (decoder_props.rs) *)


Section decoder_props.
Context `{BuildProfile} `{BinanceJson} `{PolymarketJson}.

(** [check!().for_each]: the decoder is kept from one input to the next, the
    event buffer is new each time. *)
Definition decode_input {Dec} `{FrameDecoder Dec} (decoder : Dec) (buf : bytes) : outcome Dec :=
  '(decoder, _, _) ← frame_decode decoder buf (from_nanos 0) make_out;
  Ret decoder.

Definition binance_decoder_never_panics (inputs : list bytes) : outcome unit :=
  tick_size ← from_str_decimal 3 (lit "0.01"); tick_size ← expect_ok tick_size;
  lot_size ← from_str_decimal 3 (lit "0.001"); lot_size ← expect_ok lot_size;
  meta ← expect_ok (meta_new tick_size lot_size);
  decoder ← binance_new (source_from_raw 2)
    [{| bm_symbol := lit "BTCUSDT"; bm_instrument := inst_from_raw 1; bm_meta := meta |}];
  decoder ← expect_ok decoder;
  _ ← for_each decode_input decoder inputs;
  Ret tt.

Definition test_window : PolymarketWindowBinding :=
  {| token_id := lit "abc123"; market_slug := lit "btc-15m-up"; window_start := from_nanos 0;
     window_end := from_nanos 900000000000; condition_id := None |}.

Definition polymarket_decoder_never_panics (inputs : list bytes) : outcome unit :=
  meta ← expect_ok (meta_new (D := 6) (from_raw 10000) (from_raw 1000000));
  let key := key_prediction Btc M15 Up in
  let '(reg, id) := reg_insert registry_new key meta None (Some polymarket_default) in
  id ← expect_ok id;
  let '(reg, bound) := bind_polymarket_current reg id test_window in
  _ ← expect_ok bound;
  _ ← for_each decode_input (polymarket_new (source_from_raw 10) reg) inputs;
  Ret tt.
End decoder_props.

(** * Books and engine (market_state_props.rs) *)

Section market_state_props.
Context `{BuildProfile}.

Definition make_delta (price qty : Z) (side : Side) (flags : EventFlags) : HotEvent :=
  ev_book_delta (from_nanos 1000) (seqnum_from_raw 1) (inst_from_raw 1) (source_from_raw 1) flags
    {| bd_price := ticks_from_raw price; bd_qty := lots_from_raw qty; bd_side := side; bd_action := ActNew; bd_depth := 0 |}.

Definition random_delta (book : ArrayBook 100) (delta : Z * Z * bool) : outcome (ArrayBook 100) :=
  let '(price, qty, is_ask) := delta in
  apply_delta book (ticks_from_raw price) (lots_from_raw qty) (if (is_ask : bool) then Ask else Bid) ActNew.

Definition prop_array_book_random_deltas_no_panic (deltas : list (Z * Z * bool)) : outcome unit :=
  book ← for_each random_delta ob_default deltas;
  '(book, _) ← best_bid book;
  '(book, _) ← best_ask book;
  let _ := (level_count book Bid, level_count book Ask) in
  _ ← total_depth book Bid 5;
  _ ← total_depth book Ask 5;
  Ret tt.

Definition bid_pair (s : ArrayBook 100 * option Z) (pair : Z * Z) : outcome (ArrayBook 100 * option Z) :=
  let '(book, max_price) := s in
  let '(price, qty_u8) := pair in
  let qty := saturate I64 (qty_u8 + 1) in
  book ← apply_delta book (ticks_from_raw price) (lots_from_raw qty) Bid ActNew;
  Ret (book, Some (match max_price with None => price | Some prev => Z.max prev price end)).

Definition prop_best_bid_is_highest (pairs : list (Z * Z)) : outcome unit :=
  '(book, max_price) ← for_each bid_pair (ob_default, None) pairs;
  '(book, best) ← best_bid book;
  match max_price, best with
  | Some expected_max, Some (best, _) => assert_ (ticks_to_raw best <=? expected_max)
  | _, _ => Ret tt
  end.

Definition engine_delta (engine : MarketStateEngine (ArrayBook 100)) (delta : Z * Z * bool)
    : outcome (MarketStateEngine (ArrayBook 100)) :=
  let '(price, qty_u8, is_ask) := delta in
  let qty := saturate I64 (qty_u8 + 1) in
  process engine (make_delta price qty (if (is_ask : bool) then Ask else Bid) flags_EMPTY).

Definition prop_imbalance_always_in_range (deltas : list (Z * Z * bool)) : outcome unit :=
  engine ← engine_new 1 1 (tmax U64);
  engine ← process engine (make_delta 45 100 Bid IS_SNAPSHOT);
  engine ← process engine (make_delta 55 100 Ask LAST_IN_BATCH);
  engine ← for_each engine_delta engine deltas;
  imbalance ← book_imbalance engine (inst_from_raw 1) 5;
  match imbalance with
  | Some imb => assert_ (f64_le (f64_of_Z (-1)) imb && f64_le imb (f64_of_Z 1))
  | None => Ret tt
  end.
End market_state_props.

(** * Sequence lock (seqlock_proofs.rs, seqlock_props.rs) *)

(** One thread calls: a call runs its accesses without another thread in
    between.  The thread sees its own stores, so they are taken to have reached
    memory when [store] returns.  A [load] that does not return after one pass
    of its loop is [Panic]. *)
Section seqlock_props.
Context `{SeqLock.MemoryModel}.
#[local] Abbreviation lock := SeqLock.state.

Definition lock_new (initial : list Z) : lock := SeqLock.init_state initial 1.

Definition lock_store (σ : lock) (val : list Z) : outcome lock :=
  match SeqLock.run ([SeqLock.WStart val] ++ (SeqLock.WWord <$> seq 0 (length val)) ++ [SeqLock.WEnd]
                     ++ replicate (S (S (length val))) (SeqLock.Flush 0)) σ with
  | Some σ => Ret σ
  | None => Panic
  end.

Definition lock_load (σ : lock) : outcome (lock * list Z) :=
  match SeqLock.run ([SeqLock.RCall 0; SeqLock.RSeq1 0]
                     ++ (SeqLock.RWord 0 <$> seq 0 (length (SeqLock.m_data (SeqLock.mem σ)))) ++ [SeqLock.RSeq2 0]) σ with
  | Some σ => match SeqLock.readers σ with [SeqLock.RDone (Some v)] => Ret (σ, v) | _ => Panic end
  | None => Panic
  end.

Definition version_even_after_store (val : Z) : outcome unit :=
  lock ← lock_store (lock_new [0]) [val];
  let v := SeqLock.version lock in
  assert_ (Z.land v 1 =? 0).

Definition version_increments_by_two (val : Z) : outcome unit :=
  let v0 := SeqLock.version (lock_new [0]) in
  lock ← lock_store (lock_new [0]) [val];
  let v1 := SeqLock.version lock in
  assert_ (v1 =? wrap USIZE (v0 + 2)).

(** [load_returns_stored_value], and [prop_store_load_roundtrip_u64]. *)
Definition load_returns_stored_value (val : Z) : outcome unit :=
  lock ← lock_store (lock_new [0]) [val];
  '(lock, loaded) ← lock_load lock;
  assert_ (bool_decide (loaded = [val])).

Definition load_returns_latest (val1 val2 : Z) : outcome unit :=
  lock ← lock_store (lock_new [0]) [val1];
  lock ← lock_store lock [val2];
  '(lock, loaded) ← lock_load lock;
  assert_ (bool_decide (loaded = [val2])).

Definition prop_store_load_roundtrip_array (val : list Z) : outcome unit :=
  lock ← lock_store (lock_new [0; 0; 0; 0]) val;
  '(lock, loaded) ← lock_load lock;
  assert_ (bool_decide (loaded = val)).

Definition prop_version_always_even (vals : list Z) : outcome unit :=
  _ ← for_each (fun lock v =>
     lock ← lock_store lock [v];
     _ ← assert_ (Z.land (SeqLock.version lock) 1 =? 0);
     Ret lock) (lock_new [0]) vals;
  Ret tt.

Definition prop_version_monotonic (vals : list Z) : outcome unit :=
  let lock := lock_new [0] in
  _ ← for_each (fun '(lock, prev) v =>
     lock ← lock_store lock [v];
     let cur := SeqLock.version lock in
     _ ← assert_ (cur =? wrap USIZE (prev + 2));
     Ret (lock, cur)) (lock, SeqLock.version lock) vals;
  Ret tt.
End seqlock_props.

(** * Every harness returns *)

Lemma assert_true (P : Prop) `{!Decision P} : P -> assert_ (bool_decide P) = Ret tt.
Proof. intros HP. unfold assert_. by rewrite bool_decide_true. Qed.

Section fixed_passing.
Context `{BuildProfile}.
Implicit Types a b n raw : Z.

Lemma add_commutative_passes a b : checked_add_commutative a b = Ret tt.
Proof. apply assert_true. unfold checked_add. cbn [to_raw]. by rewrite Z.add_comm. Qed.

Lemma sub_inverse_passes a b : in_range I64 a -> checked_sub_inverse_of_add a b = Ret tt.
Proof.
  intros Ha. unfold checked_sub_inverse_of_add. destruct (checked_add _ _) as [sum|] eqn:E; [|done].
  apply from_raw_checked_Some in E as [_ E]. apply assert_true. unfold checked_sub. rewrite E. cbn [to_raw].
  by rewrite Z.add_simpl_r, checked_Some by done.
Qed.

Lemma mul_commutative_passes a b : in_range I64 a -> in_range I64 b -> checked_mul_trunc_commutative a b = Ret tt.
Proof.
  intros Ha Hb. unfold checked_mul_trunc_commutative. rewrite !checked_mul_trunc_ok by done. cbn [mbind outcome_bind to_raw].
  apply assert_true. by rewrite Z.mul_comm.
Qed.

Lemma from_int_passes n : from_int_to_raw_consistency n = Ret tt.
Proof.
  unfold from_int_to_raw_consistency, from_int. destruct (checked I64 (n * SCALE 6)) as [z|] eqn:E; [|done].
  cbn [fmap option_fmap option_map]. unfold checked in E. case_decide; [|done]. injection E as <-.
  rewrite arith_ok by done. cbn [mbind outcome_bind to_raw]. by rewrite Z.eqb_refl.
Qed.

Lemma rescale_preserves_passes raw : in_range I64 raw -> rescale_widen_then_narrow_preserves raw = Ret tt.
Proof.
  intros Hr. unfold rescale_widen_then_narrow_preserves. rewrite rescale_trunc_ok by done. cbn [mbind outcome_bind to_raw].
  destruct (_ <$> checked I64 _) as [f6|] eqn:E; [|done]. apply from_raw_checked_Some in E as [Hw E].
  rewrite rescale_trunc_ok by done. cbn [mbind outcome_bind]. rewrite E.
  change (10 ^ 6) with (10000 * 10 ^ 2). rewrite Z.mul_assoc, Z.quot_mul, Z.quot_mul_cancel_r, Z.quot_mul by lia.
  rewrite checked_Some by done. by apply assert_true.
Qed.

Lemma exact_iff_passes raw : in_range I64 raw -> checked_rescale_exact_none_iff_lossy raw = Ret tt.
Proof.
  intros Hr. unfold checked_rescale_exact_none_iff_lossy.
  destruct (checked_rescale_exact_iff (D := 6) (D2 := 2) (from_raw raw) Hr) as (e & -> & He). cbn [mbind outcome_bind to_raw] in *.
  rewrite rescale_trunc_ok by done. cbn [mbind outcome_bind to_raw].
  change (10 ^ 6) with (10000 * 10 ^ 2) in *. rewrite Z.quot_mul_cancel_r by lia.
  pose proof (Z.quot_rem raw 10000 ltac:(lia)). assert (in_range I64 (Z.quot raw 10000)) by (unfold_ranges; Z.to_euclidean_division_equations; lia).
  rewrite rem_op_ok by (done || lia). rewrite checked_Some by done. cbn [fmap option_fmap option_map mbind outcome_bind].
  destruct e as [e|].
  - destruct (proj1 (He e) eq_refl) as [Hw Ee]. assert (raw = to_raw e * 10000) as -> by lia.
    rewrite Z.quot_mul, Z.rem_mul by lia. destruct e. by rewrite assert_true.
  - destruct (Z.eqb_spec (Z.rem raw 10000) 0); [|done].
    specialize (proj2 (He (from_raw (Z.quot raw 10000)))) as Hx. cbn [to_raw] in Hx. discriminate Hx. split; [done|lia].
Qed.

Lemma display_parse_passes raw : in_range I64 raw -> display_parse_roundtrip_prop raw = Ret tt.
Proof.
  intros Hr. unfold display_parse_roundtrip_prop. rewrite display_parse by done. cbn [mbind outcome_bind]. by apply assert_true.
Qed.
End fixed_passing.

Section decoder_passing.
Context `{BuildProfile} `{BinanceJson} `{PolymarketJson}.

(** A decoder that can take that many frames takes them. *)
Lemma decode_inputs_ok {Dec} `{FrameDecoderLaws Dec} inputs (decoder : Dec) :
  frame_ready decoder (length inputs) -> exists d, for_each decode_input decoder inputs = Ret d.
Proof.
  revert decoder. induction inputs as [|buf inputs IH]; intros d Hr; [by eexists|]. cbn [for_each length] in *.
  destruct (frame_decode_law d (length inputs) buf (from_nanos 0) make_out Hr) as (d' & es & E & _ & Hr'); [done|].
  assert (decode_input d buf = Ret d') as -> by (unfold decode_input; by rewrite E).
  cbn [mbind outcome_bind]. by apply IH.
Qed.

Lemma binance_never_panics_passes inputs : Z.of_nat (length inputs) <= tmax I64 -> binance_decoder_never_panics inputs = Ret tt.
Proof.
  intros Hl. unfold binance_decoder_never_panics.
  replace (from_str_decimal 3 (lit "0.01")) with (Ret (Ok (E := ParseFixedError) (from_raw (D := 3) 10))) by (by vm_compute).
  replace (from_str_decimal 3 (lit "0.001")) with (Ret (Ok (E := ParseFixedError) (from_raw (D := 3) 1))) by (by vm_compute).
  cbn [mbind outcome_bind expect_ok]. set (m := meta_new _ _). vm_compute in m. unfold m. cbn [mbind outcome_bind expect_ok].
  match goal with |- context [binance_new ?s ?ms] => destruct (binance_new_spec s ms)
    as [[? _]|[[Hx _]|[_ [[Hx%Exists_cons _]|(_ & dec & -> & Hr & Hs & _)]]]] end; [done|by apply Nat.ltb_lt in Hx| |].
  { destruct Hx as [Hx|Hx]; [by apply Nat.ltb_lt in Hx|by apply Exists_nil in Hx]. }
  cbn [mbind outcome_bind expect_ok].
  match type of Hr with represents _ ?ms =>
    assert (Hms : Forall (fun m => meta_wf (bm_meta m)) ms) by (by apply (bool_decide_unpack _)) end.
  destruct (@decode_inputs_ok (BinanceDecoder 3) _ (binance_frame_laws (D := 3) ltac:(done) _ Hms) inputs dec) as [d ->]; [|done].
  cbn [frame_ready]. split; [done|]. rewrite Hs. mlia.
Qed.

Lemma test_registry_wf :
  let meta := mkMeta (D := 6) (from_raw 10000) (from_raw 1000000) in
  let '(reg, id) := reg_insert registry_new (key_prediction Btc M15 Up) meta None (Some polymarket_default) in
  id = Ok (inst_from_raw 1) /\
  let '(reg, bound) := bind_polymarket_current reg (inst_from_raw 1) test_window in
  bound = Ok tt /\ map_Forall (fun _ r => meta_wf (rec_meta r)) (by_id reg).
Proof. split; [done|]. split; [done|]. apply (bool_decide_unpack _). by vm_compute. Qed.

Lemma polymarket_never_panics_passes inputs : Z.of_nat (length inputs) <= 2 ^ 56 -> polymarket_decoder_never_panics inputs = Ret tt.
Proof.
  intros Hl. unfold polymarket_decoder_never_panics. set (m := meta_new _ _). vm_compute in m. unfold m. cbn [mbind outcome_bind expect_ok].
  pose proof test_registry_wf as Ht. cbv zeta in Ht. destruct (reg_insert _ _ _ _ _) as [reg id]. destruct Ht as [-> Ht].
  cbn [mbind outcome_bind expect_ok]. destruct (bind_polymarket_current _ _ _) as [reg' bound]. destruct Ht as [-> Ht].
  cbn [mbind outcome_bind expect_ok].
  destruct (@decode_inputs_ok (PolymarketMarketDecoder 6) _ (polymarket_frame_laws (D := 6) ltac:(done)) inputs
    (polymarket_new (source_from_raw 10) reg')) as [d ->]; [|done].
  cbn [frame_ready]. split; [|cbn [polymarket_new pd_seq]; mlia].
  intros i meta. unfold reg_meta. intros (rec & E & ->)%fmap_Some. by apply (Ht i).
Qed.
End decoder_passing.

(** ** Market state *)

Section depths.
Context `{BuildProfile} {N : nat} `{!BookSize N}.

Lemma qty_sum_take_le (ls : list (Ticks * Lots)) M : Forall (fun e => lots_to_raw e.2 <= M) ls -> 0 <= M ->
  forall n, qty_sum (take n ls) <= Z.of_nat n * M.
Proof.
  intros Hle HM. induction Hle as [|e ls He _ IH]; intros [|n]; cbn [take qty_sum foldr]; try lia.
  specialize (IH n). unfold qty_sum in IH. lia.
Qed.

(** The total of [n] levels is at most [n] times a bound of the levels. *)
Lemma total_depth_bound (b : ArrayBook N) s n M :
  array_wf b -> (forall p, array_levels b s p <= M) -> 0 <= M -> Z.of_nat n * M <= tmax I64 ->
  exists d, total_depth b s n = Ret (lots_from_raw d) /\ 0 <= d <= Z.of_nat n * M.
Proof.
  intros Hwf Hle HM Hn. destruct (array_depth_queries b s [] n book_size Hwf) as (_ & _ & Ht).
  pose proof (qty_sum_take_nonneg (live_levels b s) n (live_list_pos _ _)).
  assert (qty_sum (take n (live_levels b s)) <= Z.of_nat n * M).
  { apply qty_sum_take_le; [|done]. apply Forall_forall. unfold live_levels, live_list. intros e (i & _ & He)%list_elem_of_omap.
    destruct (side_levels b s !! i) as [q|] eqn:E; cbn in He; [|done]. destruct (is_live q); [|done]. injection He as <-.
    specialize (Hle (Z.of_nat i)). unfold array_levels, level_of in Hle. rewrite decide_True, Nat2Z.id, E in Hle by lia. done. }
  eexists. split; [apply Ht; mlia|lia].
Qed.

(** The queries at the end of the test. *)
Lemma book_queries_ok (b : ArrayBook N) M :
  ob_wf b -> (forall s p, ob_levels b s p <= M) -> 0 <= M -> 5 * M <= tmax I64 ->
  ('(book, _) ← best_bid b;
   '(book, _) ← best_ask book;
   let _ := (level_count book Bid, level_count book Ask) in
   _ ← total_depth book Bid 5;
   _ ← total_depth book Ask 5;
   Ret tt) = Ret tt.
Proof.
  intros Hwf Hle H0 H5. destruct (best_bid_law b Hwf) as (b1 & r1 & -> & H1 & L1 & _). cbn [mbind outcome_bind].
  destruct (best_ask_law b1 H1) as (b2 & r2 & -> & H2 & L2 & _). cbn [mbind outcome_bind].
  assert (Hle2 : forall s p, array_levels b2 s p <= M).
  { intros s p. change (array_levels b2 s p) with (ob_levels b2 s p). rewrite L2, L1. apply Hle. }
  destruct (total_depth_bound b2 Bid 5 M) as (x & -> & _); [done|apply Hle2|done|done|].
  destruct (total_depth_bound b2 Ask 5 M) as (y & -> & _); [done|apply Hle2|done|done|]. done.
Qed.

Lemma process_wf (eng : MarketStateEngine (ArrayBook N)) e :
  engine_wf eng -> event_ok e -> exists eng', process eng e = Ret eng' /\ engine_wf eng'.
Proof.
  intros Hwf He. destruct (process_step eng e Hwf He) as (eng' & E & Hs). exists eng'. split; [done|].
  destruct (slot_of eng _); [|by subst]. destruct Hs as (st & st' & _ & Hs). by eapply step_spec_wf.
Qed.

(** The book imbalance of a well-formed engine is a number from -1 to 1. *)
Lemma imbalance_within_one (eng : MarketStateEngine (ArrayBook N)) inst n :
  engine_wf eng -> (n <= 32)%nat ->
  exists r, book_imbalance eng inst n = Ret r /\ match r with Some x => within_one x | None => True end.
Proof.
  intros Hwf Hn. unfold book_imbalance. destruct (slot_of eng inst) as [slot|] eqn:Es; [|by exists None].
  destruct (slot_of_Some _ _ _ Hwf Es) as (st & Est & [Hb Hq] & _). rewrite (index_ok _ _ _ Est). cbn [mbind outcome_bind].
  assert (0 <= max_qty /\ Z.of_nat n * max_qty <= 2 ^ 51) as [Hm Hn'] by (unfold max_qty; lia).
  destruct (total_depth_bound (is_book st) Bid n max_qty) as (x & -> & Hx); [done|apply Hq|done|mlia|].
  destruct (total_depth_bound (is_book st) Ask n max_qty) as (y & -> & Hy); [done|apply Hq|done|mlia|].
  cbn [mbind outcome_bind lots_to_raw]. rewrite !f64_of_Z_exact, f64_int_add, f64_int_sub by lia.
  destruct (decide (x + y = 0)) as [->|Hne]; [by exists None|].
  destruct (f64_eq _ _); [by exists None|]. eexists. split; [done|]. apply f64_int_div_within_one; lia.
Qed.
End depths.

Section market_passing.
Context `{BuildProfile}.

#[local] Instance book_size_100 : BookSize 100.
Proof. done. Qed.

Lemma random_deltas_keep M (deltas : list (Z * Z * bool)) : Forall (fun '(p, q, _) => in_range I64 p /\ q <= M) deltas ->
  forall b : ArrayBook 100, ob_wf b -> (forall s p, ob_levels b s p <= M) ->
  exists b', for_each random_delta b deltas = Ret b' /\ ob_wf b' /\ forall s p, ob_levels b' s p <= M.
Proof.
  induction 1 as [|[[p q] a] ds [Hp Hq] _ IH]; intros b Hb Hl; [by exists b|]. cbn [for_each random_delta].
  destruct (apply_delta_law b (ticks_from_raw p) (lots_from_raw q) (if a then Ask else Bid) ActNew Hb Hp) as (b' & -> & Hb' & L).
  cbn [mbind outcome_bind]. apply IH; [done|]. intros s p'. rewrite L. unfold set_level. case_decide; [apply Hq|apply Hl].
Qed.

Lemma random_deltas_pass (deltas : list (Z * Z * bool)) :
  Forall (fun '(p, q, _) => in_range I64 p /\ in_range I32 q) deltas ->
  prop_array_book_random_deltas_no_panic deltas = Ret tt.
Proof.
  intros Hd. unfold prop_array_book_random_deltas_no_panic.
  destruct (random_deltas_keep (2 ^ 31) deltas) with (b := ob_default : ArrayBook 100) as (b & -> & Hwf & Hle).
  - eapply Forall_impl; [exact Hd|]. intros [[p q] a] [Hp Hq]. split; [done|mlia].
  - apply ob_default_wf.
  - intros s p. rewrite ob_default_levels. lia.
  - cbn [mbind outcome_bind]. apply (book_queries_ok b (2 ^ 31)); [done|done|lia|mlia].
Qed.

Lemma best_bid_highest_passes (pairs : list (Z * Z)) :
  Forall (fun '(p, q) => in_range U8 p /\ in_range U8 q) pairs -> prop_best_bid_is_highest pairs = Ret tt.
Proof.
  intros Hd. unfold prop_best_bid_is_highest.
  pose (ok (s : ArrayBook 100 * option Z) := ob_wf s.1 /\ forall p, 0 < ob_levels s.1 Bid p -> exists m, s.2 = Some m /\ p <= m).
  assert (exists s, for_each bid_pair (ob_default, None) pairs = Ret s /\ ok s) as ([b m] & -> & Hwf & Hm).
  { assert (Hi : ok (ob_default, None)) by (split; [apply ob_default_wf|]; intros p; cbn [fst]; rewrite ob_default_levels; lia).
    revert Hi. generalize (ob_default : ArrayBook 100, None : option Z).
    induction Hd as [|[p q] ds [Hp Hq] _ IH]; intros [b m] [Hb Hl]; [by exists (b, m)|]. cbn [for_each bid_pair fst snd] in *.
    destruct (apply_delta_law b (ticks_from_raw p) (lots_from_raw (saturate I64 (q + 1))) Bid ActNew Hb) as (b' & -> & Hb' & L); [cbn; mlia|].
    cbn [mbind outcome_bind]. apply IH. split; [done|]. intros p'. cbn [fst snd]. rewrite L. unfold set_level. case_decide as Hc.
    - destruct Hc as (_ & -> & _). eexists. split; [done|]. cbn. destruct m; lia.
    - intros (m' & -> & ?)%Hl. eexists. split; [done|]. lia. }
  cbn [mbind outcome_bind fst snd] in *.
  destruct (best_bid_law b Hwf) as (b1 & r & -> & _ & _ & Hr). cbn [mbind outcome_bind].
  destruct m as [m|], r as [[p q]|]; try done. destruct Hr as (Hpos & Hlv & _).
  destruct (Hm (ticks_to_raw p)) as (m' & [= <-] & Hle); [by rewrite Hlv|]. unfold assert_. by rewrite (proj2 (Z.leb_le _ _)).
Qed.

Lemma make_delta_ok p q s f : in_range I64 p -> q <= max_qty -> event_ok (make_delta p q s f).
Proof. intros Hp Hq. split; [by vm_compute|]. by split. Qed.

Lemma engine_deltas_keep (deltas : list (Z * Z * bool)) : Forall (fun '(p, q, _) => in_range U8 p /\ in_range U8 q) deltas ->
  forall e, engine_wf e -> exists e', for_each engine_delta e deltas = Ret e' /\ engine_wf e'.
Proof.
  induction 1 as [|[[p q] a] ds [Hp Hq] _ IH]; intros e He; [by exists e|]. cbn [for_each engine_delta].
  destruct (process_wf e (make_delta p (saturate I64 (q + 1)) (if a then Ask else Bid) flags_EMPTY) He) as (e' & -> & He').
  { apply make_delta_ok; [mlia|]. unfold max_qty, saturate. mlia. }
  by apply IH.
Qed.

Lemma imbalance_passes (deltas : list (Z * Z * bool)) :
  Forall (fun '(p, q, _) => in_range U8 p /\ in_range U8 q) deltas -> prop_imbalance_always_in_range deltas = Ret tt.
Proof.
  intros Hd. unfold prop_imbalance_always_in_range.
  destruct (engine_new_ok (B := ArrayBook 100) 1 1 (tmax U64)) as (e0 & -> & _ & Hw0 & _); [lia|mlia|]. cbn [mbind outcome_bind].
  assert (H100 : 100 <= max_qty) by (unfold max_qty; lia).
  destruct (process_wf e0 (make_delta 45 100 Bid IS_SNAPSHOT) Hw0) as (e1 & -> & Hw1); [by apply make_delta_ok; [mlia|]|].
  cbn [mbind outcome_bind].
  destruct (process_wf e1 (make_delta 55 100 Ask LAST_IN_BATCH) Hw1) as (e2 & -> & Hw2); [by apply make_delta_ok; [mlia|]|].
  cbn [mbind outcome_bind].
  destruct (engine_deltas_keep deltas Hd e2 Hw2) as (e & -> & Hw). cbn [mbind outcome_bind].
  destruct (imbalance_within_one e (inst_from_raw 1) 5 Hw ltac:(lia)) as ([x|] & -> & Hx); cbn [mbind outcome_bind]; [|done].
  destruct Hx as [E1 E2]. unfold assert_. by rewrite E1, E2.
Qed.
End market_passing.

(** ** Sequence lock *)

Section seqlock_passing.
Context `{SeqLock.MemoryModel}.

(** Between two calls: nothing pending, an even number. *)
Definition quiet (n : nat) (s : Z) (σ : SeqLock.state) : Prop :=
  SeqLock.buf σ = [] /\ SeqLock.wr σ = SeqLock.WIdle /\ SeqLock.version σ = s /\ Z.even s = true /\
  length (SeqLock.m_data (SeqLock.mem σ)) = n /\ exists v, SeqLock.readers σ = [SeqLock.RDone v].

Lemma wrap_even s : Z.even s = true -> Z.even (wrap USIZE (s + 2)) = true.
Proof.
  rewrite !Z.even_spec. intros [k ->]. rewrite wrap_unsigned by done. exists ((k + 1) mod 2 ^ 63).
  replace (2 * k + 2) with (2 * (k + 1)) by lia. change (2 ^ bits USIZE) with (2 * 2 ^ 63).
  by rewrite Z.mul_mod_distr_l by lia.
Qed.

Lemma quiet_new initial : quiet (length initial) 0 (lock_new initial).
Proof. split_and!; try done. by exists None. Qed.

Lemma lock_store_one s σ v : quiet 1 s σ ->
  exists σ', lock_store σ [v] = Ret σ' /\ quiet 1 (wrap USIZE (s + 2)) σ' /\ SeqLock.m_data (SeqLock.mem σ') = [v].
Proof.
  destruct σ as [[s' d] b w rs hist]. intros (Eb & Ew & Es & He & Hl & [v0 Er]). cbn in *. subst.
  destruct d as [|x [|]]; try done. unfold SeqLock.version in *. cbn [SeqLock.mem SeqLock.m_seq] in *.
  exists (SeqLock.State (SeqLock.Memory (wrap USIZE (s + 2)) [v]) [] SeqLock.WIdle [SeqLock.RDone v0] (hist ++ [[v]])).
  split; [by destruct H|]. split; [|done]. split_and!; try done; [by apply wrap_even|by eexists].
Qed.

Lemma lock_load_one s σ v : quiet 1 s σ -> SeqLock.m_data (SeqLock.mem σ) = [v] -> exists σ', lock_load σ = Ret (σ', [v]).
Proof.
  destruct σ as [[s' d] b w rs hist]. intros (Eb & Ew & Es & He & Hl & [v0 Er]) Ed. cbn in *. subst.
  unfold lock_load. cbn. unfold SeqLock.version. cbn. rewrite even_land, He. cbn. rewrite Z.eqb_refl. by eexists.
Qed.

Lemma lock_loads_back val : exists σ σ', lock_store (lock_new [0]) [val] = Ret σ /\ lock_load σ = Ret (σ', [val]) /\
  quiet 1 (wrap USIZE 2) σ.
Proof.
  destruct (lock_store_one 0 (lock_new [0]) val (quiet_new [0])) as (σ & E & Hq & Ed).
  destruct (lock_load_one _ _ _ Hq Ed) as [σ' El]. by exists σ, σ'.
Qed.

Lemma version_even_passes val : version_even_after_store val = Ret tt.
Proof. unfold version_even_after_store. destruct (lock_loads_back val) as (σ & σ' & -> & _ & _ & _ & E & _). cbn. by rewrite E. Qed.

Lemma version_increments_passes val : version_increments_by_two val = Ret tt.
Proof. unfold version_increments_by_two. destruct (lock_loads_back val) as (σ & σ' & -> & _ & _ & _ & E & _). cbn. by rewrite E. Qed.

Lemma load_stored_passes val : load_returns_stored_value val = Ret tt.
Proof.
  unfold load_returns_stored_value. destruct (lock_loads_back val) as (σ & σ' & -> & E & _). cbn [mbind outcome_bind].
  rewrite E. by apply assert_true.
Qed.

Lemma load_latest_passes val1 val2 : load_returns_latest val1 val2 = Ret tt.
Proof.
  unfold load_returns_latest. destruct (lock_loads_back val1) as (σ & _ & -> & _ & Hq). cbn [mbind outcome_bind].
  destruct (lock_store_one _ σ val2 Hq) as (σ2 & -> & Hq2 & Ed). cbn [mbind outcome_bind].
  destruct (lock_load_one _ _ _ Hq2 Ed) as [σ' ->]. by apply assert_true.
Qed.

Lemma roundtrip_array_passes val : length val = 4%nat -> prop_store_load_roundtrip_array val = Ret tt.
Proof.
  destruct val as [|a [|b [|c [|d [|]]]]]; try done. intros _.
  transitivity (assert_ (bool_decide ([a; b; c; d] = [a; b; c; d]))); [by destruct H|by apply assert_true].
Qed.

Lemma version_always_even_passes vals : prop_version_always_even vals = Ret tt.
Proof.
  unfold prop_version_always_even.
  match goal with |- context [for_each ?b] => destruct (for_each_inv b (fun _ σ => exists s, quiet 1 s σ) vals 0%nat (lock_new [0]))
    as (σ & -> & _); [by exists 0; apply (quiet_new [0])| |done] end.
  intros _ σ v _ [s Hq]. destruct (lock_store_one s σ v Hq) as (σ' & -> & Hq' & _). cbn [mbind outcome_bind].
  pose proof Hq' as (_ & _ & -> & He & _). rewrite even_land, He. eexists. split; [done|]. by eexists.
Qed.

Lemma version_monotonic_passes vals : prop_version_monotonic vals = Ret tt.
Proof.
  unfold prop_version_monotonic. cbv zeta.
  match goal with |- context [for_each ?b] => destruct (for_each_inv b (fun _ p => quiet 1 p.2 p.1) vals 0%nat (lock_new [0], 0))
    as (σ & E & _); [apply (quiet_new [0])| |] end.
  - intros _ [σ s] v _ Hq. cbn [fst snd] in *. destruct (lock_store_one s σ v Hq) as (σ' & -> & Hq' & _). cbn [mbind outcome_bind].
    pose proof Hq' as (_ & _ & -> & _). rewrite Z.eqb_refl. eexists. split; [done|]. done.
  - change (SeqLock.version (lock_new [0])) with 0. by rewrite E.
Qed.
End seqlock_passing.

(** * All of them *)

(** The scripted runs are those of the general comparisons. *)
Section scripts.
Context `{BuildProfile} `{TargetArch}.

Lemma instrumented_script_passes : portable_vs_instrumented_fixed = Ret tt.
Proof. by apply inline_vs_instrumented_passes. Qed.
Lemma heap_script_passes : portable_vs_heap = Ret tt.
Proof. by apply inline_vs_heap_passes. Qed.
Lemma copy_script_passes : copy_vs_general_fixed = Ret tt.
Proof. by apply copy_vs_general_passes. Qed.
End scripts.

Create HintDb harnesses.
#[export] Hint Resolve fifo_ordering_passes len_invariant_passes not_full_passes not_empty_passes copy_batch_fifo_passes
  copy_batch_capacity_passes fifo_proof_passes capacity_proof_passes no_data_loss_passes index_safety_passes
  inline_vs_instrumented_passes inline_vs_heap_passes copy_vs_general_passes
  instrumented_script_passes heap_script_passes copy_script_passes
  add_commutative_passes sub_inverse_passes mul_commutative_passes from_int_passes rescale_preserves_passes
  exact_iff_passes display_parse_passes binance_never_panics_passes polymarket_never_panics_passes
  random_deltas_pass best_bid_highest_passes imbalance_passes version_even_passes version_increments_passes
  load_stored_passes load_latest_passes roundtrip_array_passes version_always_even_passes version_monotonic_passes : harnesses.

(** C16. Every harness of [crates/verify] passes on every input, where the
    repository only samples or bounds them: no assertion fails, no ring, book,
    engine, decoder or arithmetic operation panics, and every loop ends, in
    debug and release builds, on either architecture and memory model
    and for any JSON parser.  The operation lists are at most [isize::MAX] long
    (a [Vec] cannot be longer), the model checker's choices at most the 8 of its
    arrays, the decoders' inputs at most [2^56] (their sequence numbers do not
    overflow). *)
Theorem harnesses_pass `{BuildProfile} `{TargetArch} `{SeqLock.MemoryModel} `{BinanceJson} `{PolymarketJson}
    (ops choices : list bool) (data vals array : list Z) (inputs : list bytes) (a b u v : Z)
    (deltas small_deltas : list (Z * Z * bool)) (pairs : list (Z * Z)) :
  Z.of_nat (length ops) <= tmax I64 -> (length choices <= 8)%nat -> length array = 4%nat ->
  Z.of_nat (length inputs) <= 2 ^ 56 -> in_range I64 a -> in_range I64 b ->
  Forall (fun '(p, q, _) => in_range I64 p /\ in_range I32 q) deltas ->
  Forall (fun '(p, q, _) => in_range U8 p /\ in_range U8 q) small_deltas ->
  Forall (fun '(p, q) => in_range U8 p /\ in_range U8 q) pairs ->
  Forall (fun result => result = Ret tt)
    [ (* spsc_props.rs *)
      fifo_ordering ops; len_invariant ops; not_full_when_under_capacity ops; not_empty_when_has_items ops;
      copy_batch_fifo_ordering data; copy_batch_respects_capacity data;
      (* spsc_proofs.rs *)
      fifo_ordering_proof choices; capacity_invariant_proof choices; no_data_loss_proof; index_safety_proof choices;
      (* spsc_diff.rs *)
      compare_inline_vs_instrumented ops; portable_vs_instrumented_fixed; compare_inline_vs_heap ops; portable_vs_heap;
      compare_copy_vs_general ops; copy_vs_general_fixed;
      (* fixed_props.rs *)
      checked_add_commutative a b; checked_sub_inverse_of_add a b; checked_mul_trunc_commutative a b;
      from_int_to_raw_consistency a; rescale_widen_then_narrow_preserves a; checked_rescale_exact_none_iff_lossy a;
      display_parse_roundtrip_prop a;
      (* decoder_props.rs *)
      binance_decoder_never_panics inputs; polymarket_decoder_never_panics inputs;
      (* market_state_props.rs *)
      prop_array_book_random_deltas_no_panic deltas; prop_best_bid_is_highest pairs;
      prop_imbalance_always_in_range small_deltas;
      (* seqlock_proofs.rs, seqlock_props.rs *)
      version_even_after_store u; version_increments_by_two u; load_returns_stored_value u; load_returns_latest u v;
      prop_store_load_roundtrip_array array; prop_version_always_even vals; prop_version_monotonic vals ].
Proof.
  intros Hops Hch Har Hin Ha Hb Hd Hsd Hp. assert (Z.of_nat (length choices) <= tmax I64) by mlia.
  assert (Z.of_nat (length inputs) <= tmax I64) by mlia.
  repeat (apply Forall_cons; split); [auto with harnesses..|apply Forall_nil; exact I].
Qed.

(** The witness, on small inputs: the parsers that know one frame each, and the
    least [i64]. *)
Lemma harnesses_pass_witness :
  @fifo_ordering debug_profile false [true; true; false; true; false; false; false] = Ret tt /\
  @display_parse_roundtrip_prop debug_profile (-9223372036854775808) = Ret tt /\
  @prop_imbalance_always_in_range debug_profile [(50, 255, false); (200, 0, true)] = Ret tt.
Proof.
  assert (Hall := @harnesses_pass debug_profile false SeqLock.TSO sample_binance_json sample_json
    [true; true; false; true; false; false; false] [true; false; true] [1; 2; 3] [4; 5] [1; 2; 3; 4] [sample_frame; []]
    (-9223372036854775808) 5 6 7 [(3, -1, true); (-7, 100, false)] [(50, 255, false); (200, 0, true)] [(9, 0); (8, 255)]
    ltac:(by apply (bool_decide_unpack _)) ltac:(by apply (bool_decide_unpack _)) eq_refl
    ltac:(by apply (bool_decide_unpack _)) ltac:(by apply (bool_decide_unpack _)) ltac:(by apply (bool_decide_unpack _))
    ltac:(repeat constructor; by vm_compute) ltac:(repeat constructor; by vm_compute) ltac:(repeat constructor; by vm_compute)).
  split; [|split].
  - exact (Forall_lookup_1 (fun result => result = Ret tt) _ 0 _ Hall eq_refl).
  - exact (Forall_lookup_1 (fun result => result = Ret tt) _ 22 _ Hall eq_refl).
  - exact (Forall_lookup_1 (fun result => result = Ret tt) _ 27 _ Hall eq_refl).
Defined.
