(* ===== verification/Bench.v ===== *)
(** * Benchmark runner and reports ([crates/bench]: measurement.rs, bench_runner.rs, report.rs)

    What one benchmark contributes to a report, how criterion's result files are
    found and read, and the report that is written.  Criterion, [serde_json] and
    the system (environment, files, [rustc]) are parameters; paths follow the
    rules of [std::path] on Unix.  The lines printed to the terminal are left
    out. *)

From Stdlib Require Import ZArith Lia.
From stdpp Require Import base decidable numbers option tactics list sets strings.
From S2P Require Import Prelude Float64 Metering Cpu Polymarket Testing.

#[local] Open Scope Z_scope.

(** ** Paths ([std::path], Unix) *)

Definition slash : Z := 47.
Definition dot : Z := 46.

(** [join] with a piece that does not start at the root, or does. *)
Definition path_join (p c : text) : text :=
  match head c with
  | Some 47 => c
  | _ => match last p with
         | None | Some 47 => p ++ c
         | _ => p ++ slash :: c
         end
  end.

(** Reading from the end: separators and [.] pieces that do not count, except
    the root and a leading [.]. *)
Fixpoint trim_back (r : text) : text :=
  match r with
  | 47 :: r' => match r' with [] => r | _ => trim_back r' end
  | 46 :: r' => match r' with 47 :: _ => trim_back r' | _ => r end
  | _ => r
  end.

(** Without the last piece, again reading from the end. *)
Fixpoint drop_piece (r : text) : text :=
  match r with
  | c :: r' => if c =? slash then r else drop_piece r'
  | [] => []
  end.

(** [parent]: [None] for the root and the empty path. *)
Definition path_parent (p : text) : option text :=
  match trim_back (reverse p) with
  | [] | [47] => None
  | r => Some (reverse (trim_back (drop_piece r)))
  end.

(** ** The system, [serde_json] and criterion *)

(** The system the benchmark runs on, with what it says about its processor. *)
Inductive host := Linux (cpuinfo : option text) | MacOs (stdout : option text) | OtherOs.

Definition cpu_name (h : host) : text :=
  match h with
  | Linux cpuinfo => cpu_name_linux cpuinfo
  | MacOs stdout => cpu_name_macos stdout
  | OtherOs => cpu_name_other
  end.

Class BenchSystem := {
  env_var : text -> option text;
  read_to_string : text -> option text;
  create_file : text -> option unit;
  rustc_stdout : option text;
  target_arch : text;
  target_os : text;
  bench_host : host
}.

(** [serde_json::Value]: [index] is [v[key]], null for a missing key. *)
Class SerdeValue (V : Type) := {
  from_str : text -> option V;
  index_key : V -> text -> V;
  as_f64 : V -> option f64;
  as_array : V -> option (list V)
}.

(** [bench_function]: the samples criterion takes with the measurement. *)
Class CriterionRun := bench_function : text -> list (Measurement * option HwCounterDeltas).

(** ** Criterion's result files (measurement.rs) *)

Record CriterionEstimates := { mean_ns : f64; median_ns : f64; std_dev_ns : f64 }.

(** [bench_id.replace('/', "_")]. *)
Definition dir_name (bench_id : text) : text := (fun c => if c =? slash then 95 else c) <$> bench_id.

Section files.
Context `{BenchSystem}.

Definition workspace : text :=
  let base := default (lit ".") (env_var (lit "CARGO_MANIFEST_DIR")) in
  default (lit ".") (path_parent base ≫= path_parent).

Definition criterion_file (bench_id : text) (name : text) : text :=
  foldl path_join workspace [lit "target"; lit "criterion"; dir_name bench_id; lit "new"; name].

Context {V : Type} `{SerdeValue V}.

Definition read_criterion_estimates (bench_id : text) : option CriterionEstimates :=
  content ← read_to_string (criterion_file bench_id (lit "estimates.json"));
  v ← from_str content;
  let estimate k := as_f64 (index_key (index_key v (lit k)) (lit "point_estimate")) in
  mean ← estimate "mean"%string;
  median ← estimate "median"%string;
  Some {| mean_ns := mean; median_ns := median;
          std_dev_ns := default (f64_of_Z 0) (estimate "std_dev"%string) |}.

Definition read_criterion_sample_iters (bench_id : text) : option (list f64) :=
  content ← read_to_string (criterion_file bench_id (lit "sample.json"));
  v ← from_str content;
  arr ← as_array (index_key v (lit "iters"));
  let iters := omap as_f64 arr in
  if bool_decide (iters = []) then None else Some iters.
End files.

(** ** Reports (report.rs) *)

Record WorkloadResult := {
  workload : text;
  wr_element_type : text;
  wr_capacity : Z;
  ops_per_sec : f64;
  ns_per_op : f64;
  p50_ns : f64;
  p99_ns : f64;
  p999_ns : f64;
  wr_cycles_per_op : option f64;
  wr_instructions_per_op : option f64;
  wr_branch_misses_per_op : option f64;
  wr_l1_misses_per_op : option f64;
  wr_llc_misses_per_op : option f64;
  full_rate : option f64;
  empty_rate : option f64;
  mean_occupancy : option f64
}.

Record BenchReport := {
  implementation : text;
  rep_arch : text;
  rep_os : text;
  rep_cpu : text;
  compiler : text;
  features : list text;
  compiler_flags : text;
  threading_model : text;
  results : list WorkloadResult
}.

(** [serde_json::to_string_pretty] of a report. *)
Class SerdeReport := to_json : BenchReport -> option text.

Definition detect_rustc_version `{BenchSystem} : text := default unknown (trim <$> rustc_stdout).

Definition report_detect `{BenchSystem} (impl : text) : BenchReport :=
  {| implementation := impl; rep_arch := target_arch; rep_os := target_os; rep_cpu := cpu_name bench_host;
     compiler := detect_rustc_version; features := []; compiler_flags := []; threading_model := [];
     results := [] |}.

(** ** The runner (bench_runner.rs) *)

Record BenchDesc := {
  id : text;
  element_type : text;
  capacity : Z;
  cycles_per_op : option f64;
  instructions_per_op : option f64;
  branch_misses_per_op : option f64;
  l1d_misses_per_op : option f64;
  llc_misses_per_op : option f64
}.

(** [run_bench] on the thread's collector, in which criterion's samples are
    stored as the measurement's [end] does. *)
Definition run_bench `{BenchSystem} {V} `{SerdeValue V} `{CriterionRun}
    (bench_id ty : text) (cap : Z) (collector : SampleCollector) : BenchDesc * SampleCollector :=
  let collector := reset_samples collector in
  let collector := foldl (fun c s => collect c s.1 s.2) collector (bench_function bench_id) in
  let '(samples, collector) := take_samples collector in
  let iters := default [] (read_criterion_sample_iters bench_id) in
  ({| id := bench_id; element_type := ty; capacity := cap;
      cycles_per_op := mean_cycles_per_op samples iters;
      instructions_per_op := mean_instructions_per_op samples iters;
      branch_misses_per_op := mean_branch_misses_per_op samples iters;
      l1d_misses_per_op := mean_l1d_misses_per_op samples iters;
      llc_misses_per_op := mean_llc_misses_per_op samples iters |}, collector).

Definition Z_99 : f64 := f64_lit 2326 3.
Definition Z_999 : f64 := f64_lit 3090 3.

(** One row of the report. *)
Definition workload_result `{BenchSystem} {V} `{SerdeValue V} (desc : BenchDesc) : WorkloadResult :=
  let estimates := read_criterion_estimates (id desc) in
  let mean := default (f64_of_Z 0) (mean_ns <$> estimates) in
  let median := default (f64_of_Z 0) (median_ns <$> estimates) in
  let std_dev := default (f64_of_Z 0) (std_dev_ns <$> estimates) in
  {| workload := id desc; wr_element_type := element_type desc; wr_capacity := capacity desc;
     ops_per_sec := if f64_lt (f64_of_Z 0) mean then f64_div (f64_of_Z 1000000000) mean else f64_of_Z 0;
     ns_per_op := mean; p50_ns := median;
     p99_ns := f64_add mean (f64_mul Z_99 std_dev);
     p999_ns := f64_add mean (f64_mul Z_999 std_dev);
     wr_cycles_per_op := cycles_per_op desc; wr_instructions_per_op := instructions_per_op desc;
     wr_branch_misses_per_op := branch_misses_per_op desc; wr_l1_misses_per_op := l1d_misses_per_op desc;
     wr_llc_misses_per_op := llc_misses_per_op desc;
     full_rate := None; empty_rate := None; mean_occupancy := None |}.

(** What [export_report] leaves behind. *)
Inductive exported :=
  | Written (path json : text)
  | NotCreated
  | NotSerialized.

Definition report_of `{BenchSystem} {V} `{SerdeValue V}
    (descs : list BenchDesc) (impl : text) (feats : list text) : BenchReport :=
  let report := report_detect impl in
  {| implementation := implementation report; rep_arch := rep_arch report; rep_os := rep_os report;
     rep_cpu := rep_cpu report; compiler := compiler report; features := feats;
     compiler_flags := compiler_flags report; threading_model := lit "spsc";
     results := foldl (fun rs desc => rs ++ [workload_result desc]) (results report) descs |}.

Definition export_report `{BenchSystem} {V} `{SerdeValue V} `{SerdeReport}
    (descs : list BenchDesc) (impl filename : text) (feats : list text) : exported :=
  let report := report_of descs impl feats in
  let path := path_join (path_join workspace (lit "target")) (lit "bench-report-" ++ filename ++ lit ".json") in
  match to_json report with
  | Some json => match create_file path with Some _ => Written path json | None => NotCreated end
  | None => NotSerialized
  end.

(** ** The other methods of the measurement (measurement.rs)

    A [Duration] is a number of nanoseconds; its sum panics on overflow, in
    every build. *)

Definition DURATION_MAX : Z := (2 ^ 64 - 1) * 1000000000 + 999999999.

Definition measure_add (v1 v2 : Z) : outcome Z := if v1 + v2 <=? DURATION_MAX then Ret (v1 + v2) else Panic.
Definition measure_zero : Z := 0.
Definition measure_to_f64 (value : Z) : f64 := f64_of_Z value.

(** ** Unit tests (measurement.rs) *)

(** [measurement_captures_samples], for any readings of the clock. *)
Definition measurement_captures_samples (epoch t0 t1 t2 t3 : Z) (samples : SampleCollector) : outcome unit :=
  let m : MantisMeasurement InstantCounter NoopCounters := mm_new {| instant_epoch := epoch |} in
  let samples := reset_samples samples in
  '(i, m) ← measure_start m tt t0 t1;
  '(_, samples, _) ← measure_end m i t2 t3 tt samples;
  let '(samples, _) := take_samples samples in
  assert_eq (collector_len samples) 1%nat;;
  assert_eq (length (sc_nanos samples)) 1%nat.

Definition sample_collector_per_op : outcome unit :=
  let collector := {| sc_cycles := [100; 400; 900]; sc_nanos := []; sc_instructions := []; sc_branch_misses := [];
                      sc_l1d_misses := []; sc_llc_misses := []; has_hw_counters := false |} in
  let iters := f64_of_Z <$> [10; 20; 30] in
  let per_op := default (f64_of_Z 0) (mean_cycles_per_op collector iters) in
  assert_ (f64_lt (f64_abs (f64_sub per_op (f64_lit 23333 3))) (f64_lit 1 2)).

(** * Properties *)

(** ** Paths *)

(** A name between separators, other than [.]. *)
Definition piece (c : text) : Prop := c <> [] /\ (slash ∉ c) /\ c <> [dot].

(** A path without trailing separators or [.] pieces, other than the root. *)
Definition trimmed (p : text) : Prop := p <> [] /\ p <> [slash] /\ (trim_back (reverse p) = reverse p).

Lemma trim_back_piece c r : piece c -> trim_back (reverse c ++ slash :: r) = reverse c ++ slash :: r.
Proof.
  intros (Hne & Hs & Hd). destruct c as [|a c _] using rev_ind; [done|].
  rewrite reverse_snoc. cbn [app].
  assert (a <> 47) by (intros ->; apply Hs; set_solver).
  destruct c as [|b c _] using rev_ind.
  - assert (a <> 46) by (intros ->; by apply Hd). cbn. repeat case_match; congruence.
  - rewrite reverse_snoc. assert (b <> 47) by (intros ->; apply Hs; set_solver).
    cbn. repeat case_match; congruence.
Qed.

Lemma drop_piece_slash c r : slash ∉ c -> drop_piece (c ++ slash :: r) = slash :: r.
Proof.
  induction c as [|a c IH]; intros Hs; [done|]. cbn.
  rewrite (proj2 (Z.eqb_neq a slash)) by set_solver. apply IH. set_solver.
Qed.

Lemma trim_back_slash r : r <> [] -> trim_back (slash :: r) = trim_back r.
Proof. by destruct r. Qed.

Lemma path_parent_piece p c : trimmed p -> piece c -> path_parent (p ++ slash :: c) = Some p.
Proof.
  intros (Hp & _ & Ht) Hc. unfold path_parent.
  replace (reverse (p ++ slash :: c)) with (reverse c ++ slash :: reverse p)
    by (rewrite reverse_app, reverse_cons; by rewrite <- app_assoc).
  rewrite trim_back_piece by done. destruct Hc as (Hne & Hs & _).
  assert (drop_piece (reverse c ++ slash :: reverse p) = slash :: reverse p) as Hd.
  { apply drop_piece_slash. by rewrite elem_of_reverse. }
  assert (reverse p <> []) by (intros E; apply Hp; by rewrite <- (reverse_involutive p), E).
  assert (match reverse c ++ slash :: reverse p with [] | [47] => None
          | r => Some (reverse (trim_back (drop_piece r))) end
          = Some (reverse (trim_back (drop_piece (reverse c ++ slash :: reverse p))))) as ->.
  { destruct c as [|a c _] using rev_ind; [done|]. rewrite reverse_snoc. cbn [app].
    destruct (reverse c ++ slash :: reverse p) eqn:E; [by destruct (reverse c)|]. by repeat case_match. }
  by rewrite Hd, trim_back_slash, Ht, reverse_involutive.
Qed.

(** ** Criterion's files *)

(** Run from a crate two levels below the workspace, the files are looked for
    in the workspace. *)
Lemma workspace_of_crate `{BenchSystem} root crates crate :
  trimmed root -> piece crates -> piece crate -> trimmed (root ++ slash :: crates) ->
  env_var (lit "CARGO_MANIFEST_DIR") = Some (root ++ slash :: crates ++ slash :: crate) ->
  workspace = root.
Proof.
  intros Hr Hcs Hc Ht He. unfold workspace. rewrite He. cbn [from_option Datatypes.id].
  replace (root ++ slash :: crates ++ slash :: crate) with ((root ++ slash :: crates) ++ slash :: crate)
    by (by rewrite <- app_assoc).
  rewrite path_parent_piece by done. cbn. by rewrite path_parent_piece.
Qed.

Lemma workspace_default `{BenchSystem} : env_var (lit "CARGO_MANIFEST_DIR") = None -> workspace = lit ".".
Proof. unfold workspace. by intros ->. Qed.

(** The directory of a benchmark is one piece of a path, whatever its id. *)
Lemma dir_name_flat bench_id : slash ∉ dir_name bench_id.
Proof.
  unfold dir_name. intros (c & Hc & _)%list_elem_of_fmap. destruct (c =? slash) eqn:E; [done|].
  by rewrite <- Hc, Z.eqb_refl in E.
Qed.

Lemma path_join_piece p c : p <> [] -> last p <> Some slash -> slash ∉ c -> path_join p c = p ++ slash :: c.
Proof.
  intros Hp Hl Hc. unfold path_join.
  assert (head c <> Some slash) by (destruct c; cbn; set_solver).
  destruct (last p) eqn:El; [|by apply last_None in El].
  unfold slash in *. by repeat case_match; simplify_eq.
Qed.

Lemma last_piece p c : c <> [] -> slash ∉ c -> last (p ++ slash :: c) <> Some slash.
Proof.
  intros Hne Hc. rewrite last_app_cons. destruct c as [|a c _] using rev_ind; [done|].
  rewrite app_comm_cons, last_snoc. set_solver.
Qed.

Definition flat (c : text) : Prop := c <> [] /\ (slash ∉ c).

Lemma foldl_join cs : forall p, p <> [] -> last p <> Some slash -> Forall flat cs ->
  foldl path_join p cs = p ++ concat (cons slash <$> cs).
Proof.
  induction cs as [|c cs IH]; intros p Hp Hl Hcs; [by rewrite app_nil_r|].
  apply Forall_cons in Hcs as [[Hne Hc] Hcs]. cbn. rewrite path_join_piece by done.
  rewrite IH; [by rewrite <- app_assoc|by destruct p|by apply last_piece|done].
Qed.

Lemma flat_lit s : lit s <> [] -> forallb (fun c => negb (c =? slash)) (lit s) = true -> flat (lit s).
Proof.
  intros Hne Hs. split; [done|]. intros Hin. rewrite forallb_forall in Hs. apply list_elem_of_In in Hin.
  by specialize (Hs _ Hin).
Qed.

(** Where criterion's files of a benchmark are read from. *)
Lemma criterion_file_path `{BenchSystem} bench_id name :
  workspace <> [] -> last workspace <> Some slash -> bench_id <> [] -> flat name ->
  criterion_file bench_id name =
    workspace ++ lit "/target/criterion/" ++ dir_name bench_id ++ lit "/new/" ++ name.
Proof.
  intros Hw Hl Hb Hn. unfold criterion_file. rewrite foldl_join; [|done|done|].
  - cbn [fmap list_fmap concat]. by rewrite app_nil_r.
  - assert (flat (dir_name bench_id)) by (split; [by destruct bench_id|apply dir_name_flat]).
    repeat (apply Forall_cons; split; [first [done | by apply flat_lit]|]). done.
Qed.

(** ** The runner *)

Lemma collect_all log : forall c before, collected c before ->
  collected (foldl (fun c (s : Measurement * option HwCounterDeltas) => collect c s.1 s.2) c log) (before ++ log).
Proof.
  induction log as [|[m hw] log IH]; intros c before Hc; [by rewrite app_nil_r|].
  cbn [foldl fst snd]. rewrite cons_middle, app_assoc. by apply IH, collect_log.
Qed.

(** A benchmark sees exactly its own samples, whatever an earlier one left
    behind, and leaves nothing to the next. *)
Lemma run_bench_isolated `{BenchSystem} {V} `{SerdeValue V} `{CriterionRun} bench_id ty cap collector :
  exists samples, collected samples (bench_function bench_id) /\
    let iters := default [] (read_criterion_sample_iters bench_id) in
    run_bench bench_id ty cap collector =
      ({| id := bench_id; element_type := ty; capacity := cap;
          cycles_per_op := mean_cycles_per_op samples iters;
          instructions_per_op := mean_instructions_per_op samples iters;
          branch_misses_per_op := mean_branch_misses_per_op samples iters;
          l1d_misses_per_op := mean_l1d_misses_per_op samples iters;
          llc_misses_per_op := mean_llc_misses_per_op samples iters |}, collector_default).
Proof. eexists. split; [apply (collect_all _ _ [] default_log)|]. reflexivity. Qed.

(** Without criterion's iteration counts nothing is reported per operation. *)
Lemma run_bench_no_iters `{BenchSystem} {V} `{SerdeValue V} `{CriterionRun} bench_id ty cap collector :
  read_criterion_sample_iters bench_id = None ->
  exists rest, run_bench bench_id ty cap collector =
    ({| id := bench_id; element_type := ty; capacity := cap; cycles_per_op := None; instructions_per_op := None;
        branch_misses_per_op := None; l1d_misses_per_op := None; llc_misses_per_op := None |}, rest).
Proof.
  intros Hi. assert (forall values, weighted_per_op values [] = None) as Hw.
  { intros values. unfold weighted_per_op. by rewrite (bool_decide_true ([] = [])), orb_true_r. }
  destruct (run_bench_isolated bench_id ty cap collector) as (samples & _ & Hr).
  rewrite Hi in Hr. cbn zeta in Hr. eexists. rewrite Hr.
  unfold mean_cycles_per_op, mean_instructions_per_op, mean_branch_misses_per_op, mean_l1d_misses_per_op,
    mean_llc_misses_per_op. cbn [default from_option]. rewrite !Hw. by destruct (has_hw_counters samples).
Qed.

(** A report has one row per benchmark, in the order they ran. *)
Lemma report_rows `{BenchSystem} {V} `{SerdeValue V} descs impl feats :
  results (report_of descs impl feats) = workload_result <$> descs.
Proof.
  cbn. assert (forall rs, foldl (fun rs desc => rs ++ [workload_result desc]) rs descs = rs ++ (workload_result <$> descs))
    as ->; [|done].
  induction descs as [|desc descs IH]; intros rs; cbn; [by rewrite app_nil_r|].
  by rewrite IH, <- app_assoc.
Qed.

(** A benchmark whose estimates cannot be read has zeros for its times. *)
Lemma workload_without_estimates `{BenchSystem} {V} `{SerdeValue V} desc :
  read_criterion_estimates (id desc) = None ->
  let row := workload_result desc in
  [ops_per_sec row; ns_per_op row; p50_ns row; p99_ns row; p999_ns row] = replicate 5 (f64_of_Z 0).
Proof. intros He. unfold workload_result. rewrite He. by vm_compute. Qed.

(** The measurement's tests pass, whatever the clock says. *)
Lemma measurement_tests_pass epoch t0 t1 t2 t3 samples :
  measurement_captures_samples epoch t0 t1 t2 t3 samples = Ret tt /\ sample_collector_per_op = Ret tt.
Proof. split; [done|by vm_compute]. Qed.

(** The sum of the samples' times, as criterion builds it, is exact. *)
Lemma measured_total vs :
  Forall (fun v => 0 <= v) vs -> foldr Z.add 0 vs <= DURATION_MAX ->
  foldr (fun v (acc : outcome Z) => a ← acc; measure_add v a) (Ret measure_zero) vs = Ret (foldr Z.add 0 vs).
Proof.
  induction vs as [|v vs IH]; intros Hp Hm; [done|]. apply Forall_cons in Hp as [Hv Hp].
  assert (0 <= foldr Z.add 0 vs) by (clear -Hp; induction Hp; cbn; lia).
  cbn in *. rewrite IH by (done || lia). cbn. unfold measure_add.
  by rewrite (proj2 (Z.leb_le _ _)) by lia.
Qed.

(** ** A run on a concrete system

    Two benchmarks of a crate at [/w/crates/bench]; the result files of the
    first exist, the second has none. *)

Inductive doc := DNull | DNum (x : f64) | DArr (vs : list doc) | DObj (fs : list (text * doc)).

Definition doc_field (v : doc) (k : text) : doc :=
  match v with
  | DObj fs => default DNull (snd ∘ snd <$> list_find (fun p => p.1 = k) fs)
  | _ => DNull
  end.

(** A deserialiser that knows the two files, by their first character. *)
#[local] Instance doc_value : SerdeValue doc :=
  {| from_str s :=
       match s with
       | 101 :: _ =>
           let est x := DObj [(lit "point_estimate", DNum x)] in
           Some (DObj [(lit "mean", est (f64_of_Z 10)); (lit "median", est (f64_of_Z 9));
                       (lit "std_dev", est (f64_of_Z 2))])
       | 115 :: _ => Some (DObj [(lit "iters", DArr [DNum (f64_of_Z 10); DNull; DNum (f64_of_Z 30)])])
       | _ => None
       end;
     index_key := doc_field;
     as_f64 v := match v with DNum x => Some x | _ => None end;
     as_array v := match v with DArr vs => Some vs | _ => None end |}.

#[local] Instance small_system : BenchSystem :=
  {| env_var v := if bool_decide (v = lit "CARGO_MANIFEST_DIR") then Some (lit "/w/crates/bench/") else None;
     read_to_string path :=
       if bool_decide (path = lit "/w/target/criterion/spsc_u64/new/estimates.json") then Some (lit "estimates")
       else if bool_decide (path = lit "/w/target/criterion/spsc_u64/new/sample.json") then Some (lit "sample")
       else None;
     create_file _ := Some tt;
     rustc_stdout := Some (lit " rustc 1.85.0 ");
     target_arch := lit "x86_64"; target_os := lit "linux"; bench_host := OtherOs |}.

#[local] Instance two_samples : CriterionRun :=
  fun _ => [(timed 100 300, None); (timed 100 500, None)].

#[local] Instance threading_json : SerdeReport := fun report => Some (threading_model report ++ compiler report).

Example small_report :
  let '(d1, c) := run_bench (lit "spsc/u64") (lit "u64") 1024 collector_default in
  let '(d2, _) := run_bench (lit "other") (lit "u64") 1024 c in
  cycles_per_op d1 = Some (f64_of_Z 20) /\ instructions_per_op d1 = None /\ cycles_per_op d2 = None /\
  ops_per_sec <$> results (report_of [d1; d2] (lit "ring") []) = [f64_of_Z 100000000; f64_of_Z 0] /\
  export_report [d1; d2] (lit "ring") (lit "spsc") []
    = Written (lit "/w/target/bench-report-spsc.json") (lit "spscrustc 1.85.0").
Proof. vm_compute. repeat split. Qed.
