(* ===== verification/SuiteFixed.v ===== *)
(** * The unit tests of [FixedI64] ([crates/fixed])

    The tests beside the code of fixed_i64.rs, arithmetic.rs, mul_div.rs,
    convert.rs, parse.rs and fmt.rs, statement by statement, on the definitions
    of [Fixed], [FixedText] and [Texts], and that they pass in either build
    profile. *)

From Stdlib Require Import ZArith.
From stdpp Require Import base decidable numbers option tactics strings list.
From S2P Require Import Prelude Testing Platform Fixed FixedText Texts.

#[local] Open Scope Z_scope.

#[local] Instance parse_error_eq_dec : EqDecision ParseFixedError.
Proof. solve_decision. Defined.

(** ** fixed_i64.rs *)

Section fixed_i64_tests.
Context `{BuildProfile}.

Definition from_raw_preserves_value : outcome unit :=
  let f := from_raw (D := 6) 1500000 in assert_eq (to_raw f) 1500000.
Definition from_int_scales_correctly : outcome unit :=
  f ← expect (from_int (D := 6) 42); assert_eq (to_raw f) 42000000.
Definition from_int_zero : outcome unit :=
  f ← expect (from_int (D := 6) 0); assert_eq (to_raw f) 0.
Definition from_int_negative : outcome unit :=
  f ← expect (from_int (D := 6) (-1)); assert_eq (to_raw f) (-1000000).
Definition from_int_overflow_returns_none : outcome unit :=
  let result := from_int (D := 6) (tmax I64) in assert_ (is_none result).
Definition scale_constants : outcome unit :=
  _ ← assert_eq (SCALE 2) 100; _ ← assert_eq (SCALE 4) 10000; _ ← assert_eq (SCALE 6) 1000000;
  assert_eq (SCALE 8) 100000000.
Definition one_equals_scale : outcome unit :=
  _ ← assert_eq (to_raw (fixed_ONE (D := 6))) 1000000; assert_eq (to_raw (fixed_ONE (D := 8))) 100000000.
Definition zero_is_zero : outcome unit :=
  assert_eq (to_raw (fixed_ZERO (D := 6))) 0.
Definition min_max_are_i64_extrema : outcome unit :=
  _ ← assert_eq (to_raw (fixed_MIN (D := 6))) (tmin I64); assert_eq (to_raw (fixed_MAX (D := 6))) (tmax I64).
Definition is_zero_true_for_zero : outcome unit :=
  assert_ (fixed_is_zero (fixed_ZERO (D := 6))).
Definition is_zero_false_for_nonzero : outcome unit :=
  assert_ (negb (fixed_is_zero (fixed_ONE (D := 6)))).
Definition is_negative_and_positive : outcome unit :=
  let pos := from_raw (D := 6) 1 in let neg := from_raw (D := 6) (-1) in let zero := fixed_ZERO (D := 6) in
  _ ← assert_ (is_positive pos); _ ← assert_ (negb (is_negative pos)); _ ← assert_ (is_negative neg);
  _ ← assert_ (negb (is_positive neg)); _ ← assert_ (negb (is_positive zero)); assert_ (negb (is_negative zero)).
Definition ordering_works : outcome unit :=
  let a := from_raw (D := 6) 100 in let b := from_raw (D := 6) 200 in let c := from_raw (D := 6) (-50) in
  _ ← assert_ (to_raw a <? to_raw b); _ ← assert_ (to_raw c <? to_raw a); assert_ (to_raw c <? to_raw b).
End fixed_i64_tests.

(** ** arithmetic.rs *)

Section arithmetic_tests.
Context `{BuildProfile}.

Definition add_basic : outcome unit :=
  let a := from_raw (D := 6) 1500000 in let b := from_raw (D := 6) 2500000 in r ← fixed_add a b;
  assert_eq (to_raw r) 4000000.
Definition sub_basic : outcome unit :=
  let a := from_raw (D := 6) 3000000 in let b := from_raw (D := 6) 1500000 in r ← fixed_sub a b;
  assert_eq (to_raw r) 1500000.
Definition neg_basic : outcome unit :=
  let a := from_raw (D := 6) 1500000 in r ← fixed_neg a; assert_eq (to_raw r) (-1500000).
Definition neg_negative : outcome unit :=
  let a := from_raw (D := 6) (-1500000) in r ← fixed_neg a; assert_eq (to_raw r) 1500000.
Definition add_assign : outcome unit :=
  let a := from_raw (D := 6) 1000000 in a ← fixed_add a (from_raw (D := 6) 500000); assert_eq (to_raw a) 1500000.
Definition sub_assign : outcome unit :=
  let a := from_raw (D := 6) 2000000 in a ← fixed_sub a (from_raw (D := 6) 500000); assert_eq (to_raw a) 1500000.
Definition checked_add_normal : outcome unit :=
  let a := from_raw (D := 6) 1000000 in let b := from_raw (D := 6) 2000000 in
  assert_eq (to_raw <$> (checked_add a b)) (Some 3000000).
Definition checked_add_overflow : outcome unit :=
  let a := fixed_MAX (D := 6) in let b := from_raw (D := 6) 1 in assert_ (is_none (checked_add a b)).
Definition checked_sub_normal : outcome unit :=
  let a := from_raw (D := 6) 3000000 in let b := from_raw (D := 6) 1000000 in
  assert_eq (to_raw <$> (checked_sub a b)) (Some 2000000).
Definition checked_sub_overflow : outcome unit :=
  let a := fixed_MIN (D := 6) in let b := from_raw (D := 6) 1 in assert_ (is_none (checked_sub a b)).
Definition checked_neg_normal : outcome unit :=
  let a := from_raw (D := 6) 1000000 in assert_eq (to_raw <$> (checked_neg a)) (Some (-1000000)).
Definition checked_neg_min_overflows : outcome unit :=
  assert_ (is_none (checked_neg (fixed_MIN (D := 6)))).
Definition saturating_add_at_max : outcome unit :=
  let a := fixed_MAX (D := 6) in let b := from_raw (D := 6) 1 in assert_eq (saturating_add a b) (fixed_MAX (D := 6)).
Definition saturating_sub_at_min : outcome unit :=
  let a := fixed_MIN (D := 6) in let b := from_raw (D := 6) 1 in assert_eq (saturating_sub a b) (fixed_MIN (D := 6)).
Definition wrapping_add_wraps : outcome unit :=
  let a := fixed_MAX (D := 6) in let b := from_raw (D := 6) 1 in assert_eq (wrapping_add a b) (fixed_MIN (D := 6)).
Definition wrapping_sub_wraps : outcome unit :=
  let a := fixed_MIN (D := 6) in let b := from_raw (D := 6) 1 in assert_eq (wrapping_sub a b) (fixed_MAX (D := 6)).
Definition wrapping_neg_of_min : outcome unit :=
  assert_eq (wrapping_neg (fixed_MIN (D := 6))) (fixed_MIN (D := 6)).
Definition checked_abs_positive : outcome unit :=
  let a := from_raw (D := 6) 1500000 in assert_eq (to_raw <$> (checked_abs a)) (Some 1500000).
Definition checked_abs_negative : outcome unit :=
  let a := from_raw (D := 6) (-1500000) in assert_eq (to_raw <$> (checked_abs a)) (Some 1500000).
Definition checked_abs_min_overflows : outcome unit :=
  assert_ (is_none (checked_abs (fixed_MIN (D := 6)))).
Definition saturating_abs_min_clamps_to_max : outcome unit :=
  assert_eq (saturating_abs (fixed_MIN (D := 6))) (fixed_MAX (D := 6)).
End arithmetic_tests.

(** ** mul_div.rs *)

Section mul_div_tests.
Context `{BuildProfile}.

Definition mul_trunc_basic : outcome unit :=
  let a := from_raw (D := 2) 150 in let b := from_raw (D := 2) 200 in r ← checked_mul_trunc a b;
  assert_eq (to_raw <$> r) (Some 300).
Definition mul_trunc_fractional : outcome unit :=
  let a := from_raw (D := 2) 150 in let b := from_raw (D := 2) 150 in r ← checked_mul_trunc a b;
  assert_eq (to_raw <$> r) (Some 225).
Definition mul_trunc_commutative : outcome unit :=
  let a := from_raw (D := 6) 1500000 in let b := from_raw (D := 6) 3000000 in r ← checked_mul_trunc a b;
  r2 ← checked_mul_trunc b a; assert_eq r r2.
Definition mul_trunc_by_one : outcome unit :=
  let a := from_raw (D := 6) 1500000 in r ← checked_mul_trunc a (fixed_ONE (D := 6)); assert_eq r (Some a).
Definition mul_trunc_by_zero : outcome unit :=
  let a := from_raw (D := 6) 1500000 in r ← checked_mul_trunc a (fixed_ZERO (D := 6));
  assert_eq (to_raw <$> r) (Some 0).
Definition mul_trunc_overflow : outcome unit :=
  r ← checked_mul_trunc (fixed_MAX (D := 6)) (fixed_MAX (D := 6)); assert_ (is_none r).
Definition mul_trunc_truncates_positive : outcome unit :=
  let a := from_raw (D := 2) 101 in r ← checked_mul_trunc a a; assert_eq (to_raw <$> r) (Some 102).
Definition mul_trunc_truncates_negative : outcome unit :=
  let a := from_raw (D := 2) (-101) in let b := from_raw (D := 2) 101 in r ← checked_mul_trunc a b;
  assert_eq (to_raw <$> r) (Some (-102)).
Definition mul_round_positive_tie : outcome unit :=
  let a := from_raw (D := 2) 5 in let b := from_raw (D := 2) 10 in r ← checked_mul_round a b;
  _ ← assert_eq (to_raw <$> r) (Some 1); r2 ← checked_mul_trunc a b; assert_eq (to_raw <$> r2) (Some 0).
Definition mul_round_negative_tie : outcome unit :=
  let a := from_raw (D := 2) (-5) in let b := from_raw (D := 2) 10 in r ← checked_mul_round a b;
  assert_eq (to_raw <$> r) (Some (-1)).
Definition mul_round_just_below_tie : outcome unit :=
  let a := from_raw (D := 2) 7 in let b := from_raw (D := 2) 7 in r ← checked_mul_round a b;
  assert_eq (to_raw <$> r) (Some 0).
Definition mul_round_just_above_tie : outcome unit :=
  let a := from_raw (D := 2) 3 in let b := from_raw (D := 2) 17 in r ← checked_mul_round a b;
  assert_eq (to_raw <$> r) (Some 1).
Definition div_trunc_basic : outcome unit :=
  let a := from_raw (D := 2) 600 in let b := from_raw (D := 2) 200 in r ← checked_div_trunc a b;
  assert_eq (to_raw <$> r) (Some 300).
Definition div_trunc_by_zero : outcome unit :=
  let a := from_raw (D := 2) 100 in r ← checked_div_trunc a (fixed_ZERO (D := 2)); assert_ (is_none r).
Definition div_trunc_min_by_neg_one : outcome unit :=
  neg_one ← expect (from_int (D := 6) (-1)); r2 ← checked_div_trunc (fixed_MIN (D := 6)) neg_one; assert_ (is_none r2).
Definition div_trunc_truncates_toward_zero : outcome unit :=
  let a := from_raw (D := 2) 100 in let b := from_raw (D := 2) 300 in r ← checked_div_trunc a b;
  assert_eq (to_raw <$> r) (Some 33).
Definition div_trunc_negative_truncates_toward_zero : outcome unit :=
  let a := from_raw (D := 2) (-100) in let b := from_raw (D := 2) 300 in r ← checked_div_trunc a b;
  assert_eq (to_raw <$> r) (Some (-33)).
Definition div_round_basic : outcome unit :=
  let a := from_raw (D := 2) 600 in let b := from_raw (D := 2) 200 in r ← checked_div_round a b;
  assert_eq (to_raw <$> r) (Some 300).
Definition div_round_by_zero : outcome unit :=
  r ← checked_div_round (from_raw (D := 2) 100) (fixed_ZERO (D := 2)); assert_ (is_none r).
Definition checked_mul_int_basic : outcome unit :=
  let a := from_raw (D := 6) 1500000 in assert_eq (to_raw <$> (checked_mul_int a 3)) (Some 4500000).
Definition checked_mul_int_overflow : outcome unit :=
  assert_ (is_none (checked_mul_int (fixed_MAX (D := 6)) 2)).
Definition checked_div_int_basic : outcome unit :=
  let a := from_raw (D := 6) 4500000 in r ← checked_div_int a 3; assert_eq (to_raw <$> r) (Some 1500000).
Definition checked_div_int_by_zero : outcome unit :=
  r ← checked_div_int (from_raw (D := 6) 1000000) 0; assert_ (is_none r).
Definition saturating_mul_int_overflow : outcome unit :=
  assert_eq (saturating_mul_int (fixed_MAX (D := 6)) 2) (fixed_MAX (D := 6)).
Definition saturating_mul_int_negative_overflow : outcome unit :=
  assert_eq (saturating_mul_int (fixed_MAX (D := 6)) (-2)) (fixed_MIN (D := 6)).
Definition saturating_mul_trunc_normal : outcome unit :=
  let a := from_raw (D := 2) 150 in let b := from_raw (D := 2) 200 in r ← saturating_mul_trunc a b;
  assert_eq (to_raw r) 300.
Definition saturating_mul_trunc_overflow_positive : outcome unit :=
  r ← saturating_mul_trunc (fixed_MAX (D := 6)) (fixed_MAX (D := 6)); assert_eq r (fixed_MAX (D := 6)).
Definition saturating_mul_trunc_overflow_negative : outcome unit :=
  r ← saturating_mul_trunc (fixed_MAX (D := 6)) (fixed_MIN (D := 6)); assert_eq r (fixed_MIN (D := 6)).
Definition mul_trunc_d2 : outcome unit :=
  let a := from_raw (D := 2) 250 in let b := from_raw (D := 2) 400 in r ← checked_mul_trunc a b;
  assert_eq (to_raw <$> r) (Some 1000).
Definition mul_trunc_d8 : outcome unit :=
  let a := from_raw (D := 8) 150000000 in let b := from_raw (D := 8) 200000000 in r ← checked_mul_trunc a b;
  assert_eq (to_raw <$> r) (Some 300000000).
Definition mul_trunc_neg_times_neg_is_positive : outcome unit :=
  let a := from_raw (D := 2) (-150) in let b := from_raw (D := 2) (-200) in r ← checked_mul_trunc a b;
  assert_eq (to_raw <$> r) (Some 300).
Definition mul_trunc_pos_times_neg_is_negative : outcome unit :=
  let a := from_raw (D := 2) 150 in let b := from_raw (D := 2) (-200) in r ← checked_mul_trunc a b;
  assert_eq (to_raw <$> r) (Some (-300)).
Definition mul_trunc_neg_times_pos_is_negative : outcome unit :=
  let a := from_raw (D := 2) (-150) in let b := from_raw (D := 2) 200 in r ← checked_mul_trunc a b;
  assert_eq (to_raw <$> r) (Some (-300)).
Definition mul_trunc_truncates_negative_toward_zero : outcome unit :=
  let a := from_raw (D := 2) (-101) in let b := from_raw (D := 2) (-101) in r ← checked_mul_trunc a b;
  assert_eq (to_raw <$> r) (Some 102).
Definition mul_trunc_result_not_added_or_subtracted_by_scale : outcome unit :=
  let a := from_raw (D := 2) 200 in let b := from_raw (D := 2) 300 in r ← checked_mul_trunc a b;
  let result := to_raw <$> r in _ ← assert_eq result (Some 600); _ ← assert_ne result (Some 500);
  assert_ne result (Some (-100)).
Definition mul_round_neg_times_neg : outcome unit :=
  let a := from_raw (D := 2) (-5) in let b := from_raw (D := 2) (-10) in r ← checked_mul_round a b;
  _ ← assert_eq (to_raw <$> r) (Some 1); r2 ← checked_mul_trunc a b; assert_eq (to_raw <$> r2) (Some 0).
Definition mul_round_exact_product_unchanged : outcome unit :=
  let a := from_raw (D := 2) 200 in let b := from_raw (D := 2) 300 in r ← checked_mul_round a b;
  assert_eq (to_raw <$> r) (Some 600).
Definition mul_round_overflow_returns_none : outcome unit :=
  r ← checked_mul_round (fixed_MAX (D := 6)) (fixed_MAX (D := 6)); assert_ (is_none r).
Definition mul_round_biases_toward_positive_infinity_for_positive : outcome unit :=
  let a := from_raw (D := 2) 5 in let b := from_raw (D := 2) 10 in r ← checked_mul_round a b; let r := to_raw <$> r in
  r2 ← checked_mul_trunc a b; let t := to_raw <$> r2 in _ ← assert_eq r (Some 1); _ ← assert_eq t (Some 0);
  assert_ne r t.
Definition mul_round_biases_away_from_zero_for_negative : outcome unit :=
  let a := from_raw (D := 2) (-5) in let b := from_raw (D := 2) 10 in r ← checked_mul_round a b;
  let r := to_raw <$> r in r2 ← checked_mul_trunc a b; let t := to_raw <$> r2 in _ ← assert_eq r (Some (-1));
  _ ← assert_eq t (Some 0); assert_ne r t.
Definition div_trunc_negative_by_negative_is_positive : outcome unit :=
  let a := from_raw (D := 2) (-600) in let b := from_raw (D := 2) (-200) in r ← checked_div_trunc a b;
  assert_eq (to_raw <$> r) (Some 300).
Definition div_trunc_positive_by_negative_is_negative : outcome unit :=
  let a := from_raw (D := 2) 600 in let b := from_raw (D := 2) (-200) in r ← checked_div_trunc a b;
  assert_eq (to_raw <$> r) (Some (-300)).
Definition div_trunc_scale_factor_is_multiplied_not_added : outcome unit :=
  let a := from_raw (D := 2) 100 in let b := from_raw (D := 2) 100 in r ← checked_div_trunc a b;
  _ ← assert_eq (to_raw <$> r) (Some 100); r2 ← checked_div_trunc a b; assert_ne (to_raw <$> r2) (Some 200).
Definition div_trunc_exact_small_value : outcome unit :=
  let a := from_raw (D := 2) 1 in let b := from_raw (D := 2) 1 in r ← checked_div_trunc a b;
  assert_eq (to_raw <$> r) (Some 100).
Definition div_trunc_truncates_not_rounds : outcome unit :=
  let a := from_raw (D := 2) 200 in let b := from_raw (D := 2) 300 in r ← checked_div_trunc a b;
  assert_eq (to_raw <$> r) (Some 66).
Definition div_trunc_neg_numerator_truncates_toward_zero : outcome unit :=
  let a := from_raw (D := 2) (-200) in let b := from_raw (D := 2) 300 in r ← checked_div_trunc a b;
  _ ← assert_eq (to_raw <$> r) (Some (-66)); r2 ← checked_div_trunc a b; assert_ne (to_raw <$> r2) (Some (-67)).
Definition div_trunc_overflow_returns_none : outcome unit :=
  let a := from_raw (D := 2) (tmax I64) in let b := from_raw (D := 2) 1 in r ← checked_div_trunc a b;
  assert_ (is_none r).
Definition div_round_rounds_up_at_tie : outcome unit :=
  let a := from_raw (D := 2) 100 in let b := from_raw (D := 2) 200 in r ← checked_div_round a b;
  _ ← assert_eq (to_raw <$> r) (Some 50); r2 ← checked_div_trunc a b; assert_eq (to_raw <$> r2) (Some 50).
Definition div_round_vs_trunc_differ_above_tie : outcome unit :=
  let a := from_raw (D := 2) 200 in let b := from_raw (D := 2) 300 in r ← checked_div_round a b;
  _ ← assert_eq (to_raw <$> r) (Some 67); r2 ← checked_div_trunc a b; assert_eq (to_raw <$> r2) (Some 66).
Definition div_round_negative_rounds_away_from_zero : outcome unit :=
  let a := from_raw (D := 2) (-200) in let b := from_raw (D := 2) 300 in r ← checked_div_round a b;
  _ ← assert_eq (to_raw <$> r) (Some (-67)); r2 ← checked_div_trunc a b; assert_eq (to_raw <$> r2) (Some (-66)).
Definition div_round_neg_by_neg_rounds_away_from_zero : outcome unit :=
  let a := from_raw (D := 2) (-200) in let b := from_raw (D := 2) (-300) in r ← checked_div_round a b;
  _ ← assert_eq (to_raw <$> r) (Some 67); r2 ← checked_div_trunc a b; assert_eq (to_raw <$> r2) (Some 66).
Definition div_round_abs_div_half_uses_abs_of_divisor : outcome unit :=
  let a := from_raw (D := 2) 200 in let b := from_raw (D := 2) (-300) in r ← checked_div_round a b;
  assert_eq (to_raw <$> r) (Some (-67)).
Definition div_round_by_zero_returns_none : outcome unit :=
  r ← checked_div_round (from_raw (D := 6) 1000000) (fixed_ZERO (D := 6)); assert_ (is_none r).
Definition div_round_exact_division_same_as_trunc : outcome unit :=
  let a := from_raw (D := 2) 600 in let b := from_raw (D := 2) 300 in r ← checked_div_round a b;
  _ ← assert_eq (to_raw <$> r) (Some 200); r2 ← checked_div_trunc a b; assert_eq (to_raw <$> r2) (Some 200).
Definition checked_mul_int_negative_scalar : outcome unit :=
  let a := from_raw (D := 6) 1500000 in assert_eq (to_raw <$> (checked_mul_int a (-3))) (Some (-4500000)).
Definition checked_mul_int_by_zero : outcome unit :=
  let a := from_raw (D := 6) 1500000 in assert_eq (to_raw <$> (checked_mul_int a 0)) (Some 0).
Definition checked_div_int_truncates_toward_zero : outcome unit :=
  let a := from_raw (D := 6) 1000000 in r ← checked_div_int a 3; assert_eq (to_raw <$> r) (Some 333333).
Definition checked_div_int_negative_truncates_toward_zero : outcome unit :=
  let a := from_raw (D := 6) (-1000000) in r ← checked_div_int a 3; assert_eq (to_raw <$> r) (Some (-333333)).
Definition checked_div_int_negative_divisor : outcome unit :=
  let a := from_raw (D := 6) 3000000 in r ← checked_div_int a (-2); assert_eq (to_raw <$> r) (Some (-1500000)).
Definition saturating_mul_trunc_neg_pos_overflow_clamps_to_min : outcome unit :=
  r ← saturating_mul_trunc (fixed_MIN (D := 6)) (fixed_MAX (D := 6)); assert_eq r (fixed_MIN (D := 6)).
Definition saturating_mul_trunc_neg_neg_overflow_clamps_to_max : outcome unit :=
  r ← saturating_mul_trunc (fixed_MIN (D := 6)) (fixed_MIN (D := 6)); assert_eq r (fixed_MAX (D := 6)).
Definition saturating_mul_int_zero : outcome unit :=
  let a := from_raw (D := 6) 1000000 in assert_eq (to_raw (saturating_mul_int a 0)) 0.
Definition mul_trunc_near_max_no_overflow : outcome unit :=
  let a := from_raw (D := 6) 1000000 in let b := from_raw (D := 6) 1000000 in r ← checked_mul_trunc a b;
  assert_eq (to_raw <$> r) (Some 1000000).
Definition div_trunc_one_by_one : outcome unit :=
  let a := from_raw (D := 6) 1000000 in r ← checked_div_trunc a a; assert_eq (to_raw <$> r) (Some 1000000).
Definition mul_trunc_min_times_neg_one_overflows : outcome unit :=
  neg_one ← expect (from_int (D := 6) (-1)); r2 ← checked_mul_trunc (fixed_MIN (D := 6)) neg_one; assert_ (is_none r2).
Definition checked_div_trunc_min_by_neg_one_overflows : outcome unit :=
  neg_one ← expect (from_int (D := 2) (-1)); r2 ← checked_div_trunc (fixed_MIN (D := 2)) neg_one; assert_ (is_none r2).
End mul_div_tests.

(** ** convert.rs *)

Section convert_tests.
Context `{BuildProfile}.

Definition widen_d2_to_d6 : outcome unit :=
  let a := from_raw (D := 2) 150 in r ← rescale_trunc 6 a; b ← expect r; assert_eq (to_raw b) 1500000.
Definition widen_d2_to_d8 : outcome unit :=
  let a := from_raw (D := 2) 150 in r ← rescale_trunc 8 a; b ← expect r; assert_eq (to_raw b) 150000000.
Definition widen_overflow : outcome unit :=
  let a := from_raw (D := 2) (tmax I64) in result ← rescale_trunc 6 a; assert_ (is_none result).
Definition narrow_d6_to_d2_trunc : outcome unit :=
  let a := from_raw (D := 6) 1234567 in r ← rescale_trunc 2 a; b ← expect r; assert_eq (to_raw b) 123.
Definition narrow_d6_to_d2_round : outcome unit :=
  let a := from_raw (D := 6) 1235000 in r ← rescale_round 2 a; b ← expect r; assert_eq (to_raw b) 124.
Definition narrow_negative_trunc : outcome unit :=
  let a := from_raw (D := 6) (-1239000) in r ← rescale_trunc 2 a; b ← expect r; assert_eq (to_raw b) (-123).
Definition narrow_negative_round : outcome unit :=
  let a := from_raw (D := 6) (-1235000) in r ← rescale_round 2 a; b ← expect r; assert_eq (to_raw b) (-124).
Definition same_scale_identity : outcome unit :=
  let a := from_raw (D := 6) 1500000 in r ← rescale_trunc 6 a; b ← expect r; assert_eq a b.
Definition exact_widen_lossless : outcome unit :=
  let a := from_raw (D := 2) 150 in r ← checked_rescale_exact 6 a; b ← expect r; assert_eq (to_raw b) 1500000.
Definition exact_narrow_lossless : outcome unit :=
  let a := from_raw (D := 6) 1500000 in r ← checked_rescale_exact 2 a; b ← expect r; assert_eq (to_raw b) 150.
Definition exact_narrow_rejects_lossy : outcome unit :=
  let a := from_raw (D := 6) 1234567 in result ← checked_rescale_exact 2 a; assert_ (is_none result).
Definition narrow_d8_to_d2 : outcome unit :=
  let a := from_raw (D := 8) 123456789 in r ← rescale_trunc 2 a; b ← expect r; assert_eq (to_raw b) 123.
Definition trunc_vs_round_differ_below_halfway : outcome unit :=
  let a := from_raw (D := 6) 1234000 in r ← rescale_trunc 2 a; trunc ← expect r; r3 ← rescale_round 2 a;
  round ← expect r3; _ ← assert_eq (to_raw trunc) 123; assert_eq (to_raw round) 123.
Definition trunc_vs_round_differ_above_halfway : outcome unit :=
  let a := from_raw (D := 6) 1236000 in r ← rescale_trunc 2 a; trunc ← expect r; r3 ← rescale_round 2 a;
  round ← expect r3; _ ← assert_eq (to_raw trunc) 123; assert_eq (to_raw round) 124.
Definition trunc_and_round_both_produce_exact_on_divisible : outcome unit :=
  let a := from_raw (D := 6) 1230000 in r ← rescale_trunc 2 a; trunc ← expect r; r3 ← rescale_round 2 a;
  round ← expect r3; _ ← assert_eq (to_raw trunc) 123; assert_eq (to_raw round) 123.
Definition trunc_zero_stays_zero : outcome unit :=
  let a := from_raw (D := 6) 0 in r ← rescale_trunc 2 a; b ← expect r; assert_eq (to_raw b) 0.
Definition round_zero_stays_zero : outcome unit :=
  let a := from_raw (D := 6) 0 in r ← rescale_round 2 a; b ← expect r; assert_eq (to_raw b) 0.
Definition widen_negative_d2_to_d6 : outcome unit :=
  let a := from_raw (D := 2) (-150) in r ← rescale_trunc 6 a; b ← expect r; assert_eq (to_raw b) (-1500000).
Definition widen_negative_preserves_exact_value : outcome unit :=
  let a := from_raw (D := 2) (-99) in r ← rescale_trunc 6 a; b ← expect r; assert_eq (to_raw b) (-990000).
Definition widen_overflow_negative : outcome unit :=
  let a := from_raw (D := 2) (tmin I64) in result ← rescale_trunc 6 a; assert_ (is_none result).
Definition same_scale_identity_round : outcome unit :=
  let a := from_raw (D := 6) (-1500000) in r ← rescale_round 6 a; b ← expect r; assert_eq a b.
Definition narrow_positive_trunc_never_rounds_up : outcome unit :=
  let a := from_raw (D := 6) 1999999 in r ← rescale_trunc 2 a; b ← expect r; assert_eq (to_raw b) 199.
Definition narrow_negative_round_away_from_zero_for_tie : outcome unit :=
  let a := from_raw (D := 6) (-1235000) in r ← rescale_round 2 a; b ← expect r; assert_eq (to_raw b) (-124).
Definition narrow_negative_round_below_tie : outcome unit :=
  let a := from_raw (D := 6) (-1234000) in r ← rescale_round 2 a; b ← expect r; assert_eq (to_raw b) (-123).
Definition exact_narrow_negative_lossless : outcome unit :=
  let a := from_raw (D := 6) (-1500000) in r ← checked_rescale_exact 2 a; b ← expect r; assert_eq (to_raw b) (-150).
Definition exact_narrow_negative_lossy_returns_none : outcome unit :=
  let a := from_raw (D := 6) (-1234567) in result ← checked_rescale_exact 2 a; assert_ (is_none result).
Definition exact_narrow_minimum_lossy : outcome unit :=
  let a := from_raw (D := 6) 1 in result ← checked_rescale_exact 2 a; assert_ (is_none result).
Definition exact_widen_negative : outcome unit :=
  let a := from_raw (D := 2) (-150) in r ← checked_rescale_exact 6 a; b ← expect r; assert_eq (to_raw b) (-1500000).
Definition exact_widen_overflow_returns_none : outcome unit :=
  let a := from_raw (D := 2) (tmax I64) in result ← checked_rescale_exact 6 a; assert_ (is_none result).
Definition exact_same_scale_identity : outcome unit :=
  let a := from_raw (D := 6) 9999999 in r ← checked_rescale_exact 6 a; b ← expect r; assert_eq a b.
Definition exact_narrow_zero : outcome unit :=
  let a := from_raw (D := 6) 0 in r ← checked_rescale_exact 2 a; b ← expect r; assert_eq (to_raw b) 0.
Definition exact_narrow_value_divisible_by_factor : outcome unit :=
  let a := from_raw (D := 6) 10000 in r ← checked_rescale_exact 4 a; b ← expect r; assert_eq (to_raw b) 100.
Definition rescale_trunc_factor_not_added_subtracted : outcome unit :=
  let a := from_raw (D := 2) 100 in r ← rescale_trunc 6 a; b ← expect r; _ ← assert_ne (to_raw b) (100 + 10000);
  _ ← assert_ne (to_raw b) (100 - 10000); assert_eq (to_raw b) 1000000.
Definition rescale_trunc_narrowing_uses_division_not_subtraction : outcome unit :=
  let a := from_raw (D := 6) 1230000 in r ← rescale_trunc 2 a; b ← expect r;
  _ ← assert_ne (to_raw b) (1230000 - 10000); assert_eq (to_raw b) 123.
End convert_tests.

(** ** parse.rs *)

Section parse_tests.
Context `{BuildProfile}.

Definition parse_integer : outcome unit :=
  r ← from_str_decimal 6 (txt "42"); v ← expect_ok r; assert_eq (to_raw v) 42000000.
Definition parse_with_decimal : outcome unit :=
  r ← from_str_decimal 6 (txt "1.5"); v ← expect_ok r; assert_eq (to_raw v) 1500000.
Definition parse_full_precision : outcome unit :=
  r ← from_str_decimal 6 (txt "1.234567"); v ← expect_ok r; assert_eq (to_raw v) 1234567.
Definition parse_zero_variants : outcome unit :=
  r ← from_str_decimal 6 (txt "0"); r2 ← expect_ok r; _ ← assert_eq (to_raw r2) 0;
  r3 ← from_str_decimal 6 (txt "0.0"); r4 ← expect_ok r3; _ ← assert_eq (to_raw r4) 0;
  r5 ← from_str_decimal 6 (txt "0.000000"); r6 ← expect_ok r5; assert_eq (to_raw r6) 0.
Definition parse_negative_zero : outcome unit :=
  r ← from_str_decimal 6 (txt "-0"); v ← expect_ok r; assert_eq (to_raw v) 0.
Definition parse_negative_zero_decimal : outcome unit :=
  r ← from_str_decimal 6 (txt "-0.0"); v ← expect_ok r; assert_eq (to_raw v) 0.
Definition parse_leading_zeros : outcome unit :=
  r ← from_str_decimal 6 (txt "007.500000"); v ← expect_ok r; assert_eq (to_raw v) 7500000.
Definition parse_short_fraction_zero_pads : outcome unit :=
  r ← from_str_decimal 6 (txt "1.5"); v ← expect_ok r; assert_eq (to_raw v) 1500000.
Definition parse_no_whole_part : outcome unit :=
  r ← from_str_decimal 6 (txt ".5"); v ← expect_ok r; assert_eq (to_raw v) 500000.
Definition parse_d2 : outcome unit :=
  r ← from_str_decimal 2 (txt "99.99"); v ← expect_ok r; assert_eq (to_raw v) 9999.
Definition parse_negative : outcome unit :=
  r ← from_str_decimal 6 (txt "-1.5"); v ← expect_ok r; assert_eq (to_raw v) (-1500000).
Definition parse_positive_sign : outcome unit :=
  r ← from_str_decimal 6 (txt "+1.5"); v ← expect_ok r; assert_eq (to_raw v) 1500000.
Definition parse_empty_string : outcome unit :=
  r ← from_str_decimal 6 (txt ""); assert_eq r (Err InvalidFormat).
Definition parse_non_numeric : outcome unit :=
  r ← from_str_decimal 6 (txt "abc"); assert_eq r (Err InvalidFormat).
Definition parse_exponent_rejected : outcome unit :=
  r ← from_str_decimal 6 (txt "1e5"); assert_eq r (Err InvalidFormat).
Definition parse_double_dot : outcome unit :=
  r ← from_str_decimal 6 (txt "1..2"); assert_eq r (Err InvalidFormat).
Definition parse_excess_precision : outcome unit :=
  r ← from_str_decimal 2 (txt "1.123"); assert_eq r (Err ExcessPrecision).
Definition parse_overflow : outcome unit :=
  r ← from_str_decimal 6 (txt "99999999999999999999"); assert_eq r (Err Overflow).
Definition parse_just_dot : outcome unit :=
  r ← from_str_decimal 6 (txt "."); assert_eq r (Err InvalidFormat).
Definition parse_just_sign : outcome unit :=
  r ← from_str_decimal 6 (txt "-"); assert_eq r (Err InvalidFormat).
Definition parse_display_parse_roundtrip : outcome unit :=
  let values := [fixed_ZERO (D := 6); fixed_ONE (D := 6); from_raw (D := 6) 1500000; from_raw (D := 6) (-1500000);
  from_raw (D := 6) 1; from_raw (D := 6) (-1)] in for_each (fun _ v => let s := display v in r ← from_str_decimal 6 s;
  parsed ← expect_ok r; assert_eq v parsed) tt values.
Definition display_parse_roundtrip_max : outcome unit :=
  let s := display (fixed_MAX (D := 6)) in r ← from_str_decimal 6 s; parsed ← expect_ok r;
  assert_eq (fixed_MAX (D := 6)) parsed.
Definition display_parse_roundtrip_min : outcome unit :=
  let s := display (fixed_MIN (D := 6)) in r ← from_str_decimal 6 s; parsed ← expect_ok r;
  assert_eq (fixed_MIN (D := 6)) parsed.
Definition parse_d8_precision : outcome unit :=
  r ← from_str_decimal 8 (txt "0.00000001"); v ← expect_ok r; assert_eq (to_raw v) 1.
Definition parse_bytes_short_price : outcome unit :=
  result ← parse_decimal_bytes 6 (txt "0.53"); assert_eq result (Ok (from_raw (D := 6) 530000)).
Definition parse_bytes_medium_price : outcome unit :=
  result ← parse_decimal_bytes 2 (txt "67396.70"); assert_eq result (Ok (from_raw (D := 2) 6739670)).
Definition parse_bytes_integer_only : outcome unit :=
  result ← parse_decimal_bytes 6 (txt "67396"); assert_eq result (Ok (from_raw (D := 6) 67396000000)).
Definition parse_bytes_negative : outcome unit :=
  result ← parse_decimal_bytes 6 (txt "-1.5"); assert_eq result (Ok (from_raw (D := 6) (-1500000))).
Definition parse_bytes_no_whole_part : outcome unit :=
  result ← parse_decimal_bytes 6 (txt ".5"); assert_eq result (Ok (from_raw (D := 6) 500000)).
Definition parse_bytes_leading_zeros : outcome unit :=
  result ← parse_decimal_bytes 6 (txt "007.50"); assert_eq result (Ok (from_raw (D := 6) 7500000)).
Definition parse_bytes_trailing_zero_preserved : outcome unit :=
  result ← parse_decimal_bytes 2 (txt "0.10"); assert_eq result (Ok (from_raw (D := 2) 10)).
Definition parse_bytes_empty_fails : outcome unit :=
  r ← parse_decimal_bytes 6 (txt ""); assert_eq r (Err InvalidFormat).
Definition parse_bytes_malformed_fails : outcome unit :=
  r ← parse_decimal_bytes 6 (txt "abc"); assert_eq r (Err InvalidFormat).
Definition parse_bytes_excess_precision_fails : outcome unit :=
  r ← parse_decimal_bytes 2 (txt "1.234"); assert_eq r (Err ExcessPrecision).
Definition parse_bytes_agrees_with_str : outcome unit :=
  let inputs := [txt "0.53"; txt "67396.70"; txt "-42.000001"; txt "123456"; txt ".5"; txt "007.50"] in
  for_each (fun _ input => from_str ← from_str_decimal 6 input; from_bytes ← parse_decimal_bytes 6 input;
  assert_eq from_str from_bytes) tt inputs.
Definition parse_binance_btc_price : outcome unit :=
  result ← parse_decimal_bytes 2 (txt "72681.70"); assert_eq result (Ok (from_raw (D := 2) 7268170)).
Definition parse_binance_btc_qty : outcome unit :=
  result ← parse_decimal_bytes 3 (txt "4.160"); assert_eq result (Ok (from_raw (D := 3) 4160)).
Definition parse_polymarket_price : outcome unit :=
  result ← parse_decimal_bytes 6 (txt "0.53"); assert_eq result (Ok (from_raw (D := 6) 530000)).
Definition parse_polymarket_size : outcome unit :=
  result ← parse_decimal_bytes 6 (txt "250.0"); assert_eq result (Ok (from_raw (D := 6) 250000000)).
Definition parse_max_18_digits_no_overflow : outcome unit :=
  result ← parse_decimal_bytes 0 (txt "123456789012345678");
  assert_eq result (Ok (from_raw (D := 0) 123456789012345678)).
Definition parse_19_digits_fits : outcome unit :=
  result ← parse_decimal_bytes 0 (txt "9223372036854775807"); assert_eq result (Ok (from_raw (D := 0) (tmax I64))).
Definition parse_19_digits_overflows : outcome unit :=
  r ← parse_decimal_bytes 0 (txt "9223372036854775808"); assert_eq r (Err Overflow).
Definition parse_20_digits_overflows : outcome unit :=
  r ← parse_decimal_bytes 0 (txt "12345678901234567890"); assert_eq r (Err Overflow).
Definition parse_many_leading_zeros : outcome unit :=
  result ← parse_decimal_bytes 0 (txt "00000000000000000001"); assert_eq result (Ok (from_raw (D := 0) 1)).
Definition parse_leading_zeros_with_decimal : outcome unit :=
  result ← parse_decimal_bytes 6 (txt "000000.500000"); assert_eq result (Ok (from_raw (D := 6) 500000)).
End parse_tests.

(** ** fmt.rs *)

Section fmt_tests.
Context `{BuildProfile}.

Definition display_positive : outcome unit :=
  let a := from_raw (D := 6) 1500000 in assert_eq (display a) (txt "1.500000").
Definition display_negative : outcome unit :=
  let a := from_raw (D := 6) (-1500000) in assert_eq (display a) (txt "-1.500000").
Definition display_zero : outcome unit :=
  assert_eq (display (fixed_ZERO (D := 6))) (txt "0.000000").
Definition display_zero_d2 : outcome unit :=
  assert_eq (display (fixed_ZERO (D := 2))) (txt "0.00").
Definition display_small_d8 : outcome unit :=
  let a := from_raw (D := 8) 1 in assert_eq (display a) (txt "0.00000001").
Definition display_negative_small : outcome unit :=
  let a := from_raw (D := 8) (-1) in assert_eq (display a) (txt "-0.00000001").
Definition display_one : outcome unit :=
  assert_eq (display (fixed_ONE (D := 6))) (txt "1.000000").
Definition display_d0 : outcome unit :=
  let a := from_raw (D := 0) 42 in assert_eq (display a) (txt "42").
Definition display_min : outcome unit :=
  let s := display (fixed_MIN (D := 6)) in assert_ (begins_with s (txt "-")).
Definition debug_shows_raw_and_value : outcome unit :=
  let a := from_raw (D := 6) 1500000 in let s := debug a in _ ← assert_ (contains s (txt "raw=1500000"));
  _ ← assert_ (contains s (txt "value=1.500000")); assert_ (contains s (txt "FixedI64<6>")).
End fmt_tests.

(** * They pass *)

(** Every test of fixed_i64.rs passes. *)
Lemma fixed_i64_tests_pass (profile : BuildProfile) : Forall (fun result => result = Ret tt)
  [from_raw_preserves_value; from_int_scales_correctly; from_int_zero; from_int_negative;
   from_int_overflow_returns_none; scale_constants; one_equals_scale; zero_is_zero; min_max_are_i64_extrema;
   is_zero_true_for_zero; is_zero_false_for_nonzero; is_negative_and_positive; ordering_works].
Proof. destruct profile; repeat constructor; vm_compute; reflexivity. Qed.

(** Every test of arithmetic.rs passes. *)
Lemma arithmetic_tests_pass (profile : BuildProfile) : Forall (fun result => result = Ret tt)
  [add_basic; sub_basic; neg_basic; neg_negative; add_assign; sub_assign; checked_add_normal; checked_add_overflow;
   checked_sub_normal; checked_sub_overflow; checked_neg_normal; checked_neg_min_overflows; saturating_add_at_max;
   saturating_sub_at_min; wrapping_add_wraps; wrapping_sub_wraps; wrapping_neg_of_min; checked_abs_positive;
   checked_abs_negative; checked_abs_min_overflows; saturating_abs_min_clamps_to_max].
Proof. destruct profile; repeat constructor; vm_compute; reflexivity. Qed.

(** Every test of mul_div.rs passes. *)
Lemma mul_div_tests_pass (profile : BuildProfile) : Forall (fun result => result = Ret tt)
  [mul_trunc_basic; mul_trunc_fractional; mul_trunc_commutative; mul_trunc_by_one; mul_trunc_by_zero;
   mul_trunc_overflow; mul_trunc_truncates_positive; mul_trunc_truncates_negative; mul_round_positive_tie;
   mul_round_negative_tie; mul_round_just_below_tie; mul_round_just_above_tie; div_trunc_basic; div_trunc_by_zero;
   div_trunc_min_by_neg_one; div_trunc_truncates_toward_zero; div_trunc_negative_truncates_toward_zero;
   div_round_basic; div_round_by_zero; checked_mul_int_basic; checked_mul_int_overflow; checked_div_int_basic;
   checked_div_int_by_zero; saturating_mul_int_overflow; saturating_mul_int_negative_overflow;
   saturating_mul_trunc_normal; saturating_mul_trunc_overflow_positive; saturating_mul_trunc_overflow_negative;
   mul_trunc_d2; mul_trunc_d8; mul_trunc_neg_times_neg_is_positive; mul_trunc_pos_times_neg_is_negative;
   mul_trunc_neg_times_pos_is_negative; mul_trunc_truncates_negative_toward_zero;
   mul_trunc_result_not_added_or_subtracted_by_scale; mul_round_neg_times_neg; mul_round_exact_product_unchanged;
   mul_round_overflow_returns_none; mul_round_biases_toward_positive_infinity_for_positive;
   mul_round_biases_away_from_zero_for_negative; div_trunc_negative_by_negative_is_positive;
   div_trunc_positive_by_negative_is_negative; div_trunc_scale_factor_is_multiplied_not_added;
   div_trunc_exact_small_value; div_trunc_truncates_not_rounds; div_trunc_neg_numerator_truncates_toward_zero;
   div_trunc_overflow_returns_none; div_round_rounds_up_at_tie; div_round_vs_trunc_differ_above_tie;
   div_round_negative_rounds_away_from_zero; div_round_neg_by_neg_rounds_away_from_zero;
   div_round_abs_div_half_uses_abs_of_divisor; div_round_by_zero_returns_none;
   div_round_exact_division_same_as_trunc; checked_mul_int_negative_scalar; checked_mul_int_by_zero;
   checked_div_int_truncates_toward_zero; checked_div_int_negative_truncates_toward_zero;
   checked_div_int_negative_divisor; saturating_mul_trunc_neg_pos_overflow_clamps_to_min;
   saturating_mul_trunc_neg_neg_overflow_clamps_to_max; saturating_mul_int_zero; mul_trunc_near_max_no_overflow;
   div_trunc_one_by_one; mul_trunc_min_times_neg_one_overflows; checked_div_trunc_min_by_neg_one_overflows].
Proof. destruct profile; repeat constructor; vm_compute; reflexivity. Qed.

(** Every test of convert.rs passes. *)
Lemma convert_tests_pass (profile : BuildProfile) : Forall (fun result => result = Ret tt)
  [widen_d2_to_d6; widen_d2_to_d8; widen_overflow; narrow_d6_to_d2_trunc; narrow_d6_to_d2_round;
   narrow_negative_trunc; narrow_negative_round; same_scale_identity; exact_widen_lossless; exact_narrow_lossless;
   exact_narrow_rejects_lossy; narrow_d8_to_d2; trunc_vs_round_differ_below_halfway;
   trunc_vs_round_differ_above_halfway; trunc_and_round_both_produce_exact_on_divisible; trunc_zero_stays_zero;
   round_zero_stays_zero; widen_negative_d2_to_d6; widen_negative_preserves_exact_value; widen_overflow_negative;
   same_scale_identity_round; narrow_positive_trunc_never_rounds_up; narrow_negative_round_away_from_zero_for_tie;
   narrow_negative_round_below_tie; exact_narrow_negative_lossless; exact_narrow_negative_lossy_returns_none;
   exact_narrow_minimum_lossy; exact_widen_negative; exact_widen_overflow_returns_none; exact_same_scale_identity;
   exact_narrow_zero; exact_narrow_value_divisible_by_factor; rescale_trunc_factor_not_added_subtracted;
   rescale_trunc_narrowing_uses_division_not_subtraction].
Proof. destruct profile; repeat constructor; vm_compute; reflexivity. Qed.

(** Every test of parse.rs passes. *)
Lemma parse_tests_pass (profile : BuildProfile) : Forall (fun result => result = Ret tt)
  [parse_integer; parse_with_decimal; parse_full_precision; parse_zero_variants; parse_negative_zero;
   parse_negative_zero_decimal; parse_leading_zeros; parse_short_fraction_zero_pads; parse_no_whole_part; parse_d2;
   parse_negative; parse_positive_sign; parse_empty_string; parse_non_numeric; parse_exponent_rejected;
   parse_double_dot; parse_excess_precision; parse_overflow; parse_just_dot; parse_just_sign;
   parse_display_parse_roundtrip; display_parse_roundtrip_max; display_parse_roundtrip_min; parse_d8_precision;
   parse_bytes_short_price; parse_bytes_medium_price; parse_bytes_integer_only; parse_bytes_negative;
   parse_bytes_no_whole_part; parse_bytes_leading_zeros; parse_bytes_trailing_zero_preserved;
   parse_bytes_empty_fails; parse_bytes_malformed_fails; parse_bytes_excess_precision_fails;
   parse_bytes_agrees_with_str; parse_binance_btc_price; parse_binance_btc_qty; parse_polymarket_price;
   parse_polymarket_size; parse_max_18_digits_no_overflow; parse_19_digits_fits; parse_19_digits_overflows;
   parse_20_digits_overflows; parse_many_leading_zeros; parse_leading_zeros_with_decimal].
Proof. destruct profile; repeat constructor; vm_compute; reflexivity. Qed.

(** Every test of fmt.rs passes. *)
Lemma fmt_tests_pass (profile : BuildProfile) : Forall (fun result => result = Ret tt)
  [display_positive; display_negative; display_zero; display_zero_d2; display_small_d8; display_negative_small;
   display_one; display_d0; display_min; debug_shows_raw_and_value].
Proof. destruct profile; repeat constructor; vm_compute; reflexivity. Qed.
