(* ===== verification/SuiteTypes.v ===== *)
(** * The unit tests of the newtypes ([crates/types])

    The tests beside the code, statement by statement, on the definitions of
    [Types], [Texts] and [Layout], and that they pass in either build profile. *)

From Stdlib Require Import ZArith.
From stdpp Require Import base decidable numbers option tactics strings list.
From S2P Require Import Prelude Testing Platform Fixed FixedText Types Events Ring Texts Layout.

#[local] Open Scope Z_scope.

#[local] Instance probability_eq_dec : EqDecision Probability.
Proof. solve_decision. Defined.
#[local] Instance usdc_eq_dec : EqDecision UsdcAmount.
Proof. solve_decision. Defined.
#[local] Instance btc_eq_dec : EqDecision BtcQty.
Proof. solve_decision. Defined.
#[local] Instance meta_eq_dec {D} : EqDecision (InstrumentMeta D).
Proof. solve_decision. Defined.
#[local] Instance meta_error_eq_dec : EqDecision InstrumentMetaError.
Proof. solve_decision. Defined.

(** ** lib.rs *)

Section types_lib_tests.
Context `{BuildProfile}.

Definition types_lib_queue_error_display : outcome unit :=
  _ ← assert_eq (display QueueFull) (txt "queue is full"); assert_eq (display QueueEmpty) (txt "queue is empty").
Definition seq_num_construction : outcome unit :=
  let s := seqnum_from_raw 7 in _ ← assert_eq (seqnum_to_raw s) 7; assert_eq (seqnum_to_raw seqnum_ZERO) 0.
Definition seq_num_ordering : outcome unit :=
  _ ← assert_ (seqnum_to_raw (seqnum_from_raw 1) <? seqnum_to_raw (seqnum_from_raw 2));
  assert_eq (seqnum_from_raw 42) (seqnum_from_raw 42).
Definition seq_num_display_and_debug : outcome unit :=
  let s := seqnum_from_raw 99 in _ ← assert_eq (display s) (txt "99"); assert_eq (debug s) (txt "SeqNum(99)").
Definition slot_index_equality : outcome unit :=
  _ ← assert_eq (slot_index 0) (slot_index 0); assert_ne (slot_index 0) (slot_index 1).
Definition power_of_two_valid : outcome unit :=
  _ ← assert_power_of_two 1; _ ← assert_power_of_two 2; assert_power_of_two 1024.
Definition push_error_preserves_value : outcome unit :=
  let err := Full 42 in match err with Full v => _ ← assert_eq v 42; Ret tt end.
Definition types_lib_push_error_display : outcome unit :=
  let err := Full 0 in assert_eq (display err) (txt "queue is full").
End types_lib_tests.

(** ** ticks.rs *)

Section ticks_tests.
Context `{BuildProfile}.

Definition construction_and_roundtrip : outcome unit :=
  let t := ticks_from_raw 42 in assert_eq (ticks_to_raw t) 42.
Definition zero : outcome unit :=
  assert_eq (ticks_to_raw ticks_ZERO) 0.
Definition add_sub : outcome unit :=
  let a := ticks_from_raw 10 in let b := ticks_from_raw 3 in r ← ticks_add a b; _ ← assert_eq (ticks_to_raw r) 13;
  r2 ← ticks_sub a b; assert_eq (ticks_to_raw r2) 7.
Definition neg : outcome unit :=
  let t := ticks_from_raw 5 in r ← ticks_neg t; assert_eq (ticks_to_raw r) (-5).
Definition assign_ops : outcome unit :=
  let t := ticks_from_raw 10 in t ← ticks_add t (ticks_from_raw 5); _ ← assert_eq (ticks_to_raw t) 15;
  t ← ticks_sub t (ticks_from_raw 3); assert_eq (ticks_to_raw t) 12.
Definition scalar_mul_div : outcome unit :=
  let t := ticks_from_raw 6 in r ← ticks_mul t 3; _ ← assert_eq (ticks_to_raw r) 18; r2 ← ticks_div t 2;
  assert_eq (ticks_to_raw r2) 3.
Definition ordering : outcome unit :=
  _ ← assert_ (ticks_to_raw (ticks_from_raw 1) <? ticks_to_raw (ticks_from_raw 2));
  assert_ (ticks_to_raw (ticks_from_raw (-1)) <? ticks_to_raw (ticks_from_raw 0)).
Definition display_and_debug : outcome unit :=
  let t := ticks_from_raw 42 in _ ← assert_eq (display t) (txt "42"); assert_eq (debug t) (txt "Ticks(42)").
End ticks_tests.

(** ** lots.rs *)

Section lots_tests.
Context `{BuildProfile}.

Definition lots_construction_and_roundtrip : outcome unit :=
  let l := lots_from_raw 42 in assert_eq (lots_to_raw l) 42.
Definition lots_zero : outcome unit :=
  assert_eq (lots_to_raw lots_ZERO) 0.
Definition lots_add_sub : outcome unit :=
  let a := lots_from_raw 10 in let b := lots_from_raw 3 in r ← lots_add a b; _ ← assert_eq (lots_to_raw r) 13;
  r2 ← lots_sub a b; assert_eq (lots_to_raw r2) 7.
Definition test_lots_neg : outcome unit :=
  let l := lots_from_raw 5 in r ← lots_neg l; assert_eq (lots_to_raw r) (-5).
Definition lots_assign_ops : outcome unit :=
  let l := lots_from_raw 10 in l ← lots_add l (lots_from_raw 5); _ ← assert_eq (lots_to_raw l) 15;
  l ← lots_sub l (lots_from_raw 3); assert_eq (lots_to_raw l) 12.
Definition lots_scalar_mul_div : outcome unit :=
  let l := lots_from_raw 6 in r ← lots_mul l 3; _ ← assert_eq (lots_to_raw r) 18; r2 ← lots_div l 2;
  assert_eq (lots_to_raw r2) 3.
Definition lots_ordering : outcome unit :=
  _ ← assert_ (lots_to_raw (lots_from_raw 1) <? lots_to_raw (lots_from_raw 2));
  assert_ (lots_to_raw (lots_from_raw (-1)) <? lots_to_raw (lots_from_raw 0)).
Definition lots_display_and_debug : outcome unit :=
  let l := lots_from_raw 42 in _ ← assert_eq (display l) (txt "42"); assert_eq (debug l) (txt "Lots(42)").
End lots_tests.

(** ** signed_lots.rs *)

Section signed_lots_tests.
Context `{BuildProfile}.

Definition signed_lots_construction_and_roundtrip : outcome unit :=
  let s := slots_from_raw 42 in assert_eq (slots_to_raw s) 42.
Definition signed_lots_zero : outcome unit :=
  _ ← assert_eq (slots_to_raw slots_ZERO) 0; _ ← assert_ (slots_is_zero slots_ZERO);
  assert_ (negb (slots_is_zero (slots_from_raw 1))).
Definition signed_lots_add_sub : outcome unit :=
  let a := slots_from_raw 10 in let b := slots_from_raw 3 in r ← slots_add a b; _ ← assert_eq (slots_to_raw r) 13;
  r2 ← slots_sub a b; assert_eq (slots_to_raw r2) 7.
Definition signed_lots_neg : outcome unit :=
  let s := slots_from_raw 5 in r ← slots_neg s; _ ← assert_eq (slots_to_raw r) (-5);
  let short := slots_from_raw (-3) in r2 ← slots_neg short; assert_eq (slots_to_raw r2) 3.
Definition signed_lots_assign_ops : outcome unit :=
  let s := slots_from_raw 10 in s ← slots_add s (slots_from_raw 5); _ ← assert_eq (slots_to_raw s) 15;
  s ← slots_sub s (slots_from_raw 3); assert_eq (slots_to_raw s) 12.
Definition signum : outcome unit :=
  _ ← assert_eq (slots_signum (slots_from_raw 7)) 1; _ ← assert_eq (slots_signum (slots_from_raw (-7))) (-1);
  assert_eq (slots_signum slots_ZERO) 0.
Definition abs : outcome unit :=
  _ ← assert_eq (slots_to_raw (slots_abs (slots_from_raw (-5)))) 5;
  _ ← assert_eq (slots_to_raw (slots_abs (slots_from_raw 5))) 5; assert_eq (slots_to_raw (slots_abs slots_ZERO)) 0.
Definition from_lots : outcome unit :=
  let lots := lots_from_raw 99 in let signed := slots_from_lots lots in assert_eq (slots_to_raw signed) 99.
Definition signed_lots_ordering : outcome unit :=
  _ ← assert_ (slots_to_raw (slots_from_raw (-1)) <? slots_to_raw (slots_from_raw 0));
  assert_ (slots_to_raw (slots_from_raw 0) <? slots_to_raw (slots_from_raw 1)).
Definition signed_lots_display_and_debug : outcome unit :=
  let s := slots_from_raw 42 in _ ← assert_eq (display s) (txt "42"); _ ← assert_eq (debug s) (txt "SignedLots(42)");
  let short := slots_from_raw (-7) in _ ← assert_eq (display short) (txt "-7");
  assert_eq (debug short) (txt "SignedLots(-7)").
Definition default_is_zero : outcome unit :=
  assert_eq slots_ZERO slots_ZERO.
End signed_lots_tests.

(** ** side.rs *)

Section side_tests.
Context `{BuildProfile}.

Definition opposite_bid_is_ask : outcome unit :=
  assert_eq (opposite Bid) Ask.
Definition opposite_ask_is_bid : outcome unit :=
  assert_eq (opposite Ask) Bid.
Definition double_opposite_identity : outcome unit :=
  _ ← assert_eq (opposite (opposite Bid)) Bid; assert_eq (opposite (opposite Ask)) Ask.
Definition repr_values : outcome unit :=
  _ ← assert_eq (side_raw Bid) 0; assert_eq (side_raw Ask) 1.
Definition side_display_and_debug : outcome unit :=
  _ ← assert_eq (display Bid) (txt "Bid"); _ ← assert_eq (display Ask) (txt "Ask");
  _ ← assert_eq (debug Bid) (txt "Bid"); assert_eq (debug Ask) (txt "Ask").
End side_tests.

(** ** instrument_id.rs *)

Section instrument_id_tests.
Context `{BuildProfile}.

Definition size : outcome unit :=
  assert_eq (Z.of_nat (l_size (c_layout c_instrument_id))) 4.
Definition construction : outcome unit :=
  let id := inst_from_raw 42 in assert_eq (inst_to_raw id) 42.
Definition none_sentinel : outcome unit :=
  assert_eq (inst_to_raw inst_NONE) 0.
Definition instrument_id_ordering : outcome unit :=
  let a := inst_from_raw 1 in let b := inst_from_raw 2 in _ ← assert_ (inst_to_raw a <? inst_to_raw b); assert_eq a a.
Definition instrument_id_display_and_debug : outcome unit :=
  let id := inst_from_raw 99 in _ ← assert_eq (display id) (txt "99"); assert_eq (debug id) (txt "InstrumentId(99)").
End instrument_id_tests.

(** ** source_id.rs *)

Section source_id_tests.
Context `{BuildProfile}.

Definition source_id_size : outcome unit :=
  assert_eq (Z.of_nat (l_size (c_layout c_source_id))) 2.
Definition source_id_construction : outcome unit :=
  let id := source_from_raw 7 in assert_eq (source_to_raw id) 7.
Definition equality : outcome unit :=
  let a := source_from_raw 1 in let b := source_from_raw 1 in let c := source_from_raw 2 in _ ← assert_eq a b;
  assert_ne a c.
Definition source_id_display_and_debug : outcome unit :=
  let id := source_from_raw 5 in _ ← assert_eq (display id) (txt "5"); assert_eq (debug id) (txt "SourceId(5)").
End source_id_tests.

(** ** order_id.rs *)

Section order_id_tests.
Context `{BuildProfile}.

Definition order_id_construction : outcome unit :=
  let id := order_from_raw 42 in assert_eq (order_to_raw id) 42.
Definition order_id_ordering : outcome unit :=
  let a := order_from_raw 1 in let b := order_from_raw 2 in _ ← assert_ (order_to_raw a <? order_to_raw b);
  assert_eq a a.
Definition order_id_display_and_debug : outcome unit :=
  let id := order_from_raw 99 in _ ← assert_eq (display id) (txt "99"); assert_eq (debug id) (txt "OrderId(99)").
End order_id_tests.

(** ** timestamp.rs *)

Section timestamp_tests.
Context `{BuildProfile}.

Definition timestamp_construction : outcome unit :=
  let ts := from_nanos 1000000000 in assert_eq (as_nanos ts) 1000000000.
Definition timestamp_zero : outcome unit :=
  assert_eq (as_nanos timestamp_ZERO) 0.
Definition timestamp_ordering : outcome unit :=
  let a := from_nanos 100 in let b := from_nanos 200 in _ ← assert_ (as_nanos a <? as_nanos b); assert_eq a a.
Definition timestamp_display_and_debug : outcome unit :=
  let ts := from_nanos 42 in _ ← assert_eq (display ts) (txt "42ns"); assert_eq (debug ts) (txt "Timestamp(42ns)").
End timestamp_tests.

(** ** probability.rs *)

Section probability_tests.
Context `{BuildProfile}.

Definition valid_construction : outcome unit :=
  _ ← assert_ (is_some (prob_from_raw 0)); _ ← assert_ (is_some (prob_from_raw 500000));
  assert_ (is_some (prob_from_raw 1000000)).
Definition reject_negative : outcome unit :=
  _ ← assert_ (is_none (prob_from_raw (-1))); assert_ (is_none (prob_from_raw (-1000000))).
Definition reject_above_one : outcome unit :=
  _ ← assert_ (is_none (prob_from_raw 1000001)); assert_ (is_none (prob_from_raw 2000000)).
Definition complement_basic : outcome unit :=
  let p := prob_from_raw 300000 in match p with Some p => r ← prob_complement p;
  assert_eq (to_raw (prob_to_fixed r)) 700000 | _ => Ret tt end.
Definition complement_zero : outcome unit :=
  r ← prob_complement prob_ZERO; assert_eq r prob_ONE.
Definition complement_one : outcome unit :=
  r ← prob_complement prob_ONE; assert_eq r prob_ZERO.
Definition double_complement_identity : outcome unit :=
  let p := prob_from_raw 420000 in match p with Some p => r ← prob_complement p; r2 ← prob_complement r;
  assert_eq r2 p | _ => Ret tt end.
Definition probability_is_zero : outcome unit :=
  _ ← assert_ (prob_is_zero prob_ZERO); assert_ (negb (prob_is_zero prob_ONE)).
End probability_tests.

(** ** usdc.rs *)

Section usdc_tests.
Context `{BuildProfile}.

Definition usdc_zero : outcome unit :=
  assert_ (usdc_is_zero usdc_ZERO).
Definition usdc_add_sub : outcome unit :=
  let a := usdc_from_fixed (from_raw 1500000) in let b := usdc_from_fixed (from_raw 2500000) in r ← usdc_add a b;
  _ ← assert_eq (to_raw (usdc_to_fixed r)) 4000000; r2 ← usdc_sub b a; assert_eq (to_raw (usdc_to_fixed r2)) 1000000.
Definition test_usdc_neg : outcome unit :=
  let a := usdc_from_fixed (from_raw 1000000) in r ← usdc_neg a; assert_eq (to_raw (usdc_to_fixed r)) (-1000000).
Definition scalar_ops : outcome unit :=
  let a := usdc_from_fixed (from_raw 2000000) in
  _ ← assert_eq ((fun x => to_raw (usdc_to_fixed x)) <$> (usdc_checked_mul_int a 3)) (Some 6000000);
  r ← usdc_checked_div_int a 2; assert_eq ((fun x => to_raw (usdc_to_fixed x)) <$> r) (Some 1000000).
Definition test_usdc_checked_abs : outcome unit :=
  let neg := usdc_from_fixed (from_raw (-1500000)) in
  _ ← assert_eq ((fun x => to_raw (usdc_to_fixed x)) <$> (usdc_checked_abs neg)) (Some 1500000);
  let pos := usdc_from_fixed (from_raw 1500000) in
  assert_eq ((fun x => to_raw (usdc_to_fixed x)) <$> (usdc_checked_abs pos)) (Some 1500000).
Definition usdc_assign_ops : outcome unit :=
  let a := usdc_from_fixed (from_raw 1000000) in a ← usdc_add a (usdc_from_fixed (from_raw 500000));
  _ ← assert_eq (to_raw (usdc_to_fixed a)) 1500000; a ← usdc_sub a (usdc_from_fixed (from_raw 250000));
  assert_eq (to_raw (usdc_to_fixed a)) 1250000.
Definition from_fixed_roundtrip : outcome unit :=
  let f := from_raw (D := 6) 42000000 in let u := usdc_from_fixed f in assert_eq (usdc_to_fixed u) f.
Definition checked_add_no_overflow : outcome unit :=
  let a := usdc_from_fixed (from_raw 1000000) in let b := usdc_from_fixed (from_raw 2000000) in
  assert_eq ((fun x => to_raw (usdc_to_fixed x)) <$> (usdc_checked_add a b)) (Some 3000000).
Definition checked_sub_no_underflow : outcome unit :=
  let a := usdc_from_fixed (from_raw 3000000) in let b := usdc_from_fixed (from_raw 1000000) in
  assert_eq ((fun x => to_raw (usdc_to_fixed x)) <$> (usdc_checked_sub a b)) (Some 2000000).
Definition checked_neg_normal_value : outcome unit :=
  let a := usdc_from_fixed (from_raw 500000) in
  assert_eq ((fun x => to_raw (usdc_to_fixed x)) <$> (usdc_checked_neg a)) (Some (-500000)).
Definition checked_neg_min_value_returns_none : outcome unit :=
  let min := usdc_from_fixed (from_raw (tmin I64)) in assert_ (is_none (usdc_checked_neg min)).
Definition checked_mul_int_overflow_returns_none : outcome unit :=
  let large := usdc_from_fixed (from_raw ((Z.quot (tmax I64) 2) + 1)) in
  assert_ (is_none (usdc_checked_mul_int large 3)).
Definition checked_div_int_by_zero_returns_none : outcome unit :=
  let a := usdc_from_fixed (from_raw 1000000) in r ← usdc_checked_div_int a 0; assert_ (is_none r).
Definition display_formats_correctly : outcome unit :=
  let a := usdc_from_fixed (from_raw 1500000) in assert_eq (display a) (txt "1.500000").
Definition debug_formats_correctly : outcome unit :=
  let a := usdc_from_fixed (from_raw 2000000) in let s := debug a in _ ← assert_ (contains s (txt "UsdcAmount"));
  assert_ (contains s (txt "2.000000")).
End usdc_tests.

(** ** btc_qty.rs *)

Section btc_qty_tests.
Context `{BuildProfile}.

Definition btc_qty_zero : outcome unit :=
  assert_ (btc_is_zero btc_ZERO).
Definition btc_qty_add_sub : outcome unit :=
  let a := btc_from_fixed (from_raw 150000000) in let b := btc_from_fixed (from_raw 250000000) in r ← btc_add a b;
  _ ← assert_eq (to_raw (btc_to_fixed r)) 400000000; r2 ← btc_sub b a; assert_eq (to_raw (btc_to_fixed r2)) 100000000.
Definition btc_qty_neg : outcome unit :=
  let a := btc_from_fixed (from_raw 100000000) in r ← btc_neg a; assert_eq (to_raw (btc_to_fixed r)) (-100000000).
Definition btc_qty_scalar_ops : outcome unit :=
  let a := btc_from_fixed (from_raw 200000000) in
  _ ← assert_eq ((fun x => to_raw (btc_to_fixed x)) <$> (btc_checked_mul_int a 3)) (Some 600000000);
  r ← btc_checked_div_int a 2; assert_eq ((fun x => to_raw (btc_to_fixed x)) <$> r) (Some 100000000).
Definition btc_qty_checked_abs : outcome unit :=
  let neg := btc_from_fixed (from_raw (-150000000)) in
  assert_eq ((fun x => to_raw (btc_to_fixed x)) <$> (btc_checked_abs neg)) (Some 150000000).
Definition btc_qty_assign_ops : outcome unit :=
  let a := btc_from_fixed (from_raw 100000000) in a ← btc_add a (btc_from_fixed (from_raw 50000000));
  _ ← assert_eq (to_raw (btc_to_fixed a)) 150000000; a ← btc_sub a (btc_from_fixed (from_raw 25000000));
  assert_eq (to_raw (btc_to_fixed a)) 125000000.
Definition btc_qty_from_fixed_roundtrip : outcome unit :=
  let f := from_raw (D := 8) 4200000000 in let b := btc_from_fixed f in assert_eq (btc_to_fixed b) f.
Definition btc_qty_checked_add_no_overflow : outcome unit :=
  let a := btc_from_fixed (from_raw 100000000) in let b := btc_from_fixed (from_raw 200000000) in
  assert_eq ((fun x => to_raw (btc_to_fixed x)) <$> (btc_checked_add a b)) (Some 300000000).
Definition btc_qty_checked_sub_no_underflow : outcome unit :=
  let a := btc_from_fixed (from_raw 300000000) in let b := btc_from_fixed (from_raw 100000000) in
  assert_eq ((fun x => to_raw (btc_to_fixed x)) <$> (btc_checked_sub a b)) (Some 200000000).
Definition btc_qty_checked_neg_normal_value : outcome unit :=
  let a := btc_from_fixed (from_raw 50000000) in
  assert_eq ((fun x => to_raw (btc_to_fixed x)) <$> (btc_checked_neg a)) (Some (-50000000)).
Definition btc_qty_checked_neg_min_value_returns_none : outcome unit :=
  let min := btc_from_fixed (from_raw (tmin I64)) in assert_ (is_none (btc_checked_neg min)).
Definition btc_qty_checked_mul_int_overflow_returns_none : outcome unit :=
  let large := btc_from_fixed (from_raw ((Z.quot (tmax I64) 2) + 1)) in
  assert_ (is_none (btc_checked_mul_int large 3)).
Definition btc_qty_checked_div_int_by_zero_returns_none : outcome unit :=
  let a := btc_from_fixed (from_raw 100000000) in r ← btc_checked_div_int a 0; assert_ (is_none r).
Definition checked_abs_positive_value : outcome unit :=
  let pos := btc_from_fixed (from_raw 100000000) in
  assert_eq ((fun x => to_raw (btc_to_fixed x)) <$> (btc_checked_abs pos)) (Some 100000000).
Definition btc_qty_display_formats_correctly : outcome unit :=
  let a := btc_from_fixed (from_raw 150000000) in assert_eq (display a) (txt "1.50000000").
Definition btc_qty_debug_formats_correctly : outcome unit :=
  let a := btc_from_fixed (from_raw 100000000) in let s := debug a in _ ← assert_ (contains s (txt "BtcQty"));
  assert_ (contains s (txt "1.00000000")).
End btc_qty_tests.

(** ** instrument.rs *)

Section instrument_tests.
Context `{BuildProfile}.

Definition reject_zero_tick_size : outcome unit :=
  let result := meta_new (D := 6) fixed_ZERO (from_raw 1000) in assert_eq result (Err InvalidTickSize).
Definition reject_negative_tick_size : outcome unit :=
  let result := meta_new (D := 6) (from_raw (-1)) (from_raw 1000) in assert_eq result (Err InvalidTickSize).
Definition reject_zero_lot_size : outcome unit :=
  let result := meta_new (D := 6) (from_raw 1000) fixed_ZERO in assert_eq result (Err InvalidLotSize).
Definition reject_negative_lot_size : outcome unit :=
  let result := meta_new (D := 6) (from_raw 1000) (from_raw (-1)) in assert_eq result (Err InvalidLotSize).
Definition price_to_ticks_basic : outcome unit :=
  match meta_new (D := 6) (from_raw 10000) (from_raw 1000) with Ok meta => ticks ← price_to_ticks meta (from_raw
    1500000); assert_eq (ticks_to_raw <$> ticks) (Some 150) | _ => Ret tt end.
Definition ticks_to_price_basic : outcome unit :=
  match meta_new (D := 6) (from_raw 10000) (from_raw 1000) with Ok meta => let price := ticks_to_price meta
    (ticks_from_raw 150) in assert_eq (to_raw <$> price) (Some 1500000) | _ => Ret tt end.
Definition price_roundtrip : outcome unit :=
  match meta_new (D := 6) (from_raw 10000) (from_raw 1000) with Ok meta => let original := from_raw (D := 6) 1500000
    in ticks ← price_to_ticks meta original;
  match ticks with Some ticks => let recovered := ticks_to_price meta ticks in
  assert_eq (to_raw <$> recovered) (Some (to_raw original)) | _ => Ret tt end | _ => Ret tt end.
Definition qty_to_lots_basic : outcome unit :=
  match meta_new (D := 6) (from_raw 10000) (from_raw 1000) with Ok meta => lots ← qty_to_lots meta (from_raw 2500000);
  assert_eq (lots_to_raw <$> lots) (Some 2500) | _ => Ret tt end.
Definition lots_roundtrip : outcome unit :=
  match meta_new (D := 6) (from_raw 10000) (from_raw 1000) with Ok meta => let original := from_raw (D := 6) 2500000
    in lots ← qty_to_lots meta original; match lots with Some lots => let recovered := lots_to_qty meta lots in
  assert_eq (to_raw <$> recovered) (Some (to_raw original)) | _ => Ret tt end | _ => Ret tt end.
End instrument_tests.

(** * They pass *)

(** Every test of lib.rs above passes. *)
Lemma types_lib_tests_pass (profile : BuildProfile) : Forall (fun result => result = Ret tt)
  [types_lib_queue_error_display; seq_num_construction; seq_num_ordering; seq_num_display_and_debug;
   slot_index_equality; power_of_two_valid; push_error_preserves_value; types_lib_push_error_display].
Proof. destruct profile; repeat constructor; vm_compute; reflexivity. Qed.

(** Every test of ticks.rs above passes. *)
Lemma ticks_tests_pass (profile : BuildProfile) : Forall (fun result => result = Ret tt)
  [construction_and_roundtrip; zero; add_sub; neg; assign_ops; scalar_mul_div; ordering; display_and_debug].
Proof. destruct profile; repeat constructor; vm_compute; reflexivity. Qed.

(** Every test of lots.rs above passes. *)
Lemma lots_tests_pass (profile : BuildProfile) : Forall (fun result => result = Ret tt)
  [lots_construction_and_roundtrip; lots_zero; lots_add_sub; test_lots_neg; lots_assign_ops; lots_scalar_mul_div;
   lots_ordering; lots_display_and_debug].
Proof. destruct profile; repeat constructor; vm_compute; reflexivity. Qed.

(** Every test of signed_lots.rs above passes. *)
Lemma signed_lots_tests_pass (profile : BuildProfile) : Forall (fun result => result = Ret tt)
  [signed_lots_construction_and_roundtrip; signed_lots_zero; signed_lots_add_sub; signed_lots_neg;
   signed_lots_assign_ops; signum; abs; from_lots; signed_lots_ordering; signed_lots_display_and_debug;
   default_is_zero].
Proof. destruct profile; repeat constructor; vm_compute; reflexivity. Qed.

(** Every test of side.rs above passes. *)
Lemma side_tests_pass (profile : BuildProfile) : Forall (fun result => result = Ret tt)
  [opposite_bid_is_ask; opposite_ask_is_bid; double_opposite_identity; repr_values; side_display_and_debug].
Proof. destruct profile; repeat constructor; vm_compute; reflexivity. Qed.

(** Every test of instrument_id.rs above passes. *)
Lemma instrument_id_tests_pass (profile : BuildProfile) : Forall (fun result => result = Ret tt)
  [size; construction; none_sentinel; instrument_id_ordering; instrument_id_display_and_debug].
Proof. destruct profile; repeat constructor; vm_compute; reflexivity. Qed.

(** Every test of source_id.rs above passes. *)
Lemma source_id_tests_pass (profile : BuildProfile) : Forall (fun result => result = Ret tt)
  [source_id_size; source_id_construction; equality; source_id_display_and_debug].
Proof. destruct profile; repeat constructor; vm_compute; reflexivity. Qed.

(** Every test of order_id.rs above passes. *)
Lemma order_id_tests_pass (profile : BuildProfile) : Forall (fun result => result = Ret tt)
  [order_id_construction; order_id_ordering; order_id_display_and_debug].
Proof. destruct profile; repeat constructor; vm_compute; reflexivity. Qed.

(** Every test of timestamp.rs above passes. *)
Lemma timestamp_tests_pass (profile : BuildProfile) : Forall (fun result => result = Ret tt)
  [timestamp_construction; timestamp_zero; timestamp_ordering; timestamp_display_and_debug].
Proof. destruct profile; repeat constructor; vm_compute; reflexivity. Qed.

(** Every test of probability.rs above passes. *)
Lemma probability_tests_pass (profile : BuildProfile) : Forall (fun result => result = Ret tt)
  [valid_construction; reject_negative; reject_above_one; complement_basic; complement_zero; complement_one;
   double_complement_identity; probability_is_zero].
Proof. destruct profile; repeat constructor; vm_compute; reflexivity. Qed.

(** Every test of usdc.rs above passes. *)
Lemma usdc_tests_pass (profile : BuildProfile) : Forall (fun result => result = Ret tt)
  [usdc_zero; usdc_add_sub; test_usdc_neg; scalar_ops; test_usdc_checked_abs; usdc_assign_ops; from_fixed_roundtrip;
   checked_add_no_overflow; checked_sub_no_underflow; checked_neg_normal_value; checked_neg_min_value_returns_none;
   checked_mul_int_overflow_returns_none; checked_div_int_by_zero_returns_none; display_formats_correctly;
   debug_formats_correctly].
Proof. destruct profile; repeat constructor; vm_compute; reflexivity. Qed.

(** Every test of btc_qty.rs above passes. *)
Lemma btc_qty_tests_pass (profile : BuildProfile) : Forall (fun result => result = Ret tt)
  [btc_qty_zero; btc_qty_add_sub; btc_qty_neg; btc_qty_scalar_ops; btc_qty_checked_abs; btc_qty_assign_ops;
   btc_qty_from_fixed_roundtrip; btc_qty_checked_add_no_overflow; btc_qty_checked_sub_no_underflow;
   btc_qty_checked_neg_normal_value; btc_qty_checked_neg_min_value_returns_none;
   btc_qty_checked_mul_int_overflow_returns_none; btc_qty_checked_div_int_by_zero_returns_none;
   checked_abs_positive_value; btc_qty_display_formats_correctly; btc_qty_debug_formats_correctly].
Proof. destruct profile; repeat constructor; vm_compute; reflexivity. Qed.

(** Every test of instrument.rs above passes. *)
Lemma instrument_tests_pass (profile : BuildProfile) : Forall (fun result => result = Ret tt)
  [reject_zero_tick_size; reject_negative_tick_size; reject_zero_lot_size; reject_negative_lot_size;
   price_to_ticks_basic; ticks_to_price_basic; price_roundtrip; qty_to_lots_basic; lots_roundtrip].
Proof. destruct profile; repeat constructor; vm_compute; reflexivity. Qed.
