(* ===== verification/SuiteEvents.v ===== *)
(** * The unit tests of the events ([crates/events])

    The tests beside the code, statement by statement, on the definitions of
    [Events], [Texts] and [Layout], and that they pass in either build profile. *)

From Stdlib Require Import ZArith.
From stdpp Require Import base decidable numbers option tactics strings list.
From S2P Require Import Prelude Testing Fixed FixedText Types Events Texts Layout.

#[local] Open Scope Z_scope.

#[local] Instance status_eq_dec : EqDecision OrderStatus.
Proof. solve_decision. Defined.
#[local] Instance reason_eq_dec : EqDecision RejectReason.
Proof. solve_decision. Defined.
#[local] Instance timer_kind_eq_dec : EqDecision TimerKind.
Proof. solve_decision. Defined.

(** ** flags.rs *)

Section ev_flags_tests.
Context `{BuildProfile}.

Definition empty_by_default : outcome unit :=
  _ ← assert_ (flags_is_empty flags_EMPTY); assert_eq (flags_to_raw flags_EMPTY) 0.
Definition set_single_flag : outcome unit :=
  let f := IS_SNAPSHOT in _ ← assert_ (flags_contains f IS_SNAPSHOT);
  _ ← assert_ (negb (flags_contains f LAST_IN_BATCH)); assert_ (negb (flags_is_empty f)).
Definition combine_flags : outcome unit :=
  let f := flags_with IS_SNAPSHOT LAST_IN_BATCH in _ ← assert_ (flags_contains f IS_SNAPSHOT);
  assert_ (flags_contains f LAST_IN_BATCH).
Definition bitor_operator : outcome unit :=
  let f := flags_bitor IS_SNAPSHOT LAST_IN_BATCH in _ ← assert_ (flags_contains f IS_SNAPSHOT);
  assert_ (flags_contains f LAST_IN_BATCH).
Definition bitor_assign : outcome unit :=
  let f := IS_SNAPSHOT in let f := flags_bitor f LAST_IN_BATCH in _ ← assert_ (flags_contains f IS_SNAPSHOT);
  assert_ (flags_contains f LAST_IN_BATCH).
Definition from_raw_roundtrip : outcome unit :=
  let raw := 3 in assert_eq (flags_to_raw (flags_from_raw raw)) raw.
Definition size_is_2 : outcome unit :=
  assert_eq (Z.of_nat (l_size (c_layout c_flags))) 2.
Definition is_snapshot_raw_bit_is_1 : outcome unit :=
  assert_eq (flags_to_raw IS_SNAPSHOT) (wrap U16 (Z.shiftl 1 0)).
Definition last_in_batch_raw_bit_is_2 : outcome unit :=
  assert_eq (flags_to_raw LAST_IN_BATCH) (wrap U16 (Z.shiftl 1 1)).
Definition is_snapshot_does_not_contain_last_in_batch : outcome unit :=
  assert_ (negb (flags_contains IS_SNAPSHOT LAST_IN_BATCH)).
Definition last_in_batch_does_not_contain_is_snapshot : outcome unit :=
  assert_ (negb (flags_contains LAST_IN_BATCH IS_SNAPSHOT)).
Definition empty_does_not_contain_is_snapshot : outcome unit :=
  assert_ (negb (flags_contains flags_EMPTY IS_SNAPSHOT)).
Definition empty_does_not_contain_last_in_batch : outcome unit :=
  assert_ (negb (flags_contains flags_EMPTY LAST_IN_BATCH)).
Definition snapshot_flag_is_not_empty : outcome unit :=
  assert_ (negb (flags_is_empty IS_SNAPSHOT)).
Definition last_in_batch_flag_is_not_empty : outcome unit :=
  assert_ (negb (flags_is_empty LAST_IN_BATCH)).
Definition with_combines_without_mutation : outcome unit :=
  let base := IS_SNAPSHOT in let combined := flags_with base LAST_IN_BATCH in
  _ ← assert_ (negb (flags_contains base LAST_IN_BATCH)); _ ← assert_ (flags_contains combined IS_SNAPSHOT);
  _ ← assert_ (flags_contains combined LAST_IN_BATCH); assert_eq (flags_to_raw combined) 3.
Definition contains_self_is_true : outcome unit :=
  _ ← assert_ (flags_contains IS_SNAPSHOT IS_SNAPSHOT); _ ← assert_ (flags_contains LAST_IN_BATCH LAST_IN_BATCH);
  assert_ (flags_contains flags_EMPTY flags_EMPTY).
Definition bitor_assign_does_not_clear_existing : outcome unit :=
  let f := flags_bitor IS_SNAPSHOT LAST_IN_BATCH in let f := flags_bitor f flags_EMPTY in
  _ ← assert_ (flags_contains f IS_SNAPSHOT); assert_ (flags_contains f LAST_IN_BATCH).
End ev_flags_tests.

(** ** header.rs *)

Section ev_header_tests.
Context `{BuildProfile}.

Definition size_is_24 : outcome unit :=
  assert_eq (Z.of_nat (l_size (c_layout c_header))) 24.
Definition alignment_is_8 : outcome unit :=
  assert_eq (Z.of_nat (l_align (c_layout c_header))) 8.
Definition ev_header_construction : outcome unit :=
  let h := {| recv_ts := from_nanos 1000000; hdr_seq := seqnum_from_raw 1; hdr_instrument_id := inst_from_raw 42;
  hdr_source_id := source_from_raw 7; hdr_flags := flags_EMPTY |} in _ ← assert_eq (recv_ts h) (from_nanos 1000000);
  _ ← assert_eq (hdr_seq h) (seqnum_from_raw 1); _ ← assert_eq (hdr_instrument_id h) (inst_from_raw 42);
  _ ← assert_eq (hdr_source_id h) (source_from_raw 7); assert_ (flags_is_empty (hdr_flags h)).
Definition flags_roundtrip : outcome unit :=
  let h := {| recv_ts := from_nanos 0; hdr_seq := seqnum_from_raw 0; hdr_instrument_id := inst_from_raw 0;
  hdr_source_id := source_from_raw 0; hdr_flags := flags_bitor IS_SNAPSHOT LAST_IN_BATCH |} in
  _ ← assert_ (flags_contains (hdr_flags h) IS_SNAPSHOT); assert_ (flags_contains (hdr_flags h) LAST_IN_BATCH).
Definition recv_ts_at_offset_zero : outcome unit :=
  assert_eq (offset_of [c_layout c_timestamp; c_layout c_seq_num; c_layout c_instrument_id; c_layout c_source_id;
  c_layout c_flags] 0) 0.
End ev_header_tests.

(** ** market.rs *)

Section ev_market_tests.
Context `{BuildProfile}.

Definition update_action_repr_values : outcome unit :=
  _ ← assert_eq (action_raw ActNew) 0; _ ← assert_eq (action_raw ActChange) 1; assert_eq (action_raw ActDelete) 2.
Definition update_action_size_is_1 : outcome unit :=
  assert_eq (Z.of_nat (l_size (c_layout c_action))) 1.
Definition book_delta_payload_size_is_24 : outcome unit :=
  assert_eq (Z.of_nat (l_size (c_layout c_book_delta))) 24.
Definition trade_payload_size_is_24 : outcome unit :=
  assert_eq (Z.of_nat (l_size (c_layout c_trade))) 24.
Definition top_of_book_payload_size_is_32 : outcome unit :=
  assert_eq (Z.of_nat (l_size (c_layout c_top_of_book))) 32.
Definition book_delta_roundtrip : outcome unit :=
  let p := {| bd_price := ticks_from_raw 100; bd_qty := lots_from_raw 10; bd_side := Bid; bd_action := ActNew;
  bd_depth := 0 |} in _ ← assert_eq (bd_price p) (ticks_from_raw 100); _ ← assert_eq (bd_qty p) (lots_from_raw 10);
  _ ← assert_eq (bd_side p) Bid; _ ← assert_eq (bd_action p) ActNew; assert_eq (bd_depth p) 0.
Definition trade_roundtrip : outcome unit :=
  let p := {| tr_price := ticks_from_raw 200; tr_qty := lots_from_raw 5; tr_aggressor := Ask |} in
  _ ← assert_eq (tr_price p) (ticks_from_raw 200); _ ← assert_eq (tr_qty p) (lots_from_raw 5);
  assert_eq (tr_aggressor p) Ask.
Definition top_of_book_roundtrip : outcome unit :=
  let p := {| tp_bid_price := ticks_from_raw 99; tp_bid_qty := lots_from_raw 50; tp_ask_price := ticks_from_raw 101;
  tp_ask_qty := lots_from_raw 30 |} in _ ← assert_eq (tp_bid_price p) (ticks_from_raw 99);
  _ ← assert_eq (tp_bid_qty p) (lots_from_raw 50); _ ← assert_eq (tp_ask_price p) (ticks_from_raw 101);
  assert_eq (tp_ask_qty p) (lots_from_raw 30).
Definition book_delta_ask_side : outcome unit :=
  let p := {| bd_price := ticks_from_raw 200; bd_qty := lots_from_raw 50; bd_side := Ask; bd_action := ActChange;
  bd_depth := 1 |} in _ ← assert_eq (bd_price p) (ticks_from_raw 200); _ ← assert_eq (bd_qty p) (lots_from_raw 50);
  _ ← assert_eq (bd_side p) Ask; _ ← assert_eq (bd_action p) ActChange; assert_eq (bd_depth p) 1.
Definition book_delta_delete_action : outcome unit :=
  let p := {| bd_price := ticks_from_raw 100; bd_qty := lots_ZERO; bd_side := Bid; bd_action := ActDelete;
  bd_depth := 0 |} in _ ← assert_eq (bd_action p) ActDelete; assert_eq (bd_qty p) lots_ZERO.
Definition trade_bid_aggressor : outcome unit :=
  let p := {| tr_price := ticks_from_raw 150; tr_qty := lots_from_raw 10; tr_aggressor := Bid |} in
  _ ← assert_eq (tr_aggressor p) Bid; _ ← assert_eq (tr_price p) (ticks_from_raw 150);
  assert_eq (tr_qty p) (lots_from_raw 10).
Definition update_action_change_distinct_from_new_and_delete : outcome unit :=
  _ ← assert_ne (action_raw ActChange) (action_raw ActNew); assert_ne (action_raw ActChange) (action_raw ActDelete).
End ev_market_tests.

(** ** execution.rs *)

Section ev_execution_tests.
Context `{BuildProfile}.

Definition order_status_repr_values : outcome unit :=
  _ ← assert_eq (status_raw StAccepted) 0; _ ← assert_eq (status_raw StCancelled) 1;
  assert_eq (status_raw StExpired) 2.
Definition order_status_size_is_1 : outcome unit :=
  assert_eq (Z.of_nat (l_size (c_layout c_status))) 1.
Definition reject_reason_repr_values : outcome unit :=
  _ ← assert_eq (reason_raw InsufficientFunds) 0; _ ← assert_eq (reason_raw InvalidPrice) 1;
  _ ← assert_eq (reason_raw InvalidQty) 2; _ ← assert_eq (reason_raw DuplicateOrderId) 3;
  _ ← assert_eq (reason_raw RiskLimitBreached) 4; _ ← assert_eq (reason_raw VenueError) 5;
  assert_eq (reason_raw UnknownReason) 255.
Definition reject_reason_size_is_1 : outcome unit :=
  assert_eq (Z.of_nat (l_size (c_layout c_reason))) 1.
Definition order_ack_payload_size_is_24 : outcome unit :=
  assert_eq (Z.of_nat (l_size (c_layout c_order_ack))) 24.
Definition fill_payload_size_is_32 : outcome unit :=
  assert_eq (Z.of_nat (l_size (c_layout c_fill))) 32.
Definition order_reject_payload_size_is_24 : outcome unit :=
  assert_eq (Z.of_nat (l_size (c_layout c_order_reject))) 24.
Definition order_ack_roundtrip : outcome unit :=
  let p := {| ack_order_id := order_from_raw 42; ack_client_order_id := 99; ack_status := StAccepted |} in
  _ ← assert_eq (ack_order_id p) (order_from_raw 42); _ ← assert_eq (ack_client_order_id p) 99;
  assert_eq (ack_status p) StAccepted.
Definition fill_roundtrip : outcome unit :=
  let p := {| fill_order_id := order_from_raw 7; fill_price := ticks_from_raw 500; fill_qty := lots_from_raw 3;
  fill_side := Bid; fill_is_maker := 1 |} in _ ← assert_eq (fill_order_id p) (order_from_raw 7);
  _ ← assert_eq (fill_price p) (ticks_from_raw 500); _ ← assert_eq (fill_qty p) (lots_from_raw 3);
  _ ← assert_eq (fill_side p) Bid; assert_eq (fill_is_maker p) 1.
Definition order_reject_roundtrip : outcome unit :=
  let p := {| rej_order_id := order_from_raw 0; rej_client_order_id := 55; rej_reason := InvalidPrice |} in
  _ ← assert_eq (rej_client_order_id p) 55; assert_eq (rej_reason p) InvalidPrice.
Definition order_status_debug_all_variants : outcome unit :=
  _ ← assert_eq (debug StAccepted) (txt "OrderStatus::Accepted");
  _ ← assert_eq (debug StCancelled) (txt "OrderStatus::Cancelled");
  assert_eq (debug StExpired) (txt "OrderStatus::Expired").
Definition reject_reason_debug_all_variants : outcome unit :=
  let cases := [(InsufficientFunds, txt "RejectReason::InsufficientFunds");
  (InvalidPrice, txt "RejectReason::InvalidPrice"); (InvalidQty, txt "RejectReason::InvalidQty");
  (DuplicateOrderId, txt "RejectReason::DuplicateOrderId");
  (RiskLimitBreached, txt "RejectReason::RiskLimitBreached"); (VenueError, txt "RejectReason::VenueError");
  (UnknownReason, txt "RejectReason::Unknown")] in
  for_each (fun _ '(variant, expected) => assert_eq (debug variant) expected) tt cases.
Definition order_ack_payload_all_status_variants : outcome unit :=
  for_each (fun _ status => let p := {| ack_order_id := order_from_raw 1; ack_client_order_id := 1;
  ack_status := status |} in assert_eq (ack_status p) status) tt [StAccepted; StCancelled; StExpired].
Definition fill_payload_ask_side : outcome unit :=
  let p := {| fill_order_id := order_from_raw 10; fill_price := ticks_from_raw 1000; fill_qty := lots_from_raw 5;
  fill_side := Ask; fill_is_maker := 0 |} in _ ← assert_eq (fill_side p) Ask; assert_eq (fill_is_maker p) 0.
Definition order_reject_payload_all_reasons : outcome unit :=
  let reasons := [InsufficientFunds; InvalidPrice; InvalidQty; DuplicateOrderId; RiskLimitBreached; VenueError;
  UnknownReason] in for_each (fun _ reason => let p := {| rej_order_id := order_from_raw 0; rej_client_order_id := 1;
  rej_reason := reason |} in assert_eq (rej_reason p) reason) tt reasons.
End ev_execution_tests.

(** ** control.rs *)

Section ev_control_tests.
Context `{BuildProfile}.

Definition timer_kind_repr_values : outcome unit :=
  _ ← assert_eq (timer_kind_raw StaleFeed) 0; _ ← assert_eq (timer_kind_raw Periodic) 1;
  assert_eq (timer_kind_raw Deadline) 2.
Definition timer_kind_size_is_1 : outcome unit :=
  assert_eq (Z.of_nat (l_size (c_layout c_timer_kind))) 1.
Definition timer_payload_size_is_8 : outcome unit :=
  assert_eq (Z.of_nat (l_size (c_layout c_timer))) 8.
Definition heartbeat_payload_size_is_4 : outcome unit :=
  assert_eq (Z.of_nat (l_size (c_layout c_heartbeat))) 4.
Definition timer_roundtrip : outcome unit :=
  let p := {| timer_id := 3; timer_kind := Periodic |} in _ ← assert_eq (timer_id p) 3;
  assert_eq (timer_kind p) Periodic.
Definition heartbeat_roundtrip : outcome unit :=
  let p := {| hb_counter := 42 |} in assert_eq (hb_counter p) 42.
Definition timer_kind_stale_feed_repr : outcome unit :=
  assert_eq (timer_kind_raw StaleFeed) 0.
Definition timer_kind_periodic_repr : outcome unit :=
  assert_eq (timer_kind_raw Periodic) 1.
Definition timer_kind_deadline_repr : outcome unit :=
  assert_eq (timer_kind_raw Deadline) 2.
Definition timer_kind_variants_are_distinct : outcome unit :=
  _ ← assert_ne (timer_kind_raw StaleFeed) (timer_kind_raw Periodic);
  _ ← assert_ne (timer_kind_raw Periodic) (timer_kind_raw Deadline);
  assert_ne (timer_kind_raw StaleFeed) (timer_kind_raw Deadline).
Definition timer_payload_stale_feed_roundtrip : outcome unit :=
  let p := {| timer_id := 0; timer_kind := StaleFeed |} in _ ← assert_eq (timer_id p) 0;
  assert_eq (timer_kind p) StaleFeed.
Definition timer_payload_deadline_roundtrip : outcome unit :=
  let p := {| timer_id := tmax U32; timer_kind := Deadline |} in _ ← assert_eq (timer_id p) (tmax U32);
  assert_eq (timer_kind p) Deadline.
Definition heartbeat_counter_zero : outcome unit :=
  let p := {| hb_counter := 0 |} in assert_eq (hb_counter p) 0.
Definition heartbeat_counter_max : outcome unit :=
  let p := {| hb_counter := tmax U32 |} in assert_eq (hb_counter p) (tmax U32).
Definition timer_id_is_independent_of_kind : outcome unit :=
  let p1 := {| timer_id := 1; timer_kind := Periodic |} in let p2 := {| timer_id := 2; timer_kind := Periodic |} in
  _ ← assert_ne (timer_id p1) (timer_id p2); assert_eq (timer_kind p1) (timer_kind p2).
End ev_control_tests.

(** ** body.rs *)

Section ev_body_tests.
Context `{BuildProfile}.

Definition event_kind_repr_values : outcome unit :=
  _ ← assert_eq (kind_raw KBookDelta) 0; _ ← assert_eq (kind_raw KTrade) 1; _ ← assert_eq (kind_raw KTopOfBook) 2;
  _ ← assert_eq (kind_raw KOrderAck) 3; _ ← assert_eq (kind_raw KFill) 4; _ ← assert_eq (kind_raw KOrderReject) 5;
  _ ← assert_eq (kind_raw KTimer) 6; assert_eq (kind_raw KHeartbeat) 7.
Definition event_kind_size_is_2 : outcome unit :=
  assert_eq (Z.of_nat (l_size (c_layout c_kind))) 2.
Definition body_kind_book_delta : outcome unit :=
  let body := BookDelta ({| bd_price := ticks_from_raw 100; bd_qty := lots_from_raw 10; bd_side := Bid;
  bd_action := ActNew; bd_depth := 0 |}) in assert_eq (body_kind body) KBookDelta.
Definition body_kind_trade : outcome unit :=
  let body := Trade ({| tr_price := ticks_from_raw 200; tr_qty := lots_from_raw 5; tr_aggressor := Ask |}) in
  assert_eq (body_kind body) KTrade.
Definition body_kind_top_of_book : outcome unit :=
  let body := TopOfBookEv ({| tp_bid_price := ticks_from_raw 99; tp_bid_qty := lots_from_raw 50;
  tp_ask_price := ticks_from_raw 101; tp_ask_qty := lots_from_raw 30 |}) in assert_eq (body_kind body) KTopOfBook.
Definition body_kind_order_ack : outcome unit :=
  let body := OrderAck ({| ack_order_id := order_from_raw 1; ack_client_order_id := 2; ack_status := StAccepted |}) in
  assert_eq (body_kind body) KOrderAck.
Definition body_kind_fill : outcome unit :=
  let body := Fill ({| fill_order_id := order_from_raw 7; fill_price := ticks_from_raw 500;
  fill_qty := lots_from_raw 3; fill_side := Bid; fill_is_maker := 1 |}) in assert_eq (body_kind body) KFill.
Definition body_kind_order_reject : outcome unit :=
  let body := OrderReject ({| rej_order_id := order_from_raw 0; rej_client_order_id := 55;
  rej_reason := InvalidPrice |}) in assert_eq (body_kind body) KOrderReject.
Definition body_kind_timer : outcome unit :=
  let body := TimerEv ({| timer_id := 3; timer_kind := Periodic |}) in assert_eq (body_kind body) KTimer.
Definition body_kind_heartbeat : outcome unit :=
  let body := Heartbeat ({| hb_counter := 42 |}) in assert_eq (body_kind body) KHeartbeat.
Definition event_kind_repr_are_distinct : outcome unit :=
  let kinds := [kind_raw KBookDelta; kind_raw KTrade; kind_raw KTopOfBook; kind_raw KOrderAck; kind_raw KFill;
  kind_raw KOrderReject; kind_raw KTimer; kind_raw KHeartbeat] in for_each (fun _ i => r ← arith USIZE (i + 1);
  for_each (fun _ j => r2 ← index kinds (Z.to_nat i); r3 ← index kinds (Z.to_nat j);
  assert_ne r2 r3) tt (seqZ r (Z.of_nat (length kinds) - r))) tt (seqZ 0 (Z.of_nat (length kinds))).
Definition body_kind_matches_event_kind_repr : outcome unit :=
  let body := BookDelta ({| bd_price := ticks_from_raw 1; bd_qty := lots_from_raw 1; bd_side := Bid;
  bd_action := ActNew; bd_depth := 0 |}) in _ ← assert_eq (kind_raw (body_kind body)) (kind_raw KBookDelta);
  assert_ne (kind_raw (body_kind body)) (kind_raw KTrade).
Definition body_kind_trade_not_book_delta : outcome unit :=
  let body := Trade ({| tr_price := ticks_from_raw 1; tr_qty := lots_from_raw 1; tr_aggressor := Ask |}) in
  _ ← assert_eq (body_kind body) KTrade; assert_ne (kind_raw (body_kind body)) (kind_raw KBookDelta).
Definition body_kind_timer_not_heartbeat : outcome unit :=
  let timer_body := TimerEv ({| timer_id := 1; timer_kind := Periodic |}) in
  let hb_body := Heartbeat ({| hb_counter := 1 |}) in
  _ ← assert_ne (kind_raw (body_kind timer_body)) (kind_raw (body_kind hb_body));
  _ ← assert_eq (body_kind timer_body) KTimer; assert_eq (body_kind hb_body) KHeartbeat.
Definition body_kind_order_reject_not_order_ack : outcome unit :=
  let ack := OrderAck ({| ack_order_id := order_from_raw 1; ack_client_order_id := 1; ack_status := StAccepted |}) in
  let reject := OrderReject ({| rej_order_id := order_from_raw 1; rej_client_order_id := 1;
  rej_reason := InvalidPrice |}) in _ ← assert_ne (kind_raw (body_kind ack)) (kind_raw (body_kind reject));
  _ ← assert_eq (body_kind ack) KOrderAck; assert_eq (body_kind reject) KOrderReject.
Definition body_kind_fill_is_own_kind : outcome unit :=
  let body := Fill ({| fill_order_id := order_from_raw 7; fill_price := ticks_from_raw 500;
  fill_qty := lots_from_raw 3; fill_side := Bid; fill_is_maker := 1 |}) in _ ← assert_eq (body_kind body) KFill;
  assert_ne (kind_raw (body_kind body)) (kind_raw KTrade).
Definition top_of_book_kind_not_book_delta : outcome unit :=
  let body := TopOfBookEv ({| tp_bid_price := ticks_from_raw 99; tp_bid_qty := lots_from_raw 50;
  tp_ask_price := ticks_from_raw 101; tp_ask_qty := lots_from_raw 30 |}) in _ ← assert_eq (body_kind body) KTopOfBook;
  assert_ne (kind_raw (body_kind body)) (kind_raw KBookDelta).
End ev_body_tests.

(** ** event.rs *)

Section ev_event_tests.
Context `{BuildProfile}.

Definition hot_event_size_ceiling : outcome unit :=
  assert_ ((Z.of_nat (l_size (c_layout c_hot_event))) <=? 64).
Definition header_at_offset_zero : outcome unit :=
  assert_eq (offset_of [c_layout c_header; c_layout c_body] 0) 0.
Definition constructor_book_delta : outcome unit :=
  let ts := from_nanos 1000 in let seq := seqnum_from_raw 42 in let iid := inst_from_raw 7 in
  let sid := source_from_raw 3 in let flags := flags_EMPTY in let payload := {| bd_price := ticks_from_raw 100;
  bd_qty := lots_from_raw 10; bd_side := Bid; bd_action := ActNew; bd_depth := 0 |} in
  let event := ev_book_delta ts seq iid sid flags payload in _ ← assert_eq (event_kind event) KBookDelta;
  _ ← assert_eq (recv_ts (ev_header event)) ts; _ ← assert_eq (hdr_seq (ev_header event)) seq;
  _ ← assert_eq (hdr_instrument_id (ev_header event)) iid; assert_eq (hdr_source_id (ev_header event)) sid.
Definition constructor_heartbeat_uses_none_instrument : outcome unit :=
  let ts := from_nanos 0 in let seq := seqnum_ZERO in let sid := source_from_raw 1 in let flags := flags_EMPTY in
  let payload := {| hb_counter := 1 |} in let event := ev_heartbeat ts seq sid flags payload in
  _ ← assert_eq (event_kind event) KHeartbeat; assert_eq (hdr_instrument_id (ev_header event)) inst_NONE.
Definition constructor_timer : outcome unit :=
  let ts := from_nanos 500 in let seq := seqnum_from_raw 1 in let iid := inst_from_raw 0 in
  let sid := source_from_raw 2 in let flags := flags_EMPTY in let payload := {| timer_id := 99;
  timer_kind := Deadline |} in let event := ev_timer ts seq iid sid flags payload in
  _ ← assert_eq (event_kind event) KTimer; match ev_body event with TimerEv p => _ ← assert_eq (timer_id p) 99;
  _ ← assert_eq (timer_kind p) Deadline; Ret tt | _ => _ ← assert_eq (event_kind event) KTimer; Ret tt end.
Definition event_copy_semantics : outcome unit :=
  let ts := from_nanos 42 in let seq := seqnum_from_raw 1 in let iid := inst_from_raw 5 in
  let sid := source_from_raw 1 in let flags := IS_SNAPSHOT in let payload := {| tr_price := ticks_from_raw 300;
  tr_qty := lots_from_raw 2; tr_aggressor := Ask |} in let original := ev_trade ts seq iid sid flags payload in
  let copy := original in _ ← assert_eq (event_kind copy) KTrade;
  _ ← assert_eq (recv_ts (ev_header copy)) (recv_ts (ev_header original));
  assert_eq (hdr_seq (ev_header copy)) (hdr_seq (ev_header original)).
Definition kind_convenience_matches_body_kind : outcome unit :=
  let payload := {| ack_order_id := order_from_raw 1; ack_client_order_id := 2; ack_status := StAccepted |} in
  let event := ev_order_ack (from_nanos 0) seqnum_ZERO (inst_from_raw 1) (source_from_raw 1) flags_EMPTY payload in
  assert_eq (event_kind event) (body_kind (ev_body event)).
Definition constructor_fill : outcome unit :=
  let payload := {| fill_order_id := order_from_raw 7; fill_price := ticks_from_raw 500; fill_qty := lots_from_raw 3;
  fill_side := Bid; fill_is_maker := 1 |} in
  let event := ev_fill (from_nanos 0) seqnum_ZERO (inst_from_raw 1) (source_from_raw 1) flags_EMPTY payload in
  assert_eq (event_kind event) KFill.
Definition constructor_order_reject : outcome unit :=
  let payload := {| rej_order_id := order_from_raw 0; rej_client_order_id := 55; rej_reason := InvalidPrice |} in
  let event := ev_order_reject (from_nanos 0) seqnum_ZERO (inst_from_raw 1) (source_from_raw 1) flags_EMPTY payload in
  assert_eq (event_kind event) KOrderReject.
Definition constructor_top_of_book : outcome unit :=
  let payload := {| tp_bid_price := ticks_from_raw 99; tp_bid_qty := lots_from_raw 50;
  tp_ask_price := ticks_from_raw 101; tp_ask_qty := lots_from_raw 30 |} in
  let event := ev_top_of_book (from_nanos 0) seqnum_ZERO (inst_from_raw 1) (source_from_raw 1) LAST_IN_BATCH payload
    in _ ← assert_eq (event_kind event) KTopOfBook;
  assert_ (flags_contains (hdr_flags (ev_header event)) LAST_IN_BATCH).
Definition constructor_trade_header_fields : outcome unit :=
  let ts := from_nanos 12345 in let seq := seqnum_from_raw 99 in let iid := inst_from_raw 42 in
  let sid := source_from_raw 7 in let flags := IS_SNAPSHOT in let payload := {| tr_price := ticks_from_raw 300;
  tr_qty := lots_from_raw 2; tr_aggressor := Bid |} in let event := ev_trade ts seq iid sid flags payload in
  _ ← assert_eq (event_kind event) KTrade; _ ← assert_eq (recv_ts (ev_header event)) ts;
  _ ← assert_eq (hdr_seq (ev_header event)) seq; _ ← assert_eq (hdr_instrument_id (ev_header event)) iid;
  _ ← assert_eq (hdr_source_id (ev_header event)) sid;
  _ ← assert_ (flags_contains (hdr_flags (ev_header event)) IS_SNAPSHOT); _ ← assert_eq (event_kind event) KTrade;
  match ev_body event with Trade p => _ ← assert_eq (tr_aggressor p) Bid;
  _ ← assert_eq (tr_price p) (ticks_from_raw 300); Ret tt | _ => Ret tt end.
Definition constructor_book_delta_snapshot_flag : outcome unit :=
  let flags := flags_bitor IS_SNAPSHOT LAST_IN_BATCH in let payload := {| bd_price := ticks_from_raw 50;
  bd_qty := lots_from_raw 100; bd_side := Ask; bd_action := ActNew; bd_depth := 2 |} in
  let event := ev_book_delta (from_nanos 0) seqnum_ZERO (inst_from_raw 1) (source_from_raw 1) flags payload in
  _ ← assert_ (flags_contains (hdr_flags (ev_header event)) IS_SNAPSHOT);
  _ ← assert_ (flags_contains (hdr_flags (ev_header event)) LAST_IN_BATCH);
  _ ← assert_eq (event_kind event) KBookDelta; match ev_body event with BookDelta p => _ ← assert_eq (bd_side p) Ask;
  _ ← assert_eq (bd_depth p) 2; Ret tt | _ => Ret tt end.
Definition constructor_heartbeat_counter_propagates : outcome unit :=
  let payload := {| hb_counter := 77 |} in
  let event := ev_heartbeat (from_nanos 0) seqnum_ZERO (source_from_raw 1) flags_EMPTY payload in
  _ ← assert_eq (event_kind event) KHeartbeat; _ ← assert_eq (event_kind event) KHeartbeat;
  match ev_body event with Heartbeat p => _ ← assert_eq (hb_counter p) 77; Ret tt | _ => Ret tt end.
Definition seq_num_propagates_correctly : outcome unit :=
  let seq_a := seqnum_from_raw 1 in let seq_b := seqnum_from_raw 2 in
  let make_event := fun seq => ev_heartbeat (from_nanos 0) seq (source_from_raw 1) flags_EMPTY ({| hb_counter := 0
    |}) in _ ← assert_eq (hdr_seq (ev_header (make_event seq_a))) seq_a;
  _ ← assert_eq (hdr_seq (ev_header (make_event seq_b))) seq_b;
  assert_ne (hdr_seq (ev_header (make_event seq_a))) seq_b.
End ev_event_tests.

(** * They pass *)

(** Every test of flags.rs above passes. *)
Lemma ev_flags_tests_pass (profile : BuildProfile) : Forall (fun result => result = Ret tt)
  [empty_by_default; set_single_flag; combine_flags; bitor_operator; bitor_assign; from_raw_roundtrip; size_is_2;
   is_snapshot_raw_bit_is_1; last_in_batch_raw_bit_is_2; is_snapshot_does_not_contain_last_in_batch;
   last_in_batch_does_not_contain_is_snapshot; empty_does_not_contain_is_snapshot;
   empty_does_not_contain_last_in_batch; snapshot_flag_is_not_empty; last_in_batch_flag_is_not_empty;
   with_combines_without_mutation; contains_self_is_true; bitor_assign_does_not_clear_existing].
Proof. destruct profile; repeat constructor; vm_compute; reflexivity. Qed.

(** Every test of header.rs above passes. *)
Lemma ev_header_tests_pass (profile : BuildProfile) : Forall (fun result => result = Ret tt)
  [size_is_24; alignment_is_8; ev_header_construction; flags_roundtrip; recv_ts_at_offset_zero].
Proof. destruct profile; repeat constructor; vm_compute; reflexivity. Qed.

(** Every test of market.rs above passes. *)
Lemma ev_market_tests_pass (profile : BuildProfile) : Forall (fun result => result = Ret tt)
  [update_action_repr_values; update_action_size_is_1; book_delta_payload_size_is_24; trade_payload_size_is_24;
   top_of_book_payload_size_is_32; book_delta_roundtrip; trade_roundtrip; top_of_book_roundtrip; book_delta_ask_side;
   book_delta_delete_action; trade_bid_aggressor; update_action_change_distinct_from_new_and_delete].
Proof. destruct profile; repeat constructor; vm_compute; reflexivity. Qed.

(** Every test of execution.rs above passes. *)
Lemma ev_execution_tests_pass (profile : BuildProfile) : Forall (fun result => result = Ret tt)
  [order_status_repr_values; order_status_size_is_1; reject_reason_repr_values; reject_reason_size_is_1;
   order_ack_payload_size_is_24; fill_payload_size_is_32; order_reject_payload_size_is_24; order_ack_roundtrip;
   fill_roundtrip; order_reject_roundtrip; order_status_debug_all_variants; reject_reason_debug_all_variants;
   order_ack_payload_all_status_variants; fill_payload_ask_side; order_reject_payload_all_reasons].
Proof. destruct profile; repeat constructor; vm_compute; reflexivity. Qed.

(** Every test of control.rs above passes. *)
Lemma ev_control_tests_pass (profile : BuildProfile) : Forall (fun result => result = Ret tt)
  [timer_kind_repr_values; timer_kind_size_is_1; timer_payload_size_is_8; heartbeat_payload_size_is_4;
   timer_roundtrip; heartbeat_roundtrip; timer_kind_stale_feed_repr; timer_kind_periodic_repr;
   timer_kind_deadline_repr; timer_kind_variants_are_distinct; timer_payload_stale_feed_roundtrip;
   timer_payload_deadline_roundtrip; heartbeat_counter_zero; heartbeat_counter_max; timer_id_is_independent_of_kind].
Proof. destruct profile; repeat constructor; vm_compute; reflexivity. Qed.

(** Every test of body.rs above passes. *)
Lemma ev_body_tests_pass (profile : BuildProfile) : Forall (fun result => result = Ret tt)
  [event_kind_repr_values; event_kind_size_is_2; body_kind_book_delta; body_kind_trade; body_kind_top_of_book;
   body_kind_order_ack; body_kind_fill; body_kind_order_reject; body_kind_timer; body_kind_heartbeat;
   event_kind_repr_are_distinct; body_kind_matches_event_kind_repr; body_kind_trade_not_book_delta;
   body_kind_timer_not_heartbeat; body_kind_order_reject_not_order_ack; body_kind_fill_is_own_kind;
   top_of_book_kind_not_book_delta].
Proof. destruct profile; repeat constructor; vm_compute; reflexivity. Qed.

(** Every test of event.rs above passes. *)
Lemma ev_event_tests_pass (profile : BuildProfile) : Forall (fun result => result = Ret tt)
  [hot_event_size_ceiling; header_at_offset_zero; constructor_book_delta; constructor_heartbeat_uses_none_instrument;
   constructor_timer; event_copy_semantics; kind_convenience_matches_body_kind; constructor_fill;
   constructor_order_reject; constructor_top_of_book; constructor_trade_header_fields;
   constructor_book_delta_snapshot_flag; constructor_heartbeat_counter_propagates; seq_num_propagates_correctly].
Proof. destruct profile; repeat constructor; vm_compute; reflexivity. Qed.
