(* ===== verification/SuitePlatform.v ===== *)
(** * The unit tests of the platform helpers ([crates/platform])

    The tests beside the code, statement by statement, on the definitions of
    [Platform], [CtArith] and [WideArith], and that they pass in either build
    profile, with and without the x86_64 assembly. *)

From Stdlib Require Import ZArith.
From stdpp Require Import base decidable numbers option tactics strings list.
From S2P Require Import Prelude Testing Platform FixedText Texts CtArith WideArith.

#[local] Open Scope Z_scope.

(** ** numerics.rs *)

Section numerics_tests.
Context `{BuildProfile} `{TargetArch}.

Definition pow10_values_are_correct : outcome unit :=
  let expected := 1 in expected ← for_each (fun expected '(i, val) => _ ← assert_eq val expected;
  expected ← (if (i <? 18) then expected ← expect (checked I64 (expected * 10)); Ret expected else Ret expected);
  Ret expected) expected (zip (seqZ 0 (Z.of_nat (length POW10_I64))) POW10_I64); Ret tt.
Definition pow10_accessor_matches_table : outcome unit :=
  for_each (fun _ d => r ← pow10_i64 d; r2 ← index POW10_I64 (Z.to_nat (wrap USIZE d));
  assert_eq r r2) tt (seqZ 0 (18 + 1)).
End numerics_tests.

(** ** bithacks.rs *)

Section bithacks_tests.
Context `{BuildProfile} `{TargetArch}.

Definition power_of_two_basics : outcome unit :=
  _ ← assert_ (negb (is_power_of_two 0)); _ ← assert_ (is_power_of_two 1); _ ← assert_ (is_power_of_two 2);
  _ ← assert_ (negb (is_power_of_two 3)); _ ← assert_ (is_power_of_two 4); _ ← assert_ (is_power_of_two 1024);
  assert_ (negb (is_power_of_two 1023)).
Definition next_power_of_two_basics : outcome unit :=
  r ← next_power_of_two 1; _ ← assert_eq r 1; r2 ← next_power_of_two 2; _ ← assert_eq r2 2; r3 ← next_power_of_two 3;
  _ ← assert_eq r3 4; r4 ← next_power_of_two 5; _ ← assert_eq r4 8; r5 ← next_power_of_two 1024;
  _ ← assert_eq r5 1024; r6 ← next_power_of_two 1025; assert_eq r6 2048.
Definition log2_floor_basics : outcome unit :=
  r ← log2_floor 1; _ ← assert_eq r 0; r2 ← log2_floor 2; _ ← assert_eq r2 1; r3 ← log2_floor 3; _ ← assert_eq r3 1;
  r4 ← log2_floor 4; _ ← assert_eq r4 2; r5 ← log2_floor 7; _ ← assert_eq r5 2; r6 ← log2_floor 8; _ ← assert_eq r6 3;
  r7 ← log2_floor 1024; assert_eq r7 10.
Definition log2_floor_zero_panics : outcome unit :=
  should_panic (r ← log2_floor 0; Ret tt).
Definition log2_floor_usize_max : outcome unit :=
  r ← log2_floor (tmax USIZE); assert_eq r ((bits USIZE) - 1).
Definition trailing_zeros_basics : outcome unit :=
  _ ← assert_eq (trailing_zeros 0) (bits USIZE); _ ← assert_eq (trailing_zeros 1) 0;
  _ ← assert_eq (trailing_zeros 2) 1; _ ← assert_eq (trailing_zeros 4) 2; _ ← assert_eq (trailing_zeros 6) 1;
  assert_eq (trailing_zeros 1024) 10.
Definition round_up_basics : outcome unit :=
  r ← round_up 0 4; _ ← assert_eq r 0; r2 ← round_up 1 4; _ ← assert_eq r2 4; r3 ← round_up 4 4; _ ← assert_eq r3 4;
  r4 ← round_up 5 4; _ ← assert_eq r4 8; r5 ← round_up 0 128; _ ← assert_eq r5 0; r6 ← round_up 1 128;
  _ ← assert_eq r6 128; r7 ← round_up 128 128; _ ← assert_eq r7 128; r8 ← round_up 129 128; assert_eq r8 256.
Definition round_up_non_power_panics : outcome unit :=
  should_panic (r ← round_up 1 3; Ret tt).
Definition ceil_div_basics : outcome unit :=
  r ← ceil_div_vartime 0 1; _ ← assert_eq r 0; r2 ← ceil_div_vartime 1 1; _ ← assert_eq r2 1;
  r3 ← ceil_div_vartime 5 2; _ ← assert_eq r3 3; r4 ← ceil_div_vartime 10 3; _ ← assert_eq r4 4;
  r5 ← ceil_div_vartime 9 3; assert_eq r5 3.
Definition ceil_div_zero_panics : outcome unit :=
  should_panic (r ← ceil_div_vartime 1 0; Ret tt).
End bithacks_tests.

(** ** ct_types.rs *)

Section ct_types_tests.
Context `{BuildProfile} `{TargetArch}.

Definition ct_construction : outcome unit :=
  let ct := MkCt (t := U64) 42 in assert_eq (inner ct) 42.
Definition carry_borrow_are_ct_u8 : outcome unit :=
  let c := MkCt (t := U8) 1 in let b := MkCt (t := U8) 0 in _ ← assert_eq (inner c) 1; assert_eq (inner b) 0.
Definition ct_debug_does_not_leak : outcome unit :=
  let ct := MkCt (t := U64) 42 in let s := debug ct in _ ← assert_ (negb (contains s (txt "42")));
  assert_eq s (txt "Ct(***)").
Definition ctbool_ctrue_cfalse : outcome unit :=
  _ ← assert_eq (ctb_inner (ctrue (t := U64))) 1; assert_eq (ctb_inner (cfalse (t := U64))) 0.
Definition ctbool_from_bool : outcome unit :=
  _ ← assert_eq (ctb_inner (ctb_from (t := U64) true)) 1; assert_eq (ctb_inner (ctb_from (t := U64) false)) 0.
End ct_types_tests.

(** ** ct_routines.rs *)

Section ct_routines_tests.
Context `{BuildProfile} `{TargetArch}.

Definition bitwise_and : outcome unit :=
  let a := MkCt (t := U64) 12 in let b := MkCt (t := U64) 10 in assert_eq (inner (ct_bitand a b)) 8.
Definition bitwise_or : outcome unit :=
  let a := MkCt (t := U64) 12 in let b := MkCt (t := U64) 10 in assert_eq (inner (ct_bitor a b)) 14.
Definition bitwise_xor : outcome unit :=
  let a := MkCt (t := U64) 12 in let b := MkCt (t := U64) 10 in assert_eq (inner (ct_bitxor a b)) 6.
Definition bitwise_not : outcome unit :=
  let a := MkCt (t := U8) 15 in assert_eq (inner (ct_not a)) 240.
Definition ct_routines_assign_ops : outcome unit :=
  let a := MkCt (t := U32) 15 in let a := ct_bitand_assign a (MkCt (t := U32) 10) in _ ← assert_eq (inner a) 10;
  let b := MkCt (t := U32) 0 in let b := ct_bitor_assign b (MkCt (t := U32) 10) in _ ← assert_eq (inner b) 10;
  let c := MkCt (t := U32) 15 in let c := ct_bitxor_assign c (MkCt (t := U32) 10) in assert_eq (inner c) 5.
Definition add_wrapping : outcome unit :=
  let a := MkCt (t := U8) 250 in let b := MkCt (t := U8) 10 in assert_eq (inner (ct_add a b)) 4.
Definition sub_wrapping : outcome unit :=
  let a := MkCt (t := U8) 5 in let b := MkCt (t := U8) 10 in assert_eq (inner (ct_sub a b)) 251.
Definition mul_wrapping : outcome unit :=
  let a := MkCt (t := U8) 200 in let b := MkCt (t := U8) 2 in assert_eq (inner (ct_mul a b)) 144.
Definition neg_twos_complement : outcome unit :=
  let a := MkCt (t := U8) 1 in _ ← assert_eq (inner (ct_neg a)) 255; let zero := MkCt (t := U8) 0 in
  assert_eq (inner (ct_neg zero)) 0.
Definition assign_arith : outcome unit :=
  let a := MkCt (t := U32) 10 in let a := ct_add_assign a (MkCt (t := U32) 5) in _ ← assert_eq (inner a) 15;
  let a := ct_sub_assign a (MkCt (t := U32) 3) in _ ← assert_eq (inner a) 12;
  let a := ct_mul_assign a (MkCt (t := U32) 4) in assert_eq (inner a) 48.
Definition shift_right : outcome unit :=
  let a := MkCt (t := U64) 128 in assert_eq (inner (ct_shr a 3)) 16.
Definition shift_left : outcome unit :=
  let a := MkCt (t := U64) 1 in assert_eq (inner (ct_shl a 7)) 128.
Definition shift_wrapping_does_not_panic : outcome unit :=
  let a := MkCt (t := U32) 1 in Ret tt.
Definition is_msb_set_u8 : outcome unit :=
  _ ← assert_eq (ctb_inner (is_msb_set (MkCt (t := U8) 128))) 1;
  _ ← assert_eq (ctb_inner (is_msb_set (MkCt (t := U8) 255))) 1;
  _ ← assert_eq (ctb_inner (is_msb_set (MkCt (t := U8) 127))) 0;
  assert_eq (ctb_inner (is_msb_set (MkCt (t := U8) 0))) 0.
Definition is_msb_set_u64 : outcome unit :=
  _ ← assert_eq (ctb_inner (is_msb_set (MkCt (t := U64) (wrap U64 (Z.shiftl 1 63))))) 1;
  _ ← assert_eq (ctb_inner (is_msb_set (MkCt (t := U64) (tmax U64)))) 1;
  assert_eq (ctb_inner (is_msb_set (MkCt (t := U64) (Z.shiftr (tmax U64) 1)))) 0.
Definition ct_eq_equal : outcome unit :=
  assert_eq (ctb_inner (ct_eq (MkCt (t := U64) 42) (MkCt (t := U64) 42))) 1.
Definition ct_eq_unequal : outcome unit :=
  assert_eq (ctb_inner (ct_eq (MkCt (t := U64) 42) (MkCt (t := U64) 43))) 0.
Definition ct_routines_ct_ne : outcome unit :=
  _ ← assert_eq (ctb_inner (ct_ne (MkCt (t := U64) 42) (MkCt (t := U64) 43))) 1;
  assert_eq (ctb_inner (ct_ne (MkCt (t := U64) 42) (MkCt (t := U64) 42))) 0.
Definition ct_eq_exhaustive_u8 : outcome unit :=
  for_each (fun _ x => for_each (fun _ y => let expected := Z.b2z (bool_decide (x = y)) in
  let got := ctb_inner (ct_eq (MkCt (t := U8) x) (MkCt (t := U8) y)) in
  assert_eq got expected) tt (seqZ 0 (255 + 1))) tt (seqZ 0 (255 + 1)).
Definition ct_lt_basic : outcome unit :=
  _ ← assert_eq (ctb_inner (ct_lt (MkCt (t := U64) 3) (MkCt (t := U64) 5))) 1;
  _ ← assert_eq (ctb_inner (ct_lt (MkCt (t := U64) 5) (MkCt (t := U64) 3))) 0;
  assert_eq (ctb_inner (ct_lt (MkCt (t := U64) 5) (MkCt (t := U64) 5))) 0.
Definition ct_le_basic : outcome unit :=
  _ ← assert_eq (ctb_inner (ct_le (MkCt (t := U64) 3) (MkCt (t := U64) 5))) 1;
  _ ← assert_eq (ctb_inner (ct_le (MkCt (t := U64) 5) (MkCt (t := U64) 3))) 0;
  assert_eq (ctb_inner (ct_le (MkCt (t := U64) 5) (MkCt (t := U64) 5))) 1.
Definition ct_lt_exhaustive_u8 : outcome unit :=
  for_each (fun _ x => for_each (fun _ y => let expected_lt := Z.b2z (x <? y) in let expected_le := Z.b2z (x <=? y) in
  let got_lt := ctb_inner (ct_lt (MkCt (t := U8) x) (MkCt (t := U8) y)) in
  let got_le := ctb_inner (ct_le (MkCt (t := U8) x) (MkCt (t := U8) y)) in _ ← assert_eq got_lt expected_lt;
  assert_eq got_le expected_le) tt (seqZ 0 (255 + 1))) tt (seqZ 0 (255 + 1)).
Definition ct_routines_is_zero : outcome unit :=
  _ ← assert_eq (ctb_inner (is_zero (MkCt (t := U64) 0))) 1;
  _ ← assert_eq (ctb_inner (is_zero (MkCt (t := U64) 1))) 0;
  assert_eq (ctb_inner (is_zero (MkCt (t := U64) (tmax U64)))) 0.
Definition ct_routines_is_non_zero : outcome unit :=
  _ ← assert_eq (ctb_inner (is_non_zero (MkCt (t := U64) 0))) 0;
  _ ← assert_eq (ctb_inner (is_non_zero (MkCt (t := U64) 1))) 1;
  assert_eq (ctb_inner (is_non_zero (MkCt (t := U64) (tmax U64)))) 1.
Definition cneg_true_negates : outcome unit :=
  let x := MkCt (t := U8) 3 in let result := cneg x (ctrue (t := U8)) in assert_eq (inner result) (wrap U8 (0 - 3)).
Definition cneg_false_identity : outcome unit :=
  let x := MkCt (t := U8) 3 in let result := cneg x (cfalse (t := U8)) in assert_eq (inner result) 3.
Definition cneg_exhaustive_u8 : outcome unit :=
  for_each (fun _ x => let ct_true_result := inner (cneg (MkCt (t := U8) x) (ctrue (t := U8))) in
  let ct_false_result := inner (cneg (MkCt (t := U8) x) (cfalse (t := U8))) in
  _ ← assert_eq ct_true_result (wrap U8 (- x)); assert_eq ct_false_result x) tt (seqZ 0 (255 + 1)).
Definition ctbool_not : outcome unit :=
  _ ← assert_eq (ctb_inner (ctb_not (ctrue (t := U64)))) 0; assert_eq (ctb_inner (ctb_not (cfalse (t := U64)))) 1.
Definition ctbool_and : outcome unit :=
  let t := ctrue (t := U64) in let f := cfalse (t := U64) in _ ← assert_eq (ctb_inner (ctb_bitand t t)) 1;
  _ ← assert_eq (ctb_inner (ctb_bitand t f)) 0; _ ← assert_eq (ctb_inner (ctb_bitand f t)) 0;
  assert_eq (ctb_inner (ctb_bitand f f)) 0.
Definition ctbool_or : outcome unit :=
  let t := ctrue (t := U64) in let f := cfalse (t := U64) in _ ← assert_eq (ctb_inner (ctb_bitor t t)) 1;
  _ ← assert_eq (ctb_inner (ctb_bitor t f)) 1; _ ← assert_eq (ctb_inner (ctb_bitor f t)) 1;
  assert_eq (ctb_inner (ctb_bitor f f)) 0.
Definition ctbool_xor : outcome unit :=
  let t := ctrue (t := U64) in let f := cfalse (t := U64) in _ ← assert_eq (ctb_inner (ctb_bitxor t t)) 0;
  _ ← assert_eq (ctb_inner (ctb_bitxor t f)) 1; _ ← assert_eq (ctb_inner (ctb_bitxor f t)) 1;
  assert_eq (ctb_inner (ctb_bitxor f f)) 0.
Definition u8_comparisons : outcome unit :=
  _ ← assert_eq (ctb_inner (ct_eq (MkCt (t := U8) 10) (MkCt (t := U8) 10))) 1;
  _ ← assert_eq (ctb_inner (ct_lt (MkCt (t := U8) 10) (MkCt (t := U8) 20))) 1;
  assert_eq (ctb_inner (ct_lt (MkCt (t := U8) 20) (MkCt (t := U8) 10))) 0.
Definition u16_comparisons : outcome unit :=
  _ ← assert_eq (ctb_inner (ct_eq (MkCt (t := U16) 1000) (MkCt (t := U16) 1000))) 1;
  assert_eq (ctb_inner (ct_lt (MkCt (t := U16) 500) (MkCt (t := U16) 1000))) 1.
Definition u32_comparisons : outcome unit :=
  _ ← assert_eq (ctb_inner (is_zero (MkCt (t := U32) 0))) 1;
  assert_eq (ctb_inner (is_non_zero (MkCt (t := U32) (tmax U32)))) 1.
Definition usize_ops : outcome unit :=
  let a := MkCt (t := USIZE) 100 in let b := MkCt (t := USIZE) 50 in _ ← assert_eq (inner (ct_add a b)) 150;
  _ ← assert_eq (ctb_inner (ct_lt a b)) 0; assert_eq (ctb_inner (ct_lt b a)) 1.
End ct_routines_tests.

(** ** multiplexers.rs *)

Section multiplexers_tests.
Context `{BuildProfile} `{TargetArch}.

Definition mux_true_returns_x : outcome unit :=
  assert_eq (inner (mux (ctrue (t := U64)) (MkCt (t := U64) 42) (MkCt (t := U64) 99))) 42.
Definition mux_false_returns_y : outcome unit :=
  assert_eq (inner (mux (cfalse (t := U64)) (MkCt (t := U64) 42) (MkCt (t := U64) 99))) 99.
Definition mux_boundary_values : outcome unit :=
  _ ← assert_eq (inner (mux (ctrue (t := U64)) (MkCt (t := U64) 0) (MkCt (t := U64) (tmax U64)))) 0;
  _ ← assert_eq (inner (mux (cfalse (t := U64)) (MkCt (t := U64) 0) (MkCt (t := U64) (tmax U64)))) (tmax U64);
  assert_eq (inner (mux (ctrue (t := U64)) (MkCt (t := U64) (tmax U64)) (MkCt (t := U64) 0))) (tmax U64).
Definition mux_same_x_y : outcome unit :=
  _ ← assert_eq (inner (mux (ctrue (t := U64)) (MkCt (t := U64) 7) (MkCt (t := U64) 7))) 7;
  assert_eq (inner (mux (cfalse (t := U64)) (MkCt (t := U64) 7) (MkCt (t := U64) 7))) 7.
Definition mux32_true_returns_x : outcome unit :=
  assert_eq (inner (mux32 (ctrue (t := U32)) (MkCt (t := U32) 1) (MkCt (t := U32) 2))) 1.
Definition mux32_false_returns_y : outcome unit :=
  assert_eq (inner (mux32 (cfalse (t := U32)) (MkCt (t := U32) 1) (MkCt (t := U32) 2))) 2.
Definition mux32_boundary_values : outcome unit :=
  _ ← assert_eq (inner (mux32 (ctrue (t := U32)) (MkCt (t := U32) (tmax U32)) (MkCt (t := U32) 0))) (tmax U32);
  assert_eq (inner (mux32 (cfalse (t := U32)) (MkCt (t := U32) (tmax U32)) (MkCt (t := U32) 0))) 0.
Definition mux_usize_selects_correctly : outcome unit :=
  _ ← assert_eq (inner (mux_usize (ctrue (t := USIZE)) (MkCt (t := USIZE) 100) (MkCt (t := USIZE) 200))) 100;
  assert_eq (inner (mux_usize (cfalse (t := USIZE)) (MkCt (t := USIZE) 100) (MkCt (t := USIZE) 200))) 200.
Definition mux_bool_true_selects_x : outcome unit :=
  let result := mux_bool (ctrue (t := U64)) (ctrue (t := U64)) (cfalse (t := U64)) in assert_eq (ctb_inner result) 1.
Definition mux_bool_false_selects_y : outcome unit :=
  let result := mux_bool (cfalse (t := U64)) (ctrue (t := U64)) (cfalse (t := U64)) in assert_eq (ctb_inner result) 0.
Definition mux_bool32_selects_correctly : outcome unit :=
  let t := ctrue (t := U32) in let f := cfalse (t := U32) in _ ← assert_eq (ctb_inner (mux_bool32 t t f)) 1;
  assert_eq (ctb_inner (mux_bool32 f t f)) 0.
Definition mux_bool_usize_selects_correctly : outcome unit :=
  let t := ctrue (t := USIZE) in let f := cfalse (t := USIZE) in _ ← assert_eq (ctb_inner (mux_bool_usize t t f)) 1;
  assert_eq (ctb_inner (mux_bool_usize f t f)) 0.
Definition mux_asm_matches_portable_u64 : outcome unit :=
  let cases := [(0, 0); (0, tmax U64); (tmax U64, 0); (tmax U64, tmax U64);
  (16045690984503050240, 1311768467463790320)] in for_each (fun _ '(xv, yv) => let x := MkCt (t := U64) xv in
  let y := MkCt (t := U64) yv in let portable_t := inner (mux_formula (ctrue (t := U64)) x y) in
  let portable_f := inner (mux_formula (cfalse (t := U64)) x y) in
  _ ← assert_eq (inner (mux (ctrue (t := U64)) x y)) portable_t;
  assert_eq (inner (mux (cfalse (t := U64)) x y)) portable_f) tt cases.
Definition mux32_asm_matches_portable : outcome unit :=
  let cases := [(0, 0); (0, tmax U32); (tmax U32, 0); (tmax U32, tmax U32); (3735928559, 305419896)] in
  for_each (fun _ '(xv, yv) => let x := MkCt (t := U32) xv in let y := MkCt (t := U32) yv in
  let portable_t := inner (mux_formula (ctrue (t := U32)) x y) in
  let portable_f := inner (mux_formula (cfalse (t := U32)) x y) in
  _ ← assert_eq (inner (mux32 (ctrue (t := U32)) x y)) portable_t;
  assert_eq (inner (mux32 (cfalse (t := U32)) x y)) portable_f) tt cases.
Definition ccopy_true_overwrites : outcome unit :=
  let x := MkCt (t := U64) 10 in let x := ccopy (ctrue (t := U64)) x (MkCt (t := U64) 99) in assert_eq (inner x) 99.
Definition ccopy_false_preserves : outcome unit :=
  let x := MkCt (t := U64) 10 in let x := ccopy (cfalse (t := U64)) x (MkCt (t := U64) 99) in assert_eq (inner x) 10.
Definition ccopy_same_value_idempotent : outcome unit :=
  let x := MkCt (t := U64) 42 in let x := ccopy (ctrue (t := U64)) x (MkCt (t := U64) 42) in assert_eq (inner x) 42.
Definition ccopy32_true_overwrites : outcome unit :=
  let x := MkCt (t := U32) 1 in let x := ccopy32 (ctrue (t := U32)) x (MkCt (t := U32) 99) in assert_eq (inner x) 99.
Definition ccopy32_false_preserves : outcome unit :=
  let x := MkCt (t := U32) 1 in let x := ccopy32 (cfalse (t := U32)) x (MkCt (t := U32) 99) in assert_eq (inner x) 1.
Definition ccopy32_boundary_max : outcome unit :=
  let x := MkCt (t := U32) 0 in let x := ccopy32 (ctrue (t := U32)) x (MkCt (t := U32) (tmax U32)) in
  _ ← assert_eq (inner x) (tmax U32); let x := ccopy32 (cfalse (t := U32)) x (MkCt (t := U32) 0) in
  assert_eq (inner x) (tmax U32).
Definition ccopy_usize_true_overwrites : outcome unit :=
  let x := MkCt (t := USIZE) 1 in let x := ccopy_usize (ctrue (t := USIZE)) x (MkCt (t := USIZE) 99) in
  assert_eq (inner x) 99.
Definition ccopy_usize_false_preserves : outcome unit :=
  let x := MkCt (t := USIZE) 1 in let x := ccopy_usize (cfalse (t := USIZE)) x (MkCt (t := USIZE) 99) in
  assert_eq (inner x) 1.
Definition secret_lookup_all_indices : outcome unit :=
  let table := [10; 20; 30; 40; 50] in
  for_each (fun _ '(i, expected) => assert_eq (inner (secret_lookup table (MkCt (t := USIZE) i))) expected) tt (zip
    (seqZ 0 (Z.of_nat (length table))) table).
Definition secret_lookup_single_element : outcome unit :=
  let table := [16045690984503054900] in
  assert_eq (inner (secret_lookup table (MkCt (t := USIZE) 0))) 16045690984503054900.
Definition secret_lookup_empty_returns_zero : outcome unit :=
  let result := secret_lookup [] (MkCt (t := USIZE) 0) in assert_eq (inner result) 0.
Definition secret_lookup_boundary_values : outcome unit :=
  let table := [0; tmax U64; (Z.quot (tmax U64) 2); 1] in
  _ ← assert_eq (inner (secret_lookup table (MkCt (t := USIZE) 0))) 0;
  _ ← assert_eq (inner (secret_lookup table (MkCt (t := USIZE) 1))) (tmax U64);
  _ ← assert_eq (inner (secret_lookup table (MkCt (t := USIZE) 2))) (Z.quot (tmax U64) 2);
  assert_eq (inner (secret_lookup table (MkCt (t := USIZE) 3))) 1.
End multiplexers_tests.

(** ** ct_division.rs *)

(** The helpers normalise the divisor, divide and undo the shift. *)
Definition div_u128_via_ct `{BuildProfile} `{TargetArch} (num denom : Z) : outcome (Z * Z) :=
  _ ← assert_ (bool_decide (denom <> 0));
  let shift := 63 - Z.log2 denom in
  let d_norm := wrap U64 (Z.shiftl denom shift) in
  let num_shifted := wrap U128 (Z.shiftl num shift) in
  let n_hi := wrap U64 (Z.shiftr num_shifted 64) in
  let n_lo := wrap U64 num_shifted in
  let '(q, r_norm) := div2n1n (MkCt n_hi) (MkCt n_lo) (MkCt d_norm) in
  Ret (inner q, Z.shiftr (inner r_norm) shift).
Definition div_u64_via_ct `{BuildProfile} `{TargetArch} (num denom : Z) : outcome (Z * Z) :=
  _ ← assert_ (bool_decide (denom <> 0));
  let shift := 31 - Z.log2 denom in
  let d_norm := wrap U32 (Z.shiftl denom shift) in
  let num_shifted := wrap U64 (Z.shiftl num shift) in
  let n_hi := wrap U32 (Z.shiftr num_shifted 32) in
  let n_lo := wrap U32 num_shifted in
  let '(q, r_norm) := div2n1n_u32 (MkCt n_hi) (MkCt n_lo) (MkCt d_norm) in
  Ret (inner q, Z.shiftr (inner r_norm) shift).

Section ct_division_tests.
Context `{BuildProfile} `{TargetArch}.

Definition div_100_by_7 : outcome unit :=
  r ← div_u128_via_ct 100 7; let '(q, r) := r in _ ← assert_eq q 14; assert_eq r 2.
Definition div_zero_numerator : outcome unit :=
  r ← div_u128_via_ct 0 7; let '(q, r) := r in _ ← assert_eq q 0; assert_eq r 0.
Definition div_exact : outcome unit :=
  r ← div_u128_via_ct 49 7; let '(q, r) := r in _ ← assert_eq q 7; assert_eq r 0.
Definition div_numerator_equals_denominator : outcome unit :=
  r ← div_u128_via_ct 13 13; let '(q, r) := r in _ ← assert_eq q 1; assert_eq r 0.
Definition div_numerator_less_than_denominator : outcome unit :=
  r ← div_u128_via_ct 5 13; let '(q, r) := r in _ ← assert_eq q 0; assert_eq r 5.
Definition div_large_cross_check : outcome unit :=
  let cases := [(1, 1); (tmax U64, 3); (tmax U64, tmax U32); (((wrap U128 (Z.shiftl 1 63)) - 1), 9223372036854775809);
  (1311768467750121217, 18446744073709551615)] in for_each (fun _ '(num, denom) => r ← div_op U128 num denom;
  let expected_q := wrap U64 r in r2 ← rem_op U128 num denom; let expected_r := wrap U64 r2 in
  '(q, r) ← div_u128_via_ct num denom; _ ← assert_eq q expected_q; assert_eq r expected_r) tt cases.
Definition div_normalized_directly : outcome unit :=
  let d := MkCt (t := U64) 9223372036854775809 in let n_hi := MkCt (t := U64) 0 in
  let n_lo := MkCt (t := U64) 9223372036854775808 in let '(q, r) := div2n1n n_hi n_lo d in _ ← assert_eq (inner q) 0;
  assert_eq (inner r) 9223372036854775808.
Definition div_n_hi_zero : outcome unit :=
  let d := MkCt (t := U64) 18446744073709551615 in let n_lo := MkCt (t := U64) 18446744073709551614 in
  let '(q, r) := div2n1n (MkCt (t := U64) 0) n_lo d in _ ← assert_eq (inner q) 0;
  assert_eq (inner r) 18446744073709551614.
Definition div32_100_by_7 : outcome unit :=
  r ← div_u64_via_ct 100 7; let '(q, r) := r in _ ← assert_eq q 14; assert_eq r 2.
Definition div32_exact : outcome unit :=
  r ← div_u64_via_ct 49 7; let '(q, r) := r in _ ← assert_eq q 7; assert_eq r 0.
Definition div32_zero_numerator : outcome unit :=
  r ← div_u64_via_ct 0 3; let '(q, r) := r in _ ← assert_eq q 0; assert_eq r 0.
Definition div32_large_cross_check : outcome unit :=
  let cases := [(1, 1); (tmax U32, 3); (tmax U32, 2147483649); (305419896, 4294967295);
  (((wrap U64 (Z.shiftl 1 31)) - 1), 2147483649)] in for_each (fun _ '(num, denom) => r ← div_op U64 num denom;
  let expected_q := wrap U32 r in r2 ← rem_op U64 num denom; let expected_r := wrap U32 r2 in
  '(q, r) ← div_u64_via_ct num denom; _ ← assert_eq q expected_q; assert_eq r expected_r) tt cases.
Definition div32_normalized_directly : outcome unit :=
  let d := MkCt (t := U32) 2147483649 in let n_lo := MkCt (t := U32) 2147483647 in
  let '(q, r) := div2n1n_u32 (MkCt (t := U32) 0) n_lo d in _ ← assert_eq (inner q) 0; assert_eq (inner r) 2147483647.
End ct_division_tests.

(** ** addcarry_subborrow.rs *)

Section addcarry_subborrow_tests.
Context `{BuildProfile} `{TargetArch}.

Definition add_c_u32_no_carry : outcome unit :=
  '(sum, cout) ← add_c (MkCt (t := U32) 3) (MkCt (t := U32) 4) (MkCt (t := U8) 0); _ ← assert_eq (inner sum) 7;
  assert_eq (inner cout) 0.
Definition add_c_u32_carry_in : outcome unit :=
  '(sum, cout) ← add_c (MkCt (t := U32) 3) (MkCt (t := U32) 4) (MkCt (t := U8) 1); _ ← assert_eq (inner sum) 8;
  assert_eq (inner cout) 0.
Definition add_c_u32_carry_out : outcome unit :=
  '(sum, cout) ← add_c (MkCt (t := U32) (tmax U32)) (MkCt (t := U32) 1) (MkCt (t := U8) 0);
  _ ← assert_eq (inner sum) 0; assert_eq (inner cout) 1.
Definition add_c_u32_both_carries : outcome unit :=
  '(sum, cout) ← add_c (MkCt (t := U32) (tmax U32)) (MkCt (t := U32) 1) (MkCt (t := U8) 1);
  _ ← assert_eq (inner sum) 1; assert_eq (inner cout) 1.
Definition add_c_u32_chain_4_limbs : outcome unit :=
  let a := replicate 4 (MkCt (t := U32) (tmax U32)) in let b := [MkCt (t := U32) 1; MkCt (t := U32) 0;
  MkCt (t := U32) 0; MkCt (t := U32) 0] in let carry := MkCt (t := U8) 0 in let result := replicate 4 0 in
  '(result, carry) ← for_each (fun '(result, carry) i => r ← index a (Z.to_nat i); r2 ← index b (Z.to_nat i);
  '(s, c) ← add_c r r2 carry; result ← set_index result (Z.to_nat i) (inner s); let carry := c in
  Ret (result, carry)) (result, carry) (seqZ 0 4); _ ← assert_eq result [0; 0; 0; 0]; assert_eq (inner carry) 1.
Definition sub_b_u32_no_borrow : outcome unit :=
  let '(diff, bout) := sub_b (MkCt (t := U32) 7) (MkCt (t := U32) 3) (MkCt (t := U8) 0) in
  _ ← assert_eq (inner diff) 4; assert_eq (inner bout) 0.
Definition sub_b_u32_borrow_in : outcome unit :=
  let '(diff, bout) := sub_b (MkCt (t := U32) 7) (MkCt (t := U32) 3) (MkCt (t := U8) 1) in
  _ ← assert_eq (inner diff) 3; assert_eq (inner bout) 0.
Definition sub_b_u32_borrow_out : outcome unit :=
  let '(diff, bout) := sub_b (MkCt (t := U32) 0) (MkCt (t := U32) 1) (MkCt (t := U8) 0) in
  _ ← assert_eq (inner diff) (tmax U32); assert_eq (inner bout) 1.
Definition sub_b_u32_both_borrows : outcome unit :=
  let '(diff, bout) := sub_b (MkCt (t := U32) 0) (MkCt (t := U32) 1) (MkCt (t := U8) 1) in
  _ ← assert_eq (inner diff) ((tmax U32) - 1); assert_eq (inner bout) 1.
Definition sub_b_u32_chain_4_limbs : outcome unit :=
  let a := replicate 4 (MkCt (t := U32) 0) in let b := [MkCt (t := U32) 1; MkCt (t := U32) 0; MkCt (t := U32) 0;
  MkCt (t := U32) 0] in let borrow := MkCt (t := U8) 0 in let result := replicate 4 0 in
  '(result, borrow) ← for_each (fun '(result, borrow) i => r ← index a (Z.to_nat i); r2 ← index b (Z.to_nat i);
  let '(d, bo) := sub_b r r2 borrow in result ← set_index result (Z.to_nat i) (inner d); let borrow := bo in
  Ret (result, borrow)) (result, borrow) (seqZ 0 4); _ ← assert_eq result [tmax U32; tmax U32; tmax U32; tmax U32];
  assert_eq (inner borrow) 1.
Definition add_c_u64_no_carry : outcome unit :=
  '(sum, cout) ← add_c (MkCt (t := U64) 3) (MkCt (t := U64) 4) (MkCt (t := U8) 0); _ ← assert_eq (inner sum) 7;
  assert_eq (inner cout) 0.
Definition add_c_u64_carry_in : outcome unit :=
  '(sum, cout) ← add_c (MkCt (t := U64) 3) (MkCt (t := U64) 4) (MkCt (t := U8) 1); _ ← assert_eq (inner sum) 8;
  assert_eq (inner cout) 0.
Definition add_c_u64_carry_out : outcome unit :=
  '(sum, cout) ← add_c (MkCt (t := U64) (tmax U64)) (MkCt (t := U64) 1) (MkCt (t := U8) 0);
  _ ← assert_eq (inner sum) 0; assert_eq (inner cout) 1.
Definition add_c_u64_both_carries : outcome unit :=
  '(sum, cout) ← add_c (MkCt (t := U64) (tmax U64)) (MkCt (t := U64) 1) (MkCt (t := U8) 1);
  _ ← assert_eq (inner sum) 1; assert_eq (inner cout) 1.
Definition add_c_u64_chain_4_limbs : outcome unit :=
  let a := replicate 4 (MkCt (t := U64) (tmax U64)) in let b := [MkCt (t := U64) 1; MkCt (t := U64) 0;
  MkCt (t := U64) 0; MkCt (t := U64) 0] in let carry := MkCt (t := U8) 0 in let result := replicate 4 0 in
  '(result, carry) ← for_each (fun '(result, carry) i => r ← index a (Z.to_nat i); r2 ← index b (Z.to_nat i);
  '(s, c) ← add_c r r2 carry; result ← set_index result (Z.to_nat i) (inner s); let carry := c in
  Ret (result, carry)) (result, carry) (seqZ 0 4); _ ← assert_eq result [0; 0; 0; 0]; assert_eq (inner carry) 1.
Definition sub_b_u64_no_borrow : outcome unit :=
  let '(diff, bout) := sub_b (MkCt (t := U64) 7) (MkCt (t := U64) 3) (MkCt (t := U8) 0) in
  _ ← assert_eq (inner diff) 4; assert_eq (inner bout) 0.
Definition sub_b_u64_borrow_in : outcome unit :=
  let '(diff, bout) := sub_b (MkCt (t := U64) 7) (MkCt (t := U64) 3) (MkCt (t := U8) 1) in
  _ ← assert_eq (inner diff) 3; assert_eq (inner bout) 0.
Definition sub_b_u64_borrow_out : outcome unit :=
  let '(diff, bout) := sub_b (MkCt (t := U64) 0) (MkCt (t := U64) 1) (MkCt (t := U8) 0) in
  _ ← assert_eq (inner diff) (tmax U64); assert_eq (inner bout) 1.
Definition sub_b_u64_both_borrows : outcome unit :=
  let '(diff, bout) := sub_b (MkCt (t := U64) 0) (MkCt (t := U64) 1) (MkCt (t := U8) 1) in
  _ ← assert_eq (inner diff) ((tmax U64) - 1); assert_eq (inner bout) 1.
Definition sub_b_u64_chain_4_limbs : outcome unit :=
  let a := replicate 4 (MkCt (t := U64) 0) in let b := [MkCt (t := U64) 1; MkCt (t := U64) 0; MkCt (t := U64) 0;
  MkCt (t := U64) 0] in let borrow := MkCt (t := U8) 0 in let result := replicate 4 0 in
  '(result, borrow) ← for_each (fun '(result, borrow) i => r ← index a (Z.to_nat i); r2 ← index b (Z.to_nat i);
  let '(d, bo) := sub_b r r2 borrow in result ← set_index result (Z.to_nat i) (inner d); let borrow := bo in
  Ret (result, borrow)) (result, borrow) (seqZ 0 4); _ ← assert_eq result [tmax U64; tmax U64; tmax U64; tmax U64];
  assert_eq (inner borrow) 1.
End addcarry_subborrow_tests.

(** ** extended_prec.rs *)

Section extended_prec_tests.
Context `{BuildProfile} `{TargetArch}.

Definition wide_mul_u32_zero : outcome unit :=
  '(hi, lo) ← wide_mul (MkCt (t := U32) 0) (MkCt (t := U32) 0); _ ← assert_eq (inner hi) 0; assert_eq (inner lo) 0.
Definition wide_mul_u32_one : outcome unit :=
  '(hi, lo) ← wide_mul (MkCt (t := U32) 1) (MkCt (t := U32) 1); _ ← assert_eq (inner hi) 0; assert_eq (inner lo) 1.
Definition wide_mul_u32_small : outcome unit :=
  '(hi, lo) ← wide_mul (MkCt (t := U32) 3) (MkCt (t := U32) 5); _ ← assert_eq (inner hi) 0; assert_eq (inner lo) 15.
Definition wide_mul_u32_max_times_max : outcome unit :=
  '(hi, lo) ← wide_mul (MkCt (t := U32) (tmax U32)) (MkCt (t := U32) (tmax U32));
  expected ← arith U64 ((tmax U32) * (tmax U32));
  _ ← assert_eq (Z.lor (wrap U64 (Z.shiftl (inner hi) 32)) (inner lo)) expected; _ ← assert_eq (inner hi) 4294967294;
  assert_eq (inner lo) 1.
Definition wide_mul_u64_zero : outcome unit :=
  '(hi, lo) ← wide_mul (MkCt (t := U64) 0) (MkCt (t := U64) 0); _ ← assert_eq (inner hi) 0; assert_eq (inner lo) 0.
Definition wide_mul_u64_one : outcome unit :=
  '(hi, lo) ← wide_mul (MkCt (t := U64) 1) (MkCt (t := U64) 1); _ ← assert_eq (inner hi) 0; assert_eq (inner lo) 1.
Definition wide_mul_u64_small : outcome unit :=
  '(hi, lo) ← wide_mul (MkCt (t := U64) 7) (MkCt (t := U64) 8); _ ← assert_eq (inner hi) 0; assert_eq (inner lo) 56.
Definition wide_mul_u64_max_times_max : outcome unit :=
  '(hi, lo) ← wide_mul (MkCt (t := U64) (tmax U64)) (MkCt (t := U64) (tmax U64));
  expected ← arith U128 ((tmax U64) * (tmax U64));
  _ ← assert_eq (Z.lor (wrap U128 (Z.shiftl (inner hi) 64)) (inner lo)) expected;
  _ ← assert_eq (inner hi) 18446744073709551614; assert_eq (inner lo) 1.
Definition muladd1_u32_basic : outcome unit :=
  '(hi, lo) ← muladd1 (MkCt (t := U32) 2) (MkCt (t := U32) 3) (MkCt (t := U32) 4); _ ← assert_eq (inner hi) 0;
  assert_eq (inner lo) 10.
Definition muladd1_u32_max_squared_plus_max : outcome unit :=
  '(hi, lo) ← muladd1 (MkCt (t := U32) (tmax U32)) (MkCt (t := U32) (tmax U32)) (MkCt (t := U32) (tmax U32));
  r2 ← arith U64 ((tmax U32) * (tmax U32)); expected ← arith U64 (r2 + (tmax U32));
  assert_eq (Z.lor (wrap U64 (Z.shiftl (inner hi) 32)) (inner lo)) expected.
Definition muladd1_u64_max_squared_plus_max : outcome unit :=
  '(hi, lo) ← muladd1 (MkCt (t := U64) (tmax U64)) (MkCt (t := U64) (tmax U64)) (MkCt (t := U64) (tmax U64));
  r2 ← arith U128 ((tmax U64) * (tmax U64)); expected ← arith U128 (r2 + (tmax U64));
  assert_eq (Z.lor (wrap U128 (Z.shiftl (inner hi) 64)) (inner lo)) expected.
Definition muladd2_u32_basic : outcome unit :=
  '(hi, lo) ← muladd2 (MkCt (t := U32) 2) (MkCt (t := U32) 3) (MkCt (t := U32) 1) (MkCt (t := U32) 2);
  _ ← assert_eq (inner hi) 0; assert_eq (inner lo) 9.
Definition muladd2_u32_max_squared_plus_two_max : outcome unit :=
  '(hi, lo) ← muladd2 (MkCt (t := U32) (tmax U32)) (MkCt (t := U32) (tmax U32)) (MkCt (t := U32) (tmax U32)) (MkCt (t
    := U32) (tmax U32)); r2 ← arith U64 ((tmax U32) * (tmax U32)); r3 ← arith U64 (r2 + (tmax U32));
  expected ← arith U64 (r3 + (tmax U32)); assert_eq (Z.lor (wrap U64 (Z.shiftl (inner hi) 32)) (inner lo)) expected.
Definition muladd2_u64_max_squared_plus_two_max : outcome unit :=
  '(hi, lo) ← muladd2 (MkCt (t := U64) (tmax U64)) (MkCt (t := U64) (tmax U64)) (MkCt (t := U64) (tmax U64)) (MkCt (t
    := U64) (tmax U64)); r2 ← arith U128 ((tmax U64) * (tmax U64)); r3 ← arith U128 (r2 + (tmax U64));
  expected ← arith U128 (r3 + (tmax U64)); assert_eq (Z.lor (wrap U128 (Z.shiftl (inner hi) 64)) (inner lo)) expected.
Definition smul_u32_positive_positive : outcome unit :=
  '(hi, lo) ← smul (MkCt (t := U32) 3) (MkCt (t := U32) 5); _ ← assert_eq (inner hi) 0; assert_eq (inner lo) 15.
Definition smul_u32_negative_negative : outcome unit :=
  '(hi, lo) ← smul (MkCt (t := U32) (tmax U32)) (MkCt (t := U32) (tmax U32)); _ ← assert_eq (inner hi) 0;
  assert_eq (inner lo) 1.
Definition smul_u32_positive_negative : outcome unit :=
  '(hi, lo) ← smul (MkCt (t := U32) 1) (MkCt (t := U32) (tmax U32)); _ ← assert_eq (inner hi) 4294967295;
  assert_eq (inner lo) 4294967295.
Definition smul_u32_zero : outcome unit :=
  '(hi, lo) ← smul (MkCt (t := U32) 0) (MkCt (t := U32) (tmax U32)); _ ← assert_eq (inner hi) 0;
  assert_eq (inner lo) 0.
Definition smul_u64_positive_positive : outcome unit :=
  '(hi, lo) ← smul (MkCt (t := U64) 4) (MkCt (t := U64) 5); _ ← assert_eq (inner hi) 0; assert_eq (inner lo) 20.
Definition smul_u64_negative_negative : outcome unit :=
  '(hi, lo) ← smul (MkCt (t := U64) (tmax U64)) (MkCt (t := U64) (tmax U64)); _ ← assert_eq (inner hi) 0;
  assert_eq (inner lo) 1.
Definition smul_u64_mixed_sign : outcome unit :=
  '(hi, lo) ← smul (MkCt (t := U64) 1) (MkCt (t := U64) (tmax U64)); _ ← assert_eq (inner hi) (tmax U64);
  assert_eq (inner lo) (tmax U64).
Definition smul_u64_zero : outcome unit :=
  '(hi, lo) ← smul (MkCt (t := U64) 0) (MkCt (t := U64) (tmax U64)); _ ← assert_eq (inner hi) 0;
  assert_eq (inner lo) 0.
Definition mul_acc_from_zero : outcome unit :=
  let t := MkCt (t := U64) 0 in let u := MkCt (t := U64) 0 in let v := MkCt (t := U64) 0 in
  '(Acc3 t u v) ← mul_acc (Acc3 t u v) (MkCt (t := U64) 3) (MkCt (t := U64) 5); _ ← assert_eq (inner t) 0;
  _ ← assert_eq (inner u) 0; assert_eq (inner v) 15.
Definition mul_acc32_from_zero : outcome unit :=
  let t := MkCt (t := U32) 0 in let u := MkCt (t := U32) 0 in let v := MkCt (t := U32) 0 in
  '(Acc3 t u v) ← mul_acc32 (Acc3 t u v) (MkCt (t := U32) 3) (MkCt (t := U32) 5); _ ← assert_eq (inner t) 0;
  _ ← assert_eq (inner u) 0; assert_eq (inner v) 15.
Definition mul_acc_into_nonzero : outcome unit :=
  let t := MkCt (t := U64) 0 in let u := MkCt (t := U64) 0 in let v := MkCt (t := U64) 10 in
  '(Acc3 t u v) ← mul_acc (Acc3 t u v) (MkCt (t := U64) 3) (MkCt (t := U64) 5); _ ← assert_eq (inner t) 0;
  _ ← assert_eq (inner u) 0; assert_eq (inner v) 25.
Definition mul_acc_carry_into_u : outcome unit :=
  let t := MkCt (t := U64) 0 in let u := MkCt (t := U64) 0 in let v := MkCt (t := U64) 0 in
  '(Acc3 t u v) ← mul_acc (Acc3 t u v) (MkCt (t := U64) (tmax U64)) (MkCt (t := U64) (tmax U64));
  _ ← assert_eq (inner t) 0; _ ← assert_eq (inner u) 18446744073709551614; assert_eq (inner v) 1.
Definition mul_acc_carry_into_t : outcome unit :=
  let t := MkCt (t := U64) 0 in let u := MkCt (t := U64) (tmax U64) in let v := MkCt (t := U64) 0 in
  let a := MkCt (t := U64) (tmax U64) in let b := MkCt (t := U64) (tmax U64) in
  '(Acc3 t u v) ← mul_acc (Acc3 t u v) a b; _ ← assert_eq (inner v) 1; assert_eq (inner t) 1.
Definition mul_double_acc_equals_two_mul_acc : outcome unit :=
  let a := MkCt (t := U64) 1311768467463790320 in let b := MkCt (t := U64) 18364758544493064720 in
  let t1 := MkCt (t := U64) 0 in let u1 := MkCt (t := U64) 0 in let v1 := MkCt (t := U64) 0 in
  '(Acc3 t1 u1 v1) ← mul_acc (Acc3 t1 u1 v1) a b; '(Acc3 t1 u1 v1) ← mul_acc (Acc3 t1 u1 v1) a b;
  let t2 := MkCt (t := U64) 0 in let u2 := MkCt (t := U64) 0 in let v2 := MkCt (t := U64) 0 in
  '(Acc3 t2 u2 v2) ← mul_double_acc (Acc3 t2 u2 v2) a b; _ ← assert_eq (inner t1) (inner t2);
  _ ← assert_eq (inner u1) (inner u2); assert_eq (inner v1) (inner v2).
Definition mul_double_acc32_equals_two_mul_acc32 : outcome unit :=
  let a := MkCt (t := U32) 305419896 in let b := MkCt (t := U32) 4275878552 in let t1 := MkCt (t := U32) 0 in
  let u1 := MkCt (t := U32) 0 in let v1 := MkCt (t := U32) 0 in '(Acc3 t1 u1 v1) ← mul_acc32 (Acc3 t1 u1 v1) a b;
  '(Acc3 t1 u1 v1) ← mul_acc32 (Acc3 t1 u1 v1) a b; let t2 := MkCt (t := U32) 0 in let u2 := MkCt (t := U32) 0 in
  let v2 := MkCt (t := U32) 0 in '(Acc3 t2 u2 v2) ← mul_double_acc32 (Acc3 t2 u2 v2) a b;
  _ ← assert_eq (inner t1) (inner t2); _ ← assert_eq (inner u1) (inner u2); assert_eq (inner v1) (inner v2).
Definition mul_double_acc_small : outcome unit :=
  let t := MkCt (t := U64) 0 in let u := MkCt (t := U64) 0 in let v := MkCt (t := U64) 0 in
  '(Acc3 t u v) ← mul_double_acc (Acc3 t u v) (MkCt (t := U64) 3) (MkCt (t := U64) 5); _ ← assert_eq (inner t) 0;
  _ ← assert_eq (inner u) 0; assert_eq (inner v) 30.
End extended_prec_tests.

(** * They pass *)

(** Every test of numerics.rs above passes. *)
Lemma numerics_tests_pass (profile : BuildProfile) (arch : TargetArch) : Forall (fun result => result = Ret tt)
  [pow10_values_are_correct; pow10_accessor_matches_table].
Proof. destruct profile, arch; repeat constructor; vm_compute; reflexivity. Qed.

(** Every test of bithacks.rs above passes. *)
Lemma bithacks_tests_pass (profile : BuildProfile) (arch : TargetArch) : Forall (fun result => result = Ret tt)
  [power_of_two_basics; next_power_of_two_basics; log2_floor_basics; log2_floor_zero_panics; log2_floor_usize_max;
   trailing_zeros_basics; round_up_basics; round_up_non_power_panics; ceil_div_basics; ceil_div_zero_panics].
Proof. destruct profile, arch; repeat constructor; vm_compute; reflexivity. Qed.

(** Every test of ct_types.rs above passes. *)
Lemma ct_types_tests_pass (profile : BuildProfile) (arch : TargetArch) : Forall (fun result => result = Ret tt)
  [ct_construction; carry_borrow_are_ct_u8; ct_debug_does_not_leak; ctbool_ctrue_cfalse; ctbool_from_bool].
Proof. destruct profile, arch; repeat constructor; vm_compute; reflexivity. Qed.

(** Every test of ct_routines.rs above passes. *)
Lemma ct_routines_tests_pass (profile : BuildProfile) (arch : TargetArch) : Forall (fun result => result = Ret tt)
  [bitwise_and; bitwise_or; bitwise_xor; bitwise_not; ct_routines_assign_ops; add_wrapping; sub_wrapping;
   mul_wrapping; neg_twos_complement; assign_arith; shift_right; shift_left; shift_wrapping_does_not_panic;
   is_msb_set_u8; is_msb_set_u64; ct_eq_equal; ct_eq_unequal; ct_routines_ct_ne; ct_eq_exhaustive_u8; ct_lt_basic;
   ct_le_basic; ct_lt_exhaustive_u8; ct_routines_is_zero; ct_routines_is_non_zero; cneg_true_negates;
   cneg_false_identity; cneg_exhaustive_u8; ctbool_not; ctbool_and; ctbool_or; ctbool_xor; u8_comparisons;
   u16_comparisons; u32_comparisons; usize_ops].
Proof. destruct profile, arch; repeat constructor; vm_compute; reflexivity. Qed.

(** Every test of multiplexers.rs above passes. *)
Lemma multiplexers_tests_pass (profile : BuildProfile) (arch : TargetArch) : Forall (fun result => result = Ret tt)
  [mux_true_returns_x; mux_false_returns_y; mux_boundary_values; mux_same_x_y; mux32_true_returns_x;
   mux32_false_returns_y; mux32_boundary_values; mux_usize_selects_correctly; mux_bool_true_selects_x;
   mux_bool_false_selects_y; mux_bool32_selects_correctly; mux_bool_usize_selects_correctly;
   mux_asm_matches_portable_u64; mux32_asm_matches_portable; ccopy_true_overwrites; ccopy_false_preserves;
   ccopy_same_value_idempotent; ccopy32_true_overwrites; ccopy32_false_preserves; ccopy32_boundary_max;
   ccopy_usize_true_overwrites; ccopy_usize_false_preserves; secret_lookup_all_indices; secret_lookup_single_element;
   secret_lookup_empty_returns_zero; secret_lookup_boundary_values].
Proof. destruct profile, arch; repeat constructor; vm_compute; reflexivity. Qed.

(** Every test of ct_division.rs above passes. *)
Lemma ct_division_tests_pass (profile : BuildProfile) (arch : TargetArch) : Forall (fun result => result = Ret tt)
  [div_100_by_7; div_zero_numerator; div_exact; div_numerator_equals_denominator;
   div_numerator_less_than_denominator; div_large_cross_check; div_normalized_directly; div_n_hi_zero;
   div32_100_by_7; div32_exact; div32_zero_numerator; div32_large_cross_check; div32_normalized_directly].
Proof. destruct profile, arch; repeat constructor; vm_compute; reflexivity. Qed.

(** Every test of addcarry_subborrow.rs above passes. *)
Lemma addcarry_subborrow_tests_pass (profile : BuildProfile) (arch : TargetArch) : Forall (fun result => result = Ret tt)
  [add_c_u32_no_carry; add_c_u32_carry_in; add_c_u32_carry_out; add_c_u32_both_carries; add_c_u32_chain_4_limbs;
   sub_b_u32_no_borrow; sub_b_u32_borrow_in; sub_b_u32_borrow_out; sub_b_u32_both_borrows; sub_b_u32_chain_4_limbs;
   add_c_u64_no_carry; add_c_u64_carry_in; add_c_u64_carry_out; add_c_u64_both_carries; add_c_u64_chain_4_limbs;
   sub_b_u64_no_borrow; sub_b_u64_borrow_in; sub_b_u64_borrow_out; sub_b_u64_both_borrows; sub_b_u64_chain_4_limbs].
Proof. destruct profile, arch; repeat constructor; vm_compute; reflexivity. Qed.

(** Every test of extended_prec.rs above passes. *)
Lemma extended_prec_tests_pass (profile : BuildProfile) (arch : TargetArch) : Forall (fun result => result = Ret tt)
  [wide_mul_u32_zero; wide_mul_u32_one; wide_mul_u32_small; wide_mul_u32_max_times_max; wide_mul_u64_zero;
   wide_mul_u64_one; wide_mul_u64_small; wide_mul_u64_max_times_max; muladd1_u32_basic;
   muladd1_u32_max_squared_plus_max; muladd1_u64_max_squared_plus_max; muladd2_u32_basic;
   muladd2_u32_max_squared_plus_two_max; muladd2_u64_max_squared_plus_two_max; smul_u32_positive_positive;
   smul_u32_negative_negative; smul_u32_positive_negative; smul_u32_zero; smul_u64_positive_positive;
   smul_u64_negative_negative; smul_u64_mixed_sign; smul_u64_zero; mul_acc_from_zero; mul_acc32_from_zero;
   mul_acc_into_nonzero; mul_acc_carry_into_u; mul_acc_carry_into_t; mul_double_acc_equals_two_mul_acc;
   mul_double_acc32_equals_two_mul_acc32; mul_double_acc_small].
Proof. destruct profile, arch; repeat constructor; vm_compute; reflexivity. Qed.
