(* ===== verification/SuiteLayout.v ===== *)
(** * The unit tests of memory layout ([crates/platform/src/pad.rs], [crates/layout])

    The tests beside the code, statement by statement, on the definitions of
    [Layout], and that they pass on either architecture. *)

From Stdlib Require Import ZArith.
From stdpp Require Import base decidable numbers option tactics strings list.
From S2P Require Import Prelude Testing FixedText Polymarket Ring Layout.

#[local] Open Scope Z_scope.

(** ** pad.rs *)

Section pad_tests.
Context `{BuildProfile} `{TargetArch}.

Definition cache_padded_alignment : outcome unit :=
  assert_eq (Z.of_nat (l_align (cache_padded (c_layout (c_int U64))))) 128.
Definition cache_padded_deref : outcome unit :=
  let padded := padded_new 42 in assert_eq (padded_deref padded) 42.
Definition cache_padded_deref_mut : outcome unit :=
  let padded := padded_new 42 in let padded := padded_new 99 in assert_eq (padded_deref padded) 99.
Definition cache_line_native_alignment : outcome unit :=
  let align := Z.of_nat (l_align (cache_line (c_layout (c_int U64)))) in
  assert_ ((bool_decide (align = 64)) || (bool_decide (align = 128))).
Definition cache_line_deref : outcome unit :=
  let padded := line_new 42 in assert_eq (line_deref padded) 42.
End pad_tests.

(** ** layout/src/lib.rs *)

Section layout_tests.
Context `{BuildProfile} `{TargetArch}.

Definition inspect_u64 : outcome unit :=
  let info := inspect ((lit "u64")) (c_layout (c_int U64)) in _ ← assert_eq (li_size info) 8;
  _ ← assert_eq (li_align info) 8; assert_eq (li_cache_lines info) 1.
Definition inspect_large_type : outcome unit :=
  let info := inspect ((lit "[u8; 128]")) (Layout (128 * l_size (c_layout (c_int U8))) (l_align (c_layout (c_int
    U8)))) in _ ← assert_eq (li_size info) 128; assert_eq (li_cache_lines info) 2.
Definition seqlock_layout_assertions : outcome unit :=
  _ ← assert_ (128 <=? (Z.of_nat (l_align (struct_layout (seqlock_fields (c_layout (c_int U64)))))));
  assert_ (136 <=? (Z.of_nat (l_size (struct_layout (seqlock_fields (c_layout (c_int U64))))))).
Definition event_layout_assertions : outcome unit :=
  _ ← assert_eq (li_size (inspect ((lit "HotEvent")) (c_layout c_hot_event))) 64;
  _ ← assert_eq (offset_of [c_layout c_header; c_layout c_body] 0) 0;
  _ ← assert_eq (li_size (inspect ((lit "EventHeader")) (c_layout c_header))) 24;
  _ ← assert_eq (li_size (inspect ((lit "EventBody")) (c_layout c_body))) 40;
  _ ← assert_eq (li_size (inspect ((lit "BookDeltaPayload")) (c_layout c_book_delta))) 24;
  _ ← assert_eq (li_size (inspect ((lit "TradePayload")) (c_layout c_trade))) 24;
  _ ← assert_eq (li_size (inspect ((lit "TopOfBookPayload")) (c_layout c_top_of_book))) 32;
  _ ← assert_eq (li_size (inspect ((lit "OrderAckPayload")) (c_layout c_order_ack))) 24;
  _ ← assert_eq (li_size (inspect ((lit "FillPayload")) (c_layout c_fill))) 32;
  _ ← assert_eq (li_size (inspect ((lit "OrderRejectPayload")) (c_layout c_order_reject))) 24;
  _ ← assert_eq (li_size (inspect ((lit "TimerPayload")) (c_layout c_timer))) 8;
  _ ← assert_eq (li_size (inspect ((lit "HeartbeatPayload")) (c_layout c_heartbeat))) 4;
  assert_eq (li_cache_lines (inspect ((lit "HotEvent")) (c_layout c_hot_event))) 1.
End layout_tests.

(** * They pass *)

(** Every test of pad.rs above passes. *)
Lemma pad_tests_pass (profile : BuildProfile) (arch : TargetArch) : Forall (fun result => result = Ret tt)
  [cache_padded_alignment; cache_padded_deref; cache_padded_deref_mut; cache_line_native_alignment; cache_line_deref].
Proof. destruct profile, arch; repeat constructor; vm_compute; reflexivity. Qed.

(** Every test of layout/src/lib.rs above passes. *)
Lemma layout_tests_pass (profile : BuildProfile) (arch : TargetArch) : Forall (fun result => result = Ret tt)
  [inspect_u64; inspect_large_type; seqlock_layout_assertions; event_layout_assertions].
Proof. destruct profile, arch; repeat constructor; vm_compute; reflexivity. Qed.
