(* ===== verification/SuiteStrategy.v ===== *)
(** * The unit tests of the strategy crate ([crates/strategy])

    The tests beside the code, statement by statement, on the definitions of
    [Position], [Orders], [Queue] and [Strategy], and that they pass in either
    build profile and whatever the elementary functions return.  The tests that
    assert approximate values of those functions are left out. *)

From Stdlib Require Import ZArith.
From stdpp Require Import base decidable numbers option tactics strings list.
From S2P Require Import Prelude Testing Platform Float64 Fixed Types Queue Position Orders Strategy.

#[local] Open Scope Z_scope.

#[local] Instance order_state_eq_dec : EqDecision OrderState.
Proof. solve_decision. Defined.

(** ** intent.rs *)

Section strategy_intent_tests.
Context `{BuildProfile} `{Libm}.

Definition default_is_post : outcome unit :=
  let intent := intent_default in _ ← assert_eq (int_action intent) Post; _ ← assert_eq (int_strategy_id intent) 0;
  assert_eq (int_target_order_id intent) 0.
Definition repr_c_is_copy : outcome unit :=
  let a := {| int_instrument_id := inst_from_raw 1; int_side := Bid; int_price := ticks_from_raw 650;
  int_qty := lots_from_raw 100; int_action := Post; int_client_order_id := 42; int_target_order_id := 0;
  int_strategy_id := 1 |} in let b := a in assert_eq (int_client_order_id a) (int_client_order_id b).
Definition cancel_intent_has_target : outcome unit :=
  let intent := {| int_instrument_id := int_instrument_id intent_default; int_side := int_side intent_default;
  int_price := int_price intent_default; int_qty := int_qty intent_default; int_action := Cancel;
  int_client_order_id := int_client_order_id intent_default; int_target_order_id := 123;
  int_strategy_id := int_strategy_id intent_default |} in _ ← assert_eq (int_action intent) Cancel;
  assert_eq (int_target_order_id intent) 123.
Definition amend_has_both_ids : outcome unit :=
  let intent := {| int_instrument_id := int_instrument_id intent_default; int_side := int_side intent_default;
  int_price := int_price intent_default; int_qty := int_qty intent_default; int_action := Amend;
  int_client_order_id := 456; int_target_order_id := 123; int_strategy_id := int_strategy_id intent_default |} in
  _ ← assert_eq (int_action intent) Amend; _ ← assert_eq (int_client_order_id intent) 456;
  assert_eq (int_target_order_id intent) 123.
End strategy_intent_tests.

(** ** risk.rs *)

Section strategy_risk_tests.
Context `{BuildProfile} `{Libm}.

Definition risk_check_result_is_copy : outcome unit :=
  let r := Pass in let r2 := r in assert_eq r r2.
Definition all_variants_are_distinct : outcome unit :=
  let variants := [Pass; RejectPosition; RejectCapital; RejectOrderCount; RejectRate; RejectFeedUnhealthy] in
  for_each (fun _ '(i, a) => for_each (fun _ '(j, b) => (if bool_decide (i = j) then _ ← assert_eq a b;
  Ret tt else _ ← assert_ne a b;
  Ret tt)) tt (zip (seqZ 0 (Z.of_nat (length variants))) variants)) tt (zip (seqZ 0 (Z.of_nat (length variants)))
    variants).
Definition risk_limits_clone : outcome unit :=
  let limits := {| max_position_per_instrument := lots_from_raw 100; max_capital_deployed := fixed_ZERO;
  max_worst_case_loss := fixed_ZERO; max_orders_live := 10; max_intents_per_sec := 5; max_replaces_per_min := 20;
  capital_budget := fixed_ZERO |} in let cloned := limits in
  _ ← assert_eq (lots_to_raw (max_position_per_instrument cloned)) 100; assert_eq (max_orders_live cloned) 10.
End strategy_risk_tests.

(** ** position.rs *)

Definition test_price (p : Z) : outcome (FixedI64 6) := expect (from_int p).
Definition test_instrument : InstrumentId := inst_from_raw 1.

Section strategy_position_tests.
Context `{BuildProfile} `{Libm}.

Definition new_position_is_flat : outcome unit :=
  let pos := position_new test_instrument in _ ← assert_ (slots_is_zero (pos_qty pos));
  _ ← assert_ (fixed_is_zero (avg_entry pos)); _ ← assert_ (fixed_is_zero (realized_pnl pos));
  assert_eq (fill_count pos) 0.
Definition buy_increases_position : outcome unit :=
  let pos := position_new test_instrument in r ← test_price 100; pos ← pos_on_fill pos Bid (lots_from_raw 10) r;
  _ ← assert_eq (slots_to_raw (pos_qty pos)) 10; r2 ← test_price 100; _ ← assert_eq (avg_entry pos) r2;
  assert_eq (fill_count pos) 1.
Definition buy_twice_updates_vwap : outcome unit :=
  let pos := position_new test_instrument in r ← test_price 100; pos ← pos_on_fill pos Bid (lots_from_raw 10) r;
  r2 ← test_price 200; pos ← pos_on_fill pos Bid (lots_from_raw 10) r2; _ ← assert_eq (slots_to_raw (pos_qty pos)) 20;
  r3 ← test_price 150; _ ← assert_eq (avg_entry pos) r3; assert_eq (fill_count pos) 2.
Definition sell_decreases_position : outcome unit :=
  let pos := position_new test_instrument in r ← test_price 100; pos ← pos_on_fill pos Bid (lots_from_raw 10) r;
  r2 ← test_price 110; pos ← pos_on_fill pos Ask (lots_from_raw 5) r2; _ ← assert_eq (slots_to_raw (pos_qty pos)) 5;
  r3 ← test_price 50; _ ← assert_eq (realized_pnl pos) r3; assert_eq (fill_count pos) 2.
Definition sell_to_flat_zeroes_avg_entry : outcome unit :=
  let pos := position_new test_instrument in r ← test_price 100; pos ← pos_on_fill pos Bid (lots_from_raw 10) r;
  r2 ← test_price 120; pos ← pos_on_fill pos Ask (lots_from_raw 10) r2; _ ← assert_ (slots_is_zero (pos_qty pos));
  _ ← assert_ (fixed_is_zero (avg_entry pos)); r3 ← test_price 200; assert_eq (realized_pnl pos) r3.
Definition unrealized_pnl_long : outcome unit :=
  let pos := position_new test_instrument in r ← test_price 100; pos ← pos_on_fill pos Bid (lots_from_raw 10) r;
  r2 ← test_price 110; r3 ← test_price 100; assert_eq (unrealized_pnl pos r2) r3.
Definition unrealized_pnl_short : outcome unit :=
  let pos := position_new test_instrument in r ← test_price 100; pos ← pos_on_fill pos Ask (lots_from_raw 10) r;
  r2 ← test_price 90; r3 ← test_price 100; _ ← assert_eq (unrealized_pnl pos r2) r3; r4 ← test_price 110;
  r5 ← test_price (-100); assert_eq (unrealized_pnl pos r4) r5.
Definition position_flip_long_to_short : outcome unit :=
  let pos := position_new test_instrument in r ← test_price 100; pos ← pos_on_fill pos Bid (lots_from_raw 100) r;
  r2 ← test_price 120; pos ← pos_on_fill pos Ask (lots_from_raw 150) r2;
  _ ← assert_eq (slots_to_raw (pos_qty pos)) (-50); r3 ← test_price 120; _ ← assert_eq (avg_entry pos) r3;
  r4 ← test_price 2000; _ ← assert_eq (realized_pnl pos) r4; assert_eq (fill_count pos) 2.
Definition notional_long_position : outcome unit :=
  let pos := position_new test_instrument in r ← test_price 100; pos ← pos_on_fill pos Bid (lots_from_raw 10) r;
  r2 ← test_price 200; r3 ← notional pos r2; r4 ← test_price 2000; assert_eq r3 r4.
Definition notional_short_position : outcome unit :=
  let pos := position_new test_instrument in r ← test_price 100; pos ← pos_on_fill pos Ask (lots_from_raw 5) r;
  r2 ← test_price 100; r3 ← notional pos r2; r4 ← test_price 500; assert_eq r3 r4.
Definition notional_flat_position : outcome unit :=
  let pos := position_new test_instrument in r ← test_price 100; r2 ← notional pos r; assert_ (fixed_is_zero r2).
Definition total_pnl_combines_realized_and_unrealized : outcome unit :=
  let pos := position_new test_instrument in r ← test_price 100; pos ← pos_on_fill pos Bid (lots_from_raw 10) r;
  r2 ← test_price 110; pos ← pos_on_fill pos Ask (lots_from_raw 5) r2; r3 ← test_price 120; r4 ← test_price 150;
  assert_eq (total_pnl pos r3) r4.
Definition unrealized_pnl_flat_returns_zero : outcome unit :=
  let pos := position_new test_instrument in r ← test_price 100; assert_ (fixed_is_zero (unrealized_pnl pos r)).
End strategy_position_tests.

(** ** order_tracker.rs *)

Definition tracker_make_order (id : Z) : TrackedOrder := {|
  client_order_id := id; exchange_order_id := 0; strategy_id := 0; ord_instrument := inst_from_raw 1; ord_side := Bid;
  ord_price := ticks_from_raw 650; original_qty := lots_from_raw 100; filled_qty := lots_ZERO; ord_state := Pending;
  created_at_ns := 1000; acked_at_ns := 0 |}.

Section strategy_order_tracker_tests.
Context `{BuildProfile} `{Libm}.

Definition track_and_ack : outcome unit :=
  let tracker := tracker_new in let order := tracker_make_order 1 in '(tracker, r) ← on_intent_sent tracker order;
  _ ← assert_ (is_ok r); _ ← assert_eq (active_count tracker) 1; let tracker := on_ack tracker 1 42 999 in
  o ← expect (get tracker 1); _ ← assert_eq (ord_state o) Live; _ ← assert_eq (exchange_order_id o) 42;
  assert_eq (acked_at_ns o) 999.
Definition fill_updates_qty : outcome unit :=
  let tracker := tracker_new in '(tracker, r) ← on_intent_sent tracker (tracker_make_order 1); _ ← expect_ok r;
  let tracker := on_ack tracker 1 0 100 in tracker ← tracker_on_fill tracker 1 (lots_from_raw 30);
  o ← expect (get tracker 1); _ ← assert_eq (lots_to_raw (filled_qty o)) 30; _ ← assert_eq (ord_state o) Live;
  r3 ← remaining_qty o; assert_eq (lots_to_raw r3) 70.
Definition full_fill_transitions_to_filled : outcome unit :=
  let tracker := tracker_new in '(tracker, r) ← on_intent_sent tracker (tracker_make_order 1); _ ← expect_ok r;
  let tracker := on_ack tracker 1 0 100 in tracker ← tracker_on_fill tracker 1 (lots_from_raw 100);
  o ← expect (get tracker 1); _ ← assert_eq (ord_state o) Filled; assert_eq (active_count tracker) 0.
Definition cancel_ack : outcome unit :=
  let tracker := tracker_new in '(tracker, r) ← on_intent_sent tracker (tracker_make_order 1); _ ← expect_ok r;
  let tracker := on_ack tracker 1 0 100 in let tracker := on_cancel_ack tracker 1 in o ← expect (get tracker 1);
  _ ← assert_eq (ord_state o) Cancelled; assert_eq (active_count tracker) 0.
Definition reject : outcome unit :=
  let tracker := tracker_new in '(tracker, r) ← on_intent_sent tracker (tracker_make_order 1); _ ← expect_ok r;
  let tracker := on_reject tracker 1 in o ← expect (get tracker 1); _ ← assert_eq (ord_state o) Rejected;
  assert_eq (active_count tracker) 0.
Definition capacity_full_returns_error : outcome unit :=
  let tracker := tracker_new in
  tracker ← for_each (fun tracker i => '(tracker, r) ← on_intent_sent tracker (tracker_make_order (wrap U64 i));
  _ ← expect_ok r; Ret tracker) tracker (seqZ 0 (Z.of_nat MAX_TRACKED_ORDERS));
  '(tracker, result) ← on_intent_sent tracker (tracker_make_order 999); assert_ (is_err result).
Definition open_qty_by_instrument_side : outcome unit :=
  let tracker := tracker_new in let o := tracker_make_order 1 in let o := {| client_order_id := client_order_id o;
  exchange_order_id := exchange_order_id o; strategy_id := strategy_id o; ord_instrument := ord_instrument o;
  ord_side := ord_side o; ord_price := ord_price o; original_qty := lots_from_raw 100; filled_qty := filled_qty o;
  ord_state := ord_state o; created_at_ns := created_at_ns o; acked_at_ns := acked_at_ns o |} in
  '(tracker, r) ← on_intent_sent tracker o; _ ← expect_ok r; let tracker := on_ack tracker 1 0 100 in
  let o2 := tracker_make_order 2 in let o2 := {| client_order_id := client_order_id o2;
  exchange_order_id := exchange_order_id o2; strategy_id := strategy_id o2; ord_instrument := ord_instrument o2;
  ord_side := ord_side o2; ord_price := ord_price o2; original_qty := lots_from_raw 50; filled_qty := filled_qty o2;
  ord_state := ord_state o2; created_at_ns := created_at_ns o2; acked_at_ns := acked_at_ns o2 |} in
  '(tracker, r2) ← on_intent_sent tracker o2; _ ← expect_ok r2; let tracker := on_ack tracker 2 0 100 in
  qty ← open_qty tracker (inst_from_raw 1) Bid; assert_eq (lots_to_raw qty) 150.
Definition terminal_slots_reclaimed : outcome unit :=
  let tracker := tracker_new in
  tracker ← for_each (fun tracker i => '(tracker, r) ← on_intent_sent tracker (tracker_make_order (wrap U64 i));
  _ ← expect_ok r; Ret tracker) tracker (seqZ 0 (Z.of_nat MAX_TRACKED_ORDERS));
  let tracker := on_ack tracker 0 0 100 in tracker ← tracker_on_fill tracker 0 (lots_from_raw 100);
  let tracker := on_reject tracker 1 in let tracker := on_ack tracker 2 0 100 in
  let tracker := on_cancel_ack tracker 2 in '(tracker, r2) ← on_intent_sent tracker (tracker_make_order 100);
  _ ← assert_ (is_ok r2); '(tracker, r3) ← on_intent_sent tracker (tracker_make_order 101); _ ← assert_ (is_ok r3);
  '(tracker, r4) ← on_intent_sent tracker (tracker_make_order 102); _ ← assert_ (is_ok r4);
  '(tracker, r5) ← on_intent_sent tracker (tracker_make_order 103); assert_ (is_err r5).
Definition fill_clamped_at_original_qty : outcome unit :=
  let tracker := tracker_new in let o := tracker_make_order 1 in let o := {| client_order_id := client_order_id o;
  exchange_order_id := exchange_order_id o; strategy_id := strategy_id o; ord_instrument := ord_instrument o;
  ord_side := ord_side o; ord_price := ord_price o; original_qty := lots_from_raw 100; filled_qty := filled_qty o;
  ord_state := ord_state o; created_at_ns := created_at_ns o; acked_at_ns := acked_at_ns o |} in
  '(tracker, r) ← on_intent_sent tracker o; _ ← expect_ok r; let tracker := on_ack tracker 1 0 100 in
  tracker ← tracker_on_fill tracker 1 (lots_from_raw 120); o ← expect (get tracker 1);
  _ ← assert_eq (lots_to_raw (filled_qty o)) 100; assert_eq (ord_state o) Filled.
Definition fill_ignored_on_terminal_order : outcome unit :=
  let tracker := tracker_new in '(tracker, r) ← on_intent_sent tracker (tracker_make_order 1); _ ← expect_ok r;
  let tracker := on_ack tracker 1 0 100 in tracker ← tracker_on_fill tracker 1 (lots_from_raw 100);
  _ ← assert_eq (active_count tracker) 0; tracker ← tracker_on_fill tracker 1 (lots_from_raw 50);
  o ← expect (get tracker 1); _ ← assert_eq (lots_to_raw (filled_qty o)) 100; assert_eq (active_count tracker) 0.
Definition active_orders_iterator : outcome unit :=
  let tracker := tracker_new in '(tracker, r) ← on_intent_sent tracker (tracker_make_order 1); _ ← expect_ok r;
  '(tracker, r2) ← on_intent_sent tracker (tracker_make_order 2); _ ← expect_ok r2;
  let tracker := on_ack tracker 2 0 100 in tracker ← tracker_on_fill tracker 2 (lots_from_raw 100); let count := 0 in
  let found_id := 0 in '(count, found_id) ← for_each (fun '(count, found_id) o => let count := (count + 1) in
  let found_id := client_order_id o in Ret (count, found_id)) (count, found_id) (active_orders tracker);
  _ ← assert_eq count 1; assert_eq found_id 1.
Definition open_qty_no_matching_orders_returns_zero : outcome unit :=
  let tracker := tracker_new in qty ← open_qty tracker (inst_from_raw 99) Ask; assert_eq (lots_to_raw qty) 0.
Definition open_qty_excludes_filled_orders : outcome unit :=
  let tracker := tracker_new in let o := tracker_make_order 1 in let o := {| client_order_id := client_order_id o;
  exchange_order_id := exchange_order_id o; strategy_id := strategy_id o; ord_instrument := ord_instrument o;
  ord_side := ord_side o; ord_price := ord_price o; original_qty := lots_from_raw 100; filled_qty := filled_qty o;
  ord_state := ord_state o; created_at_ns := created_at_ns o; acked_at_ns := acked_at_ns o |} in
  '(tracker, r) ← on_intent_sent tracker o; _ ← expect_ok r; let tracker := on_ack tracker 1 0 100 in
  tracker ← tracker_on_fill tracker 1 (lots_from_raw 100); qty ← open_qty tracker (inst_from_raw 1) Bid;
  assert_eq (lots_to_raw qty) 0.
Definition default_tracker_is_empty : outcome unit :=
  let tracker := tracker_new in _ ← assert_eq (active_count tracker) 0;
  assert_eq (Z.of_nat (length (active_orders tracker))) 0.
End strategy_order_tracker_tests.

(** ** exposure.rs *)

Definition exposure_make_order (id : Z) (instrument_id : InstrumentId) (side : Side) (qty : Z) : TrackedOrder := {|
  client_order_id := id; exchange_order_id := 0; strategy_id := 0; ord_instrument := instrument_id; ord_side := side;
  ord_price := ticks_from_raw 100; original_qty := lots_from_raw qty; filled_qty := lots_ZERO; ord_state := Live;
  created_at_ns := 1000; acked_at_ns := 2000 |}.

Section strategy_exposure_tests.
Context `{BuildProfile} `{Libm}.

Definition worst_case_qty_no_position_no_orders : outcome unit :=
  let positions := [] in let orders := tracker_new in let view := {| positions := positions;
  view_orders := orders |} in wc ← worst_case_qty view (inst_from_raw 1) Bid; assert_eq wc slots_ZERO.
Definition worst_case_qty_bid_adds_open_orders : outcome unit :=
  let pos := position_new (inst_from_raw 1) in let pos := {| pos_instrument := pos_instrument pos;
  pos_qty := slots_from_raw 10; avg_entry := avg_entry pos; realized_pnl := realized_pnl pos;
  fill_count := fill_count pos |} in let positions := [pos] in let orders := tracker_new in
  '(orders, r) ← on_intent_sent orders (exposure_make_order 1 (inst_from_raw 1) Bid 5); _ ← expect_ok r;
  let view := {| positions := positions; view_orders := orders |} in wc ← worst_case_qty view (inst_from_raw 1) Bid;
  assert_eq wc (slots_from_raw 15).
Definition worst_case_qty_ask_subtracts_open_orders : outcome unit :=
  let pos := position_new (inst_from_raw 1) in let pos := {| pos_instrument := pos_instrument pos;
  pos_qty := slots_from_raw 10; avg_entry := avg_entry pos; realized_pnl := realized_pnl pos;
  fill_count := fill_count pos |} in let positions := [pos] in let orders := tracker_new in
  '(orders, r) ← on_intent_sent orders (exposure_make_order 1 (inst_from_raw 1) Ask 3); _ ← expect_ok r;
  let view := {| positions := positions; view_orders := orders |} in wc ← worst_case_qty view (inst_from_raw 1) Ask;
  assert_eq wc (slots_from_raw 7).
Definition total_notional_at_risk_single_instrument : outcome unit :=
  let pos := position_new (inst_from_raw 1) in let pos := {| pos_instrument := pos_instrument pos;
  pos_qty := slots_from_raw 10; avg_entry := avg_entry pos; realized_pnl := realized_pnl pos;
  fill_count := fill_count pos |} in let positions := [pos] in let orders := tracker_new in
  let view := {| positions := positions; view_orders := orders |} in r ← test_price 50;
  let mid_prices := [(inst_from_raw 1, r)] in total ← total_notional_at_risk view mid_prices; r3 ← test_price 500;
  assert_eq total r3.
Definition total_notional_at_risk_unmatched_instrument_is_zero : outcome unit :=
  let pos := position_new (inst_from_raw 2) in let pos := {| pos_instrument := pos_instrument pos;
  pos_qty := slots_from_raw 10; avg_entry := avg_entry pos; realized_pnl := realized_pnl pos;
  fill_count := fill_count pos |} in let positions := [pos] in let orders := tracker_new in
  let view := {| positions := positions; view_orders := orders |} in r ← test_price 50;
  let mid_prices := [(inst_from_raw 1, r)] in total ← total_notional_at_risk view mid_prices;
  assert_eq total fixed_ZERO.
End strategy_exposure_tests.

(** ** queue.rs *)

Section strategy_queue_tests.
Context `{BuildProfile} `{Libm}.

Definition register_order_at_back_of_queue : outcome unit :=
  let qe := queue_new (f64_of_Z 3) in
  '(qe, r) ← register_order qe 1 (inst_from_raw 0) Bid (ticks_from_raw 650) (lots_from_raw 100) (lots_from_raw 500);
  _ ← expect_ok r; ahead ← expect (queue_ahead qe 1); assert_eq (lots_to_raw ahead) 500.
Definition trade_reduces_queue_ahead : outcome unit :=
  let qe := queue_new (f64_of_Z 3) in
  '(qe, r) ← register_order qe 1 (inst_from_raw 0) Bid (ticks_from_raw 650) (lots_from_raw 100) (lots_from_raw 500);
  _ ← expect_ok r; qe ← on_trade qe (inst_from_raw 0) Bid (ticks_from_raw 650) (lots_from_raw 200);
  ahead ← expect (queue_ahead qe 1); assert_eq (lots_to_raw ahead) 300.
Definition trade_at_different_price_no_effect : outcome unit :=
  let qe := queue_new (f64_of_Z 3) in
  '(qe, r) ← register_order qe 1 (inst_from_raw 0) Bid (ticks_from_raw 650) (lots_from_raw 100) (lots_from_raw 500);
  _ ← expect_ok r; qe ← on_trade qe (inst_from_raw 0) Bid (ticks_from_raw 640) (lots_from_raw 200);
  r2 ← expect (queue_ahead qe 1); assert_eq (lots_to_raw r2) 500.
Definition cancelled_order_removed : outcome unit :=
  let qe := queue_new (f64_of_Z 3) in
  '(qe, r) ← register_order qe 1 (inst_from_raw 0) Bid (ticks_from_raw 650) (lots_from_raw 100) (lots_from_raw 500);
  _ ← expect_ok r; let qe := order_cancelled qe 1 in assert_ (is_none (queue_ahead qe 1)).
Definition partial_fill_keeps_order_tracked : outcome unit :=
  let qe := queue_new (f64_of_Z 3) in
  '(qe, r) ← register_order qe 1 (inst_from_raw 0) Bid (ticks_from_raw 650) (lots_from_raw 100) (lots_from_raw 500);
  _ ← expect_ok r; qe ← order_filled qe 1 (lots_from_raw 40); ahead ← expect (queue_ahead qe 1);
  _ ← assert_eq (lots_to_raw ahead) 0; order ← expect (queue_find qe 1); assert_eq (lots_to_raw (qo_qty order)) 60.
Definition full_fill_removes_order : outcome unit :=
  let qe := queue_new (f64_of_Z 3) in
  '(qe, r) ← register_order qe 1 (inst_from_raw 0) Bid (ticks_from_raw 650) (lots_from_raw 100) (lots_from_raw 500);
  _ ← expect_ok r; qe ← order_filled qe 1 (lots_from_raw 100); assert_ (is_none (queue_ahead qe 1)).
Definition per_instrument_take_rate : outcome unit :=
  let qe := queue_new (f64_of_Z 3) in
  _ ← assert_ (f64_lt (f64_abs (f64_sub (take_rate qe (inst_from_raw 1) Bid) (f64_of_Z 1))) f64_EPSILON);
  qe ← on_trade qe (inst_from_raw 1) Bid (ticks_from_raw 650) (lots_from_raw 50);
  let rate1 := take_rate qe (inst_from_raw 1) Bid in let rate2 := take_rate qe (inst_from_raw 2) Bid in
  _ ← assert_ (f64_lt (f64_abs (f64_sub rate2 (f64_of_Z 1))) f64_EPSILON);
  assert_ (f64_lt f64_EPSILON (f64_abs (f64_sub rate1 rate2))).
Definition fill_probability_unknown_order_returns_zero : outcome unit :=
  let qe := queue_new (f64_of_Z 3) in p ← fill_probability qe 999 (f64_of_Z 60); assert_ (f64_lt p f64_EPSILON).
Definition on_level_change_increase_is_noop : outcome unit :=
  let qe := queue_new (f64_of_Z 3) in
  '(qe, r) ← register_order qe 1 (inst_from_raw 0) Bid (ticks_from_raw 650) (lots_from_raw 100) (lots_from_raw 300);
  _ ← expect_ok r;
  qe ← on_level_change qe (inst_from_raw 0) Bid (ticks_from_raw 650) (lots_from_raw 400) (lots_from_raw 600);
  r2 ← expect (queue_ahead qe 1); assert_eq (lots_to_raw r2) 300.
Definition take_rate_unknown_instrument_returns_default : outcome unit :=
  let qe := queue_new (f64_of_Z 3) in let bid_rate := take_rate qe (inst_from_raw 42) Bid in
  let ask_rate := take_rate qe (inst_from_raw 42) Ask in
  _ ← assert_ (f64_lt (f64_abs (f64_sub bid_rate (f64_of_Z 1))) f64_EPSILON);
  assert_ (f64_lt (f64_abs (f64_sub ask_rate (f64_of_Z 1))) f64_EPSILON).
Definition register_order_capacity_full_returns_error : outcome unit :=
  let qe := queue_new (f64_of_Z 3) in
  qe ← for_each (fun qe i => '(qe, r) ← register_order qe (wrap U64 i) (inst_from_raw 0) Bid (ticks_from_raw 100)
    (lots_from_raw 1) (lots_from_raw 0); _ ← expect_ok r; Ret qe) qe (seqZ 0 (Z.of_nat MAX_QUEUED_ORDERS));
  '(qe, err) ← register_order qe (wrap U64 (Z.of_nat MAX_QUEUED_ORDERS)) (inst_from_raw 0) Bid (ticks_from_raw 100)
    (lots_from_raw 1) (lots_from_raw 0); assert_ (is_err err).
Definition default_uses_power_3 : outcome unit :=
  let qe := queue_default in
  '(qe, r) ← register_order qe 1 (inst_from_raw 0) Bid (ticks_from_raw 100) (lots_from_raw 10) (lots_from_raw 50);
  _ ← expect_ok r; r2 ← expect (queue_ahead qe 1); assert_eq (lots_to_raw r2) 50.
Definition per_instrument_take_rate_ask_side_independent : outcome unit :=
  let qe := queue_new (f64_of_Z 3) in qe ← on_trade qe (inst_from_raw 0) Ask (ticks_from_raw 100) (lots_from_raw 80);
  let bid_rate := take_rate qe (inst_from_raw 0) Bid in
  _ ← assert_ (f64_lt (f64_abs (f64_sub bid_rate (f64_of_Z 1))) f64_EPSILON);
  let ask_rate := take_rate qe (inst_from_raw 0) Ask in
  assert_ (f64_lt f64_EPSILON (f64_abs (f64_sub ask_rate (f64_of_Z 1)))).
End strategy_queue_tests.

(** * They pass *)

(** Every test of intent.rs above passes. *)
Lemma strategy_intent_tests_pass (profile : BuildProfile) (libm : Libm) : Forall (fun result => result = Ret tt)
  [default_is_post; repr_c_is_copy; cancel_intent_has_target; amend_has_both_ids].
Proof. destruct profile; repeat constructor; vm_compute; reflexivity. Qed.

(** Every test of risk.rs above passes. *)
Lemma strategy_risk_tests_pass (profile : BuildProfile) (libm : Libm) : Forall (fun result => result = Ret tt)
  [risk_check_result_is_copy; all_variants_are_distinct; risk_limits_clone].
Proof. destruct profile; repeat constructor; vm_compute; reflexivity. Qed.

(** Every test of position.rs above passes. *)
Lemma strategy_position_tests_pass (profile : BuildProfile) (libm : Libm) : Forall (fun result => result = Ret tt)
  [new_position_is_flat; buy_increases_position; buy_twice_updates_vwap; sell_decreases_position;
   sell_to_flat_zeroes_avg_entry; unrealized_pnl_long; unrealized_pnl_short; position_flip_long_to_short;
   notional_long_position; notional_short_position; notional_flat_position;
   total_pnl_combines_realized_and_unrealized; unrealized_pnl_flat_returns_zero].
Proof. destruct profile; repeat constructor; vm_compute; reflexivity. Qed.

(** Every test of order_tracker.rs above passes. *)
Lemma strategy_order_tracker_tests_pass (profile : BuildProfile) (libm : Libm) : Forall (fun result => result = Ret tt)
  [track_and_ack; fill_updates_qty; full_fill_transitions_to_filled; cancel_ack; reject; capacity_full_returns_error;
   open_qty_by_instrument_side; terminal_slots_reclaimed; fill_clamped_at_original_qty;
   fill_ignored_on_terminal_order; active_orders_iterator; open_qty_no_matching_orders_returns_zero;
   open_qty_excludes_filled_orders; default_tracker_is_empty].
Proof. destruct profile; repeat constructor; vm_compute; reflexivity. Qed.

(** Every test of exposure.rs above passes. *)
Lemma strategy_exposure_tests_pass (profile : BuildProfile) (libm : Libm) : Forall (fun result => result = Ret tt)
  [worst_case_qty_no_position_no_orders; worst_case_qty_bid_adds_open_orders;
   worst_case_qty_ask_subtracts_open_orders; total_notional_at_risk_single_instrument;
   total_notional_at_risk_unmatched_instrument_is_zero].
Proof. destruct profile; repeat constructor; vm_compute; reflexivity. Qed.

(** Every test of queue.rs above passes. *)
Lemma strategy_queue_tests_pass (profile : BuildProfile) (libm : Libm) : Forall (fun result => result = Ret tt)
  [register_order_at_back_of_queue; trade_reduces_queue_ahead; trade_at_different_price_no_effect;
   cancelled_order_removed; partial_fill_keeps_order_tracked; full_fill_removes_order; per_instrument_take_rate;
   fill_probability_unknown_order_returns_zero; on_level_change_increase_is_noop;
   take_rate_unknown_instrument_returns_default; register_order_capacity_full_returns_error; default_uses_power_3;
   per_instrument_take_rate_ask_side_independent].
Proof. destruct profile; repeat constructor; vm_compute; reflexivity. Qed.
