(* ===== verification/SuiteRing.v ===== *)
(** * The unit tests of the rings ([crates/core], [crates/queue])

    The tests beside the code, statement by statement, on the definitions of
    [Ring], [CopyRing] and [Handles], and that they pass in either build profile
    and on either architecture. *)

From Stdlib Require Import ZArith.
From stdpp Require Import base decidable numbers option tactics strings list.
From S2P Require Import Prelude Testing Platform FixedText Texts Ring CopyRing Handles.

#[local] Open Scope Z_scope.

#[local] Existing Instance Pow2Masked.
#[local] Instance push_error_eq_dec {T} `{EqDecision T} : EqDecision (PushError T).
Proof. solve_decision. Defined.
#[local] Instance ring_queue_error_eq_dec : EqDecision QueueError.
Proof. solve_decision. Defined.

(** ** core/src/lib.rs *)

Section core_tests.
Context `{BuildProfile} `{TargetArch}.

Definition counting_instr_tracks_push_pop : outcome unit :=
  let instr := counting_new in let instr := on_push instr in let instr := on_push instr in
  let instr := on_pop instr in let instr := on_push_full instr in let instr := on_pop_empty instr in
  let instr := on_pop_empty instr in _ ← assert_eq (c_pushes instr) 2; _ ← assert_eq (c_pops instr) 1;
  _ ← assert_eq (c_push_full instr) 1; assert_eq (c_pop_empty instr) 2.
Definition branch_wrap_normal : outcome unit :=
  r ← wrap_index (IndexStrategy := BranchWrap) 0 1024; _ ← assert_eq r 0;
  r2 ← wrap_index (IndexStrategy := BranchWrap) 500 1024; _ ← assert_eq r2 500;
  r3 ← wrap_index (IndexStrategy := BranchWrap) 1023 1024; assert_eq r3 1023.
Definition branch_wrap_at_boundary : outcome unit :=
  r ← wrap_index (IndexStrategy := BranchWrap) 1024 1024; _ ← assert_eq r 0;
  r2 ← wrap_index (IndexStrategy := BranchWrap) 2048 1024; assert_eq r2 0.
End core_tests.

(** ** storage.rs *)

Section storage_tests.
Context `{BuildProfile} `{TargetArch}.

Definition inline_storage_capacity : outcome unit :=
  storage ← inline_storage (T := Z) 8; assert_eq (capacity_of storage) 8.
Definition heap_storage_rounds_up_capacity : outcome unit :=
  storage ← heap_storage (T := Z) 5; assert_eq (capacity_of storage) 8.
End storage_tests.

(** ** raw/slot.rs *)

Section slot_tests.
Context `{BuildProfile} `{TargetArch}.

Definition write_then_read_u64 : outcome unit :=
  storage ← inline_storage (T := Z) 4; storage ← write_slot storage 0 42; '(val, storage) ← read_slot storage 0;
  assert_eq val 42.
Definition write_then_read_string : outcome unit :=
  storage ← inline_storage (T := bytes) 4; storage ← write_slot storage 1 (txt "hello");
  '(val, storage) ← read_slot storage 1; assert_eq val (txt "hello").
End slot_tests.

(** ** engine.rs *)

Section ring_engine_tests.
Context `{BuildProfile} `{TargetArch}.

Definition push_pop_single : outcome unit :=
  r ← inline_storage (T := Z) 4; let engine := ring_new r no_instr in '(engine, r2) ← try_push engine 42;
  _ ← assert_ (is_ok r2); '(engine, r3) ← try_pop engine; assert_eq (ok_of r3) (Some 42).
Definition push_full_returns_value : outcome unit :=
  r ← inline_storage (T := Z) 4; let engine := ring_new r no_instr in '(engine, r2) ← try_push engine 1;
  _ ← assert_ (is_ok r2); '(engine, r3) ← try_push engine 2; _ ← assert_ (is_ok r3);
  '(engine, r4) ← try_push engine 3; _ ← assert_ (is_ok r4); '(engine, err) ← try_push engine 4;
  assert_eq err (Err (Full 4)).
Definition pop_empty_returns_error : outcome unit :=
  r ← inline_storage (T := Z) 4; let engine := ring_new r no_instr in '(engine, r2) ← try_pop engine;
  assert_eq r2 (Err QueueEmpty).
Definition ring_engine_fifo_ordering : outcome unit :=
  r ← inline_storage (T := Z) 4; let engine := ring_new r no_instr in
  engine ← for_each (fun engine i => '(engine, r2) ← try_push engine i; _ ← assert_ (is_ok r2);
  Ret engine) engine (seqZ 0 3); engine ← for_each (fun engine i => '(engine, r3) ← try_pop engine;
  _ ← assert_eq (ok_of r3) (Some i); Ret engine) engine (seqZ 0 3); Ret tt.
Definition wraparound : outcome unit :=
  r ← inline_storage (T := Z) 4; let engine := ring_new r no_instr in
  engine ← for_each (fun engine round => engine ← for_each (fun engine i => '(engine, r2) ← try_push engine ((round *
    3) + i); _ ← assert_ (is_ok r2); Ret engine) engine (seqZ 0 3);
  engine ← for_each (fun engine i => '(engine, r3) ← try_pop engine;
  _ ← assert_eq (ok_of r3) (Some ((round * 3) + i)); Ret engine) engine (seqZ 0 3); Ret engine) engine (seqZ 0 3);
  Ret tt.
Definition len_and_is_empty : outcome unit :=
  r ← inline_storage (T := Z) 4; let engine := ring_new r no_instr in r2 ← ring_is_empty engine; _ ← assert_ r2;
  r3 ← ring_len engine; _ ← assert_eq r3 0; '(engine, r4) ← try_push engine 1; _ ← assert_ (is_ok r4);
  r5 ← ring_is_empty engine; _ ← assert_ (negb r5); r6 ← ring_len engine; assert_eq r6 1.
Definition push_pop_bool_api : outcome unit :=
  r ← inline_storage (T := Z) 4; let engine := ring_new r no_instr in '(engine, r2) ← ring_push engine 42;
  _ ← assert_ r2; let out := 0 in '(engine, r3, out) ← ring_pop engine out; _ ← assert_ r3; assert_eq out 42.
Definition push_full_bool_returns_false : outcome unit :=
  r ← inline_storage (T := Z) 4; let engine := ring_new r no_instr in '(engine, r2) ← ring_push engine 1;
  _ ← assert_ r2; '(engine, r3) ← ring_push engine 2; _ ← assert_ r3; '(engine, r4) ← ring_push engine 3;
  _ ← assert_ r4; '(engine, r5) ← ring_push engine 4; assert_ (negb r5).
Definition pop_empty_bool_returns_false : outcome unit :=
  r ← inline_storage (T := Z) 4; let engine := ring_new r no_instr in let out := 0 in
  '(engine, r2, out) ← ring_pop engine out; assert_ (negb r2).
Definition push_pop_bool_fifo : outcome unit :=
  r ← inline_storage (T := Z) 4; let engine := ring_new r no_instr in
  engine ← for_each (fun engine i => '(engine, r2) ← ring_push engine i; _ ← assert_ r2;
  Ret engine) engine (seqZ 0 3); engine ← for_each (fun engine i => let out := 0 in
  '(engine, r3, out) ← ring_pop engine out; _ ← assert_ r3; _ ← assert_eq out i; Ret engine) engine (seqZ 0 3); Ret tt.
End ring_engine_tests.

(** ** copy_ring/engine.rs *)

Definition new_engine `{BuildProfile} : outcome (CopyRingEngine Z NoInstr) :=
  st ← inline_storage 8; Ret (ring_new st no_instr).

Section copy_engine_tests.
Context `{BuildProfile} `{TargetArch}.

Definition copy_engine_push_pop_single : outcome unit :=
  engine ← new_engine; let val := 42 in let out := 0 in '(engine, r2) ← copy_push engine val; _ ← assert_ r2;
  '(engine, r3, out) ← copy_pop engine out; _ ← assert_ r3; assert_eq out 42.
Definition push_full_returns_false : outcome unit :=
  engine ← new_engine; engine ← for_each (fun engine i => '(engine, r2) ← copy_push engine i; _ ← assert_ r2;
  Ret engine) engine (seqZ 0 7); '(engine, r3) ← copy_push engine 99; assert_ (negb r3).
Definition pop_empty_returns_false : outcome unit :=
  engine ← new_engine; let out := 0 in '(engine, r2, out) ← copy_pop engine out; assert_ (negb r2).
Definition copy_engine_fifo_ordering : outcome unit :=
  engine ← new_engine; engine ← for_each (fun engine i => '(engine, r2) ← copy_push engine i; _ ← assert_ r2;
  Ret engine) engine (seqZ 0 7); engine ← for_each (fun engine i => let out := 0 in
  '(engine, r3, out) ← copy_pop engine out; _ ← assert_ r3; _ ← assert_eq out i; Ret engine) engine (seqZ 0 7); Ret tt.
Definition copy_engine_wraparound : outcome unit :=
  engine ← new_engine;
  engine ← for_each (fun engine round => engine ← for_each (fun engine i => r2 ← arith U64 ((round * 10) + i);
  '(engine, r3) ← copy_push engine r2; _ ← assert_ r3; Ret engine) engine (seqZ 0 5);
  engine ← for_each (fun engine i => let out := 0 in '(engine, r4, out) ← copy_pop engine out; _ ← assert_ r4;
  r5 ← arith U64 ((round * 10) + i); _ ← assert_eq out r5; Ret engine) engine (seqZ 0 5);
  Ret engine) engine (seqZ 0 3); Ret tt.
Definition push_batch_full_capacity : outcome unit :=
  engine ← new_engine; let src := seqZ 0 7 in '(engine, pushed) ← push_batch engine src; _ ← assert_eq pushed 7;
  let more := [100; 101] in '(engine, r3) ← push_batch engine more; assert_eq r3 0.
Definition pop_batch_all : outcome unit :=
  engine ← new_engine; let src := seqZ 0 5 in '(engine, r2) ← push_batch engine src; let dst := replicate 5 0 in
  '(engine, popped, dst) ← pop_batch engine dst; _ ← assert_eq popped 5; assert_eq dst [0; 1; 2; 3; 4].
Definition push_batch_partial : outcome unit :=
  engine ← new_engine; let first := seqZ 0 5 in '(engine, r2) ← push_batch engine first; _ ← assert_eq r2 5;
  let second := seqZ 10 (15 - 10) in '(engine, r3) ← push_batch engine second; assert_eq r3 2.
Definition pop_batch_partial : outcome unit :=
  engine ← new_engine; let src := seqZ 0 3 in '(engine, r2) ← push_batch engine src; let dst := replicate 10 0 in
  '(engine, popped, dst) ← pop_batch engine dst; _ ← assert_eq popped 3; r4 ← sub_slice dst 0 3; assert_eq r4 [0; 1;
  2].
Definition batch_empty_slice : outcome unit :=
  engine ← new_engine; '(engine, r2) ← push_batch engine []; _ ← assert_eq r2 0; let dst := replicate 0 0 in
  '(engine, r3, dst) ← pop_batch engine dst; assert_eq r3 0.
Definition batch_wraparound : outcome unit :=
  engine ← new_engine; let vals := seqZ 0 6 in '(engine, r2) ← push_batch engine vals; let drain := replicate 6 0 in
  '(engine, r3, drain) ← pop_batch engine drain; let wrap := seqZ 100 (105 - 100) in
  '(engine, r4) ← push_batch engine wrap; _ ← assert_eq r4 5; let out := replicate 5 0 in
  '(engine, r5, out) ← pop_batch engine out; _ ← assert_eq r5 5; assert_eq out [100; 101; 102; 103; 104].
Definition pop_batch_wraparound_contiguous : outcome unit :=
  engine ← new_engine; let fill := seqZ 0 6 in '(engine, r2) ← push_batch engine fill; let drain := replicate 6 0 in
  '(engine, r3, drain) ← pop_batch engine drain; let wrap_src := seqZ 300 (305 - 300) in
  '(engine, r4) ← push_batch engine wrap_src; let out := replicate 5 0 in
  '(engine, popped, out) ← pop_batch engine out; _ ← assert_eq popped 5; assert_eq out [300; 301; 302; 303; 304].
Definition push_batch_wraparound_contiguous : outcome unit :=
  engine ← new_engine; let fill := seqZ 0 6 in '(engine, r2) ← push_batch engine fill; let drain := replicate 6 0 in
  '(engine, r3, drain) ← pop_batch engine drain; let wrap_src := seqZ 200 (205 - 200) in
  '(engine, pushed) ← push_batch engine wrap_src; _ ← assert_eq pushed 5; let out := replicate 5 0 in
  '(engine, popped, out) ← pop_batch engine out; _ ← assert_eq popped 5; assert_eq out [200; 201; 202; 203; 204].
Definition batch_fifo_ordering : outcome unit :=
  engine ← new_engine; engine ← for_each (fun engine round => r2 ← arith U64 (round * 7); r3 ← arith U64 (round + 1);
  r4 ← arith U64 (r3 * 7); let src := seqZ r2 (r4 - r2) in '(engine, pushed) ← push_batch engine src;
  _ ← assert_eq pushed (Z.of_nat (length src)); let dst := replicate (Z.to_nat pushed) 0 in
  '(engine, popped, dst) ← pop_batch engine dst; _ ← assert_eq popped pushed; _ ← assert_eq dst src;
  Ret engine) engine (seqZ 0 10); Ret tt.
Definition len_and_capacity : outcome unit :=
  engine ← new_engine; r2 ← copy_capacity engine; _ ← assert_eq r2 7; r3 ← copy_len engine; _ ← assert_eq r3 0;
  r4 ← copy_is_empty engine; _ ← assert_ r4; '(engine, r5) ← copy_push engine 1; r6 ← copy_len engine;
  _ ← assert_eq r6 1; r7 ← copy_is_empty engine; _ ← assert_ (negb r7); let out := 0 in
  '(engine, r8, out) ← copy_pop engine out; r9 ← copy_len engine; assert_eq r9 0.
Definition push_pop_batch_differential : outcome unit :=
  for_each (fun _ fill_first => for_each (fun _ batch_size => engine ← new_engine;
  engine ← for_each (fun engine i => '(engine, r2) ← copy_push engine (wrap U64 i); _ ← assert_ r2;
  Ret engine) engine (seqZ 0 fill_first); let drain := replicate (Z.to_nat fill_first) 0 in
  '(engine, r3, drain) ← pop_batch engine drain; r4 ← arith U64 (100 + (wrap U64 batch_size));
  let src := seqZ 100 (r4 - 100) in '(engine, pushed) ← push_batch engine src;
  let dst := replicate (Z.to_nat pushed) 0 in '(engine, popped, dst) ← pop_batch engine dst;
  _ ← assert_eq popped pushed; r7 ← sub_slice src 0 pushed; assert_eq dst r7) tt (seqZ 1 (7 + 1 - 1))) tt (seqZ 0 7).
End copy_engine_tests.

(** ** presets.rs *)

Section presets_tests.
Context `{BuildProfile} `{TargetArch}.

Definition spsc_ring_preset_works : outcome unit :=
  ring ← SpscRing (T := Z) 8; '(ring, r2) ← raw_try_push ring 1; _ ← assert_ (is_ok r2);
  '(ring, r3) ← raw_try_pop ring; assert_eq (ok_of r3) (Some 1).
Definition heap_preset_works : outcome unit :=
  ring ← SpscRingHeap (T := Z) 8; '(ring, r2) ← raw_try_push ring 3; _ ← assert_ (is_ok r2);
  '(ring, r3) ← raw_try_pop ring; assert_eq (ok_of r3) (Some 3).
Definition instrumented_preset_tracks : outcome unit :=
  ring ← SpscRingInstrumented (T := Z) 8; '(ring, r2) ← raw_try_push ring 1; _ ← assert_ (is_ok r2);
  '(ring, r3) ← raw_try_pop ring; '(ring, r4) ← raw_try_pop ring; let instr := raw_instrumentation ring in
  _ ← assert_eq (c_pushes instr) 1; _ ← assert_eq (c_pops instr) 1; assert_eq (c_pop_empty instr) 1.
End presets_tests.

(** ** handle.rs *)

(** The two handles share the ring, so the tests thread it. *)
Definition split_handles_push_pop `{BuildProfile} `{TargetArch} : outcome unit :=
  ring ← SpscRing (T := Z) 4; let s := split_ring ring in
  '(s, r) ← tx_try_push s 10; _ ← assert_ (is_ok r); '(_, r) ← rx_try_pop s; assert_eq (ok_of r) (Some 10).
Definition heap_split_handles `{BuildProfile} `{TargetArch} : outcome unit :=
  ring ← SpscRingHeap (T := Z) 8; let s := split_ring ring in
  s ← for_each (fun s i => '(s, r) ← tx_try_push s i; _ ← assert_ (is_ok r); Ret s) s (seqZ 0 7);
  _ ← for_each (fun s i => '(s, r) ← rx_try_pop s; _ ← assert_eq (ok_of r) (Some i); Ret s) s (seqZ 0 7); Ret tt.

Section handle_tests.
Context `{BuildProfile} `{TargetArch}.

Definition raw_ring_push_pop : outcome unit :=
  r ← inline_storage (T := Z) 4; let ring := with_strategies Pow2Masked r no_instr in
  '(ring, r2) ← raw_try_push ring 7; _ ← assert_ (is_ok r2); '(ring, r3) ← raw_try_pop ring;
  assert_eq (ok_of r3) (Some 7).
End handle_tests.

(** * They pass *)

(** Every test of core/src/lib.rs above passes. *)
Lemma core_tests_pass (profile : BuildProfile) (arch : TargetArch) : Forall (fun result => result = Ret tt)
  [counting_instr_tracks_push_pop; branch_wrap_normal; branch_wrap_at_boundary].
Proof. destruct profile, arch; repeat constructor; vm_compute; reflexivity. Qed.

(** Every test of storage.rs above passes. *)
Lemma storage_tests_pass (profile : BuildProfile) (arch : TargetArch) : Forall (fun result => result = Ret tt)
  [inline_storage_capacity; heap_storage_rounds_up_capacity].
Proof. destruct profile, arch; repeat constructor; vm_compute; reflexivity. Qed.

(** Every test of raw/slot.rs above passes. *)
Lemma slot_tests_pass (profile : BuildProfile) (arch : TargetArch) : Forall (fun result => result = Ret tt)
  [write_then_read_u64; write_then_read_string].
Proof. destruct profile, arch; repeat constructor; vm_compute; reflexivity. Qed.

(** Every test of engine.rs above passes. *)
Lemma ring_engine_tests_pass (profile : BuildProfile) (arch : TargetArch) : Forall (fun result => result = Ret tt)
  [push_pop_single; push_full_returns_value; pop_empty_returns_error; ring_engine_fifo_ordering; wraparound;
   len_and_is_empty; push_pop_bool_api; push_full_bool_returns_false; pop_empty_bool_returns_false;
   push_pop_bool_fifo].
Proof. destruct profile, arch; repeat constructor; vm_compute; reflexivity. Qed.

(** Every test of copy_ring/engine.rs above passes. *)
Lemma copy_engine_tests_pass (profile : BuildProfile) (arch : TargetArch) : Forall (fun result => result = Ret tt)
  [copy_engine_push_pop_single; push_full_returns_false; pop_empty_returns_false; copy_engine_fifo_ordering;
   copy_engine_wraparound; push_batch_full_capacity; pop_batch_all; push_batch_partial; pop_batch_partial;
   batch_empty_slice; batch_wraparound; pop_batch_wraparound_contiguous; push_batch_wraparound_contiguous;
   batch_fifo_ordering; len_and_capacity; push_pop_batch_differential].
Proof. destruct profile, arch; repeat constructor; vm_compute; reflexivity. Qed.

(** Every test of presets.rs above passes. *)
Lemma presets_tests_pass (profile : BuildProfile) (arch : TargetArch) : Forall (fun result => result = Ret tt)
  [spsc_ring_preset_works; heap_preset_works; instrumented_preset_tracks].
Proof. destruct profile, arch; repeat constructor; vm_compute; reflexivity. Qed.

(** Every test of handle.rs above passes. *)
Lemma handle_tests_pass (profile : BuildProfile) (arch : TargetArch) : Forall (fun result => result = Ret tt)
  [split_handles_push_pop; heap_split_handles; raw_ring_push_pop].
Proof. destruct profile, arch; repeat constructor; vm_compute; reflexivity. Qed.
