(* ===== verification/SuiteRegistry.v ===== *)
(** * The unit tests of the registry and of the feed monitor ([crates/registry], [crates/transport])

    The tests beside the code, statement by statement, on the definitions of
    [Registry], [Texts] and [Feed], and that they pass. *)

From Stdlib Require Import ZArith.
From stdpp Require Import base decidable numbers option tactics gmap strings list.
From S2P Require Import Prelude Testing Fixed FixedText Types Registry Timer Feed Texts.

#[local] Open Scope Z_scope.

(** ** registry/src/lib.rs *)

Definition poly_meta : outcome (InstrumentMeta 6) := expect_ok (meta_new (from_raw 10000) (from_raw 10000)).
Definition registry_window (token slug : bytes) (start end_ : Z) : PolymarketWindowBinding :=
  {| token_id := token; market_slug := slug; window_start := from_nanos start; window_end := from_nanos end_;
     condition_id := Some (txt "0xcondition") |}.

Section registry_tests.


Definition insert_and_lookup : outcome unit :=
  let reg := registry_new (D := 6) in let key := key_prediction Btc M15 Up in r ← poly_meta;
  let '(reg, r2) := reg_insert reg key r None None in id ← expect_ok r2; _ ← assert_eq (inst_to_raw id) 1;
  _ ← assert_eq (by_key reg key) (Some id); _ ← assert_ (is_some (reg_meta reg id));
  assert_eq (Z.of_nat (reg_len reg)) 1.
Definition registry_insert_prediction_pair : outcome unit :=
  let reg := registry_new (D := 6) in r ← poly_meta;
  let '(reg, r2) := insert_prediction_pair reg Btc M15 r (Some (txt "BTCUSDT")) in '(up, down) ← expect_ok r2;
  _ ← assert_eq (inst_to_raw up) 1; _ ← assert_eq (inst_to_raw down) 2;
  _ ← assert_eq (by_binance_symbol reg (txt "BTCUSDT")) (Some up); assert_eq (Z.of_nat (reg_len reg)) 2.
Definition duplicate_key_rejected : outcome unit :=
  let reg := registry_new (D := 6) in let key := key_prediction Btc M15 Up in r ← poly_meta;
  let '(reg, r2) := reg_insert reg key r None None in r3 ← expect_ok r2; r4 ← poly_meta;
  let '(reg, r5) := reg_insert reg key r4 None None in assert_ (is_err r5).
Definition polymarket_bind_current : outcome unit :=
  let reg := registry_new (D := 6) in r ← poly_meta; let '(reg, r2) := insert_prediction_pair reg Btc M15 r None in
  '(up, _) ← expect_ok r2;
  let '(reg, r4) := bind_polymarket_current reg up (registry_window (txt "token_a") (txt "btc-15m-1") 100 200) in
  _ ← expect_ok r4; assert_eq (by_polymarket_token_id reg (txt "token_a")) (Some up).
Definition polymarket_bind_next_and_promote : outcome unit :=
  let reg := registry_new (D := 6) in r ← poly_meta; let '(reg, r2) := insert_prediction_pair reg Btc M15 r None in
  '(up, _) ← expect_ok r2;
  let '(reg, r4) := bind_polymarket_current reg up (registry_window (txt "token_w1") (txt "btc-15m-1") 100 200) in
  _ ← expect_ok r4; _ ← assert_eq (by_polymarket_token_id reg (txt "token_w1")) (Some up);
  let '(reg, r5) := bind_polymarket_next reg up (registry_window (txt "token_w2") (txt "btc-15m-2") 200 300) in
  _ ← expect_ok r5; _ ← assert_eq (by_polymarket_token_id reg (txt "token_w2")) (Some up);
  _ ← assert_eq (by_polymarket_token_id reg (txt "token_w1")) (Some up);
  _ ← assert_eq (by_polymarket_token_id reg (txt "token_w2")) (Some up);
  let '(reg, r6) := promote_polymarket_next reg up in _ ← expect_ok r6;
  _ ← assert_eq (by_polymarket_token_id reg (txt "token_w2")) (Some up);
  _ ← assert_eq (by_polymarket_token_id reg (txt "token_w1")) None; assert_eq (inst_to_raw up) 1.
Definition polymarket_unbind : outcome unit :=
  let reg := registry_new (D := 6) in r ← poly_meta; let '(reg, r2) := insert_prediction_pair reg Btc M15 r None in
  '(up, _) ← expect_ok r2;
  let '(reg, r4) := bind_polymarket_current reg up (registry_window (txt "token_c") (txt "slug") 100 200) in
  _ ← expect_ok r4;
  let '(reg, r5) := bind_polymarket_next reg up (registry_window (txt "token_n") (txt "slug2") 200 300) in
  _ ← expect_ok r5; let '(reg, r6) := unbind_polymarket reg up in _ ← expect_ok r6;
  _ ← assert_eq (by_polymarket_token_id reg (txt "token_c")) None;
  _ ← assert_eq (by_polymarket_token_id reg (txt "token_n")) None; assert_ (is_some (reg_get reg up)).
Definition rebind_replaces_old_token : outcome unit :=
  let reg := registry_new (D := 6) in r ← poly_meta; let '(reg, r2) := insert_prediction_pair reg Btc M15 r None in
  '(up, _) ← expect_ok r2;
  let '(reg, r4) := bind_polymarket_current reg up (registry_window (txt "old_token") (txt "slug1") 100 200) in
  _ ← expect_ok r4; _ ← assert_eq (by_polymarket_token_id reg (txt "old_token")) (Some up);
  let '(reg, r5) := bind_polymarket_current reg up (registry_window (txt "new_token") (txt "slug2") 200 300) in
  _ ← expect_ok r5; _ ← assert_eq (by_polymarket_token_id reg (txt "new_token")) (Some up);
  assert_eq (by_polymarket_token_id reg (txt "old_token")) None.
Definition promote_without_next_fails : outcome unit :=
  let reg := registry_new (D := 6) in r ← poly_meta; let '(reg, r2) := insert_prediction_pair reg Btc M15 r None in
  '(up, _) ← expect_ok r2; let '(reg, result) := promote_polymarket_next reg up in assert_ (is_err result).
Definition instrument_key_symbol : outcome unit :=
  let key := key_prediction Btc M15 Up in _ ← assert_eq (symbol key) (txt "BTC-M15-Up");
  let ref_key := key_spot_reference Btc Usdt in assert_eq (symbol ref_key) (txt "BTC-USDT-Ref").
Definition full_rotation_lifecycle : outcome unit :=
  let reg := registry_new (D := 6) in r ← poly_meta;
  let '(reg, r2) := insert_prediction_pair reg Btc M15 r (Some (txt "BTCUSDT")) in '(up, down) ← expect_ok r2;
  let '(reg, r4) := bind_polymarket_current reg up (registry_window (txt "w1_up") (txt "btc-15m-w1") 0 900) in
  _ ← expect_ok r4;
  let '(reg, r5) := bind_polymarket_current reg down (registry_window (txt "w1_dn") (txt "btc-15m-w1") 0 900) in
  _ ← expect_ok r5;
  let '(reg, r6) := bind_polymarket_next reg up (registry_window (txt "w2_up") (txt "btc-15m-w2") 900 1800) in
  _ ← expect_ok r6;
  let '(reg, r7) := bind_polymarket_next reg down (registry_window (txt "w2_dn") (txt "btc-15m-w2") 900 1800) in
  _ ← expect_ok r7; _ ← assert_eq (by_polymarket_token_id reg (txt "w1_up")) (Some up);
  _ ← assert_eq (by_polymarket_token_id reg (txt "w2_up")) (Some up);
  _ ← assert_eq (by_polymarket_token_id reg (txt "w1_dn")) (Some down);
  _ ← assert_eq (by_polymarket_token_id reg (txt "w2_dn")) (Some down);
  let '(reg, r8) := promote_polymarket_next reg up in _ ← expect_ok r8;
  let '(reg, r9) := promote_polymarket_next reg down in _ ← expect_ok r9;
  _ ← assert_eq (by_polymarket_token_id reg (txt "w1_up")) None;
  _ ← assert_eq (by_polymarket_token_id reg (txt "w2_up")) (Some up);
  _ ← assert_eq (by_polymarket_token_id reg (txt "w1_dn")) None;
  _ ← assert_eq (by_polymarket_token_id reg (txt "w2_dn")) (Some down); _ ← assert_eq (inst_to_raw up) 1;
  _ ← assert_eq (inst_to_raw down) 2; assert_eq (by_binance_symbol reg (txt "BTCUSDT")) (Some up).
End registry_tests.

(** ** monitor.rs *)

Section monitor_tests.
Context `{BuildProfile}.

(** The counters of the test, and the monitor. *)
#[local] Abbreviation state := (list Z * FeedMonitor)%type.
Definition counters_of (cs : list Z) (n : nat) : Z := nth n cs 0.
(** [mon.register(..)], its result ignored, as [.ok();] does. *)
Definition register_ (id : Z) (counter : nat) (s : state) : outcome state :=
  '(m, _) ← mon_register (counters_of s.1) s.2 (source_from_raw id) counter; Ret (s.1, m).
(** [check_all], without and with an assertion about the number. *)
Definition checks (s : state) : outcome state := Ret (s.1, (check_all (counters_of s.1) s.2).1).
Definition checks_find (n : nat) (s : state) : outcome state :=
  let '(m, stale) := check_all (counters_of s.1) s.2 in _ ← assert_eq stale n; Ret (s.1, m).
(** [counter.fetch_add(k)]. *)
Definition advance (counter : nat) (k : Z) (s : state) : outcome state :=
  Ret (alter (fun v => wrap U64 (v + k)) counter s.1, s.2).
Definition feed_stale_is (id : Z) (b : bool) (s : state) : outcome state :=
  _ ← assert_eq (is_stale s.2 (source_from_raw id)) b; Ret s.
#[local] Abbreviation monitor_test cs := (run_test (Ret (cs, monitor_new))).

Definition new_monitor_is_empty : outcome unit :=
  _ ← assert_eq (mon_len monitor_new) 0%nat; assert_ (mon_is_empty monitor_new).
Definition first_check_establishes_baseline : outcome unit :=
  monitor_test [0] [register_ 1 0; checks_find 0; feed_stale_is 1 false].
Definition unchanged_after_baseline_is_stale : outcome unit :=
  monitor_test [0] [register_ 1 0; checks; checks_find 1; feed_stale_is 1 true].
Definition active_feed_not_stale : outcome unit :=
  monitor_test [0] [register_ 1 0; checks; advance 0 5; checks_find 0; feed_stale_is 1 false].
Definition recovery_clears_stale : outcome unit :=
  monitor_test [0] [register_ 1 0; checks; checks_find 1; feed_stale_is 1 true; advance 0 1; checks_find 0; feed_stale_is 1 false].
Definition multiple_feeds : outcome unit :=
  monitor_test [0; 0] [register_ 1 0; register_ 2 1; checks; advance 0 1; checks_find 1; feed_stale_is 1 false; feed_stale_is 2 true].
Definition max_feeds_exceeded : outcome unit :=
  m ← for_each (fun m i => '(m, r) ← mon_register (fun _ => 0) m (source_from_raw (wrap U16 (Z.of_nat i))) i;
                           _ ← assert_ (is_ok r); Ret m) monitor_new (seq 0 MAX_FEEDS);
  '(_, r) ← mon_register (fun _ => 0) m (source_from_raw (wrap U16 (Z.of_nat MAX_FEEDS))) MAX_FEEDS; assert_ (is_err r).
Definition monitor_full_error_display : outcome unit :=
  let e := MonitorFull in _ ← assert_ (negb (bool_decide (display e = []))); assert_eq (display e) (txt "feed monitor is full").
Definition stale_feeds_iterator : outcome unit :=
  monitor_test [0; 0] [register_ 1 0; register_ 2 1; checks; checks; fun s => _ ← assert_eq (length (stale_feeds s.2)) 2%nat; Ret s].
End monitor_tests.

(** * They pass *)

(** Every test of registry/src/lib.rs above passes. *)
Lemma registry_tests_pass  : Forall (fun result => result = Ret tt)
  [insert_and_lookup; registry_insert_prediction_pair; duplicate_key_rejected; polymarket_bind_current;
   polymarket_bind_next_and_promote; polymarket_unbind; rebind_replaces_old_token; promote_without_next_fails;
   instrument_key_symbol; full_rotation_lifecycle].
Proof. repeat constructor; vm_compute; reflexivity. Qed.

(** Every test of monitor.rs above passes. *)
Lemma monitor_tests_pass (profile : BuildProfile) : Forall (fun result => result = Ret tt)
  [new_monitor_is_empty; first_check_establishes_baseline; unchanged_after_baseline_is_stale; active_feed_not_stale;
   recovery_clears_stale; multiple_feeds; max_feeds_exceeded; monitor_full_error_display; stale_feeds_iterator].
Proof. destruct profile; repeat constructor; vm_compute; reflexivity. Qed.
