(* ===== verification/SuiteDecoders.v ===== *)
(** * The unit tests of the decoders ([crates/polymarket], [crates/binance])

    The tests beside the code, from the bytes of a frame to the events.  The
    deserialisers, which are third-party code, are instantiated with a reader
    for the part of JSON the frames of the tests use: objects, arrays, strings
    without escapes and unsigned integers; a message is read as a record of its
    named fields, unknown fields are skipped and missing ones are an error. *)

From Stdlib Require Import ZArith Ascii String.
From stdpp Require Import base decidable numbers option tactics gmap list.
From S2P Require Import Prelude Testing Fixed FixedText Types Events Registry Polymarket Binance.

#[local] Open Scope Z_scope.

#[local] Instance decoder_error_eq_dec : EqDecision DecoderError.
Proof. solve_decision. Defined.

(** ** A JSON reader *)

(** JSON text as a literal, with single quotes for the double ones. *)
Definition json (s : string) : bytes := (fun b => if b =? 39 then c_quote else b) <$> lit s.

Inductive value := VString (s : bytes) | VNumber (n : Z) | VArray (vs : list value) | VObject (fs : list (bytes * value)).

Fixpoint read_string (bs acc : bytes) : option (bytes * bytes) :=
  match bs with
  | [] => None
  | b :: bs => if b =? c_quote then Some (rev acc, bs) else if b =? 92 then None else read_string bs (b :: acc)
  end.

Fixpoint read_number (bs : bytes) (n : Z) : Z * bytes :=
  match bs with
  | b :: rest => if (48 <=? b) && (b <=? 57) then read_number rest (10 * n + (b - 48)) else (n, bs)
  | [] => (n, [])
  end.

(** A value, the values of an array and the fields of an object; every call
    consumes a byte or ends, so the length of the text is enough fuel. *)
Fixpoint read_value (fuel : nat) (bs : bytes) {struct fuel} : option (value * bytes) :=
  match fuel, bs with
  | S fuel, b :: rest =>
      if b =? c_quote then '(s, rest) ← read_string rest []; Some (VString s, rest)
      else if (48 <=? b) && (b <=? 57) then let '(n, rest) := read_number bs 0 in Some (VNumber n, rest)
      else if b =? 91 then
        match rest with
        | 93 :: rest => Some (VArray [], rest)
        | _ => '(vs, rest) ← read_values fuel rest; Some (VArray vs, rest)
        end
      else if b =? 123 then
        match rest with
        | 125 :: rest => Some (VObject [], rest)
        | _ => '(fs, rest) ← read_fields fuel rest; Some (VObject fs, rest)
        end
      else None
  | _, _ => None
  end
with read_values (fuel : nat) (bs : bytes) {struct fuel} : option (list value * bytes) :=
  match fuel with
  | S fuel =>
      '(v, rest) ← read_value fuel bs;
      match rest with
      | 44 :: rest => '(vs, rest) ← read_values fuel rest; Some (v :: vs, rest)
      | 93 :: rest => Some ([v], rest)
      | _ => None
      end
  | O => None
  end
with read_fields (fuel : nat) (bs : bytes) {struct fuel} : option (list (bytes * value) * bytes) :=
  match fuel, bs with
  | S fuel, 34 :: rest =>
      '(k, rest) ← read_string rest [];
      match rest with
      | 58 :: rest =>
          '(v, rest) ← read_value fuel rest;
          match rest with
          | 44 :: rest => '(fs, rest) ← read_fields fuel rest; Some ((k, v) :: fs, rest)
          | 125 :: rest => Some ([(k, v)], rest)
          | _ => None
          end
      | _ => None
      end
  | _, _ => None
  end.

(** A whole text. *)
Definition read_json (bs : bytes) : option value :=
  '(v, rest) ← read_value (S (length bs)) bs; match rest with [] => Some v | _ => None end.

Definition field (v : value) (k : string) : option value :=
  match v with VObject fs => (list_find (fun p => p.1 = lit k) fs) ≫= (fun p => Some p.2.2) | _ => None end.
Definition text_of (v : value) : option bytes := match v with VString s => Some s | _ => None end.
Definition text_field (v : value) (k : string) : option bytes := field v k ≫= text_of.
Definition levels_field (v : value) (k : string) : option (list BookLevel) :=
  vs ← (v ← field v k; match v with VArray vs => Some vs | _ => None end);
  mapM (fun v => p ← text_field v "price"; s ← text_field v "size"; Some {| lvl_price := p; lvl_size := s |}) vs.

#[local] Instance polymarket_reader : PolymarketJson := {|
  parse_book bs := v ← read_json bs; id ← text_field v "asset_id"; bids ← levels_field v "bids"; asks ← levels_field v "asks";
    Some {| bk_asset_id := id; bk_bids := bids; bk_asks := asks |};
  parse_price_change bs := v ← read_json bs; id ← text_field v "asset_id"; p ← text_field v "price"; s ← text_field v "size";
    side ← text_field v "side"; Some {| pc_asset_id := id; pc_price := p; pc_size := s; pc_side := side |};
  parse_trade bs := v ← read_json bs; id ← text_field v "asset_id"; p ← text_field v "price"; s ← text_field v "size";
    Some {| tm_asset_id := id; tm_price := p; tm_size := s; tm_side := text_field v "side" |} |}.

Definition ticker_of (v : value) : option BinanceBookTicker :=
  s ← text_field v "s"; b ← text_field v "b"; bq ← text_field v "B"; a ← text_field v "a"; aq ← text_field v "A";
  Some {| bt_s := s; bt_b := b; bt_bid_qty := bq; bt_a := a; bt_ask_qty := aq |}.
#[local] Instance binance_reader : BinanceJson := {|
  parse_ticker bs := v ← read_json bs; ticker_of v;
  parse_combined bs := v ← read_json bs; data ← field v "data"; t ← ticker_of data; Some {| bc_data := t |} |}.

Definition test_out : list HotEvent :=
  replicate 64 (ev_heartbeat timestamp_ZERO seqnum_ZERO (source_from_raw 0) flags_EMPTY {| hb_counter := 0 |}).

(** ** polymarket/src/market/decoder.rs *)

Definition test_registry : outcome (InstrumentRegistry 6 * InstrumentId) :=
  let reg := registry_new in
  meta ← expect_ok (meta_new (from_raw (D := 6) 10000) (from_raw (D := 6) 1000000));
  let key := key_prediction Btc M15 Up in
  let '(reg, r) := reg_insert reg key meta None (Some polymarket_default) in
  id ← expect_ok r;
  let '(reg, r) := bind_polymarket_current reg id {|
    token_id := lit "abc123"; market_slug := lit "btc-15m-up"; window_start := from_nanos 0;
    window_end := from_nanos 900000000000; condition_id := None |} in
  _ ← expect_ok r; Ret (reg, id).

Section polymarket_decoder_tests.
Context `{BuildProfile}.

Definition decode_price_change_produces_book_delta : outcome unit :=
  '(reg, instrument_id) ← test_registry; let decoder := polymarket_new (source_from_raw 10) reg in
  let buf := json "{'type':'price_change','asset_id':'abc123','price':'0.53','size':'100.0','side':'BUY'}" in
  let out := test_out in let ts := from_nanos 1000 in '(decoder, n, out) ← polymarket_decode decoder buf ts out;
  _ ← assert_eq n (1%nat); event ← index out 0; _ ← assert_eq (recv_ts (ev_header event)) ts;
  _ ← assert_eq (hdr_instrument_id (ev_header event)) instrument_id;
  _ ← assert_eq (hdr_source_id (ev_header event)) (source_from_raw 10);
  _ ← assert_ (flags_contains (hdr_flags (ev_header event)) LAST_IN_BATCH);
  match ev_body event with BookDelta p => _ ← assert_eq (bd_price p) (ticks_from_raw 53);
  _ ← assert_eq (bd_qty p) (lots_from_raw 100); _ ← assert_eq (bd_side p) Bid; _ ← assert_eq (bd_action p) ActChange;
  Ret tt | _ => _ ← assert_ false; Ret tt end.
Definition decode_book_produces_batch_with_last_in_batch : outcome unit :=
  '(reg, _) ← test_registry; let decoder := polymarket_new (source_from_raw 10) reg in
  let buf := json
    "{'type':'book','asset_id':'abc123','bids':[{'price':'0.50','size':'10.0'},{'price':'0.49','size':'20.0'}],'asks':[{'price':'0.51','size':'15.0'}]}" in
  let out := test_out in let ts := from_nanos 2000 in '(decoder, n, out) ← polymarket_decode decoder buf ts out;
  _ ← assert_eq n (3%nat); r3 ← index out 0; _ ← assert_ (flags_contains (hdr_flags (ev_header r3)) IS_SNAPSHOT);
  r4 ← index out 0; _ ← assert_ (negb (flags_contains (hdr_flags (ev_header r4)) LAST_IN_BATCH)); r5 ← index out 1;
  _ ← assert_ (flags_contains (hdr_flags (ev_header r5)) IS_SNAPSHOT); r6 ← index out 1;
  _ ← assert_ (negb (flags_contains (hdr_flags (ev_header r6)) LAST_IN_BATCH)); r7 ← index out 2;
  _ ← assert_ (flags_contains (hdr_flags (ev_header r7)) IS_SNAPSHOT); r8 ← index out 2;
  _ ← assert_ (flags_contains (hdr_flags (ev_header r8)) LAST_IN_BATCH); r9 ← index out 0;
  _ ← match ev_body r9 with BookDelta p => _ ← assert_eq (bd_side p) Bid; _ ← assert_eq (bd_depth p) 0;
  _ ← assert_eq (bd_price p) (ticks_from_raw 50); _ ← assert_eq (bd_action p) ActNew; Ret tt | _ => _ ← assert_ false;
  Ret tt end; r10 ← index out 1; _ ← match ev_body r10 with BookDelta p => _ ← assert_eq (bd_side p) Bid;
  _ ← assert_eq (bd_depth p) 1; _ ← assert_eq (bd_price p) (ticks_from_raw 49); Ret tt | _ => _ ← assert_ false;
  Ret tt end; r11 ← index out 2; match ev_body r11 with BookDelta p => _ ← assert_eq (bd_side p) Ask;
  _ ← assert_eq (bd_depth p) 0; _ ← assert_eq (bd_price p) (ticks_from_raw 51); Ret tt | _ => _ ← assert_ false;
  Ret tt end.
Definition decode_trade_produces_trade_event : outcome unit :=
  '(reg, _) ← test_registry; let decoder := polymarket_new (source_from_raw 10) reg in
  let buf := json "{'type':'last_trade_price','asset_id':'abc123','price':'0.55','size':'50.0','side':'SELL'}" in
  let out := test_out in let ts := from_nanos 3000 in '(decoder, n, out) ← polymarket_decode decoder buf ts out;
  _ ← assert_eq n (1%nat); event ← index out 0;
  _ ← assert_ (flags_contains (hdr_flags (ev_header event)) LAST_IN_BATCH);
  match ev_body event with Trade p => _ ← assert_eq (tr_price p) (ticks_from_raw 55);
  _ ← assert_eq (tr_qty p) (lots_from_raw 50); _ ← assert_eq (tr_aggressor p) Ask; Ret tt | _ => _ ← assert_ false;
  Ret tt end.
Definition decode_skips_non_hot_types : outcome unit :=
  '(reg, _) ← test_registry; let decoder := polymarket_new (source_from_raw 10) reg in let out := test_out in
  let ts := from_nanos 0 in
  '(decoder, out) ← for_each (fun '(decoder, out) msg_type => let json := (json "{'type':'" ++ msg_type ++ json
    "','asset_id':'abc123'}") in let buf := json in '(decoder, n, out) ← polymarket_decode decoder buf ts out;
  _ ← assert_eq n (0%nat); Ret (decoder, out)) (decoder, out) [lit "best_bid_ask"; lit "tick_size_change";
  lit "market_resolved"; lit "new_market"]; Ret tt.
Definition decode_unknown_token_returns_zero : outcome unit :=
  '(reg, _) ← test_registry; let decoder := polymarket_new (source_from_raw 10) reg in
  let buf := json "{'type':'price_change','asset_id':'unknown_token','price':'0.53','size':'100.0','side':'BUY'}" in
  let out := test_out in '(decoder, n, out) ← polymarket_decode decoder buf (from_nanos 0) out; assert_eq n (0%nat).
Definition decode_malformed_returns_zero : outcome unit :=
  '(reg, _) ← test_registry; let decoder := polymarket_new (source_from_raw 10) reg in let buf := lit "not json" in
  let out := test_out in '(decoder, n, out) ← polymarket_decode decoder buf (from_nanos 0) out; assert_eq n (0%nat).
Definition seq_increments_across_calls : outcome unit :=
  '(reg, _) ← test_registry; let decoder := polymarket_new (source_from_raw 10) reg in let out := test_out in
  let ts := from_nanos 0 in
  let buf1 := json "{'type':'price_change','asset_id':'abc123','price':'0.53','size':'100.0','side':'BUY'}" in
  '(decoder, n1, out) ← polymarket_decode decoder buf1 ts out; _ ← assert_eq n1 (1%nat); r3 ← index out 0;
  let seq1 := hdr_seq (ev_header r3) in
  let buf2 := json "{'type':'price_change','asset_id':'abc123','price':'0.54','size':'200.0','side':'SELL'}" in
  '(decoder, n2, out) ← polymarket_decode decoder buf2 ts out; _ ← assert_eq n2 (1%nat); r5 ← index out 0;
  let seq2 := hdr_seq (ev_header r5) in assert_ (seqnum_to_raw seq1 <? seqnum_to_raw seq2).
Definition peek_type_extracts_value : outcome unit :=
  let buf := json "{'type':'price_change','asset_id':'abc'}" in assert_eq (peek_type buf) (Some (lit "price_change")).
Definition peek_type_returns_none_for_missing : outcome unit :=
  let buf := json "{'asset_id':'abc'}" in assert_eq (peek_type buf) None.
Definition peek_type_returns_none_for_empty : outcome unit :=
  assert_eq (peek_type (lit "")) None.
Definition decode_empty_returns_zero : outcome unit :=
  '(reg, _) ← test_registry; let decoder := polymarket_new (source_from_raw 10) reg in let buf := ([] : bytes) in
  let out := test_out in '(decoder, n, out) ← polymarket_decode decoder buf (from_nanos 0) out; assert_eq n (0%nat).
Definition decode_trade_no_side_defaults_to_bid : outcome unit :=
  '(reg, _) ← test_registry; let decoder := polymarket_new (source_from_raw 10) reg in
  let buf := json "{'type':'last_trade_price','asset_id':'abc123','price':'0.55','size':'50.0'}" in
  let out := test_out in '(decoder, n, out) ← polymarket_decode decoder buf (from_nanos 0) out;
  _ ← assert_eq n (1%nat); r3 ← index out 0; match ev_body r3 with Trade p => _ ← assert_eq (tr_aggressor p) Bid;
  Ret tt | _ => _ ← assert_ false; Ret tt end.
Definition decode_trade_invalid_side_defaults_to_bid : outcome unit :=
  '(reg, _) ← test_registry; let decoder := polymarket_new (source_from_raw 10) reg in
  let buf := json "{'type':'last_trade_price','asset_id':'abc123','price':'0.55','size':'50.0','side':'INVALID'}" in
  let out := test_out in '(decoder, n, out) ← polymarket_decode decoder buf (from_nanos 0) out;
  _ ← assert_eq n (1%nat); r3 ← index out 0; match ev_body r3 with Trade p => _ ← assert_eq (tr_aggressor p) Bid;
  Ret tt | _ => _ ← assert_ false; Ret tt end.
Definition decode_price_change_invalid_price_returns_zero : outcome unit :=
  '(reg, _) ← test_registry; let decoder := polymarket_new (source_from_raw 10) reg in
  let buf := json "{'type':'price_change','asset_id':'abc123','price':'notanum','size':'100.0','side':'BUY'}" in
  let out := test_out in '(decoder, n, out) ← polymarket_decode decoder buf (from_nanos 0) out; assert_eq n (0%nat).
Definition decode_price_change_invalid_size_returns_zero : outcome unit :=
  '(reg, _) ← test_registry; let decoder := polymarket_new (source_from_raw 10) reg in
  let buf := json "{'type':'price_change','asset_id':'abc123','price':'0.53','size':'bad','side':'BUY'}" in
  let out := test_out in '(decoder, n, out) ← polymarket_decode decoder buf (from_nanos 0) out; assert_eq n (0%nat).
Definition decode_price_change_invalid_side_returns_zero : outcome unit :=
  '(reg, _) ← test_registry; let decoder := polymarket_new (source_from_raw 10) reg in
  let buf := json "{'type':'price_change','asset_id':'abc123','price':'0.53','size':'100.0','side':'HOLD'}" in
  let out := test_out in '(decoder, n, out) ← polymarket_decode decoder buf (from_nanos 0) out; assert_eq n (0%nat).
Definition decode_book_empty_levels_returns_zero : outcome unit :=
  '(reg, _) ← test_registry; let decoder := polymarket_new (source_from_raw 10) reg in
  let buf := json "{'type':'book','asset_id':'abc123','bids':[],'asks':[]}" in let out := test_out in
  '(decoder, n, out) ← polymarket_decode decoder buf (from_nanos 0) out; assert_eq n (0%nat).
Definition decode_book_skips_invalid_price_level : outcome unit :=
  '(reg, _) ← test_registry; let decoder := polymarket_new (source_from_raw 10) reg in
  let buf := json
    "{'type':'book','asset_id':'abc123','bids':[{'price':'bad','size':'10.0'},{'price':'0.50','size':'20.0'}],'asks':[]}" in
  let out := test_out in '(decoder, n, out) ← polymarket_decode decoder buf (from_nanos 0) out;
  _ ← assert_eq n (1%nat); r3 ← index out 0;
  match ev_body r3 with BookDelta p => _ ← assert_eq (bd_price p) (ticks_from_raw 50);
  _ ← assert_eq (bd_qty p) (lots_from_raw 20); _ ← assert_eq (bd_side p) Bid; Ret tt | _ => _ ← assert_ false;
  Ret tt end.
Definition peek_type_truncated_returns_none : outcome unit :=
  let truncated := json "{ 'type':'abc" in assert_eq (peek_type truncated) None.
End polymarket_decoder_tests.

(** ** binance/src/decoder.rs *)

Definition btc_ticker_json : bytes :=
  json "{'e':'bookTicker','s':'BTCUSDT','b':'67396.70','B':'8.819','a':'67396.90','A':'7.181','T':1775281508123,'E':1775281508123}".
Definition btc_combined_json : bytes :=
  json "{'stream':'btcusdt@bookTicker','data':{'e':'bookTicker','s':'BTCUSDT','b':'67396.70','B':'8.819','a':'67396.90','A':'7.181','T':1775281508123,'E':1775281508123}}".
Definition eth_combined_json : bytes :=
  json "{'stream':'ethusdt@bookTicker','data':{'e':'bookTicker','s':'ETHUSDT','b':'3456.70','B':'10.500','a':'3456.90','A':'5.200','T':1775281508123,'E':1775281508123}}".

Section binance_decoders.
Context `{BuildProfile}.
(** The metadata the helpers and tests build: ticks of 0.01, lots of 0.001. *)
Definition test_meta : outcome (InstrumentMeta 3) :=
  r ← from_str_decimal 3 (lit "0.01"); tick ← expect_ok r; r ← from_str_decimal 3 (lit "0.001"); lot ← expect_ok r;
  expect_ok (meta_new tick lot).
Definition test_decoder : outcome (BinanceDecoder 3) :=
  meta ← test_meta;
  r ← binance_new (source_from_raw 2) [{| bm_symbol := lit "BTCUSDT"; bm_instrument := inst_from_raw 1; bm_meta := meta |}];
  expect_ok r.
Definition multi_decoder : outcome (BinanceDecoder 3) :=
  meta ← test_meta;
  r ← binance_new (source_from_raw 2)
    [{| bm_symbol := lit "BTCUSDT"; bm_instrument := inst_from_raw 1; bm_meta := meta |};
     {| bm_symbol := lit "ETHUSDT"; bm_instrument := inst_from_raw 2; bm_meta := meta |}];
  expect_ok r.
End binance_decoders.

Section binance_decoder_tests.
Context `{BuildProfile}.

Definition decode_single_symbol : outcome unit :=
  decoder ← test_decoder; let buf := btc_ticker_json in let out := test_out in let ts := from_nanos 999 in
  '(decoder, n, out) ← binance_decode decoder buf ts out; _ ← assert_eq n (1%nat); event ← index out 0;
  _ ← assert_eq (recv_ts (ev_header event)) ts; _ ← assert_eq (hdr_instrument_id (ev_header event)) (inst_from_raw 1);
  _ ← assert_eq (hdr_source_id (ev_header event)) (source_from_raw 2);
  _ ← assert_eq (hdr_seq (ev_header event)) (seqnum_from_raw 1);
  match ev_body event with TopOfBookEv p => _ ← assert_eq (tp_bid_price p) (ticks_from_raw 6739670);
  _ ← assert_eq (tp_bid_qty p) (lots_from_raw 8819); _ ← assert_eq (tp_ask_price p) (ticks_from_raw 6739690);
  _ ← assert_eq (tp_ask_qty p) (lots_from_raw 7181); Ret tt | _ => r4 ← index out 0;
  _ ← assert_eq (event_kind r4) KTopOfBook; Ret tt end.
Definition decode_multi_symbol_btc : outcome unit :=
  decoder ← multi_decoder; let buf := btc_combined_json in let out := test_out in
  '(decoder, n, out) ← binance_decode decoder buf (from_nanos 0) out; _ ← assert_eq n (1%nat); r3 ← index out 0;
  assert_eq (hdr_instrument_id (ev_header r3)) (inst_from_raw 1).
Definition decode_multi_symbol_eth : outcome unit :=
  decoder ← multi_decoder; let buf := eth_combined_json in let out := test_out in
  '(decoder, n, out) ← binance_decode decoder buf (from_nanos 0) out; _ ← assert_eq n (1%nat); r3 ← index out 0;
  assert_eq (hdr_instrument_id (ev_header r3)) (inst_from_raw 2).
Definition decode_unknown_symbol_returns_zero : outcome unit :=
  decoder ← test_decoder;
  let buf := json
    "{'e':'bookTicker','s':'SOLUSDT','b':'100.00','B':'1.000','a':'100.10','A':'2.000','T':1775281508123,'E':1775281508123}" in
  let out := test_out in '(decoder, n, out) ← binance_decode decoder buf (from_nanos 0) out; assert_eq n (0%nat).
Definition decode_combined_stream_wrapper : outcome unit :=
  decoder ← test_decoder; let decoder := set_combined_stream decoder true in
  let buf := json
    "{'stream':'btcusdt@bookTicker','data':{'e':'bookTicker','s':'BTCUSDT','b':'67396.70','B':'8.819','a':'67396.90','A':'7.181','T':1775281508123,'E':1775281508123}}" in
  let out := test_out in '(decoder, n, out) ← binance_decode decoder buf (from_nanos 0) out; _ ← assert_eq n (1%nat);
  r3 ← index out 0; _ ← assert_eq (hdr_instrument_id (ev_header r3)) (inst_from_raw 1); r4 ← index out 0;
  match ev_body r4 with TopOfBookEv p => _ ← assert_eq (tp_bid_price p) (ticks_from_raw 6739670);
  Ret tt | _ => r5 ← index out 0; _ ← assert_eq (event_kind r5) KTopOfBook; Ret tt end.
Definition decode_increments_seq : outcome unit :=
  decoder ← test_decoder; let out := test_out in let ts := from_nanos 0 in let buf1 := btc_ticker_json in
  '(decoder, n1, out) ← binance_decode decoder buf1 ts out; _ ← assert_eq n1 (1%nat); r3 ← index out 0;
  let seq1 := hdr_seq (ev_header r3) in let buf2 := btc_ticker_json in
  '(decoder, n2, out) ← binance_decode decoder buf2 ts out; _ ← assert_eq n2 (1%nat); r5 ← index out 0;
  let seq2 := hdr_seq (ev_header r5) in assert_ (seqnum_to_raw seq1 <? seqnum_to_raw seq2).
Definition binance_decoder_decode_malformed_returns_zero : outcome unit :=
  decoder ← test_decoder; let buf := lit "not json" in let out := test_out in
  '(decoder, n, out) ← binance_decode decoder buf (from_nanos 0) out; assert_eq n (0%nat).
Definition binance_decoder_decode_empty_returns_zero : outcome unit :=
  decoder ← test_decoder; let buf := ([] : bytes) in let out := test_out in
  '(decoder, n, out) ← binance_decode decoder buf (from_nanos 0) out; assert_eq n (0%nat).
Definition too_many_symbols_errors : outcome unit :=
  r ← from_str_decimal 3 (lit "0.01"); r2 ← expect_ok r; r3 ← from_str_decimal 3 (lit "0.001"); r4 ← expect_ok r3;
  meta ← expect_ok (meta_new r2 r4); let mappings := (fun i => {| bm_symbol := lit "SYM";
  bm_instrument := inst_from_raw i; bm_meta := meta |}) <$> (seqZ 0 9) in
  result ← binance_new (D := 3) (source_from_raw 1) mappings; assert_eq (err_of result) (Some TooManySymbols).
Definition empty_mappings_errors : outcome unit :=
  let mappings := [] in result ← binance_new (D := 3) (source_from_raw 1) mappings;
  assert_eq (err_of result) (Some EmptyMappings).
Definition symbol_too_long_errors : outcome unit :=
  r ← from_str_decimal 3 (lit "0.01"); r2 ← expect_ok r; r3 ← from_str_decimal 3 (lit "0.001"); r4 ← expect_ok r3;
  meta ← expect_ok (meta_new r2 r4);
  result ← binance_new (D := 3) (source_from_raw 1) [{| bm_symbol := lit "ABCDEFGHIJKLMNOPQ";
  bm_instrument := inst_from_raw 1; bm_meta := meta |}]; assert_eq (err_of result) (Some SymbolTooLong).
End binance_decoder_tests.

(** * They pass *)

(** Every test of polymarket/src/market/decoder.rs above passes. *)
Lemma polymarket_decoder_tests_pass (profile : BuildProfile) : Forall (fun result => result = Ret tt)
  [decode_price_change_produces_book_delta; decode_book_produces_batch_with_last_in_batch;
   decode_trade_produces_trade_event; decode_skips_non_hot_types; decode_unknown_token_returns_zero;
   decode_malformed_returns_zero; seq_increments_across_calls; peek_type_extracts_value;
   peek_type_returns_none_for_missing; peek_type_returns_none_for_empty; decode_empty_returns_zero;
   decode_trade_no_side_defaults_to_bid; decode_trade_invalid_side_defaults_to_bid;
   decode_price_change_invalid_price_returns_zero; decode_price_change_invalid_size_returns_zero;
   decode_price_change_invalid_side_returns_zero; decode_book_empty_levels_returns_zero;
   decode_book_skips_invalid_price_level; peek_type_truncated_returns_none].
Proof. destruct profile; repeat constructor; vm_compute; reflexivity. Qed.

(** Every test of binance/src/decoder.rs above passes. *)
Lemma binance_decoder_tests_pass (profile : BuildProfile) : Forall (fun result => result = Ret tt)
  [decode_single_symbol; decode_multi_symbol_btc; decode_multi_symbol_eth; decode_unknown_symbol_returns_zero;
   decode_combined_stream_wrapper; decode_increments_seq; binance_decoder_decode_malformed_returns_zero;
   binance_decoder_decode_empty_returns_zero; too_many_symbols_errors; empty_mappings_errors; symbol_too_long_errors].
Proof. destruct profile; repeat constructor; vm_compute; reflexivity. Qed.
